(* ===== verification/_CoqProject ===== *)
-Q . S2P
Prelude.v
GoStd.v
FlagParse.v
Meta.v
ApiTypes.v
DeepCopy.v
KubeObjects.v
Samples.v
Effects.v
RefMachinery.v
Environment.v
PdnsClient.v
Sha256.v
Manifests.v
Workloads.v
Converge.v
ServerController.v
ClusterEnv.v
Provisioning.v
ZoneController.v
ZoneConvergence.v
RRSetController.v
RRSetConvergence.v
DnsdistManifests.v
DnsdistController.v
WellFormed.v
Requeue.v
Operator.v
