(* ===== verification/Prelude.v ===== *)
(** * aether-powerdns: a verification development

    aether-powerdns is a Kubernetes operator for PowerDNS. Four custom
    resources describe a deployment (api/v1alpha1): a PowerDNSServer (an
    authoritative server with its Postgres backend), Zones on it, RRSets in a
    Zone, and DNSDist tiers in front of servers. One reconciler per resource
    (internal/controller) converges the cluster, and for Zones and RRSets the
    HTTP API of PowerDNS (internal/pdnsclient), towards the declared state;
    the objects it writes are rendered by pure functions (internal/manifests,
    internal/cnpg).

    ** Files

    - [Prelude]: notations, tactics and lemmas on strings, lists and sorting.
    - [GoStd]: what the sources use of Go and its standard library: 32-bit
      wrap-around, errors with wrapping and errors.Is, maps with an iteration
      order, strings, strconv, sort, hex, %q, url.PathEscape, JSON values.
    - [FlagParse]: flag.Parse of the standard library, on a list of arguments.
    - [Meta], [KubeObjects]: object metadata, conditions and the Kubernetes
      objects, with the fields that the sources mention.
    - [ApiTypes]: the structs and constants of api/v1alpha1.
    - [DeepCopy]: zz_generated.deepcopy.go, over structs whose pointer, slice
      and map fields are locations of a heap.
    - [Samples]: the concrete resources of the witnesses.
    - [Effects]: programs over the operations a reconciler performs; the
      third-party functions the sources call, as the classes [Machinery] and
      [MachineryLaws]. [RefMachinery] is an instance of both.
    - [Environment]: programs against an environment with a state, and
      sequences of passes.
    - [PdnsClient]: internal/pdnsclient/client.go.
    - [Sha256], [Manifests], [Workloads], [DnsdistManifests]:
      internal/manifests (manifests.go, routes.go, networkpolicy.go,
      observability.go, dnsdist.go) and internal/cnpg/cnpg.go; SHA-256 of the
      standard library is computed, not assumed.
    - [Converge]: internal/controller converge.go, conditions.go and
      pdnsaccess.go, shared by the reconcilers.
    - [ServerController], [ZoneController], [RRSetController],
      [DnsdistController]: the four reconcilers, one definition per Go
      function under its Go name (a Go function whose name is taken here by a
      kind ends in an underscore, as in [ConfigMap_]).
    - [RRSetConvergence], [ZoneConvergence]: the RRSet reconciler against the
      record content of a PowerDNS server, and the Zone reconciler against
      its zones and keys, in the terms of the tests' in-memory server
      (internal/controller/pdnsfake_test.go).
    - [ClusterEnv]: the environment of a PowerDNSServer and its objects, of
      which only the operator makes any, and which parts of a pass leave what.
    - [Provisioning]: sequences of passes over a PowerDNSServer in a cluster
      that cooperates or not.
    - [WellFormed]: the validation rules of the API server for workloads and
      Services, and that what manifests renders obeys them.
    - [Requeue]: when the next pass over a resource runs.
    - [Operator]: cmd/operator/main.go, groupversion_info.go and the four
      SetupWithManager: scheme, indexes, watches, start-up, and the
      ClusterRole of config/rbac/rbac.yaml.

    ** How the program is modelled

    A reconciler is a value of type [prog]: a finite tree whose nodes are
    operations (get, create, update, delete or list Kubernetes objects, write
    a status, send an HTTP request, record an event, read random bytes) and
    whose branches are the answers. [wp p Q] says that Q holds of the trace
    and the result of p whatever is answered: every theorem about a
    reconciler quantifies over all behaviours of Kubernetes and of PowerDNS,
    errors, conflicts and concurrent changes between two operations included.
    A Go (value, error) pair is [res]; [if err != nil { return ..., err }] is
    try! or check!. Objects are values; where the program shares a map by
    reference (the additional Services of a tier) the map is in a store, and
    the deep copies, which are about sharing, are over a heap. Log lines are
    not modelled.

    Convergence and liveness need more than arbitrary answers: an
    [environment] is a relation that says which answers are possible in a
    state and what the state becomes. [cluster_env] keeps the PowerDNSServer
    and the objects that exist: a CNPG Cluster, Job, Deployment or Service is
    there only if the operator created it, and is finished (ready, succeeded,
    available, with an address) only if it, and the configuration, Secrets and
    database that its pods read, were there before the pass.
    [zone_env] keeps a zone of PowerDNS. Both have a flag that says whether
    the environment works; without it requests fail at any point, also after
    they were performed. [steps] are passes in a row, and executable handlers
    that refine the relations show that they are inhabited.

    What an RRSet means is read off its specification ([declares],
    [declared_TTL]) and what PowerDNS answers off its enabled records
    ([served]); the code's own comparison, which ignores the disabled flag, is
    related to them by [rrsetMatches_serves]. The theorems about RRSets name
    the one case in which it matters ([hidden_rrset]): the declared records
    are there, some of them disabled by someone else.

    [Machinery] holds the functions of client-go, apimachinery and
    controller-runtime that do not talk to the cluster; [MachineryLaws] is
    the documented behaviour that some theorems use: conditions are set by
    type, finalizers and owner references change nothing else, and
    RetryOnConflict runs its function again, some number of times, only after
    a conflict. Theorems that use the laws are instantiated at [RefMachinery]
    in their witnesses.

    No definition that models the program takes fuel: loops are structural
    recursions over the lists they range over, retries unfold to a number of
    attempts chosen by the library, and the type of programs is inductive, so
    every pass terminates. The case folding of JSON keys recurses on the
    length of the key. Six rounds of two cooperative passes in a row bring a
    server to Ready, one for the finalizer and one for each phase on the way,
    of which the first pass may have to create what the second one finds
    finished; one working pass converges a Zone.

    ** What is proved

    - Reconcilers. Who may reach PowerDNS and what is sent there: Zones
      ([ZoneController.zone_reconcile_guarded], [zone_dnssec_sessions]) and
      RRSets ([RRSetController.rrset_reconcile_guarded]); finalizers are
      released only when nothing is left behind ([zone_release_safe],
      [rrset_release_safe]); statuses are honest ([zone_status_consistent],
      [rrset_status_honest], [DnsdistController.dnsdist_status_honest]). An
      RRSet marked Ready is served from enabled records, a pass touches no
      other rrset and the pass after one that marked it Ready writes nothing
      ([RRSetConvergence]); of two rivals neither is applied
      ([rivals_both_rejected]). The phase machine of a
      server refines an abstract transition relation
      ([ServerController.server_phase_machine]) and writes only the objects
      of its phase ([server_writes_by_phase]). A tier is configured only with
      addresses of Ready backends ([dnsdist_reconcile_guarded]). Both
      validations accept exactly the declared well-formed specifications.
    - Progress. A server with a valid specification becomes Ready, with
      everything it consists of created, whatever fails in between
      ([Provisioning.server_becomes_ready]); a Zone is Ready
      only when PowerDNS holds what it declares, and one working pass gets it
      there, after which passes only read ([ZoneConvergence]); the RRSets of
      a zone converge together in any interleaving of their passes
      ([RRSetConvergence.rrsets_converge_together]). No pass waits for an
      event that need not come, nor longer than thirty seconds (servers and
      tiers) or five minutes ([Requeue.every_pass_scheduled]), and
      what a controller writes wakes it ([Operator.writes_wake_controller]).
    - The operator. Everything the reconcilers do is admitted by the
      ClusterRole, typed in the scheme and indexed
      ([Operator.operator_can_perform]); main starts with all controllers or
      exits with 0, 1 or 2 as its flags and its calls decide
      ([main_starts_complete]); objects of the cache and their deep
      copies share nothing ([DeepCopy.deep_copies_isolated]).
    - Shared helpers: converging a Service writes only when needed and keeps
      what others put on it ([Converge]); index keys agree with lookups.
    - Rendering: pdns.conf reads back as the managed settings followed by the
      accepted extra settings, which cannot override or inject anything; the
      rendered texts and hashes do not depend on map order; selectors,
      environment references and network policies are exact (they cover the
      pods of the schema Job too); a reader of dnsdist.conf finds exactly the
      backends with their addresses; workloads and Services pass the API
      server's validation ([WellFormed]).
    - Client: JSON round trips, classification of errors, idempotent delete.

    Some theorems state that the program falls short of its intent: the
    additional Services of a tier select no pod
    ([additional_services_select_nothing]), a server's garbage collection
    reaches those Services ([additional_collection_scopes]), a tier and a
    server can render objects of the same name ([dnsdist_names_disjoint]),
    the deletion of a Zone that was never admitted removes the zone of that
    name ([deletion_ignores_allow_list]), disabled records are not repaired
    ([disabled_records_not_repaired]), IPv6 backends are not told apart in
    dnsdist.conf ([ipv6_address_ambiguous]), and a referenced API key does
    not reach the pods ([api_key_env_fixed]).

    ** What is not modelled

    The libraries behind the sources: controller-runtime's manager, cache,
    queues and back-off (what a pass returns to them is modelled, and the
    liveness theorems assume that passes are run), client-go, net/http and
    the byte syntax of JSON and HTTP. The validation that the API server
    performs from the CRDs, apart from the rules stated in [WellFormed]. The
    deployment manifests other than the ClusterRole, log lines, and the Go
    tests other than the in-memory PowerDNS. Slices are whole arrays in
    [DeepCopy]: no source stores a part of one in a resource. *)

From stdpp Require Export base list strings gmap fin_maps sorting pretty.
From Stdlib Require Export ZArith Lia.
From Stdlib Require Import Ascii Sorted Permutation.

#[global] Set Default Goal Selector "!".

(** ** Notations *)

Declare Scope go_scope.
Delimit Scope go_scope with go.
Bind Scope go_scope with string.

Notation "s == t" := (bool_decide (s = t)) (at level 70) : go_scope.
Notation "s != t" := (negb (bool_decide (s = t))) (at level 70) : go_scope.

(** ** Strings as byte sequences *)

(** The bytes of a string. *)
Fixpoint chars (s : string) : list ascii :=
  match s with
  | EmptyString => []
  | String c s => c :: chars s
  end.

(** The string of a byte sequence. *)
Fixpoint of_chars (l : list ascii) : string :=
  match l with
  | [] => EmptyString
  | c :: l => String c (of_chars l)
  end.

(** Line feed, carriage return and the double quote, which no string literal of this library spells. *)
Definition LF : ascii := "010"%char.
Definition CR : ascii := "013"%char.
Definition NUL : ascii := "000"%char.
Definition nl : string := String LF EmptyString.
Definition DQ : ascii := "034"%char.
Definition dq : string := String DQ EmptyString.

Definition concat_str (l : list string) : string := foldr String.app EmptyString l.

(** ** Tactics shared by the development *)

(** Turn boolean tests in the context and the goal into propositions. *)
Ltac bool_prop :=
  repeat match goal with
  | H : bool_decide _ = true |- _ => apply bool_decide_eq_true_1 in H
  | H : bool_decide _ = false |- _ => apply bool_decide_eq_false_1 in H
  | H : (_ && _)%bool = true |- _ => apply andb_true_iff in H as [??]
  | H : (_ || _)%bool = false |- _ => apply orb_false_iff in H as [??]
  | H : negb _ = true |- _ => apply negb_true_iff in H
  | H : negb _ = false |- _ => apply negb_false_iff in H
  | H : (_ =? _)%Z = true |- _ => apply Z.eqb_eq in H
  | H : (_ =? _)%Z = false |- _ => apply Z.eqb_neq in H
  | H : (_ <? _)%Z = true |- _ => apply Z.ltb_lt in H
  | H : (_ <? _)%Z = false |- _ => apply Z.ltb_ge in H
  | H : (_ <=? _)%Z = true |- _ => apply Z.leb_le in H
  | H : (_ <=? _)%Z = false |- _ => apply Z.leb_gt in H
  end.

(** Destruct the scrutinee of the innermost match or conditional of the goal. *)
Ltac split_match :=
  match goal with
  | |- context [match ?x with _ => _ end] =>
      lazymatch x with
      | context [match _ with _ => _ end] => fail
      | _ => let E := fresh "E" in destruct x eqn:E
      end
  end.

Ltac split_match_in H :=
  match type of H with
  | context [match ?x with _ => _ end] =>
      lazymatch x with
      | context [match _ with _ => _ end] => fail
      | _ => let E := fresh "E" in destruct x eqn:E
      end
  end.

Create HintDb aether.
Create Rewrite HintDb aether.

(** ** Lemmas on strings *)

Lemma of_chars_chars s : of_chars (chars s) = s.
Proof. induction s as [|c s IH]; simpl; congruence. Qed.

Lemma chars_of_chars l : chars (of_chars l) = l.
Proof. induction l as [|c l IH]; simpl; congruence. Qed.

Lemma chars_inj s t : chars s = chars t -> s = t.
Proof. intros E. by rewrite <- (of_chars_chars s), E, of_chars_chars. Qed.

Lemma chars_app s t : chars (s +:+ t) = chars s ++ chars t.
Proof. induction s as [|c s IH]; [done|]. unfold String.app in *. simpl. by rewrite IH. Qed.

Lemma str_app_nil_l s : EmptyString +:+ s = s.
Proof. done. Qed.

Lemma str_app_nil_r s : s +:+ EmptyString = s.
Proof. apply chars_inj. by rewrite chars_app, app_nil_r. Qed.

Lemma str_app_assoc s t u : (s +:+ t) +:+ u = s +:+ (t +:+ u).
Proof. apply chars_inj. by rewrite !chars_app, app_assoc. Qed.

Lemma str_app_cons c s t : String c s +:+ t = String c (s +:+ t).
Proof. done. Qed.

Lemma str_app_inj_r s t u : s +:+ u = t +:+ u -> s = t.
Proof.
  intros E%(f_equal chars). rewrite !chars_app in E.
  by apply app_inv_tail, chars_inj in E.
Qed.

Lemma str_app_inj_l s t u : u +:+ s = u +:+ t -> s = t.
Proof.
  intros E%(f_equal chars). rewrite !chars_app in E.
  by apply app_inv_head, chars_inj in E.
Qed.

Lemma str_app_eq_nil s t : s +:+ t = EmptyString -> s = EmptyString /\ t = EmptyString.
Proof. destruct s; [done|]. by rewrite str_app_cons. Qed.

Lemma length_chars s : String.length s = length (chars s).
Proof. induction s; simpl; congruence. Qed.

(** A concatenation with the separator character splits in at most one way. *)
Lemma app_cons_split {A} (x : A) l1 l2 r1 r2 :
  x ∉ l1 -> x ∉ l2 -> l1 ++ x :: r1 = l2 ++ x :: r2 -> l1 = l2 /\ r1 = r2.
Proof.
  revert l2. induction l1 as [|a l1 IH]; intros [|b l2] H1 H2 E; simplify_eq/=.
  - done.
  - set_solver.
  - set_solver.
  - rewrite not_elem_of_cons in H1, H2. destruct H1, H2.
    destruct (IH l2) as [-> ->]; done.
Qed.

#[export] Hint Rewrite chars_app str_app_nil_r str_app_nil_l str_app_assoc : aether.

(** ** Lists *)

Lemma elem_of_rev {A} (x : A) l : x ∈ rev l <-> x ∈ l.
Proof. rewrite !list_elem_of_In. symmetry. apply List.in_rev. Qed.

Lemma NoDup_map_inj {A B} (g : A -> B) l a b :
  NoDup (map g l) -> a ∈ l -> b ∈ l -> g a = g b -> a = b.
Proof.
  induction l as [|x l IH]; simpl; [set_solver|].
  intros [Hx Hnd]%NoDup_cons Ha Hb E.
  apply elem_of_cons in Ha as [->|Ha], Hb as [->|Hb]; [done|..].
  - destruct Hx. rewrite E. by apply list_elem_of_fmap_2.
  - destruct Hx. rewrite <- E. by apply list_elem_of_fmap_2.
  - by apply IH.
Qed.

Lemma find_unique {A} (f : A -> bool) l a :
  a ∈ l -> f a = true -> (forall x, x ∈ l -> f x = true -> x = a) -> List.find f l = Some a.
Proof.
  intros Ha Hfa Hu. destruct (List.find f l) as [b|] eqn:E.
  - apply List.find_some in E as [Hb Hf]. apply list_elem_of_In in Hb. by rewrite (Hu b).
  - eapply List.find_none in E; [|by apply list_elem_of_In]. congruence.
Qed.

Lemma find_absent {A} (f : A -> bool) l : (forall x, x ∈ l -> f x = false) -> List.find f l = None.
Proof.
  intros Hu. destruct (List.find f l) as [b|] eqn:E; [|done].
  apply List.find_some in E as [Hb Hf]. apply list_elem_of_In in Hb. rewrite Hu in Hf; done.
Qed.

(** ** Sorted lists *)

(** Two sorted permutations of one another under an antisymmetric order are equal. *)
Lemma sorted_perm_unique {A} (R : A -> A -> Prop) `{!Transitive R, !AntiSymm (=) R} l1 l2 :
  Sorted R l1 -> Sorted R l2 -> l1 ≡ₚ l2 -> l1 = l2.
Proof. intros. by apply (Sorted_unique R). Qed.
