(* ===== verification/GoStd.v ===== *)
(** * The Go language and standard library, as far as the operator uses them

    Error values and their wrapping (package errors, fmt.Errorf with %w), the
    functions of package strings, sort, strconv, fmt and net/url that the
    sources call, slices that distinguish nil from empty, maps together with
    the order in which one `range` statement visits them, and 32-bit integers.
    Strings are byte sequences, as in Go. *)

From Stdlib Require Import Ascii Sorted Permutation.
From S2P Require Import Prelude.

Open Scope go_scope.
Open Scope stdpp_scope.
Open Scope Z_scope.

(** ** Errors *)

(** How the API machinery classifies the errors of the Kubernetes client. *)
Inductive k8s_reason := RNotFound | RConflict | RAlreadyExists | RNoMatch | ROther.

#[export] Instance k8s_reason_eq_dec : EqDecision k8s_reason.
Proof. solve_decision. Defined.

(** An error value: a sentinel made by errors.New and compared by identity, an
    error of the Kubernetes client, a plain text error, a value wrapped with
    one %w between two pieces of text, or one with two %w. *)
Inductive err :=
| ESentinel (msg : string)
| EKube (r : k8s_reason) (msg : string)
| EText (msg : string)
| EWrap (pre : string) (e : err) (post : string)
| EWrap2 (e1 : err) (sep : string) (e2 : err).

(** The Error method. *)
Fixpoint Error (e : err) : string :=
  match e with
  | ESentinel m | EKube _ m | EText m => m
  | EWrap pre e post => pre +:+ Error e +:+ post
  | EWrap2 e1 sep e2 => Error e1 +:+ sep +:+ Error e2
  end.

(** errors.Is for a sentinel: sentinels of this program have distinct texts. *)
Fixpoint errors_Is (e : err) (sentinel : string) : bool :=
  match e with
  | ESentinel m => bool_decide (m = sentinel)
  | EKube _ _ | EText _ => false
  | EWrap _ e _ => errors_Is e sentinel
  | EWrap2 e1 _ e2 => errors_Is e1 sentinel || errors_Is e2 sentinel
  end.

(** The classification predicates look through wrapping (errors.As). *)
Fixpoint kube_reason (e : err) : option k8s_reason :=
  match e with
  | ESentinel _ | EText _ => None
  | EKube r _ => Some r
  | EWrap _ e _ => kube_reason e
  | EWrap2 e1 _ e2 => match kube_reason e1 with Some r => Some r | None => kube_reason e2 end
  end.

Definition IsNotFound (e : err) : bool := bool_decide (kube_reason e = Some RNotFound).
Definition IsConflict (e : err) : bool := bool_decide (kube_reason e = Some RConflict).
Definition IsNoMatchError (e : err) : bool := bool_decide (kube_reason e = Some RNoMatch).

(** client.IgnoreNotFound on a Go error, nil being None. *)
Definition IgnoreNotFound (e : option err) : option err :=
  match e with
  | Some e' => if IsNotFound e' then None else e
  | None => None
  end.

(** A Go pair (value, error) of which exactly one is meaningful. *)
Inductive res (A : Type) := Ok (a : A) | Err (e : err).
Arguments Ok {A} a.
Arguments Err {A} e.

(** ** Slices and maps *)

(** A slice where the sources tell nil from empty. *)
Abbreviation slice A := (option (list A)).
Definition elems {A} (s : slice A) : list A := default [] s.

(** A Go map as the pairs in the order in which one range statement visits
    them; the order is arbitrary, the keys are distinct. *)
Abbreviation gomap V := (list (string * V)).

Definition map_keys {V} (m : gomap V) : list string := m.*1.
Definition map_get {V} (m : gomap V) (k : string) : option V :=
  snd <$> List.find (fun kv => bool_decide (kv.1 = k)) m.
Definition wf_map {V} (m : gomap V) : Prop := NoDup (map_keys m).

(** ** Integers *)

Definition wrap32 (z : Z) : Z := (z + 2 ^ 31) mod 2 ^ 32 - 2 ^ 31.
Definition in_int32 (z : Z) : Prop := - 2 ^ 31 <= z < 2 ^ 31.

(** %d of fmt and strconv.Itoa. *)
Definition itoa (z : Z) : string := pretty z.

(** ** encoding/json values

    A decoded JSON text; JFloat is a number that is not an integer literal. *)

#[warnings="-register-all"]
Inductive json :=
| JNull
| JBool (b : bool)
| JNum (n : Z)
| JFloat (text : string)
| JStr (s : string)
| JArr (l : list json)
| JObj (fields : list (string * json)).

(** ** Package strings *)

Definition HasPrefix (s pre : string) : bool := String.prefix pre s.

Fixpoint strip_prefix (p l : list ascii) : option (list ascii) :=
  match p, l with
  | [], _ => Some l
  | _ :: _, [] => None
  | a :: p, b :: l => if bool_decide (a = b) then strip_prefix p l else None
  end.

Definition HasSuffix (s suf : string) : bool :=
  match strip_prefix (rev (chars suf)) (rev (chars s)) with Some _ => true | None => false end.

Definition TrimSuffix (s suf : string) : string :=
  match strip_prefix (rev (chars suf)) (rev (chars s)) with
  | Some l => of_chars (rev l)
  | None => s
  end.

Fixpoint Contains (s sub : string) : bool :=
  String.prefix sub s || match s with EmptyString => false | String _ s' => Contains s' sub end.

(** strings.ContainsAny for a set of ASCII characters. *)
Definition ContainsAny (s : string) (set : list ascii) : bool :=
  existsb (fun c => existsb (fun d => bool_decide (c = d)) set) (chars s).

Fixpoint Join (l : list string) (sep : string) : string :=
  match l with
  | [] => EmptyString
  | [s] => s
  | s :: l => s +:+ sep +:+ Join l sep
  end.

Definition byte (n : nat) : ascii := ascii_of_nat n.

(** strings.ToLower restricted to the runes whose image is ASCII: A to Z, the
    Kelvin sign (E2 84 AA) and the dotted capital I (C4 B0). Other runes never
    map to ASCII, so a search for an ASCII text does not depend on them. *)
Fixpoint lower_chars (fuel : nat) (l : list ascii) : list ascii :=
  match fuel, l with
  | S fuel, c :: l' =>
      match strip_prefix [byte 226; byte 132; byte 170] l, strip_prefix [byte 196; byte 176] l with
      | Some r, _ => "k"%char :: lower_chars fuel r
      | None, Some r => "i"%char :: lower_chars fuel r
      | None, None =>
          let n := nat_of_ascii c in
          (if (65 <=? n)%nat && (n <=? 90)%nat then ascii_of_nat (n + 32) else c) :: lower_chars fuel l'
      end
  | _, _ => []
  end.
Definition ToLower (s : string) : string := of_chars (lower_chars (String.length s) (chars s)).

(** The encodings of the runes that unicode.IsSpace accepts. *)
Definition space_runes : list (list ascii) :=
  map (fun n => [byte n]) [9; 10; 11; 12; 13; 32]%nat
  ++ [[byte 194; byte 133]; [byte 194; byte 160]; [byte 225; byte 154; byte 128]]
  ++ map (fun n => [byte 226; byte 128; byte n])
         [128; 129; 130; 131; 132; 133; 134; 135; 136; 137; 138; 168; 169; 175]%nat
  ++ [[byte 226; byte 129; byte 159]; [byte 227; byte 128; byte 128]].

Fixpoint trim_chars (runes : list (list ascii)) (fuel : nat) (l : list ascii) : list ascii :=
  match fuel with
  | O => l
  | S fuel =>
      match List.find (fun p => match strip_prefix p l with Some _ => true | None => false end) runes with
      | Some p => trim_chars runes fuel (drop (length p) l)
      | None => l
      end
  end.
Definition TrimSpace (s : string) : string :=
  let l := chars s in
  let l := trim_chars space_runes (length l) l in
  of_chars (rev (trim_chars (map (@rev ascii) space_runes) (length l) (rev l))).

(** ** Formatting *)

Definition hex_digit (lower : bool) (n : nat) : ascii :=
  if (n <? 10)%nat then ascii_of_nat (48 + n) else ascii_of_nat ((if lower then 87 else 55) + n).
Definition hex_byte (lower : bool) (c : ascii) : string :=
  let n := nat_of_ascii c in
  String (hex_digit lower (n / 16)) (String (hex_digit lower (n mod 16)) EmptyString).

(** hex.EncodeToString. *)
Definition hex_EncodeToString (l : list ascii) : string := concat_str (map (hex_byte true) l).

(** %q, exact on ASCII; bytes from 0x80 on are copied. *)
Definition quote_char (c : ascii) : string :=
  let n := nat_of_ascii c in
  let bs := String "\"%char EmptyString in
  if (n =? 34)%nat then bs +:+ dq
  else if (n =? 92)%nat then bs +:+ bs
  else if (n =? 7)%nat then bs +:+ "a"
  else if (n =? 8)%nat then bs +:+ "b"
  else if (n =? 12)%nat then bs +:+ "f"
  else if (n =? 10)%nat then bs +:+ "n"
  else if (n =? 13)%nat then bs +:+ "r"
  else if (n =? 9)%nat then bs +:+ "t"
  else if (n =? 11)%nat then bs +:+ "v"
  else if (n <? 32)%nat || (n =? 127)%nat then bs +:+ "x" +:+ hex_byte true c
  else String c EmptyString.
Definition quote (s : string) : string := dq +:+ concat_str (map quote_char (chars s)) +:+ dq.

(** ** net/url.PathEscape *)

Definition is_alnum (c : ascii) : bool :=
  let n := nat_of_ascii c in
  ((48 <=? n)%nat && (n <=? 57)%nat) || ((65 <=? n)%nat && (n <=? 90)%nat) || ((97 <=? n)%nat && (n <=? 122)%nat).
Definition path_keeps (c : ascii) : bool :=
  is_alnum c || existsb (fun d => bool_decide (c = d))
    ["-"; "_"; "."; "~"; "$"; "&"; "+"; ":"; "="; "@"]%char.
Definition PathEscape (s : string) : string :=
  concat_str (map (fun c => if path_keeps c then String c EmptyString
                            else String "%"%char (hex_byte false c)) (chars s)).

(** ** sort.Strings *)

Definition sort_Strings (l : list string) : list string := merge_sort String.le l.

(** ** Lemmas *)

Lemma sort_Strings_perm l : sort_Strings l ≡ₚ l.
Proof. apply merge_sort_Permutation. Qed.

Lemma sort_Strings_sorted l : Sorted String.le (sort_Strings l).
Proof. apply Sorted_merge_sort. apply _. Qed.

(** The result depends only on the multiset of the elements. *)
Lemma sort_Strings_proper l1 l2 : l1 ≡ₚ l2 -> sort_Strings l1 = sort_Strings l2.
Proof.
  intros E. apply (sorted_perm_unique String.le); [apply sort_Strings_sorted..|].
  by rewrite !sort_Strings_perm.
Qed.

#[export] Instance sort_Strings_Proper : Proper ((≡ₚ) ==> (=)) sort_Strings.
Proof. intros l1 l2. apply sort_Strings_proper. Qed.

Lemma elem_of_sort_Strings x l : x ∈ sort_Strings l <-> x ∈ l.
Proof. by rewrite sort_Strings_perm. Qed.

Lemma map_get_Some {V} (m : gomap V) k v : wf_map m -> map_get m k = Some v <-> (k, v) ∈ m.
Proof.
  unfold map_get, wf_map, map_keys. induction m as [|[k' v'] m IH]; simpl.
  - set_solver.
  - intros [Hk Hnd]%NoDup_cons. case_bool_decide as E; simpl in *.
    + subst. split.
      * intros [= ->]. set_solver.
      * intros [[= ->]|Hin]%elem_of_cons; [done|].
        destruct Hk. apply list_elem_of_fmap. by exists (k, v).
    + rewrite (IH Hnd), elem_of_cons. naive_solver.
Qed.

Lemma wf_map_perm {V} (m1 m2 : gomap V) : m1 ≡ₚ m2 -> wf_map m1 -> wf_map m2.
Proof. unfold wf_map, map_keys. by intros ->. Qed.

(** Looking a key up does not depend on the visiting order. *)
Lemma map_get_perm {V} (m1 m2 : gomap V) k :
  m1 ≡ₚ m2 -> wf_map m1 -> map_get m1 k = map_get m2 k.
Proof.
  intros E Hwf. assert (Hwf2 : wf_map m2) by eauto using wf_map_perm.
  apply option_eq; intros v. rewrite !map_get_Some by done. by rewrite E.
Qed.

Lemma strip_prefix_Some p l r : strip_prefix p l = Some r <-> l = p ++ r.
Proof.
  revert l. induction p as [|a p IH]; intros [|b l]; simpl.
  - naive_solver.
  - naive_solver.
  - naive_solver.
  - case_bool_decide as E; [subst; rewrite IH; naive_solver|naive_solver].
Qed.

Lemma HasSuffix_spec s suf : HasSuffix s suf = true <-> exists p, s = p +:+ suf.
Proof.
  unfold HasSuffix. split.
  - destruct (strip_prefix _ _) as [r|] eqn:E; [intros _|done].
    apply strip_prefix_Some in E. exists (of_chars (rev r)). apply chars_inj.
    rewrite chars_app, chars_of_chars.
    apply (f_equal (@rev ascii)) in E. by rewrite rev_app_distr, !rev_involutive in E.
  - intros [p ->]. rewrite chars_app, rev_app_distr.
    destruct (strip_prefix _ _) eqn:E; [done|].
    assert (strip_prefix (rev (chars suf)) (rev (chars suf) ++ rev (chars p)) = Some (rev (chars p)))
      by by apply strip_prefix_Some.
    congruence.
Qed.

Lemma HasPrefix_spec s p : HasPrefix s p = true <-> exists r, s = p +:+ r.
Proof.
  unfold HasPrefix. revert s. induction p as [|a p IH]; intros s; simpl.
  - split; [by exists s|destruct s; done].
  - destruct s as [|b s]; simpl.
    + split; [done|]. intros [r [=]].
    + destruct (Ascii.ascii_dec a b) as [->|Hne].
      * rewrite IH. split; intros [r Hr]; exists r; [by subst|].
        rewrite str_app_cons in Hr. congruence.
      * split; [done|]. intros [r Hr]. rewrite str_app_cons in Hr. congruence.
Qed.

Lemma ContainsAny_false s set :
  ContainsAny s set = false <-> forall c, c ∈ set -> c ∉ chars s.
Proof.
  unfold ContainsAny. rewrite <- not_true_iff_false, existsb_exists.
  setoid_rewrite existsb_exists. setoid_rewrite <- list_elem_of_In. split.
  - intros H c Hc Hs. apply H. exists c. split; [done|]. exists c. split; [done|].
    by apply bool_decide_eq_true_2.
  - intros H (c & Hs & d & Hd & E). bool_prop. subst. by eapply H.
Qed.

Lemma wrap32_id z : in_int32 z -> wrap32 z = z.
Proof. unfold in_int32, wrap32. intros. rewrite Z.mod_small; lia. Qed.

Lemma wrap32_range z : in_int32 (wrap32 z).
Proof. unfold in_int32, wrap32. pose proof (Z.mod_pos_bound (z + 2 ^ 31) (2 ^ 32)). lia. Qed.

#[export] Hint Resolve sort_Strings_perm sort_Strings_sorted wrap32_range : aether.
