(* ===== verification/FlagParse.v ===== *)
(** * The standard library's flag package, as main uses it

    flag.Parse on the command line with the error handling ExitOnError: how an
    argument is read, and what a list of arguments does to the variables that
    the flags are bound to. *)

From Stdlib Require Import Ascii.
From S2P Require Import Prelude GoStd.

Open Scope stdpp_scope.

(** A flag: whether it may stand without a value (IsBoolFlag), and what its
    Set method does to the variables, or that it rejects the value. *)
Record Flag (A : Type) := { fl_IsBoolFlag : bool; fl_Set : string -> A -> option A }.
Arguments fl_IsBoolFlag {A}.
Arguments fl_Set {A}.

(** A flag.StringVar: every value is accepted. *)
Definition StringVar {A} (set : string -> A -> A) : Flag A :=
  {| fl_IsBoolFlag := false; fl_Set := fun v a => Some (set v a) |}.

(** The variables after Parse, or the request for the usage text (exit code
    0), or an error (exit code 2). *)
Inductive parse_result (A : Type) := Parsed (a : A) | Helped | BadFlag.
Arguments Parsed {A} a.
Arguments Helped {A}.
Arguments BadFlag {A}.

(** What an argument is: not a flag, which ends the parsing, malformed, or a
    flag with the value after its equals sign. *)
Inductive argument := NoFlag | Malformed | FlagArg (name : string) (value : option string).

Fixpoint cut_equals (l : list ascii) : list ascii * option (list ascii) :=
  match l with
  | [] => ([], None)
  | c :: l =>
      if bool_decide (c = "="%char) then ([], Some l)
      else let '(a, v) := cut_equals l in (c :: a, v)
  end.

(** The name and the value of a flag, the dashes removed; the first character
    of a name is not an equals sign. *)
Definition read_name (l : list ascii) : argument :=
  match l with
  | [] => Malformed
  | c :: l =>
      if bool_decide (c = "-"%char) || bool_decide (c = "="%char) then Malformed
      else let '(a, v) := cut_equals l in FlagArg (of_chars (c :: a)) (of_chars <$> v)
  end.

Definition read_arg (s : string) : argument :=
  match chars s with
  | c1 :: c2 :: l =>
      if negb (bool_decide (c1 = "-"%char)) then NoFlag
      else if bool_decide (c2 = "-"%char) then
        match l with [] => NoFlag | _ => read_name l end
      else read_name (c2 :: l)
  | _ => NoFlag
  end.

(** FlagSet.Parse with its parseOne. *)
Fixpoint Parse {A} (formal : string -> option (Flag A)) (args : list string) (a : A) : parse_result A :=
  match args with
  | [] => Parsed a
  | s :: args =>
      match read_arg s with
      | NoFlag => Parsed a
      | Malformed => BadFlag
      | FlagArg name value =>
          match formal name with
          | None => if (name == "help") || (name == "h") then Helped else BadFlag
          | Some fl =>
              match value with
              | Some v => match fl_Set fl v a with Some a => Parse formal args a | None => BadFlag end
              | None =>
                  if fl_IsBoolFlag fl then
                    match fl_Set fl "true" a with Some a => Parse formal args a | None => BadFlag end
                  else
                    match args with
                    | [] => BadFlag
                    | v :: args => match fl_Set fl v a with Some a => Parse formal args a | None => BadFlag end
                    end
              end
          end
      end
  end.

(** ** Writing a setting of a flag *)

(** One or two dashes, and the value in the same argument or the next. *)
Record Setting := { set_name : string; set_value : string; set_double : bool; set_inline : bool }.
Definition render_setting (s : Setting) : list string :=
  let p := (if set_double s then "--" else "-") +:+ set_name s in
  if set_inline s then [p +:+ "=" +:+ set_value s] else [p; set_value s].

(** A name that can be given on the command line. *)
Definition flag_name (s : string) : bool :=
  match chars s with
  | [] => false
  | c :: l => negb (bool_decide (c = "-"%char)) && negb (bool_decide (c = "="%char)) && forallb (fun c => negb (bool_decide (c = "="%char))) l
  end.

Lemma cut_equals_none l : forallb (fun c => negb (bool_decide (c = "="%char))) l = true -> cut_equals l = (l, None).
Proof.
  induction l as [|c l IH]; [done|]. simpl. intros [Hc Hl]%andb_true_iff. bool_prop.
  rewrite bool_decide_eq_false_2, (IH Hl) by done. done.
Qed.

Lemma cut_equals_some l v :
  forallb (fun c => negb (bool_decide (c = "="%char))) l = true -> cut_equals (l ++ "="%char :: v) = (l, Some v).
Proof.
  induction l as [|c l IH]; [done|]. simpl. intros [Hc Hl]%andb_true_iff. bool_prop.
  rewrite bool_decide_eq_false_2, (IH Hl) by done. done.
Qed.

Lemma read_name_flag n (v : option string) :
  flag_name n = true ->
  read_name (chars n ++ match v with Some v => "="%char :: chars v | None => [] end) = FlagArg n v.
Proof.
  unfold flag_name, read_name. destruct (chars n) as [|c l] eqn:En; [done|].
  intros [[H1 H2]%andb_true_iff Hl]%andb_true_iff. cbn [app]. bool_prop.
  rewrite !bool_decide_eq_false_2 by done. cbn [orb]. destruct v as [v|].
  - rewrite cut_equals_some by done. cbn iota beta. rewrite <- En, of_chars_chars. cbn. by rewrite of_chars_chars.
  - rewrite app_nil_r, cut_equals_none by done. cbn iota beta. by rewrite <- En, of_chars_chars.
Qed.

Lemma read_arg_flag (double : bool) n v :
  flag_name n = true ->
  read_arg (((if double then "--" else "-") +:+ n) +:+ match v with Some v => "=" +:+ v | None => "" end) = FlagArg n v.
Proof.
  intros Hn. pose proof (read_name_flag n v Hn) as E. unfold read_arg. rewrite !chars_app.
  replace (chars match v with Some v => "=" +:+ v | None => "" end)
    with (match v with Some v => "="%char :: chars v | None => [] end) by by destruct v.
  unfold flag_name in Hn. destruct (chars n) as [|c l]; [done|].
  apply andb_true_iff in Hn as [[Hc _]%andb_true_iff _]. apply negb_true_iff, bool_decide_eq_false in Hc.
  destruct double; cbn [chars app] in E |- *; (rewrite bool_decide_eq_true_2 by done; cbn [negb]).
  - exact E.
  - rewrite bool_decide_eq_false_2 by done. exact E.
Qed.

(** A setting of a flag that needs a value sets it to that value. *)
Lemma Parse_setting {A} formal (s : Setting) fl args (a : A) :
  flag_name (set_name s) = true -> formal (set_name s) = Some fl -> fl_IsBoolFlag fl = false ->
  Parse formal (render_setting s ++ args) a
  = match fl_Set fl (set_value s) a with Some a => Parse formal args a | None => BadFlag end.
Proof.
  intros Hn Hf Hb. unfold render_setting. destruct (set_inline s); cbn [app Parse].
  - pose proof (read_arg_flag (set_double s) (set_name s) (Some (set_value s)) Hn) as E. cbn iota beta in E. by rewrite E, Hf.
  - pose proof (read_arg_flag (set_double s) (set_name s) None Hn) as E.
    cbn iota beta in E. rewrite str_app_nil_r in E. by rewrite E, Hf, Hb.
Qed.
