(* ===== verification/Meta.v ===== *)
(** * Kubernetes API machinery data: object metadata, conditions, references

    The fields of metav1 and corev1 values that several components read or
    write. nil and empty label or annotation maps are one value, as they are
    for every comparison the sources make of them. *)

From Stdlib Require Import Ascii.
From S2P Require Import Prelude GoStd.

Open Scope stdpp_scope.
Open Scope Z_scope.

Abbreviation strmap := (gmap string string).

(** types.NamespacedName. *)
Record NamespacedName := NN { nn_Namespace : string; nn_Name : string }.

#[export] Instance NamespacedName_eq_dec : EqDecision NamespacedName.
Proof. solve_decision. Defined.
#[export] Instance NamespacedName_countable : Countable NamespacedName.
Proof.
  apply (inj_countable' (fun n => (nn_Namespace n, nn_Name n)) (fun p => NN p.1 p.2)). by intros [].
Defined.

(** NamespacedName.String, the text of the %s verb. *)
Definition nn_String (n : NamespacedName) : string := nn_Namespace n +:+ "/" +:+ nn_Name n.

Record OwnerReference := {
  or_Kind : string;
  or_Name : string;
  or_Controller : bool;
}.

(** metav1.ObjectMeta; a zero deletion timestamp is None. *)
Record ObjectMeta := {
  om_Name : string;
  om_Namespace : string;
  om_Labels : strmap;
  om_Annotations : strmap;
  om_Finalizers : list string;
  om_DeletionTimestamp : option Z;
  om_Generation : Z;
  om_OwnerReferences : list OwnerReference;
}.

Definition new_meta (name namespace : string) (labels : strmap) : ObjectMeta := {|
  om_Name := name; om_Namespace := namespace; om_Labels := labels; om_Annotations := ∅;
  om_Finalizers := []; om_DeletionTimestamp := None; om_Generation := 0; om_OwnerReferences := [];
|}.

Definition set_om_Labels (l : strmap) (m : ObjectMeta) : ObjectMeta := {|
  om_Name := om_Name m; om_Namespace := om_Namespace m; om_Labels := l;
  om_Annotations := om_Annotations m; om_Finalizers := om_Finalizers m;
  om_DeletionTimestamp := om_DeletionTimestamp m; om_Generation := om_Generation m;
  om_OwnerReferences := om_OwnerReferences m;
|}.
Definition set_om_Annotations (a : strmap) (m : ObjectMeta) : ObjectMeta := {|
  om_Name := om_Name m; om_Namespace := om_Namespace m; om_Labels := om_Labels m;
  om_Annotations := a; om_Finalizers := om_Finalizers m;
  om_DeletionTimestamp := om_DeletionTimestamp m; om_Generation := om_Generation m;
  om_OwnerReferences := om_OwnerReferences m;
|}.
Definition set_om_Finalizers (f : list string) (m : ObjectMeta) : ObjectMeta := {|
  om_Name := om_Name m; om_Namespace := om_Namespace m; om_Labels := om_Labels m;
  om_Annotations := om_Annotations m; om_Finalizers := f;
  om_DeletionTimestamp := om_DeletionTimestamp m; om_Generation := om_Generation m;
  om_OwnerReferences := om_OwnerReferences m;
|}.
Definition set_om_OwnerReferences (o : list OwnerReference) (m : ObjectMeta) : ObjectMeta := {|
  om_Name := om_Name m; om_Namespace := om_Namespace m; om_Labels := om_Labels m;
  om_Annotations := om_Annotations m; om_Finalizers := om_Finalizers m;
  om_DeletionTimestamp := om_DeletionTimestamp m; om_Generation := om_Generation m;
  om_OwnerReferences := o;
|}.

(** The key of an object: client.ObjectKeyFromObject. *)
Definition meta_key (m : ObjectMeta) : NamespacedName := NN (om_Namespace m) (om_Name m).

(** DeletionTimestamp.IsZero. *)
Definition deletion_IsZero (m : ObjectMeta) : bool :=
  match om_DeletionTimestamp m with None => true | Some _ => false end.

(** metav1.Condition; the status is True, False or Unknown. *)
Record Condition := {
  c_Type : string;
  c_Status : string;
  c_Reason : string;
  c_Message : string;
  c_ObservedGeneration : Z;
}.

#[export] Instance Condition_eq_dec : EqDecision Condition.
Proof. solve_decision. Defined.

Definition ConditionTrue : string := "True".
Definition ConditionFalse : string := "False".

(** The condition of a type, as consumers look it up. *)
Definition find_cond (t : string) (l : list Condition) : option Condition :=
  List.find (fun c => bool_decide (c_Type c = t)) l.

(** corev1 values that the specs carry through. *)
Record Toleration := {
  tol_Key : string;
  tol_Operator : string;
  tol_Value : string;
  tol_Effect : string;
}.

(** corev1.ResourceRequirements; quantities are their text. *)
Record ResourceRequirements := {
  rr_Requests : option strmap;
  rr_Limits : option strmap;
}.

(** <namespace>/<name> determines both when the namespace has no slash. *)
Lemma of_nn_String ns n ns' n' :
  ("/"%char ∉ chars ns) -> ("/"%char ∉ chars ns') ->
  ns +:+ "/" +:+ n = ns' +:+ "/" +:+ n' -> ns = ns' /\ n = n'.
Proof.
  intros H1 H2 E. apply (f_equal chars) in E. rewrite !chars_app in E. cbn [chars app] in E.
  apply app_cons_split in E as [E1 E2]; [|done..]. split; by apply chars_inj.
Qed.
