(* ===== verification/ApiTypes.v ===== *)
(** * api/v1alpha1: the custom resources

    The Go structs of PowerDNSServer, Zone, RRSet and DNSDist with their
    constants. A pointer field is an option; a slice is a list, except where a
    nil slice is told from an empty one; spec.extraSettings is a map with the
    order of its next range statement. *)

From S2P Require Import Prelude GoStd Meta.

Open Scope stdpp_scope.
Open Scope Z_scope.

(** ** Constants *)

Definition PhasePending : string := "Pending".
Definition PhaseProvisioningBackend : string := "ProvisioningBackend".
Definition PhaseInitializingSchema : string := "InitializingSchema".
Definition PhaseDeployingServer : string := "DeployingServer".
Definition PhaseExposingDNS : string := "ExposingDNS".
Definition PhaseReady : string := "Ready".
Definition PhaseFailed : string := "Failed".

Definition ConditionReady : string := "Ready".
Definition ConditionBackendProvisioned : string := "BackendProvisioned".
Definition ConditionSchemaApplied : string := "SchemaApplied".
Definition ConditionAvailable : string := "Available".

Definition BackendPostgres : string := "postgres".

Definition DNSExposureNone : string := "none".
Definition DNSExposureLoadBalancer : string := "loadBalancer".
Definition DNSExposureGateway : string := "gateway".

Definition DefaultImage : string := "powerdns/pdns-auth-51".

Definition ZoneKindNative : string := "Native".
Definition ZoneKindPrimary : string := "Primary".
Definition ZoneKindSecondary : string := "Secondary".

Definition DeletionPolicyDelete : string := "Delete".
Definition DeletionPolicyOrphan : string := "Orphan".

Definition ZonePhasePending : string := "Pending".
Definition ZonePhaseReady : string := "Ready".
Definition ZonePhaseFailed : string := "Failed".

Definition ConditionRegistered : string := "Registered".
Definition ConditionDNSSECReady : string := "DNSSECReady".
Definition ConditionBackendsReady : string := "BackendsReady".

Definition DefaultDNSDistImage : string := "powerdns/dnsdist-19".

(** ** PowerDNSServer *)

Record SchedulingSpec := {
  sch_NodeSelector : strmap;
  sch_Tolerations : list Toleration;
  sch_PriorityClassName : string;
  sch_SpreadAcrossZones : bool;
}.

Record PodMonitorSpec := {
  pms_Enabled : bool;
  pms_Interval : string;
  pms_Labels : strmap;
}.

Record ObservabilitySpec := { obs_PodMonitor : PodMonitorSpec }.

Record NetworkPolicySpec := {
  nps_Enabled : bool;
  nps_AdditionalAllowedAPINamespaces : list string;
}.

Record ZoneManagementSpec := { zms_AllowedNamespaces : list string }.

Record BYOPostgres := {
  byo_Host : string;
  byo_Port : Z;
  byo_Database : string;
  byo_CredentialsSecretRef : string;
  byo_SSLMode : string;
}.

Record PostgresBackendSpec := {
  pg_Instances : option Z;
  pg_StorageSize : string;
  pg_StorageClass : string;
  pg_BYO : option BYOPostgres;
}.

Record BackendSpec := {
  be_Type : string;
  be_Postgres : option PostgresBackendSpec;
}.

Record AdditionalLoadBalancerService := {
  als_NameSuffix : string;
  als_IP : string;
  als_Annotations : strmap;
  als_ExternalTrafficPolicy : string;
}.

Record DNSLoadBalancerSpec := {
  lb_IP : string;
  lb_Annotations : strmap;
  lb_ExternalTrafficPolicy : string;
  lb_AdditionalServices : list AdditionalLoadBalancerService;
}.

Record GatewayParentRef := {
  gpr_Group : string;
  gpr_Kind : string;
  gpr_Name : string;
  gpr_Namespace : string;
  gpr_TCPSectionName : string;
  gpr_UDPSectionName : string;
}.

Record DNSGatewaySpec := { dgw_ParentRefs : list GatewayParentRef }.

Record DNSSpec := {
  dns_Exposure : string;
  dns_LoadBalancer : option DNSLoadBalancerSpec;
  dns_Gateway : option DNSGatewaySpec;
}.

Record APIGatewayParentRef := {
  apr_Group : string;
  apr_Kind : string;
  apr_Name : string;
  apr_Namespace : string;
  apr_SectionName : string;
}.

Record APIGatewaySpec := {
  agw_Hostnames : list string;
  agw_ParentRefs : list APIGatewayParentRef;
}.

Record APISpec := {
  api_Port : Z;
  api_APIKeySecretRef : option string;
  api_Gateway : option APIGatewaySpec;
}.

Record PDBSpec := { pdb_MinAvailable : option Z }.

Record PowerDNSServerSpec := {
  ps_Replicas : option Z;
  ps_Image : string;
  ps_Resources : ResourceRequirements;
  ps_Backend : BackendSpec;
  ps_DNS : DNSSpec;
  ps_API : APISpec;
  ps_Scheduling : SchedulingSpec;
  ps_Observability : ObservabilitySpec;
  ps_NetworkPolicy : NetworkPolicySpec;
  ps_ZoneManagement : ZoneManagementSpec;
  ps_PodDisruptionBudget : option PDBSpec;
  ps_ExtraSettings : gomap string;
}.

Record PowerDNSServerStatus := {
  pst_Phase : string;
  pst_Ready : bool;
  pst_DNSEndpoint : string;
  pst_APIEndpoint : string;
  pst_APIKeySecretName : string;
  pst_BackendSecretName : string;
  pst_SchemaApplied : bool;
  pst_DesiredReplicas : Z;
  pst_ReadyReplicas : Z;
  pst_ConfigHash : string;
  pst_Conditions : list Condition;
  pst_FailureMessage : string;
}.

Record PowerDNSServer := {
  srv_Meta : ObjectMeta;
  srv_Spec : PowerDNSServerSpec;
  srv_Status : PowerDNSServerStatus;
}.

(** ** Zone *)

Record ObjectRef := { ref_Name : string; ref_Namespace : string }.

Record SOASpec := {
  soa_Hostmaster : string;
  soa_TTL : option Z;
}.

Record ZoneDNSSECSpec := { dnssec_Enabled : bool }.

Record ZoneSpec := {
  zs_ServerRef : ObjectRef;
  zs_ZoneName : string;
  zs_Kind : string;
  zs_Masters : slice string;
  zs_Nameservers : slice string;
  zs_SOA : option SOASpec;
  zs_DNSSEC : ZoneDNSSECSpec;
  zs_DeletionPolicy : string;
}.

Record ZoneStatus := {
  zst_Phase : string;
  zst_Serial : Z;
  zst_DSRecords : list string;
  zst_ObservedGeneration : Z;
  zst_Conditions : list Condition;
  zst_FailureMessage : string;
}.

Record Zone := {
  zn_Meta : ObjectMeta;
  zn_Spec : ZoneSpec;
  zn_Status : ZoneStatus;
}.

(** ** RRSet *)

Record RRSetSpec := {
  rs_ZoneRef : ObjectRef;
  rs_Name : string;
  rs_Type : string;
  rs_TTL : option Z;
  rs_Records : list string;
  rs_DeletionPolicy : string;
}.

Record RRSetStatus := {
  rst_ObservedGeneration : Z;
  rst_Conditions : list Condition;
  rst_FailureMessage : string;
}.

Record RRSet := {
  rr_Meta : ObjectMeta;
  rr_Spec : RRSetSpec;
  rr_Status : RRSetStatus;
}.

(** ** DNSDist *)

Record DNSDistCacheSpec := {
  cache_Enabled : option bool;
  cache_MaxEntries : option Z;
}.

Record DNSDistRateLimitSpec := { rl_QPSPerClient : Z }.

Record DNSDistTLSListener := {
  tls_Enabled : bool;
  tls_CertificateSecretRef : string;
}.

Record DNSDistTLSSpec := {
  tls_DoT : DNSDistTLSListener;
  tls_DoH : DNSDistTLSListener;
}.

Record DNSDistSpec := {
  ds_Replicas : option Z;
  ds_Image : string;
  ds_Resources : ResourceRequirements;
  ds_Scheduling : SchedulingSpec;
  ds_BackendRefs : list ObjectRef;
  ds_DNS : DNSSpec;
  ds_Cache : DNSDistCacheSpec;
  ds_RateLimit : DNSDistRateLimitSpec;
  ds_TLS : DNSDistTLSSpec;
  ds_PodDisruptionBudget : option PDBSpec;
}.

Record DNSDistStatus := {
  dst_Phase : string;
  dst_DNSEndpoint : string;
  dst_DesiredReplicas : Z;
  dst_ReadyReplicas : Z;
  dst_ObservedGeneration : Z;
  dst_Conditions : list Condition;
  dst_FailureMessage : string;
}.

Record DNSDist := {
  dd_Meta : ObjectMeta;
  dd_Spec : DNSDistSpec;
  dd_Status : DNSDistStatus;
}.

(** ** Field assignments

    Functional counterparts of the assignments to object fields that the
    controllers make. *)

Definition set_srv_Meta (m : ObjectMeta) (s : PowerDNSServer) : PowerDNSServer :=
  {| srv_Meta := m; srv_Spec := srv_Spec s; srv_Status := srv_Status s |}.
Definition set_srv_Status (st : PowerDNSServerStatus) (s : PowerDNSServer) : PowerDNSServer :=
  {| srv_Meta := srv_Meta s; srv_Spec := srv_Spec s; srv_Status := st |}.
Definition set_zn_Meta (m : ObjectMeta) (z : Zone) : Zone :=
  {| zn_Meta := m; zn_Spec := zn_Spec z; zn_Status := zn_Status z |}.
Definition set_zn_Status (st : ZoneStatus) (z : Zone) : Zone :=
  {| zn_Meta := zn_Meta z; zn_Spec := zn_Spec z; zn_Status := st |}.
Definition set_rr_Meta (m : ObjectMeta) (r : RRSet) : RRSet :=
  {| rr_Meta := m; rr_Spec := rr_Spec r; rr_Status := rr_Status r |}.
Definition set_rr_Status (st : RRSetStatus) (r : RRSet) : RRSet :=
  {| rr_Meta := rr_Meta r; rr_Spec := rr_Spec r; rr_Status := st |}.
Definition set_dd_Meta (m : ObjectMeta) (d : DNSDist) : DNSDist :=
  {| dd_Meta := m; dd_Spec := dd_Spec d; dd_Status := dd_Status d |}.
Definition set_dd_Status (st : DNSDistStatus) (d : DNSDist) : DNSDist :=
  {| dd_Meta := dd_Meta d; dd_Spec := dd_Spec d; dd_Status := st |}.
