(* ===== verification/DeepCopy.v ===== *)
(** * api/v1alpha1/zz_generated.deepcopy.go: copies that share nothing

    The client's cache hands out objects that it copied with DeepCopyObject,
    and the reconcilers write into them. Here values have references: a heap
    of cells, and structs whose pointer, slice and map fields are locations.
    Each DeepCopyInto is the list of its statements after *out = *in. The
    specification is that of a copy: an equal value, nothing of the original
    changed, and no location reachable from both.

    The methods of metav1 and corev1 types are parameters (class
    [ForeignTypes]); what is relied on is that they are such copies. A slice
    is the whole of its backing array, which is how the API server's decoder
    builds it. *)

From S2P Require Import Prelude GoStd.

Open Scope stdpp_scope.

(** ** Values with references *)

Abbreviation loc := nat.

Inductive gval :=
| VStr (s : string)
| VInt (z : Z)
| VBool (b : bool)
| VStruct (fields : list (string * gval))
| VPtr (l : option loc)
| VSlice (l : option loc)
| VMap (l : option loc).

(** A cell is the target of a pointer, an array or a map of strings. *)
Inductive cell :=
| Cell (v : gval)
| Arr (vs : list gval)
| StrMap (m : list (string * string)).

Abbreviation heap := (list cell).

Inductive ty :=
| TStr | TInt | TBool
| TStruct (fields : list (string * ty))
| TPtr (t : ty)
| TSlice (t : ty)
| TMap.

Section ty_ind.
Context (P : ty -> Prop) (Hstr : P TStr) (Hint : P TInt) (Hbool : P TBool)
  (Hstruct : forall fs, Forall (fun f => P f.2) fs -> P (TStruct fs))
  (Hptr : forall t, P t -> P (TPtr t)) (Hslice : forall t, P t -> P (TSlice t)) (Hmap : P TMap).

Fixpoint ty_fields_ind (t : ty) : P t :=
  match t with
  | TStr => Hstr
  | TInt => Hint
  | TBool => Hbool
  | TStruct fs =>
      Hstruct fs ((fix go fs : Forall (fun f => P f.2) fs :=
        match fs with
        | [] => Forall_nil_2 _
        | f :: fs => Forall_cons_2 _ f fs (ty_fields_ind f.2) (go fs)
        end) fs)
  | TPtr t => Hptr t (ty_fields_ind t)
  | TSlice t => Hslice t (ty_fields_ind t)
  | TMap => Hmap
  end.
End ty_ind.

(** What a value stands for, without locations. *)
Inductive tree :=
| RLeaf (v : gval)
| RStruct (fields : list (string * tree))
| RNil
| RPtr (x : tree)
| RArr (xs : list tree)
| RMap (m : list (string * string)).

Definition get_field (vs : list (string * gval)) (f : string) : option gval := map_get vs f.
Definition set_field (vs : list (string * gval)) (f : string) (v : gval) : list (string * gval) :=
  map (fun p => if p.1 == f then (f, v) else p) vs.

(** The meaning of a well-typed value, None for any other. *)
Fixpoint deref (t : ty) (h : heap) (v : gval) {struct t} : option tree :=
  match t, v with
  | TStr, VStr _ | TInt, VInt _ | TBool, VBool _ => Some (RLeaf v)
  | TStruct fs, VStruct vs =>
      RStruct <$> (fix go fs := match fs with
        | [] => Some []
        | (f, t) :: fs => x ← (v ← get_field vs f; deref t h v); xs ← go fs; Some ((f, x) :: xs)
        end) fs
  | TPtr _, VPtr None | TSlice _, VSlice None | TMap, VMap None => Some RNil
  | TPtr t, VPtr (Some l) => match h !! l with Some (Cell v) => RPtr <$> deref t h v | _ => None end
  | TSlice t, VSlice (Some l) => match h !! l with Some (Arr vs) => RArr <$> mapM (deref t h) vs | _ => None end
  | TMap, VMap (Some l) => match h !! l with Some (StrMap m) => Some (RMap m) | _ => None end
  | _, _ => None
  end.

(** The locations that a value reaches. *)
Fixpoint reach (t : ty) (h : heap) (v : gval) {struct t} : list loc :=
  match t, v with
  | TStruct fs, VStruct vs =>
      (fix go fs := match fs with
        | [] => []
        | (f, t) :: fs => match get_field vs f with Some v => reach t h v | None => [] end ++ go fs
        end) fs
  | TPtr t, VPtr (Some l) => l :: match h !! l with Some (Cell v) => reach t h v | _ => [] end
  | TSlice t, VSlice (Some l) => l :: match h !! l with Some (Arr vs) => flat_map (reach t h) vs | _ => [] end
  | TMap, VMap (Some l) => [l]
  | _, _ => []
  end.

(** A type without references. *)
Fixpoint flat (t : ty) : bool :=
  match t with
  | TStr | TInt | TBool => true
  | TStruct fs => (fix go fs := match fs with [] => true | (_, t) :: fs => flat t && go fs end) fs
  | TPtr _ | TSlice _ | TMap => false
  end.

(** ** DeepCopyInto *)

(** *out as a function of *in. *)
Abbreviation copier := (gval -> heap -> option (gval * heap)).

Definition new_cell (c : cell) (h : heap) : loc * heap := (length h, h ++ [c]).

(** out.F = in.F. *)
Definition plain : copier := fun v h => Some (v, h).

(** if in.F != nil { out.F = new(T); ... }, with the copy of the target. *)
Definition new_ptr (c : copier) : copier := fun v h =>
  match v with
  | VPtr None => Some (v, h)
  | VPtr (Some l) =>
      match h !! l with
      | Some (Cell w) => '(w', h) ← c w h; let '(l', h) := new_cell (Cell w') h in Some (VPtr (Some l'), h)
      | _ => None
      end
  | _ => None
  end.

Fixpoint copy_all (c : copier) (vs : list gval) (h : heap) : option (list gval * heap) :=
  match vs with
  | [] => Some ([], h)
  | v :: vs => '(v', h) ← c v h; '(vs', h) ← copy_all c vs h; Some (v' :: vs', h)
  end.

(** if in.F != nil { l := make([]T, len(in.F)); ...; out.F = l }, with the
    copies of the elements. *)
Definition make_slice (c : copier) : copier := fun v h =>
  match v with
  | VSlice None => Some (v, h)
  | VSlice (Some l) =>
      match h !! l with
      | Some (Arr vs) => '(vs', h) ← copy_all c vs h; let '(l', h) := new_cell (Arr vs') h in Some (VSlice (Some l'), h)
      | _ => None
      end
  | _ => None
  end.

(** if in.F != nil { m := make(map[string]string); ...; out.F = m }. *)
Definition make_map : copier := fun v h =>
  match v with
  | VMap None => Some (v, h)
  | VMap (Some l) =>
      match h !! l with
      | Some (StrMap m) => let '(l', h) := new_cell (StrMap m) h in Some (VMap (Some l'), h)
      | _ => None
      end
  | _ => None
  end.

(** The statements of a DeepCopyInto, each about one field, after *out = *in. *)
Fixpoint statements (l : list (string * copier)) (vin vout : list (string * gval)) (h : heap) :
    option (list (string * gval) * heap) :=
  match l with
  | [] => Some (vout, h)
  | (f, c) :: l => v ← get_field vin f; '(v', h) ← c v h; statements l vin (set_field vout f v') h
  end.
Definition copy_of (l : list (string * copier)) : copier := fun v h =>
  match v with
  | VStruct vs => '(vs', h) ← statements l vs vs h; Some (VStruct vs', h)
  | _ => None
  end.

(** DeepCopy: nil for nil, otherwise a pointer to a new copy; DeepCopyObject
    gives the interface value nil for nil. *)
Definition DeepCopy (c : copier) : copier := new_ptr c.
Definition DeepCopyObject (c : copier) (v : gval) (h : heap) : option (option gval * heap) :=
  '(v', h) ← DeepCopy c v h; Some (match v' with VPtr None => None | _ => Some v' end, h).

(** ** What a copy is *)

Definition fresh_from (n : nat) (l : list loc) : Prop := Forall (fun x => (n <= x)%nat) l.

(** The copier of a type copies every well-typed value: the heap is only
    extended, the result means the same and reaches new locations only. *)
Definition copies (t : ty) (c : copier) : Prop := forall h v x, deref t h v = Some x ->
  exists v' new, c v h = Some (v', h ++ new) /\ deref t (h ++ new) v' = Some x /\ fresh_from (length h) (reach t (h ++ new) v').

(** ** Meaning and reach *)

#[local] Instance RStruct_inj : Inj (=) (=) RStruct.
Proof. by intros ? ? [= ->]. Qed.
#[local] Instance RArr_inj : Inj (=) (=) RArr.
Proof. by intros ? ? [= ->]. Qed.

Lemma deref_struct fs h vs x :
  deref (TStruct fs) h (VStruct vs) = Some x <->
  exists xs, x = RStruct xs
    /\ Forall2 (fun f y => f.1 = y.1 /\ exists v, get_field vs f.1 = Some v /\ deref f.2 h v = Some y.2) fs xs.
Proof.
  simpl. revert x. induction fs as [|[f t] fs IH]; intros x.
  - split; [intros [= <-]; exists []; split; [done|constructor]|]. intros (xs & -> & Hxs). by inversion Hxs.
  - split.
    + intros E. destruct (get_field vs f) as [v|] eqn:Ev; [|done]. simpl in E.
      destruct (deref t h v) as [y|] eqn:Ey; [|done]. simpl in E.
      apply fmap_Some in E as (l & E & ->). apply bind_Some in E as (ys & E & [= <-]).
      destruct (proj1 (IH (RStruct ys))) as (zs & [= <-] & Hzs); [by rewrite E|].
      exists ((f, y) :: ys). split; [done|]. constructor; [by eauto|done].
    + intros (xs & -> & Hxs). inversion Hxs as [|? [g y] ? ys (E1 & v & Ev & Ey) Hys]; subst. simpl in *. subst g.
      rewrite Ev. simpl. rewrite Ey. simpl.
      assert (E : RStruct <$> _ = Some (RStruct ys)) by (apply IH; eauto).
      apply fmap_Some in E as (zs & -> & [= <-]). done.
Qed.

Lemma reach_struct fs h vs l :
  l ∈ reach (TStruct fs) h (VStruct vs) <->
  exists f t v, (f, t) ∈ fs /\ get_field vs f = Some v /\ l ∈ reach t h v.
Proof.
  simpl. induction fs as [|[f t] fs IH]; [split; [by intros ?%elem_of_nil|by intros (? & ? & ? & ?%elem_of_nil & _)]|].
  rewrite elem_of_app, IH. split.
  - intros [H|(g & u & v & Hin & Hv & Hl)].
    + destruct (get_field vs f) as [v|] eqn:Ev; [|by apply elem_of_nil in H]. exists f, t, v. by split; [left|].
    + exists g, u, v. by split; [right|].
  - intros (g & u & v & [[= -> ->]|Hin]%elem_of_cons & Hv & Hl); [left; by rewrite Hv|right; eauto 6].
Qed.

(** Only what is reached matters. *)
Lemma deref_agree t h h2 v :
  (forall l, l ∈ reach t h v -> h2 !! l = h !! l) -> deref t h2 v = deref t h v /\ reach t h2 v = reach t h v.
Proof.
  revert v. induction t as [| | |fs IH|t IH|t IH|] using ty_fields_ind; intros v Hl; try done.
  - destruct v as [| | |vs|?|?|?]; try done. assert (Hf : forall f t v, (f, t) ∈ fs -> get_field vs f = Some v ->
      deref t h2 v = deref t h v /\ reach t h2 v = reach t h v).
    { intros f t v Hin Hv. rewrite Forall_forall in IH. apply (IH (f, t) Hin). intros l Hr.
      apply Hl, reach_struct. eauto 6. }
    clear IH Hl. simpl. induction fs as [|[f t] fs IHf]; [done|]. destruct IHf as [E1 E2].
    { intros g u w Hin. apply Hf. by right. }
    destruct (get_field vs f) as [v|] eqn:Ev; simpl.
    + destruct (Hf f t v) as [-> ->]; [by left|done|]. rewrite E2. split; [|done].
      destruct (deref t h v); [|done]. simpl. apply (inj (fmap RStruct)) in E1. by rewrite E1.
    + by rewrite E2.
  - destruct v as [| | | |[l|]|?|?]; try done. simpl in *. rewrite (Hl l) by left.
    destruct (h !! l) as [[w| |]|]; try done. destruct (IH w) as [-> ->]; [|done]. intros k Hk. apply Hl. by right.
  - destruct v as [| | | |?|[l|]|?]; try done. simpl in *. rewrite (Hl l) by left.
    destruct (h !! l) as [[|vs|]|]; try done.
    assert (Hv : Forall (fun w => deref t h2 w = deref t h w /\ reach t h2 w = reach t h w) vs).
    { apply Forall_forall. intros w Hw. apply IH. intros k Hk. apply Hl. right. apply list_elem_of_In, in_flat_map.
      exists w. by rewrite <- !list_elem_of_In. }
    clear Hl. induction Hv as [|w vs [E1 E2] _ [E3 E4]]; [done|]. simpl in *. rewrite E1, E2.
    injection E4 as E4. rewrite E4. split; [|done]. destruct (deref t h w); [|done]. simpl.
    apply (inj (fmap RArr)) in E3. by rewrite E3.
  - destruct v as [| | | |?|?|[l|]]; try done. simpl in *. by rewrite (Hl l) by left.
Qed.

(** A well-typed value reaches allocated cells. *)
Lemma reach_bound t h v x l : deref t h v = Some x -> l ∈ reach t h v -> (l < length h)%nat.
Proof.
  revert v x. induction t as [| | |fs IH|t IH|t IH|] using ty_fields_ind; intros v x Hd Hl; try by apply elem_of_nil in Hl.
  - destruct v as [| | |vs|?|?|?]; try done. apply deref_struct in Hd as (xs & -> & Hxs).
    apply reach_struct in Hl as (f & t & v & Hin & Hv & Hl). rewrite Forall_forall in IH. specialize (IH (f, t) Hin).
    apply list_elem_of_lookup in Hin as [i Hi]. destruct (Forall2_lookup_l _ _ _ _ _ Hxs Hi) as (y & _ & _ & w & Hw & Hy).
    simpl in *. assert (w = v) as -> by congruence. by eapply IH.
  - destruct v as [| | | |[k|]|?|?]; try done; [|by apply elem_of_nil in Hl]. simpl in Hd, Hl.
    destruct (h !! k) as [[w| |]|] eqn:Ek; try done. apply elem_of_cons in Hl as [->|Hl].
    + by eapply lookup_lt_Some.
    + apply fmap_Some in Hd as (y & Hy & _). by eapply IH.
  - destruct v as [| | | |?|[k|]|?]; try done; [|by apply elem_of_nil in Hl]. simpl in Hd, Hl.
    destruct (h !! k) as [[|vs|]|] eqn:Ek; try done. apply elem_of_cons in Hl as [->|Hl].
    + by eapply lookup_lt_Some.
    + apply fmap_Some in Hd as (ys & Hys & _). apply mapM_Some in Hys.
      apply list_elem_of_In, in_flat_map in Hl as (w & Hw & Hl). apply list_elem_of_In in Hw, Hl.
      apply list_elem_of_lookup in Hw as [i Hi]. destruct (Forall2_lookup_l _ _ _ _ _ Hys Hi) as (y & _ & Hy). by eapply IH.
  - destruct v as [| | | |?|?|[k|]]; try done; [|by apply elem_of_nil in Hl]. simpl in Hd, Hl.
    apply list_elem_of_singleton in Hl as ->. destruct (h !! k) eqn:Ek; [|done]. by eapply lookup_lt_Some.
Qed.

Lemma deref_app t h new v x :
  deref t h v = Some x -> deref t (h ++ new) v = Some x /\ reach t (h ++ new) v = reach t h v.
Proof.
  intros Hd. rewrite <- Hd. apply deref_agree. intros l Hl. apply lookup_app_l. by eapply reach_bound.
Qed.

Lemma flat_reach t h v : flat t = true -> reach t h v = [].
Proof.
  revert v. induction t as [| | |fs IH|t IH|t IH|] using ty_fields_ind; intros v Hf; try done.
  destruct v as [| | |vs|?|?|?]; try done. simpl in *. induction IH as [|[f t] fs Ht _ IHf]; [done|].
  apply andb_true_iff in Hf as [Hf1 Hf2]. simpl in *. destruct (get_field vs f); [rewrite Ht by done|]; by apply IHf.
Qed.

(** ** The combinators copy *)

Lemma fresh_weaken n m l : (n <= m)%nat -> fresh_from m l -> fresh_from n l.
Proof. intros Hn Hl. eapply Forall_impl; [exact Hl|]. simpl. lia. Qed.

(** A copied value is kept by later allocations. *)
Lemma copied_app t h new v x n :
  deref t h v = Some x /\ fresh_from n (reach t h v) ->
  deref t (h ++ new) v = Some x /\ fresh_from n (reach t (h ++ new) v).
Proof. intros [Hd Hf]. destruct (deref_app t h new v x Hd) as [Hd' Hr]. split; [done|]. by rewrite Hr. Qed.

Lemma copies_plain t : flat t = true -> copies t plain.
Proof.
  intros Hf h v x Hd. exists v, []. rewrite app_nil_r. split_and!; [done..|]. rewrite flat_reach by done. constructor.
Qed.

Lemma lookup_new_cell {A} (h : list A) new c : (h ++ (new ++ [c])) !! length (h ++ new) = Some c.
Proof. rewrite app_assoc. by apply list_lookup_middle. Qed.

Lemma copies_new_ptr t c : copies t c -> copies (TPtr t) (new_ptr c).
Proof.
  intros Hc h v x Hd. destruct v as [| | | |[l|]|?|?]; try done.
  - simpl in *. destruct (h !! l) as [[w| |]|]; try done. apply fmap_Some in Hd as (y & Hy & ->).
    destruct (Hc h w y Hy) as (w' & new & -> & Hw). simpl. eexists _, (new ++ [Cell w']). rewrite app_assoc. split; [done|].
    apply (copied_app _ _ [Cell w']) in Hw as [Hd' Hf]. rewrite <- app_assoc in *. simpl.
    rewrite lookup_new_cell. split; [by rewrite Hd'|]. constructor; [rewrite length_app; lia|done].
  - exists (VPtr None), []. rewrite app_nil_r. split_and!; [done..|constructor].
Qed.

Lemma copy_all_copies t c vs h xs :
  copies t c -> mapM (deref t h) vs = Some xs ->
  exists vs' new, copy_all c vs h = Some (vs', h ++ new)
    /\ mapM (deref t (h ++ new)) vs' = Some xs /\ fresh_from (length h) (flat_map (reach t (h ++ new)) vs').
Proof.
  intros Hc. rewrite mapM_Some. intros HF. revert h xs HF. induction vs as [|v vs IH]; intros h xs HF; inversion HF as [|? x ? ys Hx Hxs]; subst.
  - exists [], []. rewrite app_nil_r. split_and!; [done..|constructor].
  - simpl. destruct (Hc h v x Hx) as (v' & new & -> & Hv). simpl.
    destruct (IH (h ++ new) ys) as (vs' & new' & -> & Hd & Hf).
    { eapply Forall2_impl; [exact Hxs|]. intros w y Hy. by apply (deref_app t h new w y). }
    simpl. exists (v' :: vs'), (new ++ new'). rewrite !app_assoc in *. split; [done|].
    apply (copied_app _ _ new') in Hv as [Hd' Hf']. simpl. rewrite Hd'. simpl. rewrite Hd. split; [done|].
    apply Forall_app. split; [done|]. eapply fresh_weaken; [|done]. rewrite length_app. lia.
Qed.

Lemma copies_make_slice t c : copies t c -> copies (TSlice t) (make_slice c).
Proof.
  intros Hc h v x Hd. destruct v as [| | | |?|[l|]|?]; try done.
  - simpl in *. destruct (h !! l) as [[|vs|]|]; try done. apply fmap_Some in Hd as (xs & Hxs & ->).
    destruct (copy_all_copies t c vs h xs Hc Hxs) as (vs' & new & -> & Hd & Hf). simpl.
    eexists _, (new ++ [Arr vs']). rewrite app_assoc. split; [done|].
    rewrite <- app_assoc. simpl. rewrite lookup_new_cell, app_assoc.
    assert (Hall : mapM (deref t ((h ++ new) ++ [Arr vs'])) vs' = Some xs
                   /\ flat_map (reach t ((h ++ new) ++ [Arr vs'])) vs' = flat_map (reach t (h ++ new)) vs').
    { apply mapM_Some in Hd. split.
      - apply mapM_Some. eapply Forall2_impl; [exact Hd|]. intros w y Hy. by apply (deref_app t _ [Arr vs'] w y).
      - clear Hf Hxs. generalize (Arr vs') as a. intros a. induction Hd as [|w y ws ys Hy _ IHw]; [done|]. simpl.
        by rewrite (proj2 (deref_app t _ [a] w y Hy)), IHw. }
    destruct Hall as [-> ->]. split; [done|]. constructor; [rewrite length_app; lia|done].
  - exists (VSlice None), []. rewrite app_nil_r. split_and!; [done..|constructor].
Qed.

Lemma copies_make_map : copies TMap make_map.
Proof.
  intros h v x Hd. destruct v as [| | | |?|?|[l|]]; try done.
  - simpl in *. destruct (h !! l) as [[| |m]|]; try done. simplify_eq. eexists _, [StrMap m]. split; [done|].
    simpl. rewrite list_lookup_middle by done. split; [done|]. by constructor.
  - exists (VMap None), []. rewrite app_nil_r. split_and!; [done..|constructor].
Qed.

Lemma get_set_same vs f v w : get_field vs f = Some w -> get_field (set_field vs f v) f = Some v.
Proof.
  unfold get_field, set_field, map_get. induction vs as [|[g u] vs IH]; [done|]. simpl.
  destruct (g == f) eqn:E; simpl; [by rewrite bool_decide_eq_true_2|]. rewrite E. apply IH.
Qed.
Lemma get_set_other vs f g v : g <> f -> get_field (set_field vs f v) g = get_field vs g.
Proof.
  intros Hne. unfold get_field, set_field, map_get. induction vs as [|[k u] vs IH]; [done|]. simpl.
  destruct (k == f) eqn:E; simpl; bool_prop.
  - subst. rewrite !(bool_decide_eq_false_2 (f = g)) by congruence. apply IH.
  - destruct (k == g); [done|]. apply IH.
Qed.

(** A field of the input is well-typed; a field of the output holds a copy. *)
Definition typed_field (h : heap) (vs : list (string * gval)) (f : string) (t : ty) (x : tree) : Prop :=
  exists v, get_field vs f = Some v /\ deref t h v = Some x.
Definition copied_field (n : nat) (h : heap) (vs : list (string * gval)) (f : string) (t : ty) (x : tree) : Prop :=
  exists v, get_field vs f = Some v /\ deref t h v = Some x /\ fresh_from n (reach t h v).

(** Running the statements copies their fields and keeps the others. *)
Lemma statements_copy (P : string -> ty -> tree -> Prop) l n vin vout h :
  (n <= length h)%nat ->
  (forall f t x, P f t x -> typed_field h vin f t x /\ is_Some (get_field vout f)) ->
  (forall f t x, P f t x -> f ∉ map fst l -> copied_field n h vout f t x) ->
  Forall (fun s => (exists t x, P s.1 t x) /\ forall t x, P s.1 t x -> copies t s.2) l ->
  exists vout' new, statements l vin vout h = Some (vout', h ++ new)
    /\ forall f t x, P f t x -> copied_field n (h ++ new) vout' f t x.
Proof.
  intros Hn Htyped Hdone Hl. revert vout h Hn Htyped Hdone. induction Hl as [|[f c] l [(t & x & Hf) Hc] _ IH];
    intros vout h Hn Htyped Hdone.
  - exists vout, []. rewrite app_nil_r. split; [done|]. intros f t x HP. apply Hdone; [done|]. apply not_elem_of_nil.
  - destruct (Htyped f t x Hf) as [(v & Hv & Hd) [w Hw]]. simpl in *. rewrite Hv. simpl.
    destruct (Hc t x Hf h v x Hd) as (v' & new & E & _). rewrite E. simpl.
    destruct (IH (set_field vout f v') (h ++ new)) as (vout' & new' & -> & Hall).
    + rewrite length_app. lia.
    + intros g u y HP. destruct (Htyped g u y HP) as [(v1 & Hv1 & Hd1) Hs]. split.
      * exists v1. split; [done|]. by apply deref_app.
      * destruct (decide (g = f)) as [->|Hne]; [by rewrite (get_set_same _ _ _ _ Hw)|by rewrite get_set_other].
    + intros g u y HP Hg. destruct (decide (g = f)) as [->|Hne].
      * exists v'. split; [by eapply get_set_same|]. destruct (Htyped f u y HP) as [(v1 & Hv1 & Hd1) _].
        assert (v1 = v) as -> by congruence. destruct (Hc u y HP h v y Hd1) as (v2 & new2 & E2 & Hd2 & Hf2).
        rewrite E in E2. injection E2 as <- <-%app_inv_head. split; [done|]. by eapply fresh_weaken.
      * destruct (Hdone g u y HP) as (v1 & Hv1 & Hcp); [by apply not_elem_of_cons|]. exists v1.
        split; [by rewrite get_set_other|]. by apply copied_app.
    + exists vout', (new ++ new'). by rewrite app_assoc.
Qed.

(** A DeepCopyInto copies when each field that its statements copy has a type
    that they copy, and every other field has no references. *)
Lemma copies_struct fs l :
  Forall (fun s => s.1 ∈ map fst fs) l ->
  Forall (fun f => (f.1 ∉ map fst l -> flat f.2 = true) /\ Forall (fun s => s.1 = f.1 -> copies f.2 s.2) l) fs ->
  copies (TStruct fs) (copy_of l).
Proof.
  intros Hnames Hfs h v x Hd. destruct v as [| | |vs|?|?|?]; try done. apply deref_struct in Hd as (xs & -> & Hxs).
  set (P f t y := (f, t) ∈ fs /\ typed_field h vs f t y).
  destruct (statements_copy P l (length h) vs vs h) as (vs' & new & E & Hall); [done|..].
  - intros f t y [_ Hf]. split; [done|]. destruct Hf as (v & -> & _). done.
  - intros f t y [Hin (v & Hv & Hd)] Hf. exists v. split; [done|]. split; [done|].
    rewrite Forall_forall in Hfs. rewrite flat_reach by by apply (Hfs (f, t) Hin). constructor.
  - apply Forall_forall. intros [f c] Hin. rewrite Forall_forall in Hnames. specialize (Hnames _ Hin). simpl in *. split.
    + apply list_elem_of_fmap in Hnames as ([g t] & -> & Hg). apply list_elem_of_lookup in Hg as Hi. destruct Hi as [i Hi].
      destruct (Forall2_lookup_l _ _ _ _ _ Hxs Hi) as ([k y] & _ & _ & v & Hv & Hd). exists t, y. split; [done|]. by exists v.
    + intros t y [Hg _]. rewrite Forall_forall in Hfs. destruct (Hfs (f, t) Hg) as [_ Hc].
      rewrite Forall_forall in Hc. by apply (Hc (f, c) Hin).
  - simpl. rewrite E. simpl. exists (VStruct vs'), new. split; [done|].
    assert (Hcopied : forall f t y, (f, t) ∈ fs -> typed_field h vs f t y -> copied_field (length h) (h ++ new) vs' f t y)
      by (intros f t y H1 H2; by apply Hall).
    split.
    + apply deref_struct. exists xs. split; [done|]. apply Forall2_same_length_lookup. apply Forall2_same_length_lookup in Hxs as [Hlen Hxs].
      split; [done|]. intros i [f t] [g y] Hi Hj. destruct (Hxs i _ _ Hi Hj) as [Hg Ht]. simpl in *. split; [done|].
      destruct (Hcopied f t y) as (v & Hv & Hd & _); [by eapply list_elem_of_lookup_2|done|]. by exists v.
    + apply Forall_forall. intros k (f & t & v & Hin & Hv & Hk)%reach_struct.
      apply list_elem_of_lookup in Hin as Hi. destruct Hi as [i Hi].
      destruct (Forall2_lookup_l _ _ _ _ _ Hxs Hi) as ([g y] & _ & _ & Ht). simpl in Ht.
      destruct (Hcopied f t y Hin Ht) as (w & Hw & _ & Hf). assert (w = v) as -> by congruence.
      by apply (Forall_forall _ _) with (x := k) in Hf.
Qed.

(** ** The types of other packages *)

Class ForeignTypes := {
  ObjectMeta_ty : ty; ObjectMeta_DeepCopyInto : copier;
  ListMeta_ty : ty; ListMeta_DeepCopyInto : copier;
  Condition_ty : ty; Condition_DeepCopyInto : copier;
  ResourceRequirements_ty : ty; ResourceRequirements_DeepCopyInto : copier;
  Toleration_ty : ty; Toleration_DeepCopyInto : copier;
}.

(** What their generated methods promise. *)
Class ForeignLaws `{ForeignTypes} : Prop := {
  ObjectMeta_copies : copies ObjectMeta_ty ObjectMeta_DeepCopyInto;
  ListMeta_copies : copies ListMeta_ty ListMeta_DeepCopyInto;
  Condition_copies : copies Condition_ty Condition_DeepCopyInto;
  ResourceRequirements_copies : copies ResourceRequirements_ty ResourceRequirements_DeepCopyInto;
  Toleration_copies : copies Toleration_ty Toleration_DeepCopyInto;
}.

(** metav1.TypeMeta and corev1.LocalObjectReference hold only strings. *)
Definition TypeMeta_ty : ty := TStruct [("Kind", TStr); ("APIVersion", TStr)].
Definition LocalObjectReference_ty : ty := TStruct [("Name", TStr)].

Section api.
Context `{ForeignTypes}.

(** ** The types of the API, field by field *)

Definition BYOPostgres_ty : ty := TStruct [("Host", TStr); ("Port", TInt); ("Database", TStr);
  ("CredentialsSecretRef", LocalObjectReference_ty); ("SSLMode", TStr)].
Definition PostgresBackendSpec_ty : ty := TStruct [("Instances", TPtr TInt); ("StorageSize", TStr);
  ("StorageClass", TStr); ("BYO", TPtr BYOPostgres_ty)].
Definition BackendSpec_ty : ty := TStruct [("Type", TStr); ("Postgres", TPtr PostgresBackendSpec_ty)].
Definition AdditionalLoadBalancerService_ty : ty := TStruct [("NameSuffix", TStr); ("IP", TStr);
  ("Annotations", TMap); ("ExternalTrafficPolicy", TStr)].
Definition DNSLoadBalancerSpec_ty : ty := TStruct [("IP", TStr); ("Annotations", TMap);
  ("ExternalTrafficPolicy", TStr); ("AdditionalServices", TSlice AdditionalLoadBalancerService_ty)].
Definition GatewayParentRef_ty : ty := TStruct [("Group", TStr); ("Kind", TStr); ("Name", TStr);
  ("Namespace", TStr); ("TCPSectionName", TStr); ("UDPSectionName", TStr)].
Definition DNSGatewaySpec_ty : ty := TStruct [("ParentRefs", TSlice GatewayParentRef_ty)].
Definition DNSSpec_ty : ty := TStruct [("Exposure", TStr); ("LoadBalancer", TPtr DNSLoadBalancerSpec_ty);
  ("Gateway", TPtr DNSGatewaySpec_ty)].
Definition APIGatewayParentRef_ty : ty := TStruct [("Group", TStr); ("Kind", TStr); ("Name", TStr);
  ("Namespace", TStr); ("SectionName", TStr)].
Definition APIGatewaySpec_ty : ty := TStruct [("Hostnames", TSlice TStr);
  ("ParentRefs", TSlice APIGatewayParentRef_ty)].
Definition APISpec_ty : ty := TStruct [("Port", TInt); ("APIKeySecretRef", TPtr LocalObjectReference_ty);
  ("Gateway", TPtr APIGatewaySpec_ty)].
Definition SchedulingSpec_ty : ty := TStruct [("NodeSelector", TMap); ("Tolerations", TSlice Toleration_ty);
  ("PriorityClassName", TStr); ("SpreadAcrossZones", TBool)].
Definition PodMonitorSpec_ty : ty := TStruct [("Enabled", TBool); ("Interval", TStr); ("Labels", TMap)].
Definition ObservabilitySpec_ty : ty := TStruct [("PodMonitor", PodMonitorSpec_ty)].
Definition NetworkPolicySpec_ty : ty := TStruct [("Enabled", TBool);
  ("AdditionalAllowedAPINamespaces", TSlice TStr)].
Definition ZoneManagementSpec_ty : ty := TStruct [("AllowedNamespaces", TSlice TStr)].
Definition PDBSpec_ty : ty := TStruct [("MinAvailable", TPtr TInt)].
Definition PowerDNSServerSpec_ty : ty := TStruct [("Replicas", TPtr TInt); ("Image", TStr);
  ("Resources", ResourceRequirements_ty); ("Backend", BackendSpec_ty); ("DNS", DNSSpec_ty); ("API", APISpec_ty);
  ("Scheduling", SchedulingSpec_ty); ("Observability", ObservabilitySpec_ty);
  ("NetworkPolicy", NetworkPolicySpec_ty); ("ZoneManagement", ZoneManagementSpec_ty);
  ("PodDisruptionBudget", TPtr PDBSpec_ty); ("ExtraSettings", TMap)].
Definition PowerDNSServerStatus_ty : ty := TStruct [("Phase", TStr); ("Ready", TBool); ("DNSEndpoint", TStr);
  ("APIEndpoint", TStr); ("APIKeySecretName", TStr); ("BackendSecretName", TStr); ("SchemaApplied", TBool);
  ("DesiredReplicas", TInt); ("ReadyReplicas", TInt); ("ConfigHash", TStr); ("Conditions", TSlice Condition_ty);
  ("FailureMessage", TStr)].
Definition PowerDNSServer_ty : ty := TStruct [("TypeMeta", TypeMeta_ty); ("ObjectMeta", ObjectMeta_ty);
  ("Spec", PowerDNSServerSpec_ty); ("Status", PowerDNSServerStatus_ty)].
Definition PowerDNSServerList_ty : ty := TStruct [("TypeMeta", TypeMeta_ty); ("ListMeta", ListMeta_ty);
  ("Items", TSlice PowerDNSServer_ty)].
Definition ObjectRef_ty : ty := TStruct [("Name", TStr); ("Namespace", TStr)].
Definition SOASpec_ty : ty := TStruct [("Hostmaster", TStr); ("TTL", TPtr TInt)].
Definition ZoneDNSSECSpec_ty : ty := TStruct [("Enabled", TBool)].
Definition ZoneSpec_ty : ty := TStruct [("ServerRef", ObjectRef_ty); ("ZoneName", TStr); ("Kind", TStr);
  ("Masters", TSlice TStr); ("Nameservers", TSlice TStr); ("SOA", TPtr SOASpec_ty); ("DNSSEC", ZoneDNSSECSpec_ty);
  ("DeletionPolicy", TStr)].
Definition ZoneStatus_ty : ty := TStruct [("Phase", TStr); ("Serial", TInt); ("DSRecords", TSlice TStr);
  ("ObservedGeneration", TInt); ("Conditions", TSlice Condition_ty); ("FailureMessage", TStr)].
Definition Zone_ty : ty := TStruct [("TypeMeta", TypeMeta_ty); ("ObjectMeta", ObjectMeta_ty);
  ("Spec", ZoneSpec_ty); ("Status", ZoneStatus_ty)].
Definition ZoneList_ty : ty := TStruct [("TypeMeta", TypeMeta_ty); ("ListMeta", ListMeta_ty);
  ("Items", TSlice Zone_ty)].
Definition RRSetSpec_ty : ty := TStruct [("ZoneRef", ObjectRef_ty); ("Name", TStr); ("Type", TStr);
  ("TTL", TPtr TInt); ("Records", TSlice TStr); ("DeletionPolicy", TStr)].
Definition RRSetStatus_ty : ty := TStruct [("ObservedGeneration", TInt); ("Conditions", TSlice Condition_ty);
  ("FailureMessage", TStr)].
Definition RRSet_ty : ty := TStruct [("TypeMeta", TypeMeta_ty); ("ObjectMeta", ObjectMeta_ty);
  ("Spec", RRSetSpec_ty); ("Status", RRSetStatus_ty)].
Definition RRSetList_ty : ty := TStruct [("TypeMeta", TypeMeta_ty); ("ListMeta", ListMeta_ty);
  ("Items", TSlice RRSet_ty)].
Definition DNSDistCacheSpec_ty : ty := TStruct [("Enabled", TPtr TBool); ("MaxEntries", TPtr TInt)].
Definition DNSDistRateLimitSpec_ty : ty := TStruct [("QPSPerClient", TInt)].
Definition DNSDistTLSListener_ty : ty := TStruct [("Enabled", TBool);
  ("CertificateSecretRef", LocalObjectReference_ty)].
Definition DNSDistTLSSpec_ty : ty := TStruct [("DoT", DNSDistTLSListener_ty); ("DoH", DNSDistTLSListener_ty)].
Definition DNSDistSpec_ty : ty := TStruct [("Replicas", TPtr TInt); ("Image", TStr);
  ("Resources", ResourceRequirements_ty); ("Scheduling", SchedulingSpec_ty); ("BackendRefs", TSlice ObjectRef_ty);
  ("DNS", DNSSpec_ty); ("Cache", DNSDistCacheSpec_ty); ("RateLimit", DNSDistRateLimitSpec_ty);
  ("TLS", DNSDistTLSSpec_ty); ("PodDisruptionBudget", TPtr PDBSpec_ty)].
Definition DNSDistStatus_ty : ty := TStruct [("Phase", TStr); ("DNSEndpoint", TStr); ("DesiredReplicas", TInt);
  ("ReadyReplicas", TInt); ("ObservedGeneration", TInt); ("Conditions", TSlice Condition_ty);
  ("FailureMessage", TStr)].
Definition DNSDist_ty : ty := TStruct [("TypeMeta", TypeMeta_ty); ("ObjectMeta", ObjectMeta_ty);
  ("Spec", DNSDistSpec_ty); ("Status", DNSDistStatus_ty)].
Definition DNSDistList_ty : ty := TStruct [("TypeMeta", TypeMeta_ty); ("ListMeta", ListMeta_ty);
  ("Items", TSlice DNSDist_ty)].

(** ** Their DeepCopyInto methods, statement by statement *)

Definition BYOPostgres_DeepCopyInto : copier := copy_of [].
Definition PostgresBackendSpec_DeepCopyInto : copier := copy_of [("Instances", new_ptr plain);
  ("BYO", new_ptr plain)].
Definition BackendSpec_DeepCopyInto : copier := copy_of [("Postgres", new_ptr PostgresBackendSpec_DeepCopyInto)].
Definition AdditionalLoadBalancerService_DeepCopyInto : copier := copy_of [("Annotations", make_map)].
Definition DNSLoadBalancerSpec_DeepCopyInto : copier := copy_of [("Annotations", make_map);
  ("AdditionalServices", make_slice AdditionalLoadBalancerService_DeepCopyInto)].
Definition DNSGatewaySpec_DeepCopyInto : copier := copy_of [("ParentRefs", make_slice plain)].
Definition DNSSpec_DeepCopyInto : copier := copy_of [("LoadBalancer", new_ptr DNSLoadBalancerSpec_DeepCopyInto);
  ("Gateway", new_ptr DNSGatewaySpec_DeepCopyInto)].
Definition APIGatewaySpec_DeepCopyInto : copier := copy_of [("Hostnames", make_slice plain);
  ("ParentRefs", make_slice plain)].
Definition APISpec_DeepCopyInto : copier := copy_of [("APIKeySecretRef", new_ptr plain);
  ("Gateway", new_ptr APIGatewaySpec_DeepCopyInto)].
Definition SchedulingSpec_DeepCopyInto : copier := copy_of [("NodeSelector", make_map);
  ("Tolerations", make_slice Toleration_DeepCopyInto)].
Definition PodMonitorSpec_DeepCopyInto : copier := copy_of [("Labels", make_map)].
Definition ObservabilitySpec_DeepCopyInto : copier := copy_of [("PodMonitor", PodMonitorSpec_DeepCopyInto)].
Definition NetworkPolicySpec_DeepCopyInto : copier := copy_of [
  ("AdditionalAllowedAPINamespaces", make_slice plain)].
Definition ZoneManagementSpec_DeepCopyInto : copier := copy_of [("AllowedNamespaces", make_slice plain)].
Definition PDBSpec_DeepCopyInto : copier := copy_of [("MinAvailable", new_ptr plain)].
Definition PowerDNSServerSpec_DeepCopyInto : copier := copy_of [("Replicas", new_ptr plain);
  ("Resources", ResourceRequirements_DeepCopyInto); ("Backend", BackendSpec_DeepCopyInto);
  ("DNS", DNSSpec_DeepCopyInto); ("API", APISpec_DeepCopyInto); ("Scheduling", SchedulingSpec_DeepCopyInto);
  ("Observability", ObservabilitySpec_DeepCopyInto); ("NetworkPolicy", NetworkPolicySpec_DeepCopyInto);
  ("ZoneManagement", ZoneManagementSpec_DeepCopyInto); ("PodDisruptionBudget", new_ptr PDBSpec_DeepCopyInto);
  ("ExtraSettings", make_map)].
Definition PowerDNSServerStatus_DeepCopyInto : copier := copy_of [
  ("Conditions", make_slice Condition_DeepCopyInto)].
Definition PowerDNSServer_DeepCopyInto : copier := copy_of [("TypeMeta", plain);
  ("ObjectMeta", ObjectMeta_DeepCopyInto); ("Spec", PowerDNSServerSpec_DeepCopyInto);
  ("Status", PowerDNSServerStatus_DeepCopyInto)].
Definition PowerDNSServerList_DeepCopyInto : copier := copy_of [("TypeMeta", plain);
  ("ListMeta", ListMeta_DeepCopyInto); ("Items", make_slice PowerDNSServer_DeepCopyInto)].
Definition ObjectRef_DeepCopyInto : copier := copy_of [].
Definition SOASpec_DeepCopyInto : copier := copy_of [("TTL", new_ptr plain)].
Definition ZoneSpec_DeepCopyInto : copier := copy_of [("ServerRef", plain); ("Masters", make_slice plain);
  ("Nameservers", make_slice plain); ("SOA", new_ptr SOASpec_DeepCopyInto); ("DNSSEC", plain)].
Definition ZoneStatus_DeepCopyInto : copier := copy_of [("DSRecords", make_slice plain);
  ("Conditions", make_slice Condition_DeepCopyInto)].
Definition Zone_DeepCopyInto : copier := copy_of [("TypeMeta", plain); ("ObjectMeta", ObjectMeta_DeepCopyInto);
  ("Spec", ZoneSpec_DeepCopyInto); ("Status", ZoneStatus_DeepCopyInto)].
Definition ZoneList_DeepCopyInto : copier := copy_of [("TypeMeta", plain); ("ListMeta", ListMeta_DeepCopyInto);
  ("Items", make_slice Zone_DeepCopyInto)].
Definition RRSetSpec_DeepCopyInto : copier := copy_of [("ZoneRef", plain); ("TTL", new_ptr plain);
  ("Records", make_slice plain)].
Definition RRSetStatus_DeepCopyInto : copier := copy_of [("Conditions", make_slice Condition_DeepCopyInto)].
Definition RRSet_DeepCopyInto : copier := copy_of [("TypeMeta", plain); ("ObjectMeta", ObjectMeta_DeepCopyInto);
  ("Spec", RRSetSpec_DeepCopyInto); ("Status", RRSetStatus_DeepCopyInto)].
Definition RRSetList_DeepCopyInto : copier := copy_of [("TypeMeta", plain); ("ListMeta", ListMeta_DeepCopyInto);
  ("Items", make_slice RRSet_DeepCopyInto)].
Definition DNSDistCacheSpec_DeepCopyInto : copier := copy_of [("Enabled", new_ptr plain);
  ("MaxEntries", new_ptr plain)].
Definition DNSDistRateLimitSpec_DeepCopyInto : copier := copy_of [].
Definition DNSDistTLSListener_DeepCopyInto : copier := copy_of [].
Definition DNSDistTLSSpec_DeepCopyInto : copier := copy_of [("DoT", DNSDistTLSListener_DeepCopyInto);
  ("DoH", DNSDistTLSListener_DeepCopyInto)].
Definition DNSDistSpec_DeepCopyInto : copier := copy_of [("Replicas", new_ptr plain);
  ("Resources", ResourceRequirements_DeepCopyInto); ("Scheduling", SchedulingSpec_DeepCopyInto);
  ("BackendRefs", make_slice plain); ("DNS", DNSSpec_DeepCopyInto); ("Cache", DNSDistCacheSpec_DeepCopyInto);
  ("RateLimit", DNSDistRateLimitSpec_DeepCopyInto); ("TLS", DNSDistTLSSpec_DeepCopyInto);
  ("PodDisruptionBudget", new_ptr PDBSpec_DeepCopyInto)].
Definition DNSDistStatus_DeepCopyInto : copier := copy_of [("Conditions", make_slice Condition_DeepCopyInto)].
Definition DNSDist_DeepCopyInto : copier := copy_of [("TypeMeta", plain); ("ObjectMeta", ObjectMeta_DeepCopyInto);
  ("Spec", DNSDistSpec_DeepCopyInto); ("Status", DNSDistStatus_DeepCopyInto)].
Definition DNSDistList_DeepCopyInto : copier := copy_of [("TypeMeta", plain); ("ListMeta", ListMeta_DeepCopyInto);
  ("Items", make_slice DNSDist_DeepCopyInto)].

(** ** DeepCopy and DeepCopyObject *)

Definition BYOPostgres_DeepCopy : copier := DeepCopy BYOPostgres_DeepCopyInto.
Definition PostgresBackendSpec_DeepCopy : copier := DeepCopy PostgresBackendSpec_DeepCopyInto.
Definition BackendSpec_DeepCopy : copier := DeepCopy BackendSpec_DeepCopyInto.
Definition AdditionalLoadBalancerService_DeepCopy : copier := DeepCopy AdditionalLoadBalancerService_DeepCopyInto.
Definition DNSLoadBalancerSpec_DeepCopy : copier := DeepCopy DNSLoadBalancerSpec_DeepCopyInto.
Definition DNSGatewaySpec_DeepCopy : copier := DeepCopy DNSGatewaySpec_DeepCopyInto.
Definition DNSSpec_DeepCopy : copier := DeepCopy DNSSpec_DeepCopyInto.
Definition APIGatewaySpec_DeepCopy : copier := DeepCopy APIGatewaySpec_DeepCopyInto.
Definition APISpec_DeepCopy : copier := DeepCopy APISpec_DeepCopyInto.
Definition SchedulingSpec_DeepCopy : copier := DeepCopy SchedulingSpec_DeepCopyInto.
Definition PodMonitorSpec_DeepCopy : copier := DeepCopy PodMonitorSpec_DeepCopyInto.
Definition ObservabilitySpec_DeepCopy : copier := DeepCopy ObservabilitySpec_DeepCopyInto.
Definition NetworkPolicySpec_DeepCopy : copier := DeepCopy NetworkPolicySpec_DeepCopyInto.
Definition ZoneManagementSpec_DeepCopy : copier := DeepCopy ZoneManagementSpec_DeepCopyInto.
Definition PDBSpec_DeepCopy : copier := DeepCopy PDBSpec_DeepCopyInto.
Definition PowerDNSServerSpec_DeepCopy : copier := DeepCopy PowerDNSServerSpec_DeepCopyInto.
Definition PowerDNSServerStatus_DeepCopy : copier := DeepCopy PowerDNSServerStatus_DeepCopyInto.
Definition PowerDNSServer_DeepCopy : copier := DeepCopy PowerDNSServer_DeepCopyInto.
Definition PowerDNSServerList_DeepCopy : copier := DeepCopy PowerDNSServerList_DeepCopyInto.
Definition ObjectRef_DeepCopy : copier := DeepCopy ObjectRef_DeepCopyInto.
Definition SOASpec_DeepCopy : copier := DeepCopy SOASpec_DeepCopyInto.
Definition ZoneSpec_DeepCopy : copier := DeepCopy ZoneSpec_DeepCopyInto.
Definition ZoneStatus_DeepCopy : copier := DeepCopy ZoneStatus_DeepCopyInto.
Definition Zone_DeepCopy : copier := DeepCopy Zone_DeepCopyInto.
Definition ZoneList_DeepCopy : copier := DeepCopy ZoneList_DeepCopyInto.
Definition RRSetSpec_DeepCopy : copier := DeepCopy RRSetSpec_DeepCopyInto.
Definition RRSetStatus_DeepCopy : copier := DeepCopy RRSetStatus_DeepCopyInto.
Definition RRSet_DeepCopy : copier := DeepCopy RRSet_DeepCopyInto.
Definition RRSetList_DeepCopy : copier := DeepCopy RRSetList_DeepCopyInto.
Definition DNSDistCacheSpec_DeepCopy : copier := DeepCopy DNSDistCacheSpec_DeepCopyInto.
Definition DNSDistRateLimitSpec_DeepCopy : copier := DeepCopy DNSDistRateLimitSpec_DeepCopyInto.
Definition DNSDistTLSListener_DeepCopy : copier := DeepCopy DNSDistTLSListener_DeepCopyInto.
Definition DNSDistTLSSpec_DeepCopy : copier := DeepCopy DNSDistTLSSpec_DeepCopyInto.
Definition DNSDistSpec_DeepCopy : copier := DeepCopy DNSDistSpec_DeepCopyInto.
Definition DNSDistStatus_DeepCopy : copier := DeepCopy DNSDistStatus_DeepCopyInto.
Definition DNSDist_DeepCopy : copier := DeepCopy DNSDist_DeepCopyInto.
Definition DNSDistList_DeepCopy : copier := DeepCopy DNSDistList_DeepCopyInto.

Definition PowerDNSServer_DeepCopyObject : gval -> heap -> option (option gval * heap) := DeepCopyObject PowerDNSServer_DeepCopyInto.
Definition PowerDNSServerList_DeepCopyObject : gval -> heap -> option (option gval * heap) := DeepCopyObject PowerDNSServerList_DeepCopyInto.
Definition Zone_DeepCopyObject : gval -> heap -> option (option gval * heap) := DeepCopyObject Zone_DeepCopyInto.
Definition ZoneList_DeepCopyObject : gval -> heap -> option (option gval * heap) := DeepCopyObject ZoneList_DeepCopyInto.
Definition RRSet_DeepCopyObject : gval -> heap -> option (option gval * heap) := DeepCopyObject RRSet_DeepCopyInto.
Definition RRSetList_DeepCopyObject : gval -> heap -> option (option gval * heap) := DeepCopyObject RRSetList_DeepCopyInto.
Definition DNSDist_DeepCopyObject : gval -> heap -> option (option gval * heap) := DeepCopyObject DNSDist_DeepCopyInto.
Definition DNSDistList_DeepCopyObject : gval -> heap -> option (option gval * heap) := DeepCopyObject DNSDistList_DeepCopyInto.

(** Every type with methods, and the ones that are runtime objects. *)
Definition api_types : list (ty * copier) := [
  (BYOPostgres_ty, BYOPostgres_DeepCopyInto);
  (PostgresBackendSpec_ty, PostgresBackendSpec_DeepCopyInto);
  (BackendSpec_ty, BackendSpec_DeepCopyInto);
  (AdditionalLoadBalancerService_ty, AdditionalLoadBalancerService_DeepCopyInto);
  (DNSLoadBalancerSpec_ty, DNSLoadBalancerSpec_DeepCopyInto);
  (DNSGatewaySpec_ty, DNSGatewaySpec_DeepCopyInto);
  (DNSSpec_ty, DNSSpec_DeepCopyInto);
  (APIGatewaySpec_ty, APIGatewaySpec_DeepCopyInto);
  (APISpec_ty, APISpec_DeepCopyInto);
  (SchedulingSpec_ty, SchedulingSpec_DeepCopyInto);
  (PodMonitorSpec_ty, PodMonitorSpec_DeepCopyInto);
  (ObservabilitySpec_ty, ObservabilitySpec_DeepCopyInto);
  (NetworkPolicySpec_ty, NetworkPolicySpec_DeepCopyInto);
  (ZoneManagementSpec_ty, ZoneManagementSpec_DeepCopyInto);
  (PDBSpec_ty, PDBSpec_DeepCopyInto);
  (PowerDNSServerSpec_ty, PowerDNSServerSpec_DeepCopyInto);
  (PowerDNSServerStatus_ty, PowerDNSServerStatus_DeepCopyInto);
  (PowerDNSServer_ty, PowerDNSServer_DeepCopyInto);
  (PowerDNSServerList_ty, PowerDNSServerList_DeepCopyInto);
  (ObjectRef_ty, ObjectRef_DeepCopyInto);
  (SOASpec_ty, SOASpec_DeepCopyInto);
  (ZoneSpec_ty, ZoneSpec_DeepCopyInto);
  (ZoneStatus_ty, ZoneStatus_DeepCopyInto);
  (Zone_ty, Zone_DeepCopyInto);
  (ZoneList_ty, ZoneList_DeepCopyInto);
  (RRSetSpec_ty, RRSetSpec_DeepCopyInto);
  (RRSetStatus_ty, RRSetStatus_DeepCopyInto);
  (RRSet_ty, RRSet_DeepCopyInto);
  (RRSetList_ty, RRSetList_DeepCopyInto);
  (DNSDistCacheSpec_ty, DNSDistCacheSpec_DeepCopyInto);
  (DNSDistRateLimitSpec_ty, DNSDistRateLimitSpec_DeepCopyInto);
  (DNSDistTLSListener_ty, DNSDistTLSListener_DeepCopyInto);
  (DNSDistTLSSpec_ty, DNSDistTLSSpec_DeepCopyInto);
  (DNSDistSpec_ty, DNSDistSpec_DeepCopyInto);
  (DNSDistStatus_ty, DNSDistStatus_DeepCopyInto);
  (DNSDist_ty, DNSDist_DeepCopyInto);
  (DNSDistList_ty, DNSDistList_DeepCopyInto)].
End api.

(** ** They copy *)

Create HintDb copies discriminated.
#[export] Hint Constants Opaque : copies.
#[export] Hint Resolve copies_new_ptr copies_make_slice copies_make_map ObjectMeta_copies ListMeta_copies
  Condition_copies ResourceRequirements_copies Toleration_copies : copies.
#[export] Hint Extern 5 (copies _ plain) => apply copies_plain; reflexivity : copies.

Ltac in_names := repeat first [by left|right].
(** A struct: its statements name fields of it, the fields they leave out
    have no references, and each statement copies its field's type. *)
Ltac split_Forall := repeat (apply Forall_cons; split); try apply Forall_nil_2.
Ltac struct_copies :=
  apply copies_struct; split_Forall;
  first
  [ solve [simpl; in_names]
  | split;
    [ let Hn := fresh in intros Hn; first [reflexivity | destruct Hn; simpl; in_names]
    | split_Forall; simpl; intros ?; first [discriminate | eauto with copies] ] ].

Section api_copies.
Context `{ForeignLaws}.

Lemma BYOPostgres_copies : copies BYOPostgres_ty BYOPostgres_DeepCopyInto.
Proof. struct_copies. Qed.
#[local] Hint Resolve BYOPostgres_copies : copies.
Lemma PostgresBackendSpec_copies : copies PostgresBackendSpec_ty PostgresBackendSpec_DeepCopyInto.
Proof. struct_copies. Qed.
#[local] Hint Resolve PostgresBackendSpec_copies : copies.
Lemma BackendSpec_copies : copies BackendSpec_ty BackendSpec_DeepCopyInto.
Proof. struct_copies. Qed.
#[local] Hint Resolve BackendSpec_copies : copies.
Lemma AdditionalLoadBalancerService_copies : copies AdditionalLoadBalancerService_ty AdditionalLoadBalancerService_DeepCopyInto.
Proof. struct_copies. Qed.
#[local] Hint Resolve AdditionalLoadBalancerService_copies : copies.
Lemma DNSLoadBalancerSpec_copies : copies DNSLoadBalancerSpec_ty DNSLoadBalancerSpec_DeepCopyInto.
Proof. struct_copies. Qed.
#[local] Hint Resolve DNSLoadBalancerSpec_copies : copies.
Lemma DNSGatewaySpec_copies : copies DNSGatewaySpec_ty DNSGatewaySpec_DeepCopyInto.
Proof. struct_copies. Qed.
#[local] Hint Resolve DNSGatewaySpec_copies : copies.
Lemma DNSSpec_copies : copies DNSSpec_ty DNSSpec_DeepCopyInto.
Proof. struct_copies. Qed.
#[local] Hint Resolve DNSSpec_copies : copies.
Lemma APIGatewaySpec_copies : copies APIGatewaySpec_ty APIGatewaySpec_DeepCopyInto.
Proof. struct_copies. Qed.
#[local] Hint Resolve APIGatewaySpec_copies : copies.
Lemma APISpec_copies : copies APISpec_ty APISpec_DeepCopyInto.
Proof. struct_copies. Qed.
#[local] Hint Resolve APISpec_copies : copies.
Lemma SchedulingSpec_copies : copies SchedulingSpec_ty SchedulingSpec_DeepCopyInto.
Proof. struct_copies. Qed.
#[local] Hint Resolve SchedulingSpec_copies : copies.
Lemma PodMonitorSpec_copies : copies PodMonitorSpec_ty PodMonitorSpec_DeepCopyInto.
Proof. struct_copies. Qed.
#[local] Hint Resolve PodMonitorSpec_copies : copies.
Lemma ObservabilitySpec_copies : copies ObservabilitySpec_ty ObservabilitySpec_DeepCopyInto.
Proof. struct_copies. Qed.
#[local] Hint Resolve ObservabilitySpec_copies : copies.
Lemma NetworkPolicySpec_copies : copies NetworkPolicySpec_ty NetworkPolicySpec_DeepCopyInto.
Proof. struct_copies. Qed.
#[local] Hint Resolve NetworkPolicySpec_copies : copies.
Lemma ZoneManagementSpec_copies : copies ZoneManagementSpec_ty ZoneManagementSpec_DeepCopyInto.
Proof. struct_copies. Qed.
#[local] Hint Resolve ZoneManagementSpec_copies : copies.
Lemma PDBSpec_copies : copies PDBSpec_ty PDBSpec_DeepCopyInto.
Proof. struct_copies. Qed.
#[local] Hint Resolve PDBSpec_copies : copies.
Lemma PowerDNSServerSpec_copies : copies PowerDNSServerSpec_ty PowerDNSServerSpec_DeepCopyInto.
Proof. struct_copies. Qed.
#[local] Hint Resolve PowerDNSServerSpec_copies : copies.
Lemma PowerDNSServerStatus_copies : copies PowerDNSServerStatus_ty PowerDNSServerStatus_DeepCopyInto.
Proof. struct_copies. Qed.
#[local] Hint Resolve PowerDNSServerStatus_copies : copies.
Lemma PowerDNSServer_copies : copies PowerDNSServer_ty PowerDNSServer_DeepCopyInto.
Proof. struct_copies. Qed.
#[local] Hint Resolve PowerDNSServer_copies : copies.
Lemma PowerDNSServerList_copies : copies PowerDNSServerList_ty PowerDNSServerList_DeepCopyInto.
Proof. struct_copies. Qed.
#[local] Hint Resolve PowerDNSServerList_copies : copies.
Lemma ObjectRef_copies : copies ObjectRef_ty ObjectRef_DeepCopyInto.
Proof. struct_copies. Qed.
#[local] Hint Resolve ObjectRef_copies : copies.
Lemma SOASpec_copies : copies SOASpec_ty SOASpec_DeepCopyInto.
Proof. struct_copies. Qed.
#[local] Hint Resolve SOASpec_copies : copies.
Lemma ZoneSpec_copies : copies ZoneSpec_ty ZoneSpec_DeepCopyInto.
Proof. struct_copies. Qed.
#[local] Hint Resolve ZoneSpec_copies : copies.
Lemma ZoneStatus_copies : copies ZoneStatus_ty ZoneStatus_DeepCopyInto.
Proof. struct_copies. Qed.
#[local] Hint Resolve ZoneStatus_copies : copies.
Lemma Zone_copies : copies Zone_ty Zone_DeepCopyInto.
Proof. struct_copies. Qed.
#[local] Hint Resolve Zone_copies : copies.
Lemma ZoneList_copies : copies ZoneList_ty ZoneList_DeepCopyInto.
Proof. struct_copies. Qed.
#[local] Hint Resolve ZoneList_copies : copies.
Lemma RRSetSpec_copies : copies RRSetSpec_ty RRSetSpec_DeepCopyInto.
Proof. struct_copies. Qed.
#[local] Hint Resolve RRSetSpec_copies : copies.
Lemma RRSetStatus_copies : copies RRSetStatus_ty RRSetStatus_DeepCopyInto.
Proof. struct_copies. Qed.
#[local] Hint Resolve RRSetStatus_copies : copies.
Lemma RRSet_copies : copies RRSet_ty RRSet_DeepCopyInto.
Proof. struct_copies. Qed.
#[local] Hint Resolve RRSet_copies : copies.
Lemma RRSetList_copies : copies RRSetList_ty RRSetList_DeepCopyInto.
Proof. struct_copies. Qed.
#[local] Hint Resolve RRSetList_copies : copies.
Lemma DNSDistCacheSpec_copies : copies DNSDistCacheSpec_ty DNSDistCacheSpec_DeepCopyInto.
Proof. struct_copies. Qed.
#[local] Hint Resolve DNSDistCacheSpec_copies : copies.
Lemma DNSDistRateLimitSpec_copies : copies DNSDistRateLimitSpec_ty DNSDistRateLimitSpec_DeepCopyInto.
Proof. struct_copies. Qed.
#[local] Hint Resolve DNSDistRateLimitSpec_copies : copies.
Lemma DNSDistTLSListener_copies : copies DNSDistTLSListener_ty DNSDistTLSListener_DeepCopyInto.
Proof. struct_copies. Qed.
#[local] Hint Resolve DNSDistTLSListener_copies : copies.
Lemma DNSDistTLSSpec_copies : copies DNSDistTLSSpec_ty DNSDistTLSSpec_DeepCopyInto.
Proof. struct_copies. Qed.
#[local] Hint Resolve DNSDistTLSSpec_copies : copies.
Lemma DNSDistSpec_copies : copies DNSDistSpec_ty DNSDistSpec_DeepCopyInto.
Proof. struct_copies. Qed.
#[local] Hint Resolve DNSDistSpec_copies : copies.
Lemma DNSDistStatus_copies : copies DNSDistStatus_ty DNSDistStatus_DeepCopyInto.
Proof. struct_copies. Qed.
#[local] Hint Resolve DNSDistStatus_copies : copies.
Lemma DNSDist_copies : copies DNSDist_ty DNSDist_DeepCopyInto.
Proof. struct_copies. Qed.
#[local] Hint Resolve DNSDist_copies : copies.
Lemma DNSDistList_copies : copies DNSDistList_ty DNSDistList_DeepCopyInto.
Proof. struct_copies. Qed.
#[local] Hint Resolve DNSDistList_copies : copies.

Lemma api_types_copy : Forall (fun T => copies T.1 T.2) api_types.
Proof. unfold api_types. split_Forall; cbn [fst snd]; eauto with copies. Qed.
End api_copies.

(** C12. Deep copies are copies: for every type of the API with generated
    methods, a pointer to a well-typed value of any heap, however its parts
    are shared, is copied to a new pointer with an equal value; no cell that
    existed is changed; the two reach no common location, so no write through
    one changes what the other means; and only nil is copied to nil. Hence
    what a reconciler writes into an object from the cache stays out of the
    cache. *)
Theorem deep_copies_isolated `{ForeignLaws} (T : ty) (c : copier) (h : heap) (p : gval) (x : tree)
  (Htype : (T, c) ∈ api_types) (Hp : deref (TPtr T) h p = Some x) :
  exists p' new,
    DeepCopyObject c p h = Some (match p with VPtr None => None | _ => Some p' end, h ++ new)
    /\ deref (TPtr T) (h ++ new) p' = Some x /\ deref (TPtr T) (h ++ new) p = Some x
    /\ (forall l, l ∈ reach (TPtr T) (h ++ new) p -> l ∉ reach (TPtr T) (h ++ new) p')
    /\ (forall h', (forall l, l ∉ reach (TPtr T) (h ++ new) p' -> h' !! l = (h ++ new) !! l) ->
          deref (TPtr T) h' p = Some x)
    /\ (forall h', (forall l, l ∉ reach (TPtr T) (h ++ new) p -> h' !! l = (h ++ new) !! l) ->
          deref (TPtr T) h' p' = Some x).
Proof.
  assert (Hc : copies (TPtr T) (new_ptr c)).
  { apply copies_new_ptr. exact (proj1 (Forall_forall _ _) api_types_copy (T, c) Htype). }
  destruct (Hc h p x Hp) as (p' & new & E & Hd & Hf). destruct (deref_app _ h new p x Hp) as [Hd0 Hr0].
  assert (Hdisj : forall l, l ∈ reach (TPtr T) (h ++ new) p -> l ∉ reach (TPtr T) (h ++ new) p').
  { intros l Hl Hl'. rewrite Hr0 in Hl. apply (reach_bound _ _ _ _ _ Hp) in Hl.
    unfold fresh_from in Hf. rewrite Forall_forall in Hf. specialize (Hf l Hl'). simpl in Hf. lia. }
  exists p', new. split_and!; [|done..| |].
  - unfold DeepCopyObject, DeepCopy. rewrite E. simpl. destruct p as [| | | |[l|]|?|?]; try done.
    + unfold new_ptr in E. destruct (h !! l) as [[w| |]|]; try done. destruct (c w h) as [[w' h']|]; [|done].
      simpl in E. by injection E as <- _.
    + by injection E as <- _.
  - intros h' Hh. rewrite <- Hd0. apply deref_agree. intros l Hl. by apply Hh, Hdisj.
  - intros h' Hh. rewrite <- Hd. apply deref_agree. intros l Hl. apply Hh. intros Hl'. by apply (Hdisj l).
Qed.

(** ** An instance and a Zone in a heap *)

#[local] Instance RefTypes : ForeignTypes := {|
  ObjectMeta_ty := TStruct [("Name", TStr); ("Labels", TMap); ("Finalizers", TSlice TStr)];
  ObjectMeta_DeepCopyInto := copy_of [("Labels", make_map); ("Finalizers", make_slice plain)];
  ListMeta_ty := TStruct [("RemainingItemCount", TPtr TInt)];
  ListMeta_DeepCopyInto := copy_of [("RemainingItemCount", new_ptr plain)];
  Condition_ty := TStruct [("Type", TStr); ("Status", TStr)];
  Condition_DeepCopyInto := copy_of [];
  ResourceRequirements_ty := TStruct [("Limits", TMap); ("Requests", TMap)];
  ResourceRequirements_DeepCopyInto := copy_of [("Limits", make_map); ("Requests", make_map)];
  Toleration_ty := TStruct [("Key", TStr); ("TolerationSeconds", TPtr TInt)];
  Toleration_DeepCopyInto := copy_of [("TolerationSeconds", new_ptr plain)];
|}.

#[local] Instance RefTypes_laws : ForeignLaws.
Proof. split; struct_copies. Qed.

(** A Zone whose Masters and Nameservers are one array. *)
Definition heap_zone : heap := [
  Arr [VStr "zone-cleanup"];
  Arr [VStr "192.0.2.1"; VStr "192.0.2.2"];
  Cell (VStruct [
    ("TypeMeta", VStruct [("Kind", VStr "Zone"); ("APIVersion", VStr "v1alpha1")]);
    ("ObjectMeta", VStruct [("Name", VStr "example"); ("Labels", VMap None); ("Finalizers", VSlice (Some 0%nat))]);
    ("Spec", VStruct [("ServerRef", VStruct [("Name", VStr "ns1"); ("Namespace", VStr "")]);
      ("ZoneName", VStr "example.org."); ("Kind", VStr "Secondary"); ("Masters", VSlice (Some 1%nat));
      ("Nameservers", VSlice (Some 1%nat)); ("SOA", VPtr None); ("DNSSEC", VStruct [("Enabled", VBool false)]);
      ("DeletionPolicy", VStr "Delete")]);
    ("Status", VStruct [("Phase", VStr ""); ("Serial", VInt 0); ("DSRecords", VSlice None);
      ("ObservedGeneration", VInt 0); ("Conditions", VSlice None); ("FailureMessage", VStr "")])])].

Lemma deep_copies_isolated_witness :
  exists p' new, DeepCopyObject Zone_DeepCopyInto (VPtr (Some 2%nat)) heap_zone = Some (Some p', heap_zone ++ new)
    /\ deref (TPtr Zone_ty) (heap_zone ++ new) p' = deref (TPtr Zone_ty) heap_zone (VPtr (Some 2%nat))
    /\ length new = 4%nat.
Proof.
  destruct (deep_copies_isolated Zone_ty Zone_DeepCopyInto heap_zone (VPtr (Some 2%nat))
    (default RNil (deref (TPtr Zone_ty) heap_zone (VPtr (Some 2%nat))))) as (p' & new & E & Hd & _).
  - unfold api_types. in_names.
  - reflexivity.
  - exists p', new. split; [exact E|]. split; [exact Hd|]. vm_compute in E. by injection E as <- <-.
Defined.
