(* ===== verification/KubeObjects.v ===== *)
(** * Kubernetes objects the operator creates, reads and updates

    The fields of the corev1, appsv1, batchv1, policyv1, networkingv1 and
    Gateway API structs that the sources mention. Fields of a Service spec
    that the operator never names are kept together in [ss_Foreign], so that
    their preservation can be stated. An int-or-string that is always built by
    intstr.FromInt is its integer. *)

From S2P Require Import Prelude GoStd Meta ApiTypes.

Open Scope stdpp_scope.
Open Scope Z_scope.

(** ** Core *)

(** corev1.Secret; Data is a map with the order of its next range statement. *)
Record Secret := { sec_Meta : ObjectMeta; sec_Type : string; sec_Data : gomap string }.

Record ConfigMap := { cm_Meta : ObjectMeta; cm_Data : strmap }.

Record ServicePort := {
  sp_Name : string;
  sp_Port : Z;
  sp_TargetPort : Z;
  sp_Protocol : string;
  sp_NodePort : Z;
}.

Record ServiceSpec := {
  ss_Type : string;
  ss_Selector : strmap;
  ss_Ports : list ServicePort;
  ss_LoadBalancerIP : string;
  ss_ExternalTrafficPolicy : string;
  ss_ClusterIP : string;
  ss_Foreign : strmap;
}.

#[export] Instance ServicePort_eq_dec : EqDecision ServicePort.
Proof. solve_decision. Defined.
#[export] Instance ServiceSpec_eq_dec : EqDecision ServiceSpec.
Proof. solve_decision. Defined.

(** One entry of status.loadBalancer.ingress. *)
Record LoadBalancerIngress := { ing_IP : string; ing_Hostname : string }.

Record Service := {
  svc_Meta : ObjectMeta;
  svc_Spec : ServiceSpec;
  svc_Ingress : list LoadBalancerIngress;
}.

Definition ServiceTypeClusterIP : string := "ClusterIP".
Definition ServiceTypeNodePort : string := "NodePort".
Definition ServiceTypeLoadBalancer : string := "LoadBalancer".
Definition ServiceExternalTrafficPolicyLocal : string := "Local".
Definition ProtocolTCP : string := "TCP".
Definition ProtocolUDP : string := "UDP".

Record EnvVar := {
  env_Name : string;
  env_Value : string;
  env_SecretKeyRef : option (string * string); (* Secret name, key *)
}.

Inductive ProbeHandler := PExec (cmd : list string) | PTCPSocket (port : Z).

(** corev1.Probe; an unset threshold or timeout is 0. *)
Record Probe := {
  pr_Handler : ProbeHandler;
  pr_InitialDelaySeconds : Z;
  pr_PeriodSeconds : Z;
  pr_TimeoutSeconds : Z;
  pr_FailureThreshold : Z;
}.

Record ContainerPort := { cp_Name : string; cp_ContainerPort : Z; cp_Protocol : string }.
Record VolumeMount := { vm_Name : string; vm_MountPath : string; vm_ReadOnly : bool }.
Inductive VolumeSource := VConfigMap (name : string) | VSecret (name : string) | VEmptyDir.
Record Volume := { vol_Name : string; vol_Source : VolumeSource }.

Record Container := {
  ct_Name : string;
  ct_Image : string;
  ct_Command : list string;
  ct_Args : list string;
  ct_Ports : list ContainerPort;
  ct_Env : list EnvVar;
  ct_Resources : ResourceRequirements;
  ct_VolumeMounts : list VolumeMount;
  ct_ReadinessProbe : option Probe;
  ct_LivenessProbe : option Probe;
}.

Record WeightedPodAffinityTerm := {
  wt_Weight : Z;
  wt_MatchLabels : strmap;
  wt_TopologyKey : string;
}.

Record TopologySpreadConstraint := {
  tsc_MaxSkew : Z;
  tsc_TopologyKey : string;
  tsc_WhenUnsatisfiable : string;
  tsc_MatchLabels : strmap;
}.

Definition LabelHostname : string := "kubernetes.io/hostname".
Definition LabelTopologyZone : string := "topology.kubernetes.io/zone".
Definition ScheduleAnyway : string := "ScheduleAnyway".

(** corev1.PodSpec; the affinity is the preferred pod anti-affinity terms. *)
Record PodSpec := {
  pod_RestartPolicy : string;
  pod_InitContainers : list Container;
  pod_Containers : list Container;
  pod_Volumes : list Volume;
  pod_AntiAffinity : option (list WeightedPodAffinityTerm);
  pod_TopologySpreadConstraints : list TopologySpreadConstraint;
  pod_NodeSelector : strmap;
  pod_Tolerations : list Toleration;
  pod_PriorityClassName : string;
}.

Record PodTemplateSpec := {
  pt_Labels : strmap;
  pt_Annotations : strmap;
  pt_Spec : PodSpec;
}.

(** ** Workloads *)

Record Deployment := {
  dep_Meta : ObjectMeta;
  dep_Replicas : option Z;
  dep_Selector : strmap;
  dep_Strategy : string;
  dep_Template : PodTemplateSpec;
  dep_ReadyReplicas : Z;      (* status *)
  dep_AvailableReplicas : Z;  (* status *)
}.

Record JobCondition := { jc_Type : string; jc_Status : string; jc_Reason : string; jc_Message : string }.
Definition JobFailed : string := "Failed".

Record Job := {
  job_Meta : ObjectMeta;
  job_BackoffLimit : option Z;
  job_TTLSecondsAfterFinished : option Z;
  job_Template : PodTemplateSpec;
  job_Succeeded : Z;                  (* status *)
  job_Conditions : list JobCondition; (* status *)
}.

Record PodDisruptionBudget := {
  pdb_Meta : ObjectMeta;
  pdb_Spec_MinAvailable : option Z;
  pdb_Selector : strmap;
}.

(** ** Networking *)

Record NetworkPolicyPort := { npp_Protocol : string; npp_Port : Z }.

(** One ingress rule; a peer is the match labels of its namespace selector,
    and an empty list of peers admits every source. *)
Record NetworkPolicyIngressRule := {
  npi_From : list strmap;
  npi_Ports : list NetworkPolicyPort;
}.

Record NetworkPolicySpecObj := {
  npo_PodSelector : strmap;
  npo_PolicyTypes : list string;
  npo_Ingress : list NetworkPolicyIngressRule;
}.
Record NetworkPolicy := { np_Meta : ObjectMeta; np_Spec : NetworkPolicySpecObj }.

Record ParentReference := {
  par_Group : option string;
  par_Kind : option string;
  par_Namespace : option string;
  par_Name : string;
  par_SectionName : option string;
}.

Record BackendRef := { br_Name : string; br_Port : option Z }.

(** A TCPRoute or UDPRoute: the rules are lists of backends. *)
Record L4Route := {
  l4_Meta : ObjectMeta;
  l4_ParentRefs : list ParentReference;
  l4_Rules : list (list BackendRef);
}.

Record HTTPRouteRule := {
  hrr_PathType : string;
  hrr_PathValue : string;
  hrr_BackendRefs : list BackendRef;
}.
Record HTTPRoute := {
  hr_Meta : ObjectMeta;
  hr_ParentRefs : list ParentReference;
  hr_Hostnames : list string;
  hr_Rules : list HTTPRouteRule;
}.

(** ** unstructured.Unstructured *)

Record GroupVersionKind := { gvk_Group : string; gvk_Version : string; gvk_Kind : string }.

Record Unstructured := {
  u_GVK : GroupVersionKind;
  u_Meta : ObjectMeta;
  u_Spec : json;
  u_Status : json;
}.

(** ** Kinds *)

Inductive kind :=
| KServer | KZone | KRRSet | KDNSDist
| KSecret | KConfigMap | KService | KDeployment | KJob | KPDB | KNetworkPolicy
| KTCPRoute | KUDPRoute | KHTTPRoute | KPodMonitor | KCluster.

#[export] Instance kind_eq_dec : EqDecision kind.
Proof. solve_decision. Defined.

Definition obj_of (k : kind) : Type :=
  match k with
  | KServer => PowerDNSServer
  | KZone => Zone
  | KRRSet => RRSet
  | KDNSDist => DNSDist
  | KSecret => Secret
  | KConfigMap => ConfigMap
  | KService => Service
  | KDeployment => Deployment
  | KJob => Job
  | KPDB => PodDisruptionBudget
  | KNetworkPolicy => NetworkPolicy
  | KTCPRoute | KUDPRoute => L4Route
  | KHTTPRoute => HTTPRoute
  | KPodMonitor | KCluster => Unstructured
  end.

Definition kind_name (k : kind) : string :=
  match k with
  | KServer => "PowerDNSServer" | KZone => "Zone" | KRRSet => "RRSet" | KDNSDist => "DNSDist"
  | KSecret => "Secret" | KConfigMap => "ConfigMap" | KService => "Service"
  | KDeployment => "Deployment" | KJob => "Job" | KPDB => "PodDisruptionBudget"
  | KNetworkPolicy => "NetworkPolicy" | KTCPRoute => "TCPRoute" | KUDPRoute => "UDPRoute"
  | KHTTPRoute => "HTTPRoute" | KPodMonitor => "PodMonitor" | KCluster => "Cluster"
  end.

(** client.Object's metadata accessors. *)
Definition get_meta (k : kind) : obj_of k -> ObjectMeta :=
  match k with
  | KServer => srv_Meta
  | KZone => zn_Meta
  | KRRSet => rr_Meta
  | KDNSDist => dd_Meta
  | KSecret => sec_Meta
  | KConfigMap => cm_Meta
  | KService => svc_Meta
  | KDeployment => dep_Meta
  | KJob => job_Meta
  | KPDB => pdb_Meta
  | KNetworkPolicy => np_Meta
  | KTCPRoute | KUDPRoute => l4_Meta
  | KHTTPRoute => hr_Meta
  | KPodMonitor | KCluster => u_Meta
  end.

Definition set_svc_Meta (m : ObjectMeta) (s : Service) : Service :=
  {| svc_Meta := m; svc_Spec := svc_Spec s; svc_Ingress := svc_Ingress s |}.
Definition set_svc_Spec (p : ServiceSpec) (s : Service) : Service :=
  {| svc_Meta := svc_Meta s; svc_Spec := p; svc_Ingress := svc_Ingress s |}.
Definition set_cm_Data (d : strmap) (c : ConfigMap) : ConfigMap :=
  {| cm_Meta := cm_Meta c; cm_Data := d |}.
Definition set_sec_Data (d : gomap string) (c : Secret) : Secret :=
  {| sec_Meta := sec_Meta c; sec_Type := sec_Type c; sec_Data := d |}.

Definition set_meta (k : kind) : ObjectMeta -> obj_of k -> obj_of k :=
  match k with
  | KServer => set_srv_Meta
  | KZone => set_zn_Meta
  | KRRSet => set_rr_Meta
  | KDNSDist => set_dd_Meta
  | KSecret => fun m o => {| sec_Meta := m; sec_Type := sec_Type o; sec_Data := sec_Data o |}
  | KConfigMap => fun m o => {| cm_Meta := m; cm_Data := cm_Data o |}
  | KService => set_svc_Meta
  | KDeployment => fun m o => {|
      dep_Meta := m; dep_Replicas := dep_Replicas o; dep_Selector := dep_Selector o;
      dep_Strategy := dep_Strategy o; dep_Template := dep_Template o;
      dep_ReadyReplicas := dep_ReadyReplicas o; dep_AvailableReplicas := dep_AvailableReplicas o |}
  | KJob => fun m o => {|
      job_Meta := m; job_BackoffLimit := job_BackoffLimit o;
      job_TTLSecondsAfterFinished := job_TTLSecondsAfterFinished o; job_Template := job_Template o;
      job_Succeeded := job_Succeeded o; job_Conditions := job_Conditions o |}
  | KPDB => fun m o => {|
      pdb_Meta := m; pdb_Spec_MinAvailable := pdb_Spec_MinAvailable o; pdb_Selector := pdb_Selector o |}
  | KNetworkPolicy => fun m o => {| np_Meta := m; np_Spec := np_Spec o |}
  | KTCPRoute | KUDPRoute => fun m o => {|
      l4_Meta := m; l4_ParentRefs := l4_ParentRefs o; l4_Rules := l4_Rules o |}
  | KHTTPRoute => fun m o => {|
      hr_Meta := m; hr_ParentRefs := hr_ParentRefs o; hr_Hostnames := hr_Hostnames o; hr_Rules := hr_Rules o |}
  | KPodMonitor | KCluster => fun m o => {|
      u_GVK := u_GVK o; u_Meta := m; u_Spec := u_Spec o; u_Status := u_Status o |}
  end.

(** The key of an object of any kind. *)
Definition obj_key (k : kind) (o : obj_of k) : NamespacedName := meta_key (get_meta k o).

Lemma get_set_meta k m o : get_meta k (set_meta k m o) = m.
Proof. by destruct k. Qed.
