(* ===== verification/Samples.v ===== *)
(** * Sample resources

    Concrete resources at which the witnesses of the theorems are evaluated:
    a minimal PowerDNSServer, Zone, RRSet and DNSDist with every optional
    field unset. *)

From S2P Require Import Prelude GoStd Meta ApiTypes.

Open Scope stdpp_scope.
Open Scope Z_scope.

Definition sample_resources : ResourceRequirements := {| rr_Requests := None; rr_Limits := None |}.

Definition sample_scheduling : SchedulingSpec := {|
  sch_NodeSelector := ∅; sch_Tolerations := []; sch_PriorityClassName := ""; sch_SpreadAcrossZones := false |}.

Definition sample_dns : DNSSpec := {| dns_Exposure := ""; dns_LoadBalancer := None; dns_Gateway := None |}.

Definition sample_server_spec : PowerDNSServerSpec := {|
  ps_Replicas := Some 3; ps_Image := ""; ps_Resources := sample_resources;
  ps_Backend := {| be_Type := BackendPostgres; be_Postgres := None |};
  ps_DNS := sample_dns;
  ps_API := {| api_Port := 0; api_APIKeySecretRef := None; api_Gateway := None |};
  ps_Scheduling := sample_scheduling;
  ps_Observability := {| obs_PodMonitor := {| pms_Enabled := false; pms_Interval := ""; pms_Labels := ∅ |} |};
  ps_NetworkPolicy := {| nps_Enabled := false; nps_AdditionalAllowedAPINamespaces := [] |};
  ps_ZoneManagement := {| zms_AllowedNamespaces := [] |};
  ps_PodDisruptionBudget := None;
  ps_ExtraSettings := [] |}.

Definition sample_server_status : PowerDNSServerStatus := {|
  pst_Phase := ""; pst_Ready := false; pst_DNSEndpoint := ""; pst_APIEndpoint := "";
  pst_APIKeySecretName := ""; pst_BackendSecretName := ""; pst_SchemaApplied := false;
  pst_DesiredReplicas := 0; pst_ReadyReplicas := 0; pst_ConfigHash := ""; pst_Conditions := [];
  pst_FailureMessage := "" |}.

Definition sample_server : PowerDNSServer := {|
  srv_Meta := new_meta "ns1" "dns" ∅; srv_Spec := sample_server_spec; srv_Status := sample_server_status |}.

(** The same server once it serves. *)
Definition sample_ready_status : PowerDNSServerStatus := {|
  pst_Phase := PhaseReady; pst_Ready := true; pst_DNSEndpoint := "10.0.0.1:53";
  pst_APIEndpoint := "http://ns1-api.dns.svc:8081";
  pst_APIKeySecretName := "ns1-api-key"; pst_BackendSecretName := "ns1-backend"; pst_SchemaApplied := true;
  pst_DesiredReplicas := 3; pst_ReadyReplicas := 3; pst_ConfigHash := ""; pst_Conditions := [];
  pst_FailureMessage := "" |}.
Definition sample_ready_server : PowerDNSServer := set_srv_Status sample_ready_status sample_server.

Definition sample_zone_spec : ZoneSpec := {|
  zs_ServerRef := {| ref_Name := "ns1"; ref_Namespace := "" |}; zs_ZoneName := "example.org";
  zs_Kind := ZoneKindNative; zs_Masters := None; zs_Nameservers := Some ["ns1.example.org"];
  zs_SOA := None; zs_DNSSEC := {| dnssec_Enabled := false |}; zs_DeletionPolicy := DeletionPolicyDelete |}.
Definition sample_zone_status : ZoneStatus := {|
  zst_Phase := ""; zst_Serial := 0; zst_DSRecords := []; zst_ObservedGeneration := 0;
  zst_Conditions := []; zst_FailureMessage := "" |}.
Definition sample_zone : Zone := {|
  zn_Meta := new_meta "example" "dns" ∅; zn_Spec := sample_zone_spec; zn_Status := sample_zone_status |}.

Definition sample_rrset_spec : RRSetSpec := {|
  rs_ZoneRef := {| ref_Name := "example"; ref_Namespace := "" |}; rs_Name := "www";
  rs_Type := "A"; rs_TTL := None; rs_Records := ["192.0.2.1"; "192.0.2.2"];
  rs_DeletionPolicy := DeletionPolicyDelete |}.
Definition sample_rrset_status : RRSetStatus := {|
  rst_ObservedGeneration := 0; rst_Conditions := []; rst_FailureMessage := "" |}.
Definition sample_rrset : RRSet := {|
  rr_Meta := new_meta "www" "dns" ∅; rr_Spec := sample_rrset_spec; rr_Status := sample_rrset_status |}.

Definition sample_dnsdist_spec : DNSDistSpec := {|
  ds_Replicas := Some 2; ds_Image := ""; ds_Resources := sample_resources; ds_Scheduling := sample_scheduling;
  ds_BackendRefs := [{| ref_Name := "ns1"; ref_Namespace := "" |}];
  ds_DNS := {| dns_Exposure := DNSExposureLoadBalancer;
    dns_LoadBalancer := Some {| lb_IP := ""; lb_Annotations := ∅; lb_ExternalTrafficPolicy := "";
      lb_AdditionalServices := [{| als_NameSuffix := "2"; als_IP := ""; als_Annotations := ∅;
                                   als_ExternalTrafficPolicy := "" |}] |};
    dns_Gateway := None |};
  ds_Cache := {| cache_Enabled := None; cache_MaxEntries := None |};
  ds_RateLimit := {| rl_QPSPerClient := 0 |};
  ds_TLS := {| tls_DoT := {| tls_Enabled := false; tls_CertificateSecretRef := "" |};
               tls_DoH := {| tls_Enabled := false; tls_CertificateSecretRef := "" |} |};
  ds_PodDisruptionBudget := None |}.
Definition sample_dnsdist_status : DNSDistStatus := {|
  dst_Phase := ""; dst_DNSEndpoint := ""; dst_DesiredReplicas := 0; dst_ReadyReplicas := 0;
  dst_ObservedGeneration := 0; dst_Conditions := []; dst_FailureMessage := "" |}.
Definition sample_dnsdist : DNSDist := {|
  dd_Meta := new_meta "edge" "dns" ∅; dd_Spec := sample_dnsdist_spec; dd_Status := sample_dnsdist_status |}.
