(* ===== verification/Effects.v ===== *)
(** * Effects: what the operator asks of its environment

    A reconciler is a program over the operations it performs on the
    Kubernetes API server, on the PowerDNS HTTP API, on the event recorder and
    on the system's random source. The program is a finite tree of type
    [prog A]; the environment answers each operation.

    - [wp p Q] says that Q holds of the trace and the result of p whatever the
      environment answers: safety properties are stated with it.
    - [run h p w] executes p against a handler h with world w, so that
      properties of a run against a concrete or lawful environment can be
      stated and evaluated.

    The functions of client-go, apimachinery and controller-runtime that
    compute without talking to the environment are the fields of the class
    [Machinery]; what the sources rely on is the class [MachineryLaws]. *)

From S2P Require Import Prelude GoStd Meta ApiTypes KubeObjects.

Open Scope stdpp_scope.
Open Scope Z_scope.

(** ** net/http, at the level the client of PowerDNS uses it *)

(** A request: method, URL, the X-API-Key and Content-Type headers, and the
    JSON value of the body when there is one. *)
Record HttpRequest := {
  rq_Method : string;
  rq_URL : string;
  rq_APIKey : string;
  rq_ContentType : option string;
  rq_Body : option json;
}.

(** A response: status code and line, the bytes of the body, and what parsing
    the body as one JSON value gives. *)
Record HttpResponse := {
  resp_StatusCode : Z;
  resp_Status : string;
  resp_Body : string;
  resp_JSON : res json;
}.

(** Building the request fails, the transport fails, or a response arrives. *)
Inductive http_result :=
| HBadRequest (e : err)
| HTransport (e : err)
| HResponse (r : HttpResponse).

(** ** Operations *)

Inductive OperationResult := OpNone | OpCreated | OpUpdated.

Record KEvent := {
  ke_Object : kind * NamespacedName;
  ke_Type : string;
  ke_Reason : string;
  ke_Message : string;
}.
Definition EventTypeNormal : string := "Normal".
Definition EventTypeWarning : string := "Warning".

(** One operation and the type of its answer. Get, Update and StatusUpdate
    answer with the object as the server has it, which client-go decodes into
    the caller's variable. *)
Inductive op : Type -> Type :=
| OGet (k : kind) (key : NamespacedName) : op (res (obj_of k))
| OCreate (k : kind) (o : obj_of k) : op (option err)
| OUpdate (k : kind) (o : obj_of k) : op (res (obj_of k))
| OStatusUpdate (k : kind) (o : obj_of k) : op (res (obj_of k))
| ODelete (k : kind) (key : NamespacedName) (propagation : option string) : op (option err)
| OCreateOrUpdate (k : kind) (key : NamespacedName) (mutate : obj_of k -> res (obj_of k)) :
    op (res OperationResult)
| OListIndex (k : kind) (field value : string) : op (res (list (obj_of k)))
| OListLabels (k : kind) (namespace : string) (labels : strmap) : op (res (list (obj_of k)))
| ORecord (e : KEvent) : op unit
| ORandRead (n : nat) : op (res (list Ascii.ascii))
| OHttp (r : HttpRequest) : op http_result.

(** ** Programs *)

Inductive prog (A : Type) : Type :=
| Ret (a : A)
| Vis {X : Type} (o : op X) (k : X -> prog A).
Arguments Ret {A} a.
Arguments Vis {A X} o k.

Definition do_op {X} (o : op X) : prog X := Vis o Ret.

Fixpoint bind {A B} (p : prog A) (f : A -> prog B) : prog B :=
  match p with
  | Ret a => f a
  | Vis o k => Vis o (fun x => bind (k x) f)
  end.

Notation "'let!' x := p 'in' q" := (bind p (fun x => q))
  (at level 10, x pattern, p at level 100, q at level 200) : go_scope.

(** Return types that carry a Go error, for the idiom
    [if err != nil { return ..., err }]. *)
Class Fails (R : Type) := failing : err -> R.

(** ctrl.Result and the results of Reconcile. *)
Record Result := { Requeue : bool; RequeueAfter : Z }.
Definition no_requeue : Result := {| Requeue := false; RequeueAfter := 0 |}.
Abbreviation Outcome := (Result * option err)%type.

#[export] Instance Fails_outcome : Fails Outcome := fun e => (no_requeue, Some e).
#[export] Instance Fails_error : Fails (option err) := Some.
#[export] Instance Fails_res A : Fails (res A) := @Err A.

(** [try! x := p in q]: p returns a value or an error, which is returned. *)
Definition try_res {A R} `{Fails R} (p : prog (res A)) (f : A -> prog R) : prog R :=
  bind p (fun r => match r with Ok a => f a | Err e => Ret (failing e) end).
(** [check! p in q]: p returns an error or nil. *)
Definition try_err {R} `{Fails R} (p : prog (option err)) (f : prog R) : prog R :=
  bind p (fun e => match e with Some e => Ret (failing e) | None => f end).

Notation "'try!' x := p 'in' q" := (try_res p (fun x => q))
  (at level 10, x pattern, p at level 100, q at level 200) : go_scope.
Notation "'check!' p 'in' q" := (try_err p q)
  (at level 10, p at level 100, q at level 200) : go_scope.

(** fmt.Errorf of a prefix and %w around a call. *)
Definition wrap_err (pre : string) (e : err) : err := EWrap pre e "".
Definition wrapping (pre : string) (p : prog (option err)) : prog (option err) :=
  bind p (fun e => Ret (wrap_err pre <$> e)).
Definition wrapping_res {A} (pre : string) (p : prog (res A)) : prog (res A) :=
  bind p (fun r => Ret (match r with Ok a => Ok a | Err e => Err (wrap_err pre e) end)).

Definition done_ok : prog (option err) := Ret None.

(** A range loop whose body returns an error early. *)
Fixpoint for_each {A} (l : list A) (body : A -> prog (option err)) : prog (option err) :=
  match l with
  | [] => done_ok
  | x :: l => try_err (body x) (for_each l body)
  end.

(** Durations in nanoseconds. *)
Definition Second : Z := 1000000000.

(** ** Third-party functions that do not talk to the environment *)

(** fn again while it reports a conflict, at most n more times. *)
Fixpoint attempts (n : nat) (fn : prog (option err)) : prog (option err) :=
  match n with
  | O => fn
  | S n => bind fn (fun e =>
      match e with
      | Some e' => if IsConflict e' then attempts n fn else Ret e
      | None => Ret None
      end)
  end.

Class Machinery := {
  (* meta.SetStatusCondition *)
  SetStatusCondition : list Condition -> Condition -> list Condition;
  (* controllerutil.ContainsFinalizer, AddFinalizer, RemoveFinalizer *)
  ContainsFinalizer : ObjectMeta -> string -> bool;
  AddFinalizer : ObjectMeta -> string -> ObjectMeta;
  RemoveFinalizer : ObjectMeta -> string -> ObjectMeta;
  (* controllerutil.SetControllerReference: owner kind and metadata, object *)
  SetControllerReference : kind -> ObjectMeta -> ObjectMeta -> res ObjectMeta;
  (* retry.RetryOnConflict with retry.DefaultRetry *)
  RetryOnConflict : prog (option err) -> prog (option err);
  (* unstructured.NestedInt64: the value, whether it was found, or an error *)
  NestedInt64 : json -> list string -> res (option Z);
}.

Class MachineryLaws `{!Machinery} : Prop := {
  SetStatusCondition_same l c : find_cond (c_Type c) (SetStatusCondition l c) = Some c;
  SetStatusCondition_other l c t :
    t <> c_Type c -> find_cond t (SetStatusCondition l c) = find_cond t l;
  ContainsFinalizer_add m f : ContainsFinalizer (AddFinalizer m f) f = true;
  AddFinalizer_frame m f : exists l, AddFinalizer m f = set_om_Finalizers l m;
  ContainsFinalizer_remove m f : ContainsFinalizer (RemoveFinalizer m f) f = false;
  RemoveFinalizer_frame m f : exists l, RemoveFinalizer m f = set_om_Finalizers l m;
  SetControllerReference_frame k owner m m' :
    SetControllerReference k owner m = Ok m' -> exists l, m' = set_om_OwnerReferences l m;
  RetryOnConflict_unrolls fn : exists n, RetryOnConflict fn = attempts n fn;
}.

(** ** Traces *)

(** An operation together with the answer it got. *)
Record obs := Ev { ev_type : Type; ev_op : op ev_type; ev_answer : ev_type }.
Arguments Ev {ev_type} ev_op ev_answer.

(** Q holds of the trace and the result of p for all answers. *)
Fixpoint wp {A} (p : prog A) (Q : list obs -> A -> Prop) : Prop :=
  match p with
  | Ret a => Q [] a
  | Vis o k => forall x, wp (k x) (fun t a => Q (Ev o x :: t) a)
  end.

(** The HTTP requests of a trace. *)
Definition http_req (e : obs) : option HttpRequest :=
  match ev_op e with OHttp r => Some r | _ => None end.
Definition http_reqs (t : list obs) : list HttpRequest := omap http_req t.

(** The HTTP exchanges of a trace. *)
Definition http_exchange (e : obs) : option (HttpRequest * http_result) :=
  match ev_op e in op X return X -> option (HttpRequest * http_result) with
  | OHttp r => fun x => Some (r, x)
  | _ => fun _ => None
  end (ev_answer e).
Definition http_exchanges (t : list obs) : list (HttpRequest * http_result) := omap http_exchange t.

(** The writes to the API server of a trace: verb, kind and key. *)
Inductive verb := VCreate | VUpdate | VStatusUpdate | VDelete | VCreateOrUpdate.
#[export] Instance verb_eq_dec : EqDecision verb.
Proof. solve_decision. Defined.
Definition kube_write (e : obs) : option (verb * kind * NamespacedName) :=
  match ev_op e with
  | OCreate k o => Some (VCreate, k, obj_key k o)
  | OUpdate k o => Some (VUpdate, k, obj_key k o)
  | OStatusUpdate k o => Some (VStatusUpdate, k, obj_key k o)
  | ODelete k key _ => Some (VDelete, k, key)
  | OCreateOrUpdate k key _ => Some (VCreateOrUpdate, k, key)
  | _ => None
  end.
Definition kube_writes (t : list obs) : list (verb * kind * NamespacedName) := omap kube_write t.

(** Every operation of p satisfies P, whatever the environment answers. *)
Fixpoint all_ops {A} (P : forall X, op X -> Prop) (p : prog A) : Prop :=
  match p with
  | Ret _ => True
  | Vis o k => P _ o /\ forall x, all_ops P (k x)
  end.

(** ** Running against a handler *)

Definition handler (W : Type) := forall X, op X -> W -> X * W.

Fixpoint run {W A} (h : handler W) (p : prog A) (w : W) : list obs * A * W :=
  match p with
  | Ret a => ([], a, w)
  | Vis o k =>
      let '(x, w1) := h _ o w in
      let '(t, a, w2) := run h (k x) w1 in
      (Ev o x :: t, a, w2)
  end.
Definition run_trace {W A} (h : handler W) (p : prog A) (w : W) : list obs := (run h p w).1.1.
Definition run_result {W A} (h : handler W) (p : prog A) (w : W) : A := (run h p w).1.2.
Definition run_world {W A} (h : handler W) (p : prog A) (w : W) : W := (run h p w).2.

(** ** Laws of the program type *)

Lemma bind_ret {A B} (a : A) (f : A -> prog B) : bind (Ret a) f = f a.
Proof. done. Qed.

Lemma wp_mono {A} (p : prog A) (Q R : list obs -> A -> Prop) :
  (forall t a, Q t a -> R t a) -> wp p Q -> wp p R.
Proof.
  revert Q R. induction p as [a|X o k IH]; intros Q R HQR; simpl; [by apply HQR|].
  intros H x. eapply IH; [|apply H]. intros t a. apply HQR.
Qed.

Lemma wp_bind {A B} (p : prog A) (f : A -> prog B) Q :
  wp (bind p f) Q <-> wp p (fun t1 a => wp (f a) (fun t2 b => Q (t1 ++ t2) b)).
Proof.
  revert Q. induction p as [a|X o k IH]; intros Q; simpl; [done|].
  split; intros H x; by apply (IH x (fun t b => Q (Ev o x :: t) b)), H.
Qed.

Lemma wp_conj {A} (p : prog A) Q R : wp p Q -> wp p R -> wp p (fun t a => Q t a /\ R t a).
Proof.
  revert Q R. induction p as [a|X o k IH]; intros Q R HQ HR; simpl; [done|].
  intros x. by apply (IH x); [apply HQ|apply HR].
Qed.

(** A property of every trace is a property of every run. *)
Lemma run_wp {W A} (h : handler W) (p : prog A) (w : W) Q :
  wp p Q -> Q (run_trace h p w) (run_result h p w).
Proof.
  revert Q w. induction p as [a|X o k IH]; intros Q w; simpl; [done|].
  intros H. unfold run_trace, run_result in *. simpl.
  destruct (h X o w) as [x w1]. specialize (IH x (fun t a => Q (Ev o x :: t) a) w1 (H x)).
  by destruct (run h (k x) w1) as [[t a] w2].
Qed.

Lemma run_bind {W A B} (h : handler W) (p : prog A) (f : A -> prog B) (w : W) :
  run h (bind p f) w =
  let '(t1, a, w1) := run h p w in
  let '(t2, b, w2) := run h (f a) w1 in (t1 ++ t2, b, w2).
Proof.
  revert w. induction p as [a|X o k IH]; intros w; simpl.
  - by destruct (run h (f a) w) as [[t b] w'].
  - destruct (h X o w) as [x w1]. rewrite IH.
    destruct (run h (k x) w1) as [[t1 a] w2].
    by destruct (run h (f a) w2) as [[t2 b] w3].
Qed.

Lemma all_ops_bind {A B} P (p : prog A) (f : A -> prog B) :
  all_ops P p -> (forall a, all_ops P (f a)) -> all_ops P (bind p f).
Proof. intros Hp Hf. induction p as [a|X o k IH]; simpl in *; naive_solver. Qed.

Lemma all_ops_mono {A} (P P' : forall X, op X -> Prop) (p : prog A) :
  (forall X o, P X o -> P' X o) -> all_ops P p -> all_ops P' p.
Proof. intros HP. induction p as [a|X o k IH]; simpl; naive_solver. Qed.

Lemma all_ops_try_res {A R} `{Fails R} P (p : prog (res A)) (f : A -> prog R) :
  all_ops P p -> (forall a, all_ops P (f a)) -> all_ops P (try_res p f).
Proof. intros Hp Hf. apply all_ops_bind; [done|]. intros [a|e]; [apply Hf|done]. Qed.

Lemma all_ops_try_err {R} `{Fails R} P p (f : prog R) :
  all_ops P p -> all_ops P f -> all_ops P (try_err p f).
Proof. intros Hp Hf. apply all_ops_bind; [done|]. by intros [e|]. Qed.

Lemma all_ops_for_each {A} P (l : list A) body :
  (forall x, x ∈ l -> all_ops P (body x)) -> all_ops P (for_each l body).
Proof.
  induction l as [|x l IH]; intros Hb; [done|]. simpl. apply all_ops_try_err.
  - apply Hb. set_solver.
  - apply IH. intros y Hy. apply Hb. set_solver.
Qed.

Lemma all_ops_attempts P n fn : all_ops P fn -> all_ops P (attempts n fn).
Proof.
  intros Hf. induction n as [|n IH]; [done|]. apply all_ops_bind; [done|].
  intros [e|]; [|done]. by destruct (IsConflict e).
Qed.

Lemma all_ops_retry `{MachineryLaws} P fn : all_ops P fn -> all_ops P (RetryOnConflict fn).
Proof. intros Hf. destruct (RetryOnConflict_unrolls fn) as [n ->]. by apply all_ops_attempts. Qed.

Lemma all_ops_wrapping P pre p : all_ops P p -> all_ops P (wrapping pre p).
Proof. intros. by apply all_ops_bind. Qed.

(** The operations that occur in a trace are operations of the program. *)
Lemma all_ops_wp {A} P (p : prog A) :
  all_ops P p -> wp p (fun t _ => Forall (fun e => P (ev_type e) (ev_op e)) t).
Proof.
  induction p as [a|X o k IH]; simpl; [by constructor|].
  intros [Ho Hk] x. eapply wp_mono; [|apply IH, Hk]. by constructor.
Qed.

Lemma http_reqs_app t1 t2 : http_reqs (t1 ++ t2) = http_reqs t1 ++ http_reqs t2.
Proof. apply omap_app. Qed.

Lemma kube_writes_app t1 t2 : kube_writes (t1 ++ t2) = kube_writes t1 ++ kube_writes t2.
Proof. apply omap_app. Qed.

#[export] Hint Resolve all_ops_bind all_ops_try_res all_ops_try_err all_ops_for_each
  all_ops_retry all_ops_wrapping : aether.

(** What retrying fn looks like from outside: attempts that ended in a
    conflict, then a last one, whose result is the result. *)
Inductive retried (shape : list obs -> option err -> Prop) : list obs -> option err -> Prop :=
| retried_last t r : shape t r -> retried shape t r
| retried_again t1 e t2 r :
    shape t1 (Some e) -> IsConflict e = true -> retried shape t2 r -> retried shape (t1 ++ t2) r.

Lemma wp_attempts shape n fn : wp fn shape -> wp (attempts n fn) (retried shape).
Proof.
  intros Hf. induction n as [|n IH]; simpl.
  - eapply wp_mono; [|done]. by constructor.
  - apply wp_bind. eapply wp_mono; [|apply Hf]. intros t [e|] Hs; cbn beta iota.
    + destruct (IsConflict e) eqn:Ec.
      * eapply wp_mono; [|apply IH]. intros t2 r. by apply (retried_again _ _ e).
      * cbn [wp]. rewrite app_nil_r. by constructor.
    + cbn [wp]. rewrite app_nil_r. by constructor.
Qed.

Lemma wp_retry `{MachineryLaws} shape fn : wp fn shape -> wp (RetryOnConflict fn) (retried shape).
Proof. intros Hf. destruct (RetryOnConflict_unrolls fn) as [n ->]. by apply wp_attempts. Qed.

Lemma exchanges_all_ops (P : forall X, op X -> Prop) t :
  Forall (fun e => P (ev_type e) (ev_op e)) t -> Forall (fun x => P _ (OHttp x.1)) (http_exchanges t).
Proof.
  induction t as [|[X o x] t IH]; [constructor|]. intros [Ho Ht]%Forall_cons.
  destruct o; try by apply IH. constructor; [done|by apply IH].
Qed.

Lemma wp_always {A} (p : prog A) (Q : list obs -> A -> Prop) : (forall t a, Q t a) -> wp p Q.
Proof. revert Q. induction p as [a|X o k IH]; intros Q HQ; simpl; [done|]. intros x. apply IH. auto. Qed.

(** A program none of whose operations is an HTTP request. *)
Definition no_http {A} (p : prog A) : Prop :=
  all_ops (fun _ o => match o with OHttp _ => False | _ => True end) p.

Lemma no_http_wp {A} (p : prog A) : no_http p -> wp p (fun t _ => http_exchanges t = []).
Proof.
  intros Hp. eapply wp_mono; [|by apply all_ops_wp]. intros t a HF. cbn beta in HF.
  induction t as [|[X o x] t IH]; [done|]. apply Forall_cons in HF as [Ho HF].
  destruct o; try done; by apply IH.
Qed.

Lemma http_exchanges_app t1 t2 : http_exchanges (t1 ++ t2) = http_exchanges t1 ++ http_exchanges t2.
Proof. apply omap_app. Qed.

Lemma http_exchanges_cons X (o : op X) x t :
  match o with OHttp _ => False | _ => True end -> http_exchanges (Ev o x :: t) = http_exchanges t.
Proof. by destruct o. Qed.

Lemma http_reqs_exchanges t : http_reqs t = map fst (http_exchanges t).
Proof. induction t as [|[X o x] t IH]; [done|]. destruct o; simpl; by rewrite IH. Qed.

Lemma wp_vis {A X} (o : op X) (k : X -> prog A) (Q : list obs -> A -> Prop) :
  (forall x, wp (k x) (fun t a => Q (Ev o x :: t) a)) -> wp (Vis o k) Q.
Proof. done. Qed.

Lemma wp_ret {A} (a : A) (Q : list obs -> A -> Prop) : Q [] a -> wp (Ret a) Q.
Proof. done. Qed.

Lemma wp_bind_bind {A B C} (p : prog A) (f : A -> prog B) (g : B -> prog C) (Q : list obs -> C -> Prop) :
  wp (bind p (fun a => bind (f a) g)) Q -> wp (bind (bind p f) g) Q.
Proof.
  revert Q. induction p as [a|X o k IH]; intros Q; simpl; [done|]. intros Hp x. by apply IH.
Qed.

(** Symbolic execution: perform the operations at the head of the program,
    and follow every branch of its conditionals. Programs that are not to be
    entered are left folded by the caller. *)
Ltac wp_case x :=
  first [ match x with context [match ?y with _ => _ end] => wp_case y end
        | destruct x eqn:? ].
Ltac wp_run :=
  repeat first
  [ progress cbn [bind]
  | progress unfold do_op, try_res, try_err, done_ok, wrapping_res, wrapping, failing, Fails_res, Fails_error,
      Fails_outcome
  | match goal with
    | |- wp (Vis _ _) _ => apply wp_vis; intros ?; cbn beta
    | |- wp (bind (bind _ _) _) _ => apply wp_bind_bind
    | |- wp (Ret _) _ => apply wp_ret; cbn beta
    | |- wp (match ?x with _ => _ end) _ => wp_case x
    | |- wp (bind (match ?x with _ => _ end) _) _ => wp_case x
    end ].

(** Every operation of a program satisfies P, followed through its branches. *)
Ltac all_ops_run :=
  repeat first
  [ progress intros
  | progress unfold do_op, done_ok, wrapping_res, wrapping
  | match goal with
    | |- all_ops _ (bind _ _) => apply all_ops_bind
    | |- all_ops _ (try_res _ _) => apply all_ops_try_res
    | |- all_ops _ (try_err _ _) => apply all_ops_try_err
    | |- all_ops _ (for_each _ _) => apply all_ops_for_each
    | |- all_ops _ (Vis _ _) => split
    | |- all_ops _ (Ret _) => exact I
    | |- all_ops _ (match ?x with _ => _ end) => wp_case x
    end ].

(** The exchanges of a concrete trace. *)
Ltac exchanges :=
  unfold http_exchanges; cbn [omap list_omap http_exchange ev_type ev_op ev_answer].

(** An event is in a concrete trace. *)
Ltac in_trace :=
  first [assumption | apply list_elem_of_here | apply list_elem_of_further; in_trace
        | apply elem_of_app; left; assumption | apply elem_of_app; right; in_trace].
