(* ===== verification/RefMachinery.v ===== *)
(** * A reference instance of the third-party functions

    Concrete functions that behave as the documentation of apimachinery and
    controller-runtime says, with the proof that they satisfy the laws the
    development relies on. The witnesses of the theorems use them; no theorem
    depends on them. *)

From S2P Require Import Prelude GoStd Meta ApiTypes KubeObjects Effects.

Open Scope go_scope.
Open Scope stdpp_scope.
Open Scope Z_scope.

Fixpoint ref_SetStatusCondition (l : list Condition) (c : Condition) : list Condition :=
  match l with
  | [] => [c]
  | x :: l => if c_Type x == c_Type c then c :: l else x :: ref_SetStatusCondition l c
  end.

Definition ref_ContainsFinalizer (m : ObjectMeta) (f : string) : bool := bool_decide (f ∈ om_Finalizers m).
Definition ref_AddFinalizer (m : ObjectMeta) (f : string) : ObjectMeta :=
  if ref_ContainsFinalizer m f then m else set_om_Finalizers (om_Finalizers m ++ [f]) m.
Definition ref_RemoveFinalizer (m : ObjectMeta) (f : string) : ObjectMeta :=
  set_om_Finalizers (base.filter (fun g => g <> f) (om_Finalizers m)) m.

Definition ref_SetControllerReference (k : kind) (owner m : ObjectMeta) : res ObjectMeta :=
  let new := {| or_Kind := kind_name k; or_Name := om_Name owner; or_Controller := true |} in
  match List.find or_Controller (om_OwnerReferences m) with
  | Some o =>
      if (or_Kind o == kind_name k) && (or_Name o == om_Name owner) then Ok m
      else Err (EText "already owned by another controller")
  | None => Ok (set_om_OwnerReferences (om_OwnerReferences m ++ [new]) m)
  end.

Fixpoint ref_NestedInt64 (j : json) (path : list string) : res (option Z) :=
  match path, j with
  | [], JNum n => Ok (Some n)
  | [], _ => Err (EText "accessor error: not an int64")
  | p :: path, JObj l =>
      match map_get l p with Some j => ref_NestedInt64 j path | None => Ok None end
  | _ :: _, JNull => Ok None
  | _ :: _, _ => Err (EText "accessor error: not a map")
  end.

#[export] Instance RefMachinery : Machinery := {|
  SetStatusCondition := ref_SetStatusCondition;
  ContainsFinalizer := ref_ContainsFinalizer;
  AddFinalizer := ref_AddFinalizer;
  RemoveFinalizer := ref_RemoveFinalizer;
  SetControllerReference := ref_SetControllerReference;
  RetryOnConflict := attempts 4;
  NestedInt64 := ref_NestedInt64;
|}.

Lemma set_om_Finalizers_same m : set_om_Finalizers (om_Finalizers m) m = m.
Proof. by destruct m. Qed.

Lemma set_om_OwnerReferences_same m : set_om_OwnerReferences (om_OwnerReferences m) m = m.
Proof. by destruct m. Qed.

#[export] Instance RefMachinery_laws : MachineryLaws.
Proof.
  split.
  - intros l c. change (@SetStatusCondition RefMachinery) with ref_SetStatusCondition. induction l as [|x l IH]; simpl; unfold find_cond in *; simpl.
    + by rewrite bool_decide_eq_true_2.
    + destruct (bool_decide (c_Type x = c_Type c)) eqn:E; simpl.
      * by rewrite bool_decide_eq_true_2.
      * by rewrite E.
  - intros l c t Ht. change (@SetStatusCondition RefMachinery) with ref_SetStatusCondition.
    induction l as [|x l IH]; simpl; unfold find_cond in *; simpl.
    + by rewrite bool_decide_eq_false_2 by done.
    + destruct (bool_decide (c_Type x = c_Type c)) eqn:E; simpl.
      * bool_prop. rewrite !(bool_decide_eq_false_2 (_ = t)) by congruence. done.
      * by rewrite IH.
  - intros m f. simpl. unfold ref_AddFinalizer. destruct (ref_ContainsFinalizer m f) eqn:E; [done|].
    apply bool_decide_eq_true_2. simpl. set_solver.
  - intros m f. simpl. unfold ref_AddFinalizer. destruct (ref_ContainsFinalizer m f); [|by eexists].
    exists (om_Finalizers m). by rewrite set_om_Finalizers_same.
  - intros m f. apply bool_decide_eq_false_2. simpl. rewrite list_elem_of_filter. naive_solver.
  - intros m f. by eexists.
  - intros k o m m'. simpl. unfold ref_SetControllerReference.
    destruct (List.find _ _) as [r|].
    + destruct (_ && _); intros [= <-]. exists (om_OwnerReferences m). by rewrite set_om_OwnerReferences_same.
    + intros [= <-]. by eexists.
  - intros fn. by exists 4%nat.
Qed.
