(* ===== verification/Environment.v ===== *)
(** * Environment: programs against an environment with a state

    [wp] quantifies over all answers. Here the environment has a state, and a
    relation says which answers it may give in a state and what state it is in
    afterwards. [exec] is the runs of a program against it, [wpe] the
    postconditions of all of them; [steps] are sequences of passes. A concrete
    handler that refines the relation has its runs among the executions. *)

From S2P Require Import Prelude GoStd Meta ApiTypes KubeObjects Effects.

Open Scope go_scope.
Open Scope stdpp_scope.

(** An environment over states St: state, operation, answer, next state. *)
Definition environment (St : Type) := forall X, op X -> St -> X -> St -> Prop.

Section env.
Context {St : Type} (R : environment St).

(** p can run from st to the result a, leaving the state st'. *)
Fixpoint exec {A} (p : prog A) (st : St) (a : A) (st' : St) : Prop :=
  match p with
  | Ret b => a = b /\ st' = st
  | Vis o k => exists x st1, R _ o st x st1 /\ exec (k x) st1 a st'
  end.

(** Q holds of the last state and the result of every run of p from st. *)
Fixpoint wpe {A} (p : prog A) (st : St) (Q : St -> A -> Prop) : Prop :=
  match p with
  | Ret a => Q st a
  | Vis o k => forall x st1, R _ o st x st1 -> wpe (k x) st1 Q
  end.

Lemma wpe_exec {A} (p : prog A) st Q :
  wpe p st Q <-> forall a st', exec p st a st' -> Q st' a.
Proof.
  revert st. induction p as [b|X o k IH]; intros st; simpl.
  - split; [by intros HQ a st' [-> ->]|]. intros HQ. by apply HQ.
  - split.
    + intros Hp a st' (x & st1 & HR & He). by apply (IH x st1); [apply Hp|].
    + intros HQ x st1 HR. apply IH. intros a st' He. apply HQ. eauto.
Qed.

Lemma wpe_mono {A} (p : prog A) st (Q Q' : St -> A -> Prop) :
  (forall st' a, Q st' a -> Q' st' a) -> wpe p st Q -> wpe p st Q'.
Proof. intros HQ. rewrite !wpe_exec. eauto. Qed.

Lemma wpe_conj {A} (p : prog A) st (Q Q' : St -> A -> Prop) :
  wpe p st Q -> wpe p st Q' -> wpe p st (fun st' a => Q st' a /\ Q' st' a).
Proof. rewrite !wpe_exec. eauto. Qed.

Lemma wpe_bind {A B} (p : prog A) (f : A -> prog B) st Q :
  wpe (bind p f) st Q <-> wpe p st (fun st1 a => wpe (f a) st1 Q).
Proof.
  revert st. induction p as [a|X o k IH]; intros st; simpl; [done|].
  split; intros Hp x st1 HR; apply IH; eauto.
Qed.

(** A bind whose first program is known by a postcondition. *)
Lemma wpe_bind_post {A B} (P : St -> A -> Prop) (p : prog A) (f : A -> prog B) st Q :
  wpe p st P -> (forall st1 a, P st1 a -> wpe (f a) st1 Q) -> wpe (bind p f) st Q.
Proof. intros Hp Hf. apply wpe_bind. eapply wpe_mono; [|exact Hp]. auto. Qed.

Lemma wpe_vis {A X} (o : op X) (k : X -> prog A) st Q :
  (forall x st1, R _ o st x st1 -> wpe (k x) st1 Q) -> wpe (Vis o k) st Q.
Proof. done. Qed.

Lemma wpe_ret {A} (a : A) st (Q : St -> A -> Prop) : Q st a -> wpe (Ret a) st Q.
Proof. done. Qed.

Lemma wpe_bind_bind {A B C} (p : prog A) (f : A -> prog B) (g : B -> prog C) st Q :
  wpe (bind p (fun a => bind (f a) g)) st Q -> wpe (bind (bind p f) g) st Q.
Proof. rewrite !wpe_bind. apply wpe_mono. intros st' a. by rewrite wpe_bind. Qed.

(** What holds whatever the environment answers holds against this one. *)
Lemma wpe_wp {A} (p : prog A) st (Q : A -> Prop) : wp p (fun _ a => Q a) -> wpe p st (fun _ a => Q a).
Proof. revert st. induction p as [a|X o k IH]; intros st; simpl; [done|]. eauto. Qed.

(** Operations that keep the states of I keep them along the program. *)
Lemma wpe_all_ops {A} (P : forall X, op X -> Prop) (I : St -> Prop) (p : prog A) st :
  (forall X (o : op X) st x st1, P X o -> I st -> R _ o st x st1 -> I st1) ->
  all_ops P p -> I st -> wpe p st (fun st' _ => I st').
Proof.
  intros Hstep. revert st. induction p as [a|X o k IH]; intros st; simpl; [done|].
  intros [Ho Hk] HI x st1 HR. apply IH; [done|]. by eapply Hstep.
Qed.

(** A loop whose body succeeds and keeps I. *)
Lemma wpe_for_each {A} (I : St -> Prop) (l : list A) body st :
  (forall x st, x ∈ l -> I st -> wpe (body x) st (fun st' e => I st' /\ e = None)) ->
  I st -> wpe (for_each l body) st (fun st' e => I st' /\ e = None).
Proof.
  revert st. induction l as [|x l IH]; intros st Hb HI; [done|]. simpl. unfold try_err.
  eapply wpe_bind_post; [apply Hb; [left|done]|]. intros st1 e [HI1 ->].
  apply IH; [|done]. intros y st2 Hy. apply Hb. by right.
Qed.

(** ** Concrete handlers *)

Context {W : Type} (h : handler W) (abs : W -> St).

(** The handler answers as the relation allows. *)
Definition refines : Prop :=
  forall X (o : op X) w, R _ o (abs w) (h _ o w).1 (abs (h _ o w).2).

(** The handler answers as the relation allows along this run. *)
Fixpoint allowed {A} (p : prog A) (w : W) : Prop :=
  match p with
  | Ret _ => True
  | Vis o k => R _ o (abs w) (h _ o w).1 (abs (h _ o w).2) /\ allowed (k (h _ o w).1) (h _ o w).2
  end.

Lemma allowed_exec {A} (p : prog A) w :
  allowed p w -> exec p (abs w) (run_result h p w) (abs (run_world h p w)).
Proof.
  unfold run_result, run_world. revert w. induction p as [a|X o k IH]; intros w; simpl; [done|]. intros [Ho Hk].
  destruct (h X o w) as [x w1]. exists x, (abs w1). split; [done|].
  specialize (IH x w1 Hk). by destruct (run h (k x) w1) as [[t a] w2].
Qed.

Lemma allowed_invariant {A} (I : W -> Prop) (p : prog A) w :
  (forall X (o : op X) w, I w -> R _ o (abs w) (h _ o w).1 (abs (h _ o w).2) /\ I (h _ o w).2) ->
  I w -> allowed p w.
Proof.
  intros Hh. revert w. induction p as [a|X o k IH]; intros w HI; simpl; [done|].
  destruct (Hh X o w HI) as [Ho HI']. by split; [|apply IH].
Qed.

Lemma run_exec {A} (p : prog A) w :
  refines -> exec p (abs w) (run_result h p w) (abs (run_world h p w)).
Proof. intros Hh. apply allowed_exec, (allowed_invariant (fun _ => True)); [|done]. by split. Qed.
End env.

(** A relation that allows more has more runs. *)
Lemma wpe_weaken {St A} (R R' : environment St) (p : prog A) st Q :
  (forall X (o : op X) st x st', R _ o st x st' -> R' _ o st x st') -> wpe R' p st Q -> wpe R p st Q.
Proof.
  intros HR. revert st. induction p as [a|X o k IH]; intros st; simpl; [done|]. eauto.
Qed.

(** ** Sequences of passes *)

(** Steps with labels, run one after the other. *)
Section steps.
Context {L St : Type} (step : L -> St -> St -> Prop).

Inductive steps : list L -> St -> St -> Prop :=
| steps_nil st : steps [] st st
| steps_cons l ls st st1 st' : step l st st1 -> steps ls st1 st' -> steps (l :: ls) st st'.

Lemma steps_invariant (I : St -> Prop) ls st st' :
  (forall l st st', I st -> step l st st' -> I st') -> steps ls st st' -> I st -> I st'.
Proof. intros Hstep. induction 1; eauto. Qed.

(** A measure that no step raises and that each good step lowers reaches zero
    after as many good steps. *)
Lemma steps_measure (I : St -> Prop) (m : St -> nat) (good : L -> bool) ls st st' :
  (forall l st st', I st -> step l st st' -> I st' /\ (m st' <= m st)%nat
     /\ (good l = true -> (m st' <= pred (m st))%nat)) ->
  steps ls st st' -> I st -> (m st <= length (List.filter good ls))%nat -> I st' /\ m st' = 0%nat.
Proof.
  intros Hstep. induction 1 as [st|l ls st st1 st' H1 _ IH]; intros HI Hm.
  - split; [done|]. simpl in Hm. lia.
  - destruct (Hstep l st st1 HI H1) as (HI1 & Hle & Hgood). apply IH; [done|].
    simpl in Hm. destruct (good l); simpl in Hm; [|lia]. specialize (Hgood eq_refl). lia.
Qed.
End steps.

(** Symbolic execution against an environment: perform the operation at the
    head of the program and follow the branches; what the environment allowed
    is left in the context. *)
Ltac wpe_run :=
  repeat first
  [ progress cbn [bind]
  | progress unfold do_op, try_res, try_err, done_ok, wrapping_res, wrapping, failing, Fails_res, Fails_error,
      Fails_outcome
  | match goal with
    | |- wpe _ (Vis _ _) _ _ => apply wpe_vis; intros ? ? ?; cbn beta
    | |- wpe _ (bind (bind _ _) _) _ _ => apply wpe_bind_bind
    | |- wpe _ (Ret _) _ _ => apply wpe_ret; cbn beta
    | |- wpe _ (match ?x with _ => _ end) _ _ => wp_case x
    | |- wpe _ (bind (match ?x with _ => _ end) _) _ _ => wp_case x
    end ].
