(* ===== verification/PdnsClient.v ===== *)
(** * internal/pdnsclient: the client of the PowerDNS HTTP API

    The payload structs with the JSON values their struct tags produce and
    accept, the shared transport [do_req] (the Go method do), and one
    definition per exported method. The request body and the parsed response
    body are JSON values; the byte syntax of JSON is below this model. The
    texts of JSON decoding errors are abbreviated. *)

From Stdlib Require Import Ascii.
From S2P Require Import Prelude GoStd Meta ApiTypes KubeObjects Effects.

Open Scope go_scope.
Open Scope stdpp_scope.
Open Scope Z_scope.

(** ** Sentinels *)

Definition ErrNotFound : string := "pdns: not found".
Definition ErrUnreachable : string := "pdns: unreachable".
Definition ErrAlreadyExists : string := "pdns: already exists".

Definition isAlreadyExists (body : string) : bool :=
  let b := ToLower body in
  Contains b "already exists" || Contains b "duplicate key".

(** ** Data *)

Record Client := { cl_baseURL : string; cl_apiKey : string }.

Definition New (baseURL apiKey : string) : Client :=
  {| cl_baseURL := TrimSuffix baseURL "/"; cl_apiKey := apiKey |}.

Record PRecord := { prec_Content : string; prec_Disabled : bool }.

Record PRRSet := {
  prr_Name : string;
  prr_Type : string;
  prr_TTL : Z;
  prr_ChangeType : string;
  prr_Records : list PRecord;
}.

Record PZone := {
  pz_ID : string;
  pz_Name : string;
  pz_Kind : string;
  pz_Serial : Z;
  pz_Masters : slice string;
  pz_Nameservers : slice string;
  pz_DNSSEC : bool;
  pz_RRSets : list PRRSet;
}.

Record Cryptokey := {
  ck_ID : Z;
  ck_KeyType : string;
  ck_Active : bool;
  ck_DS : list string;
}.

Record ZoneUpdate := { zu_Kind : string; zu_Masters : slice string }.

#[export] Instance PRecord_eq_dec : EqDecision PRecord.
Proof. solve_decision. Defined.
#[export] Instance PRRSet_eq_dec : EqDecision PRRSet.
Proof. solve_decision. Defined.

(** ** Encoding: json.Marshal under the struct tags *)

(** An object of fields, each kept or dropped by omitempty. *)
Definition kept_field (f : bool * string * json) : option (string * json) :=
  if f.1.1 then Some (f.1.2, f.2) else None.
Definition mk_obj (l : list (bool * string * json)) : json := JObj (omap kept_field l).

Definition enc_strings (s : slice string) : json :=
  match s with None => JNull | Some l => JArr (map JStr l) end.
Definition nonempty {A} (l : list A) : bool := match l with [] => false | _ => true end.

Definition enc_record (r : PRecord) : json :=
  mk_obj [(true, "content", JStr (prec_Content r)); (true, "disabled", JBool (prec_Disabled r))].

Definition enc_rrset (r : PRRSet) : json :=
  mk_obj [
    (true, "name", JStr (prr_Name r));
    (true, "type", JStr (prr_Type r));
    (prr_TTL r != 0, "ttl", JNum (prr_TTL r));
    (prr_ChangeType r != "", "changetype", JStr (prr_ChangeType r));
    (nonempty (prr_Records r), "records", JArr (map enc_record (prr_Records r)))].

Definition enc_zone (z : PZone) : json :=
  mk_obj [
    (pz_ID z != "", "id", JStr (pz_ID z));
    (true, "name", JStr (pz_Name z));
    (pz_Kind z != "", "kind", JStr (pz_Kind z));
    (pz_Serial z != 0, "serial", JNum (pz_Serial z));
    (nonempty (elems (pz_Masters z)), "masters", enc_strings (pz_Masters z));
    (true, "nameservers", enc_strings (pz_Nameservers z));
    (pz_DNSSEC z, "dnssec", JBool (pz_DNSSEC z));
    (nonempty (pz_RRSets z), "rrsets", JArr (map enc_rrset (pz_RRSets z)))].

Definition enc_key (k : Cryptokey) : json :=
  mk_obj [
    (ck_ID k != 0, "id", JNum (ck_ID k));
    (ck_KeyType k != "", "keytype", JStr (ck_KeyType k));
    (true, "active", JBool (ck_Active k));
    (nonempty (ck_DS k), "ds", JArr (map JStr (ck_DS k)))].

Definition enc_update (u : ZoneUpdate) : json :=
  mk_obj [(true, "kind", JStr (zu_Kind u)); (true, "masters", enc_strings (zu_Masters u))].

Definition enc_patch (l : list PRRSet) : json :=
  mk_obj [(true, "rrsets", JArr (map enc_rrset l))].

(** ** Decoding: json.Unmarshal into the structs *)

(** The case folding of object keys: ASCII letters, the Kelvin sign and the
    long s. *)
Fixpoint fold_chars (fuel : nat) (l : list ascii) : list ascii :=
  match fuel, l with
  | S fuel, c :: l' =>
      match strip_prefix [byte 226; byte 132; byte 170] l, strip_prefix [byte 197; byte 191] l with
      | Some r, _ => "K"%char :: fold_chars fuel r
      | None, Some r => "S"%char :: fold_chars fuel r
      | None, None =>
          let n := nat_of_ascii c in
          (if (97 <=? n)%nat && (n <=? 122)%nat then ascii_of_nat (n - 32) else c) :: fold_chars fuel l'
      end
  | _, _ => []
  end.
Definition fold_name (s : string) : string := of_chars (fold_chars (String.length s) (chars s)).

(** The value of a struct field in an object: the last key that folds to it. *)
Definition field (name : string) (l : list (string * json)) : option json :=
  snd <$> List.find (fun f => fold_name f.1 == fold_name name) (rev l).

Definition type_error : err := EText "json: cannot unmarshal".

(** A missing field and null leave the zero value. *)
Definition dec_with {A} (zero : A) (d : json -> res A) (j : option json) : res A :=
  match j with None | Some JNull => Ok zero | Some j => d j end.

Definition dec_string : option json -> res string :=
  dec_with "" (fun j => match j with JStr s => Ok s | _ => Err type_error end).
Definition dec_bool : option json -> res bool :=
  dec_with false (fun j => match j with JBool b => Ok b | _ => Err type_error end).
Definition dec_int (bits : Z) : option json -> res Z :=
  dec_with 0 (fun j => match j with
    | JNum n => if (- 2 ^ (bits - 1) <=? n) && (n <? 2 ^ (bits - 1)) then Ok n else Err type_error
    | _ => Err type_error
    end).

Fixpoint dec_all {A} (d : json -> res A) (l : list json) : res (list A) :=
  match l with
  | [] => Ok []
  | j :: l =>
      match d j, dec_all d l with
      | Ok a, Ok r => Ok (a :: r)
      | Err e, _ | _, Err e => Err e
      end
  end.
Definition dec_list {A} (d : json -> res A) : option json -> res (list A) :=
  dec_with [] (fun j => match j with JArr l => dec_all d l | _ => Err type_error end).
Definition dec_slice {A} (d : json -> res A) : option json -> res (slice A) :=
  dec_with None (fun j => match j with
    | JArr l => match dec_all d l with Ok r => Ok (Some r) | Err e => Err e end
    | _ => Err type_error
    end).
Definition dec_elem_string (j : json) : res string := dec_string (Some j).

Definition res_bind {A B} (r : res A) (f : A -> res B) : res B :=
  match r with Ok a => f a | Err e => Err e end.
Notation "'dec!' x := r 'in' q" := (res_bind r (fun x => q))
  (at level 10, x pattern, r at level 100, q at level 200) : go_scope.

(** A struct from a JSON value: null leaves it zero, other scalars fail. *)
Definition dec_struct {A} (zero : A) (d : list (string * json) -> res A) (j : json) : res A :=
  match j with JNull => Ok zero | JObj l => d l | _ => Err type_error end.

Definition dec_record : json -> res PRecord :=
  dec_struct {| prec_Content := ""; prec_Disabled := false |} (fun l =>
    dec! c := dec_string (field "content" l) in
    dec! d := dec_bool (field "disabled" l) in
    Ok {| prec_Content := c; prec_Disabled := d |}).

Definition zero_rrset : PRRSet :=
  {| prr_Name := ""; prr_Type := ""; prr_TTL := 0; prr_ChangeType := ""; prr_Records := [] |}.
Definition dec_rrset : json -> res PRRSet :=
  dec_struct zero_rrset (fun l =>
    dec! n := dec_string (field "name" l) in
    dec! t := dec_string (field "type" l) in
    dec! ttl := dec_int 32 (field "ttl" l) in
    dec! ct := dec_string (field "changetype" l) in
    dec! rs := dec_list dec_record (field "records" l) in
    Ok {| prr_Name := n; prr_Type := t; prr_TTL := ttl; prr_ChangeType := ct; prr_Records := rs |}).

Definition zero_zone : PZone :=
  {| pz_ID := ""; pz_Name := ""; pz_Kind := ""; pz_Serial := 0; pz_Masters := None;
     pz_Nameservers := None; pz_DNSSEC := false; pz_RRSets := [] |}.
Definition dec_zone : json -> res PZone :=
  dec_struct zero_zone (fun l =>
    dec! i := dec_string (field "id" l) in
    dec! n := dec_string (field "name" l) in
    dec! k := dec_string (field "kind" l) in
    dec! s := dec_int 64 (field "serial" l) in
    dec! m := dec_slice dec_elem_string (field "masters" l) in
    dec! ns := dec_slice dec_elem_string (field "nameservers" l) in
    dec! d := dec_bool (field "dnssec" l) in
    dec! rs := dec_list dec_rrset (field "rrsets" l) in
    Ok {| pz_ID := i; pz_Name := n; pz_Kind := k; pz_Serial := s; pz_Masters := m;
          pz_Nameservers := ns; pz_DNSSEC := d; pz_RRSets := rs |}).

Definition zero_key : Cryptokey := {| ck_ID := 0; ck_KeyType := ""; ck_Active := false; ck_DS := [] |}.
Definition dec_key : json -> res Cryptokey :=
  dec_struct zero_key (fun l =>
    dec! i := dec_int 64 (field "id" l) in
    dec! k := dec_string (field "keytype" l) in
    dec! a := dec_bool (field "active" l) in
    dec! d := dec_list dec_elem_string (field "ds" l) in
    Ok {| ck_ID := i; ck_KeyType := k; ck_Active := a; ck_DS := d |}).
Definition dec_keys (j : json) : res (list Cryptokey) := dec_list dec_key (Some j).

Definition dec_update : json -> res ZoneUpdate :=
  dec_struct {| zu_Kind := ""; zu_Masters := None |} (fun l =>
    dec! k := dec_string (field "kind" l) in
    dec! m := dec_slice dec_elem_string (field "masters" l) in
    Ok {| zu_Kind := k; zu_Masters := m |}).

Definition dec_patch : json -> res (list PRRSet) :=
  dec_struct [] (fun l => dec_list dec_rrset (field "rrsets" l)).

(** ** Transport *)

Definition MethodGet : string := "GET".
Definition MethodPost : string := "POST".
Definition MethodPut : string := "PUT".
Definition MethodPatch : string := "PATCH".
Definition MethodDelete : string := "DELETE".

Definition zonePath (name : string) : string := "/servers/localhost/zones/" +:+ PathEscape name.

Definition request (c : Client) (method path : string) (input : option json) : HttpRequest := {|
  rq_Method := method;
  rq_URL := cl_baseURL c +:+ "/api/v1" +:+ path;
  rq_APIKey := cl_apiKey c;
  rq_ContentType := match input with Some _ => Some "application/json" | None => None end;
  rq_Body := input;
|}.

(** The decoder of the out argument; [no_out] is out == nil. *)
Definition no_out (j : res json) : res unit := Ok tt.
Definition into {A} (d : json -> res A) (j : res json) : res A := res_bind j d.

(** io.LimitReader: the bytes of an error body that are read. *)
Definition body_limit : nat := Z.to_nat 4096.
Arguments body_limit : simpl never.
Definition err_body (r : HttpResponse) : string :=
  TrimSpace (of_chars (take body_limit (chars (resp_Body r)))).
Arguments err_body : simpl never.

(** What do returns for the outcome of the HTTP exchange. *)
Definition do_result {A} (method path : string) (out : res json -> res A) (x : http_result) : res A :=
  match x with
  | HBadRequest e => Err e
  | HTransport e => Err (EWrap2 (ESentinel ErrUnreachable) ": " e)
  | HResponse r =>
      if resp_StatusCode r =? 404 then Err (ESentinel ErrNotFound)
      else if (resp_StatusCode r <? 200) || (299 <? resp_StatusCode r) then
        let body := err_body r in
        if (resp_StatusCode r =? 409) || isAlreadyExists body then
          Err (EWrap "" (ESentinel ErrAlreadyExists)
                 (": " +:+ method +:+ " " +:+ path +:+ ": " +:+ body))
        else Err (EText ("pdns: " +:+ method +:+ " " +:+ path +:+ ": "
                         +:+ resp_Status r +:+ ": " +:+ body))
      else out (resp_JSON r)
  end.

Definition do_req {A} (c : Client) (method path : string) (input : option json)
    (out : res json -> res A) : prog (res A) :=
  let! x := do_op (OHttp (request c method path input)) in
  Ret (do_result method path out x).

(** An (error) result from a (struct{}, error) one. *)
Definition err_of (p : prog (res unit)) : prog (option err) :=
  let! r := p in Ret (match r with Ok _ => None | Err e => Some e end).

(** ** Methods *)

Definition GetZone (c : Client) (name : string) : prog (res PZone) :=
  do_req c MethodGet (zonePath name) None (into dec_zone).

(** CreateZone replaces nil nameservers in the caller's struct. *)
Definition CreateZone (c : Client) (z : PZone) : prog (res PZone) :=
  let z := match pz_Nameservers z with
           | None => {| pz_ID := pz_ID z; pz_Name := pz_Name z; pz_Kind := pz_Kind z;
                        pz_Serial := pz_Serial z; pz_Masters := pz_Masters z;
                        pz_Nameservers := Some []; pz_DNSSEC := pz_DNSSEC z; pz_RRSets := pz_RRSets z |}
           | Some _ => z
           end in
  do_req c MethodPost "/servers/localhost/zones" (Some (enc_zone z)) (into dec_zone).

Definition UpdateZone (c : Client) (name : string) (u : ZoneUpdate) : prog (option err) :=
  let u := match zu_Masters u with
           | None => {| zu_Kind := zu_Kind u; zu_Masters := Some [] |}
           | Some _ => u
           end in
  err_of (do_req c MethodPut (zonePath name) (Some (enc_update u)) no_out).

Definition DeleteZone (c : Client) (name : string) : prog (option err) :=
  let! e := err_of (do_req c MethodDelete (zonePath name) None no_out) in
  Ret (match e with
       | Some e' => if errors_Is e' ErrNotFound then None else e
       | None => None
       end).

Definition PatchRRSets (c : Client) (zone : string) (rrsets : list PRRSet) : prog (option err) :=
  err_of (do_req c MethodPatch (zonePath zone) (Some (enc_patch rrsets)) no_out).

Definition ListCryptokeys (c : Client) (zone : string) : prog (res (list Cryptokey)) :=
  do_req c MethodGet (zonePath zone +:+ "/cryptokeys") None (into dec_keys).

Definition CreateCryptokey (c : Client) (zone : string) (k : Cryptokey) : prog (res Cryptokey) :=
  do_req c MethodPost (zonePath zone +:+ "/cryptokeys") (Some (enc_key k)) (into dec_key).

Definition UpdateCryptokey (c : Client) (zone : string) (k : Cryptokey) : prog (option err) :=
  err_of (do_req c MethodPut (zonePath zone +:+ "/cryptokeys/" +:+ itoa (ck_ID k)) (Some (enc_key k)) no_out).

Definition RectifyZone (c : Client) (zone : string) : prog (option err) :=
  err_of (do_req c MethodPut (zonePath zone +:+ "/rectify") None no_out).

(** ** Ranges of the integer fields *)

Definition in_int64 (z : Z) : Prop := - 2 ^ 63 <= z < 2 ^ 63.
Definition wf_rrset (r : PRRSet) : Prop := in_int32 (prr_TTL r).
Definition wf_zone (z : PZone) : Prop := in_int64 (pz_Serial z) /\ Forall wf_rrset (pz_RRSets z).

(** omitempty drops an empty masters list, which then decodes as nil. *)
Definition norm_slice {A} (s : slice A) : slice A := match s with Some [] => None | _ => s end.
Definition norm_zone (z : PZone) : PZone := {|
  pz_ID := pz_ID z; pz_Name := pz_Name z; pz_Kind := pz_Kind z; pz_Serial := pz_Serial z;
  pz_Masters := norm_slice (pz_Masters z);
  pz_Nameservers := pz_Nameservers z; pz_DNSSEC := pz_DNSSEC z; pz_RRSets := pz_RRSets z;
|}.

(** ** Lemmas on encoding and decoding *)

(** The field of an encoded object is its value, or absent when omitted. *)
Lemma field_mk_obj (l : list (bool * string * json)) (keep : bool) (n : string) (j : json) :
  NoDup (map (fun f : bool * string * json => fold_name f.1.2) l) -> (keep, n, j) ∈ l ->
  field n (omap kept_field l) = if keep then Some j else None.
Proof.
  intros Hnd Hin. unfold field.
  assert (Hu : forall x, x ∈ rev (omap kept_field l) ->
               bool_decide (fold_name x.1 = fold_name n) = true -> keep = true /\ x = (n, j)).
  { intros [n' j'] Hx E. apply elem_of_rev, list_elem_of_omap in Hx.
    destruct Hx as ([[[] n''] j''] & Hx & E'); unfold kept_field in E'; simplify_eq/=.
    bool_prop. pose proof (NoDup_map_inj (fun f : bool * string * json => fold_name f.1.2) l
                  (true, n', j') (keep, n, j) Hnd Hx Hin E) as Eq.
    by simplify_eq. }
  destruct keep.
  - rewrite (find_unique _ _ (n, j)); [done|..].
    + apply elem_of_rev, list_elem_of_omap. by exists (true, n, j).
    + by apply bool_decide_eq_true_2.
    + intros x Hx E. by apply Hu.
  - rewrite find_absent; [done|]. intros x Hx. apply not_true_is_false. intros E.
    by destruct (Hu x Hx E).
Qed.

Lemma dec_string_omit (s : string) :
  dec_string (if negb (bool_decide (s = EmptyString)) then Some (JStr s) else None) = Ok s.
Proof. case_bool_decide; simpl; by subst. Qed.

Lemma dec_bool_omit (b : bool) : dec_bool (if b then Some (JBool b) else None) = Ok b.
Proof. by destruct b. Qed.

Lemma dec_int_value (bits z : Z) :
  - 2 ^ (bits - 1) <= z < 2 ^ (bits - 1) -> dec_int bits (Some (JNum z)) = Ok z.
Proof.
  intros [Hlo Hhi]. unfold dec_int, dec_with.
  apply Z.leb_le in Hlo. apply Z.ltb_lt in Hhi. by rewrite Hlo, Hhi.
Qed.

Lemma dec_int_omit (bits z : Z) :
  - 2 ^ (bits - 1) <= z < 2 ^ (bits - 1) ->
  dec_int bits (if negb (bool_decide (z = 0)) then Some (JNum z) else None) = Ok z.
Proof. intros. case_bool_decide; subst; [done|]. by apply dec_int_value. Qed.

Lemma dec_all_map {A} (d : json -> res A) (e : A -> json) l :
  Forall (fun x => d (e x) = Ok x) l -> dec_all d (map e l) = Ok l.
Proof. induction 1 as [|x l Hx _ IH]; simpl; [done|]. by rewrite Hx, IH. Qed.

Lemma dec_list_omit {A} (d : json -> res A) (e : A -> json) l :
  Forall (fun x => d (e x) = Ok x) l ->
  dec_list d (if nonempty l then Some (JArr (map e l)) else None) = Ok l.
Proof. intros H. destruct l as [|x l]; [done|]. apply (dec_all_map d e _ H). Qed.

Lemma Forall_dec_elem_string (l : list string) : Forall (fun x => dec_elem_string (JStr x) = Ok x) l.
Proof. by apply Forall_true. Qed.

Lemma dec_slice_strings (s : slice string) : dec_slice dec_elem_string (Some (enc_strings s)) = Ok s.
Proof.
  destruct s as [l|]; [|done]. unfold dec_slice. cbn [dec_with enc_strings].
  by rewrite (dec_all_map dec_elem_string JStr) by apply Forall_dec_elem_string.
Qed.

Lemma dec_slice_omit (s : slice string) :
  dec_slice dec_elem_string (if nonempty (elems s) then Some (enc_strings s) else None)
  = Ok (norm_slice s).
Proof. destruct s as [[|x l]|]; [done| |done]. apply (dec_slice_strings (Some (x :: l))). Qed.

(** The field of a literal object under field_mk_obj. *)
Ltac fields :=
  repeat match goal with
  | |- context [field ?n (omap kept_field ?l)] =>
      erewrite (field_mk_obj l _ n);
      [ | by apply (bool_decide_unpack _); vm_compute
        | repeat (rewrite elem_of_cons; first [left; reflexivity | right]) ]
  end;
  repeat match goal with
  | |- context [if true then ?a else ?b] => change (if true then a else b) with a
  end.

Create Rewrite HintDb json.
#[export] Hint Rewrite dec_string_omit dec_bool_omit dec_slice_strings dec_slice_omit : json.

Lemma dec_enc_record r : dec_record (enc_record r) = Ok r.
Proof.
  destruct r as [c d]. unfold enc_record, mk_obj, dec_record, dec_struct. fields. done.
Qed.

Lemma dec_enc_rrset r : wf_rrset r -> dec_rrset (enc_rrset r) = Ok r.
Proof.
  intros Hwf. destruct r as [n t ttl ct rs].
  unfold enc_rrset, mk_obj, dec_rrset, dec_struct; cbn [prr_Name prr_Type prr_TTL prr_ChangeType prr_Records].
  fields. rewrite (dec_int_omit 32) by apply Hwf.
  rewrite dec_list_omit by (apply Forall_true; apply dec_enc_record).
  by autorewrite with json.
Qed.

(** The sentinel carried by the error of a (value, error) result. *)
Definition res_is {A} (r : res A) (sentinel : string) : bool :=
  match r with Ok _ => false | Err e => errors_Is e sentinel end.
Definition is_2xx (r : HttpResponse) : Prop := 200 <= resp_StatusCode r <= 299.

(** A 2xx response arrived. *)
Definition http_accepted (x : http_result) : Prop :=
  match x with HResponse r => is_2xx r | _ => False end.

Lemma do_result_2xx {A} method path (out : res json -> res A) r :
  is_2xx r -> do_result method path out (HResponse r) = out (resp_JSON r).
Proof.
  unfold do_result, is_2xx. intros Hr. destruct (resp_StatusCode r =? 404) eqn:E4; bool_prop; [lia|].
  destruct (_ || _) eqn:E; [|done]. apply orb_true_iff in E as [E|E]; apply Z.ltb_lt in E; lia.
Qed.

Lemma accepted_no_out method path x : http_accepted x -> do_result method path no_out x = Ok tt.
Proof. destruct x as [e|e|r]; try done. intros Hr. by rewrite do_result_2xx. Qed.

Lemma do_result_value {A} method path (out : res json -> res A) x a :
  do_result method path out x = Ok a -> exists r, x = HResponse r /\ is_2xx r /\ out (resp_JSON r) = Ok a.
Proof.
  unfold do_result, is_2xx. destruct x as [e|e|r]; try done.
  destruct (resp_StatusCode r =? 404); [done|].
  destruct ((resp_StatusCode r <? 200) || (299 <? resp_StatusCode r)) eqn:E; [cbv zeta; by repeat split_match|].
  intros Ho. apply orb_false_iff in E as [??]. bool_prop. exists r. split; [done|]. split; [lia|done].
Qed.

Lemma do_result_ok {A} method path (out : res json -> res A) x a :
  do_result method path out x = Ok a -> http_accepted x.
Proof. by intros (r & -> & Hr & _)%do_result_value. Qed.

(** C30. the JSON of a zone decodes to the zone that was encoded, an empty
    masters list becoming nil (omitempty), for every zone whose integers fit
    their Go types. *)
Theorem dec_enc_zone z : wf_zone z -> dec_zone (enc_zone z) = Ok (norm_zone z).
Proof.
  intros [Hs Hr]. destruct z as [i n k s m ns d rs]; unfold wf_zone in *; cbn in Hs, Hr.
  unfold enc_zone, mk_obj, dec_zone, dec_struct, norm_zone; cbn [pz_ID pz_Name pz_Kind pz_Serial
    pz_Masters pz_Nameservers pz_DNSSEC pz_RRSets].
  fields. rewrite (dec_int_omit 64) by apply Hs.
  rewrite dec_list_omit by (eapply Forall_impl; [exact Hr|apply dec_enc_rrset]).
  by autorewrite with json.
Qed.

Lemma dec_enc_zone_witness :
  let z := {| pz_ID := "example.com."; pz_Name := "example.com."; pz_Kind := "Native"; pz_Serial := 7;
              pz_Masters := Some []; pz_Nameservers := Some ["ns1.example.com."]; pz_DNSSEC := false;
              pz_RRSets := [{| prr_Name := "www.example.com."; prr_Type := "A"; prr_TTL := 300;
                               prr_ChangeType := ""; prr_Records := [{| prec_Content := "192.0.2.1";
                               prec_Disabled := false |}] |}] |} in
  wf_zone z /\ dec_zone (enc_zone z) = Ok (norm_zone z).
Proof.
  assert (H : wf_zone {| pz_ID := "example.com."; pz_Name := "example.com."; pz_Kind := "Native"; pz_Serial := 7;
              pz_Masters := Some []; pz_Nameservers := Some ["ns1.example.com."]; pz_DNSSEC := false;
              pz_RRSets := [{| prr_Name := "www.example.com."; prr_Type := "A"; prr_TTL := 300;
                               prr_ChangeType := ""; prr_Records := [{| prec_Content := "192.0.2.1";
                               prec_Disabled := false |}] |}] |}).
  { split; [unfold in_int64; simpl; lia|]. repeat constructor; simpl; lia. }
  split; [exact H|]. by apply dec_enc_zone.
Defined.

Lemma dec_enc_key k : in_int64 (ck_ID k) -> dec_key (enc_key k) = Ok k.
Proof.
  intros Hi. destruct k as [i t a d]. unfold enc_key, mk_obj, dec_key, dec_struct;
    cbn [ck_ID ck_KeyType ck_Active ck_DS]. fields. rewrite (dec_int_omit 64) by apply Hi.
  rewrite (dec_list_omit dec_elem_string JStr) by apply Forall_dec_elem_string.
  by autorewrite with json.
Qed.

Lemma dec_enc_update u : dec_update (enc_update u) = Ok u.
Proof.
  destruct u as [k m]. unfold enc_update, mk_obj, dec_update, dec_struct; cbn [zu_Kind zu_Masters].
  fields. by autorewrite with json.
Qed.

Lemma dec_enc_patch l : Forall wf_rrset l -> dec_patch (enc_patch l) = Ok l.
Proof.
  intros H. unfold enc_patch, mk_obj, dec_patch, dec_struct. fields.
  apply (dec_all_map dec_rrset enc_rrset). eapply Forall_impl; [exact H|apply dec_enc_rrset].
Qed.

(** PowerDNS rejects a null list, so the arrays that have no omitempty
    reach it as JSON arrays: CreateZone always sends one POST whose
    nameservers is an array, and UpdateZone one PUT whose masters is an array,
    also when the caller passed nil. *)
Theorem request_arrays_present c z name u :
  wp (CreateZone c z) (fun t _ => exists fs,
    map (fun q => (rq_Method q, rq_Body q)) (http_reqs t) = [("POST", Some (JObj fs))] /\
    field "nameservers" fs = Some (JArr (map JStr (elems (pz_Nameservers z))))) /\
  wp (UpdateZone c name u) (fun t _ => exists fs,
    map (fun q => (rq_Method q, rq_Body q)) (http_reqs t) = [("PUT", Some (JObj fs))] /\
    field "masters" fs = Some (JArr (map JStr (elems (zu_Masters u))))).
Proof.
  split.
  - intros x. cbn. eexists. split; [reflexivity|]. fields. by destruct z as [????? [l|]].
  - intros x. cbn. eexists. split; [reflexivity|]. fields. by destruct u as [? [l|]].
Qed.

(** C31. the errors of the transport are classified exactly. A response yields
    ErrNotFound iff its status is 404, ErrAlreadyExists iff its status is
    neither 2xx nor 404 and is 409 or its body speaks of an existing object or
    a duplicate key, and is handed to the decoder iff its status is 2xx; no
    response is ErrUnreachable, and every transport failure is. *)
Theorem do_result_classified {A} method path (out : res json -> res A) r e :
  (forall s, res_is (out (resp_JSON r)) s = false) ->
  let x := do_result method path out (HResponse r) in
  (res_is x ErrNotFound = true <-> resp_StatusCode r = 404) /\
  (res_is x ErrAlreadyExists = true <->
     ~ is_2xx r /\ resp_StatusCode r <> 404 /\
     (resp_StatusCode r = 409 \/ isAlreadyExists (err_body r) = true)) /\
  (is_2xx r -> x = out (resp_JSON r)) /\
  res_is x ErrUnreachable = false /\
  res_is (do_result method path out (HTransport e)) ErrUnreachable = true.
Proof.
  intros Hout. unfold is_2xx. cbn zeta. unfold do_result.
  destruct (resp_StatusCode r =? 404) eqn:E4; bool_prop.
  { rewrite E4. cbn. repeat split; try done; lia. }
  destruct ((resp_StatusCode r <? 200) || (299 <? resp_StatusCode r)) eqn:E2.
  - assert (~ (200 <= resp_StatusCode r <= 299)).
    { apply orb_true_iff in E2 as [?|?]; [apply Z.ltb_lt in H|apply Z.ltb_lt in H]; lia. }
    destruct ((resp_StatusCode r =? 409) || isAlreadyExists (err_body r)) eqn:E9; cbn.
    + apply orb_true_iff in E9. rewrite Z.eqb_eq in E9. repeat split; try done; try tauto; lia.
    + bool_prop. repeat split; try done; try tauto; try lia. intros (_ & _ & [?|?]); congruence.
  - bool_prop. rewrite !Hout. repeat split; try done; try lia.
Qed.

Lemma do_result_classified_witness :
  let r := {| resp_StatusCode := 500; resp_Status := "500 Internal Server Error";
              resp_Body := "Duplicate Key value violates unique constraint"; resp_JSON := Ok JNull |} in
  res_is (do_result MethodPost "/servers/localhost/zones" (into dec_zone) (HResponse r)) ErrAlreadyExists = true /\
  res_is (do_result MethodPost "/servers/localhost/zones" (into dec_zone) (HTransport (EText "timeout"))) ErrUnreachable = true.
Proof.
  pose proof (do_result_classified MethodPost "/servers/localhost/zones" (into dec_zone)
    {| resp_StatusCode := 500; resp_Status := "500 Internal Server Error";
       resp_Body := "Duplicate Key value violates unique constraint"; resp_JSON := Ok JNull |}
    (EText "timeout") (fun s => eq_refl)) as (_ & H & _ & _ & Ht).
  split; [|exact Ht]. apply H. split; [unfold is_2xx; simpl; lia|]. split; [done|]. right. by vm_compute.
Defined.

(** Deleting a zone is idempotent: DeleteZone performs exactly one DELETE
    on the zone's path and reports success iff PowerDNS answered 2xx or 404. *)
Theorem DeleteZone_idempotent c name :
  wp (DeleteZone c name) (fun t r => exists x,
    http_exchanges t = [(request c "DELETE" (zonePath name) None, x)] /\
    ((forall e, x = HBadRequest e \/ x = HTransport e -> errors_Is e ErrNotFound = false) ->
     (r = None <-> exists resp, x = HResponse resp /\ (is_2xx resp \/ resp_StatusCode resp = 404)))).
Proof.
  intros x. cbn. exists x. split; [done|]. intros Hclean. unfold is_2xx.
  destruct x as [e|e|r]; cbn.
  - rewrite (Hclean e) by auto. split; [done|]. by intros (? & ? & _).
  - rewrite (Hclean e) by auto. split; [done|]. by intros (? & ? & _).
  - destruct (resp_StatusCode r =? 404) eqn:E4; bool_prop; cbn.
    { split; [|done]. intros _. exists r. auto. }
    destruct ((resp_StatusCode r <? 200) || (299 <? resp_StatusCode r)) eqn:E2.
    + assert (Hn : ~ (200 <= resp_StatusCode r <= 299)).
      { apply orb_true_iff in E2 as [?|?]; [apply Z.ltb_lt in H|apply Z.ltb_lt in H]; lia. }
      split; [by destruct ((resp_StatusCode r =? 409) || _)|].
      intros (r' & [= <-] & [?|?]); done.
    + bool_prop. split; [|done]. intros _. exists r. split; [done|]. left. lia.
Qed.
