(* ===== verification/Sha256.v ===== *)
(** * crypto/sha256

    SHA-256 (FIPS 180-4), which the configuration hash of the rendered
    workload uses. Words are 32-bit numbers in N; the input and the digest are
    byte sequences. *)

From Stdlib Require Import Ascii NArith.
From S2P Require Import Prelude GoStd.

Open Scope stdpp_scope.
Open Scope N_scope.

Definition word_mask : N := 4294967295.
Definition add32 (x y : N) : N := N.land (x + y) word_mask.
Definition rotr (n x : N) : N :=
  N.lor (N.shiftr x n) (N.land (N.shiftl x (32 - n)) word_mask).
Definition not32 (x : N) : N := N.lxor x word_mask.

Definition Ch (x y z : N) : N := N.lxor (N.land x y) (N.land (not32 x) z).
Definition Maj (x y z : N) : N := N.lxor (N.lxor (N.land x y) (N.land x z)) (N.land y z).
Definition Sigma0 (x : N) : N := N.lxor (N.lxor (rotr 2 x) (rotr 13 x)) (rotr 22 x).
Definition Sigma1 (x : N) : N := N.lxor (N.lxor (rotr 6 x) (rotr 11 x)) (rotr 25 x).
Definition sigma0 (x : N) : N := N.lxor (N.lxor (rotr 7 x) (rotr 18 x)) (N.shiftr x 3).
Definition sigma1 (x : N) : N := N.lxor (N.lxor (rotr 17 x) (rotr 19 x)) (N.shiftr x 10).

(** The fractional parts of the cube roots of the first 64 primes. *)
Definition K256 : list N := [
   1116352408; 1899447441; 3049323471; 3921009573; 961987163; 1508970993; 2453635748; 2870763221;
   3624381080; 310598401; 607225278; 1426881987; 1925078388; 2162078206; 2614888103; 3248222580;
   3835390401; 4022224774; 264347078; 604807628; 770255983; 1249150122; 1555081692; 1996064986;
   2554220882; 2821834349; 2952996808; 3210313671; 3336571891; 3584528711; 113926993; 338241895;
   666307205; 773529912; 1294757372; 1396182291; 1695183700; 1986661051; 2177026350; 2456956037;
   2730485921; 2820302411; 3259730800; 3345764771; 3516065817; 3600352804; 4094571909; 275423344;
   430227734; 506948616; 659060556; 883997877; 958139571; 1322822218; 1537002063; 1747873779;
   1955562222; 2024104815; 2227730452; 2361852424; 2428436474; 2756734187; 3204031479; 3329325298].

(** The fractional parts of the square roots of the first 8 primes. *)
Definition H256 : list N := [
   1779033703; 3144134277; 1013904242; 2773480762; 1359893119; 2600822924; 528734635; 1541459225].

(** ** Padding and words *)

(** The n low-order bytes of x, most significant first. *)
Fixpoint be_bytes (n : nat) (x : N) : list ascii :=
  match n with
  | O => []
  | S n => ascii_of_N (N.land (N.shiftr x (8 * N.of_nat n)) 255) :: be_bytes n x
  end.

Definition pad (m : list ascii) : list ascii :=
  let len := length m in
  let zeros := ((64 - (len + 9) mod 64) mod 64)%nat in
  m ++ ascii_of_nat 128 :: replicate zeros (ascii_of_nat 0) ++ be_bytes 8 (8 * N.of_nat len).

Fixpoint words (l : list ascii) : list N :=
  match l with
  | a :: b :: c :: d :: l =>
      (N.shiftl (N_of_ascii a) 24 + N.shiftl (N_of_ascii b) 16
       + N.shiftl (N_of_ascii c) 8 + N_of_ascii d) :: words l
  | _ => []
  end.

(** ** Compression *)

(** The message schedule, latest word first. *)
Fixpoint extend (n : nat) (w : list N) : list N :=
  match n with
  | O => w
  | S n =>
      let x := add32 (add32 (sigma1 (nth 1 w 0)) (nth 6 w 0)) (add32 (sigma0 (nth 14 w 0)) (nth 15 w 0)) in
      extend n (x :: w)
  end.
Definition schedule (block : list N) : list N := rev (extend 48 (rev block)).

Record state := St { sa : N; sb : N; sc : N; sd : N; se : N; sf : N; sg : N; sh : N }.
Definition round (s : state) (kw : N * N) : state :=
  let t1 := add32 (add32 (sh s) (Sigma1 (se s)))
                  (add32 (Ch (se s) (sf s) (sg s)) (add32 kw.1 kw.2)) in
  let t2 := add32 (Sigma0 (sa s)) (Maj (sa s) (sb s) (sc s)) in
  St (add32 t1 t2) (sa s) (sb s) (sc s) (add32 (sd s) t1) (se s) (sf s) (sg s).
Definition state_list (s : state) : list N := [sa s; sb s; sc s; sd s; se s; sf s; sg s; sh s].
Definition state_of (l : list N) : state :=
  St (nth 0 l 0) (nth 1 l 0) (nth 2 l 0) (nth 3 l 0) (nth 4 l 0) (nth 5 l 0) (nth 6 l 0) (nth 7 l 0).

Definition compress (h : list N) (block : list N) : list N :=
  let s := foldl round (state_of h) (combine K256 (schedule block)) in
  zip_with add32 h (state_list s).

Fixpoint blocks (fuel : nat) (w : list N) (h : list N) : list N :=
  match fuel, w with
  | S fuel, _ :: _ => blocks fuel (drop 16 w) (compress h (take 16 w))
  | _, _ => h
  end.

(** The digest: one block per 16 words, so the word count is enough fuel. *)
Definition Sum256 (m : list ascii) : list ascii :=
  let w := words (pad m) in
  flat_map (be_bytes 4) (blocks (length w) w H256).

(** The digest of the one-block message abc of FIPS 180-4. *)
Example Sum256_abc :
  hex_EncodeToString (Sum256 (chars "abc"))
  = "ba7816bf8f01cfea414140de5dae2223b00361a396177a9cb410ff61f20015ad".
Proof. by vm_compute. Qed.

(** Its two-block message. *)
Example Sum256_two_blocks :
  hex_EncodeToString (Sum256 (chars "abcdbcdecdefdefgefghfghighijhijkijkljklmklmnlmnomnopnopq"))
  = "248d6a61d20638b8e5c026930c3e6039a33ce45964ff2167f6ecedd419db06c1".
Proof. by vm_compute. Qed.

(** ** The digest has 32 bytes *)

Lemma length_be_bytes n x : length (be_bytes n x) = n.
Proof. induction n; simpl; congruence. Qed.

Lemma length_compress h b : length h = 8%nat -> length (compress h b) = 8%nat.
Proof. intros H. unfold compress. by rewrite length_zip_with, H. Qed.

Lemma length_blocks fuel w h : length h = 8%nat -> length (blocks fuel w h) = 8%nat.
Proof.
  revert w h. induction fuel as [|fuel IH]; intros [|x w] h H; [done..|].
  apply IH, length_compress, H.
Qed.

Lemma length_Sum256 m : length (Sum256 m) = 32%nat.
Proof.
  unfold Sum256. pose proof (length_blocks (length (words (pad m))) (words (pad m)) H256 eq_refl) as E.
  destruct (blocks _ _ _) as [|? [|? [|? [|? [|? [|? [|? [|? [|]]]]]]]]]; try discriminate E.
  cbn [flat_map]. by rewrite !length_app, !length_be_bytes.
Qed.
