(* ===== verification/Manifests.v ===== *)
(** * internal/manifests/manifests.go: names, labels, pdns.conf and its hash

    The names and labels of the owned resources, the rendered pdns.conf with
    the user's extra settings, their validation, and the configuration hash
    that rolls the pods. [conf_settings] is an independent reading of a
    pdns.conf text: the theorems say what a reader of the file finds in it. *)

From Stdlib Require Import Ascii.
From S2P Require Import Prelude GoStd Sha256 Meta ApiTypes KubeObjects Samples.

Open Scope go_scope.
Open Scope stdpp_scope.
Open Scope Z_scope.

(** ** Constants *)

Definition dnsTCPPort : Z := 53.
Definition dnsUDPPort : Z := 53.
Definition apiPort : Z := 8081.

Definition labelApp : string := "app.kubernetes.io/name".
Definition labelComponent : string := "app.kubernetes.io/component".
Definition labelManagedBy : string := "app.kubernetes.io/managed-by".
Definition labelInstance : string := "app.kubernetes.io/instance".
Definition managedBy : string := "aether-powerdns".

Definition ConfigHashAnnotation : string := "dns.aetherplatform.cloud/config-hash".

(** ** Names and labels *)

Record Names := {
  n_Server : string;
  n_ConfigMap : string;
  n_Deployment : string;
  n_APIService : string;
  n_DNSService : string;
  n_APIKeySecret : string;
  n_BackendSecret : string;
  n_SchemaJob : string;
  n_CNPGCluster : string;
  n_TCPRoute : string;
  n_UDPRoute : string;
  n_HTTPRoute : string;
  n_PDB : string;
  n_PodMonitor : string;
  n_NetPolicy : string;
}.

Definition NameSet (s : PowerDNSServer) : Names :=
  let n := om_Name (srv_Meta s) in
  {|
    n_Server := n;
    n_ConfigMap := n +:+ "-config";
    n_Deployment := n;
    n_APIService := n +:+ "-api";
    n_DNSService := n +:+ "-dns";
    n_APIKeySecret := n +:+ "-api-key";
    n_BackendSecret := n +:+ "-backend";
    n_SchemaJob := n +:+ "-schema-init";
    n_CNPGCluster := n +:+ "-pg";
    n_TCPRoute := n +:+ "-dns-tcp";
    n_UDPRoute := n +:+ "-dns-udp";
    n_HTTPRoute := n +:+ "-api-http";
    n_PDB := n +:+ "-pdb";
    n_PodMonitor := n +:+ "-metrics";
    n_NetPolicy := n +:+ "-netpol";
  |}.

Definition labels (s : PowerDNSServer) : strmap :=
  {[ labelApp := "powerdns"; labelComponent := "auth";
     labelManagedBy := managedBy; labelInstance := om_Name (srv_Meta s) ]}.

Definition apiSpecOrDefault (s : PowerDNSServer) : APISpec :=
  let api := ps_API (srv_Spec s) in
  if api_Port api =? 0 then
    {| api_Port := apiPort; api_APIKeySecretRef := api_APIKeySecretRef api; api_Gateway := api_Gateway api |}
  else api.

(** ** Configuration hash *)

(** The bytes written to the hash for one Secret's data. *)
Definition hash_secret (s : gomap string) : list ascii :=
  flat_map (fun k => chars k ++ NUL :: chars (default "" (map_get s k)) ++ [NUL])
           (sort_Strings (map_keys s)).

Definition hash_input (conf : string) (secrets : list (gomap string)) : list ascii :=
  chars conf ++ flat_map hash_secret secrets.

Definition ConfigHash (conf : string) (secrets : list (gomap string)) : string :=
  of_chars (take 16 (chars (hex_EncodeToString (Sum256 (hash_input conf secrets))))).

(** ** Extra settings *)

Definition sortedKeys (m : gomap string) : list string := sort_Strings (map_keys m).

Definition reservedSettings : list string := [
  "launch"; "local-address"; "local-port"; "webserver"; "webserver-address";
  "webserver-port"; "webserver-allow-from"; "api"; "api-key"; "default-soa-content"].

Definition reservedSettingPrefix : string := "gpgsql-".

(** The pattern ^[a-z0-9][a-z0-9-]*$ *)
Definition extraSettingKeyPattern : string := "^[a-z0-9][a-z0-9-]*$".
Definition lower_or_digit (c : ascii) : bool :=
  let n := nat_of_ascii c in
  ((97 <=? n)%nat && (n <=? 122)%nat) || ((48 <=? n)%nat && (n <=? 57)%nat).
Definition key_matches (key : string) : bool :=
  match chars key with
  | [] => false
  | c :: l => lower_or_digit c && forallb (fun d => lower_or_digit d || bool_decide (d = "-"%char)) l
  end.

Definition extraSettingViolation (key value : string) : string :=
  if negb (key_matches key) then
    "key " +:+ quote key +:+ " must match " +:+ extraSettingKeyPattern
  else if bool_decide (key ∈ reservedSettings) || HasPrefix key reservedSettingPrefix then
    "key " +:+ quote key +:+ " is managed by the operator and cannot be overridden"
  else if ContainsAny value [CR; LF] then
    "value of " +:+ quote key +:+ " must not contain newlines"
  else "".

(** The message one loop iteration appends, if any. *)
Definition violation_msg (extra : gomap string) (k : string) : option string :=
  let msg := extraSettingViolation k (default "" (map_get extra k)) in
  if msg != "" then Some msg else None.
Definition ValidateExtraSettings (extra : gomap string) : list string :=
  omap (violation_msg extra) (sortedKeys extra).

(** The builder's content after one key of the loop. *)
Definition render_step (extra : gomap string) (b k : string) : string :=
  let v := default "" (map_get extra k) in
  if extraSettingViolation k v != "" then b
  else (if b == "" then b +:+ "# spec.extraSettings" +:+ nl else b) +:+ k +:+ "=" +:+ v +:+ nl.
Definition renderExtraSettings (extra : gomap string) : string :=
  foldl (render_step extra) "" (sortedKeys extra).

(** ** pdns.conf *)

(** Lines of a text, each ended by a line feed. *)
Definition text_of_lines (l : list string) : string := concat_str (map (fun x => x +:+ nl) l).

(** The raw string literal before and after the line of the API port. *)
Definition conf_head : list string := [
  "# managed by aether-powerdns";
  "launch=gpgsql";
  "local-address=0.0.0.0";
  "local-port=" +:+ itoa dnsTCPPort;
  "webserver=yes";
  "webserver-address=0.0.0.0"].
Definition conf_tail : list string := [
  "webserver-allow-from=0.0.0.0/0,::/0";
  "api=yes";
  "# api-key, gpgsql-host, gpgsql-port, gpgsql-dbname, gpgsql-user, gpgsql-password";
  "# are passed on the command line (--api-key=$(PDNS_AUTH_API_KEY), ...) —";
  "# Secret-sourced env expanded by the kubelet, never written to this file.";
  "# Sane SOA for zones created out of band (API/pdnsutil): @ expands to";
  "# the zone name — never the upstream " +:+ dq +:+ "a.misconfigured..." +:+ dq +:+ " placeholder.";
  "# Zone-CR creations get an explicit SOA seeded by the operator anyway.";
  "default-soa-content=@ hostmaster.@ 0 10800 3600 604800 3600";
  "loglevel=4"].

Definition PDNSConfig (s : PowerDNSServer) : string :=
  let api := apiSpecOrDefault s in
  text_of_lines (conf_head ++ ("webserver-port=" +:+ itoa (api_Port api)) :: conf_tail)
  +:+ renderExtraSettings (ps_ExtraSettings (srv_Spec s)).

Definition ConfigMap_ (s : PowerDNSServer) : ConfigMap := {|
  cm_Meta := new_meta (n_ConfigMap (NameSet s)) (om_Namespace (srv_Meta s)) (labels s);
  cm_Data := {[ "pdns.conf" := PDNSConfig s ]};
|}.

(** ** Reading a pdns.conf *)

(** The pieces of l between occurrences of c. *)
Fixpoint split_on (c : ascii) (l : list ascii) : list (list ascii) :=
  match l with
  | [] => [[]]
  | x :: l =>
      if bool_decide (x = c) then [] :: split_on c l
      else match split_on c l with h :: t => (x :: h) :: t | [] => [[x]] end
  end.

(** The parts of l before and after the first c. *)
Fixpoint cut (c : ascii) (l : list ascii) : option (list ascii * list ascii) :=
  match l with
  | [] => None
  | x :: l =>
      if bool_decide (x = c) then Some ([], l)
      else match cut c l with Some (a, b) => Some (x :: a, b) | None => None end
  end.

(** A line sets a name to a value unless it is a comment or has no equals sign. *)
Definition setting_of_line (l : list ascii) : option (string * string) :=
  match l with
  | "#"%char :: _ => None
  | _ => match cut "="%char l with Some (a, b) => Some (of_chars a, of_chars b) | None => None end
  end.
Definition conf_settings (s : string) : list (string * string) :=
  omap setting_of_line (split_on LF (chars s)).

(** The settings the operator writes, and the user's entries that pass validation. *)
Definition managed_settings (s : PowerDNSServer) : list (string * string) := [
  ("launch", "gpgsql");
  ("local-address", "0.0.0.0");
  ("local-port", itoa dnsTCPPort);
  ("webserver", "yes");
  ("webserver-address", "0.0.0.0");
  ("webserver-port", itoa (api_Port (apiSpecOrDefault s)));
  ("webserver-allow-from", "0.0.0.0/0,::/0");
  ("api", "yes");
  ("default-soa-content", "@ hostmaster.@ 0 10800 3600 604800 3600");
  ("loglevel", "4")].

Definition entry_ok (kv : string * string) : bool := extraSettingViolation kv.1 kv.2 == "".
Definition accepted (extra : gomap string) : list (string * string) :=
  List.filter entry_ok (map (fun k => (k, default "" (map_get extra k))) (sortedKeys extra)).
Definition owned_setting (k : string) : Prop :=
  k ∈ reservedSettings \/ HasPrefix k reservedSettingPrefix = true.

(** ** Lemmas on the text of a configuration *)

Lemma split_on_app c a b : c ∉ a -> split_on c (a ++ c :: b) = a :: split_on c b.
Proof.
  induction a as [|x a IH]; simpl; intros Hc.
  - by rewrite bool_decide_eq_true_2.
  - apply not_elem_of_cons in Hc as [Hx Ha].
    rewrite bool_decide_eq_false_2 by done. by rewrite IH.
Qed.

Lemma cut_app c a b : c ∉ a -> cut c (a ++ c :: b) = Some (a, b).
Proof.
  induction a as [|x a IH]; simpl; intros Hc.
  - by rewrite bool_decide_eq_true_2.
  - apply not_elem_of_cons in Hc as [Hx Ha].
    rewrite bool_decide_eq_false_2 by done. by rewrite IH.
Qed.

(** A text that starts with a line sets what the line sets, then the rest. *)
Lemma conf_settings_line l rest :
  LF ∉ chars l ->
  conf_settings (l +:+ nl +:+ rest) = option_list (setting_of_line (chars l)) ++ conf_settings rest.
Proof.
  intros Hl. unfold conf_settings. rewrite !chars_app. cbn [chars nl app].
  rewrite split_on_app by done. cbn [omap list_omap]. by destruct (setting_of_line _).
Qed.

Lemma text_of_lines_cons l ls : text_of_lines (l :: ls) = l +:+ nl +:+ text_of_lines ls.
Proof. apply str_app_assoc. Qed.

Lemma conf_settings_lines ls rest :
  Forall (fun l => LF ∉ chars l) ls ->
  conf_settings (text_of_lines ls +:+ rest)
  = omap (fun l => setting_of_line (chars l)) ls ++ conf_settings rest.
Proof.
  induction 1 as [|l ls Hl _ IH]; [done|].
  rewrite text_of_lines_cons, !str_app_assoc, conf_settings_line, IH by done.
  cbn. by destruct (setting_of_line _).
Qed.

(** The text of a key=value line reads back as the pair. *)
Lemma setting_of_kv k v :
  match chars k with "#"%char :: _ => False | _ => True end -> "="%char ∉ chars k ->
  setting_of_line (chars (k +:+ "=" +:+ v)) = Some (k, v).
Proof.
  intros Hh Hk. rewrite !chars_app. cbn [chars app].
  unfold setting_of_line. rewrite cut_app by done. rewrite !of_chars_chars.
  destruct (chars k) as [|c l]; [done|]. cbn [app].
  destruct c as [[] [] [] [] [] [] [] []]; done.
Qed.

(** No byte of a decimal number is a line feed. *)
Lemma pretty_N_go_no_LF x s : LF ∉ chars s -> LF ∉ chars (pretty_N_go x s).
Proof.
  revert s. induction (N.lt_wf_0 x) as [x _ IH]; intros s Hs.
  destruct (decide (x = 0%N)) as [->|Hx]; [by rewrite pretty_N_go_0|].
  rewrite pretty_N_go_step by lia. apply IH; [apply N.div_lt; lia|].
  cbn [chars]. apply not_elem_of_cons. split; [|done].
  unfold pretty_N_char. by repeat case_match.
Qed.

Lemma pretty_N_no_LF (n : N) : LF ∉ chars (pretty n).
Proof.
  unfold pretty, pretty_N. case_decide; [|apply pretty_N_go_no_LF, not_elem_of_nil].
  cbn. apply not_elem_of_cons. split; [done|apply not_elem_of_nil].
Qed.

Lemma itoa_no_LF z : LF ∉ chars (itoa z).
Proof.
  destruct z as [|p|p].
  - cbn. apply not_elem_of_cons. split; [done|apply not_elem_of_nil].
  - apply (pretty_N_no_LF (Npos p)).
  - change (LF ∉ chars ("-" +:+ pretty (Npos p))). rewrite chars_app. apply not_elem_of_app.
    split; [|apply pretty_N_no_LF]. cbn. apply not_elem_of_cons. split; [done|apply not_elem_of_nil].
Qed.

Lemma key_matches_chars k c :
  key_matches k = true -> c ∈ chars k -> lower_or_digit c = true \/ c = "-"%char.
Proof.
  unfold key_matches. destruct (chars k) as [|d l]; [done|].
  intros [Hd Hl]%andb_true_iff [->|Hc]%elem_of_cons; [by left|].
  rewrite forallb_forall in Hl. specialize (Hl c (proj1 (list_elem_of_In _ _) Hc)).
  apply orb_true_iff in Hl as [?|?]; bool_prop; auto.
Qed.

(** An accepted key has none of the bytes that would end it, and does not
    start a comment. *)
Lemma key_matches_safe k :
  key_matches k = true ->
  ("="%char ∉ chars k) /\ (LF ∉ chars k) /\ (NUL ∉ chars k) /\
  match chars k with "#"%char :: _ => False | _ => True end.
Proof.
  intros Hk. assert (Hno : forall c, lower_or_digit c = false -> c <> "-"%char -> c ∉ chars k).
  { intros c Hc Hd Hin. destruct (key_matches_chars k c Hk Hin); congruence. }
  repeat split; try by apply Hno.
  pose proof (Hno "#"%char eq_refl ltac:(done)) as Hh. destruct (chars k) as [|c l]; [done|].
  apply not_elem_of_cons in Hh as [Hh _]. by destruct c as [[] [] [] [] [] [] [] []].
Qed.

Lemma str_app_ne s t : s <> "" -> s +:+ t <> "".
Proof. intros Hs [? _]%str_app_eq_nil. done. Qed.

(** An entry is rendered exactly when its key matches the pattern and is not
    owned by the operator, and its value has no line break. *)
Lemma entry_ok_spec k v :
  entry_ok (k, v) = true <->
  key_matches k = true /\ ~ owned_setting k /\ (LF ∉ chars v) /\ (CR ∉ chars v).
Proof.
  unfold entry_ok, extraSettingViolation, owned_setting; cbn [fst snd].
  rewrite bool_decide_eq_true. destruct (key_matches k); cbn [negb].
  2: { split; [|by intros (? & _)]. intros H%str_app_eq_nil. by destruct H. }
  destruct (bool_decide _ || _) eqn:Er.
  { split; [intros H%str_app_eq_nil; by destruct H|].
    intros (_ & Hn & _). destruct Hn. apply orb_true_iff in Er as [?|?]; bool_prop; auto. }
  apply orb_false_iff in Er as [Er1 Er2]. bool_prop.
  destruct (ContainsAny v [CR; LF]) eqn:Ec.
  { split; [intros H%str_app_eq_nil; by destruct H|]. intros (_ & _ & Hl & Hc).
    assert (ContainsAny v [CR; LF] = false); [|congruence].
    apply ContainsAny_false. intros c. rewrite !elem_of_cons, elem_of_nil. naive_solver. }
  rewrite ContainsAny_false in Ec. split; [intros _|done].
  repeat split; [intros [?|?]; congruence|apply Ec; set_solver|apply Ec; set_solver].
Qed.

Definition kv_line (kv : string * string) : string := kv.1 +:+ "=" +:+ kv.2.

Lemma render_step_eq extra b k :
  let v := default "" (map_get extra k) in
  render_step extra b k
  = if entry_ok (k, v)
    then (if b == "" then b +:+ "# spec.extraSettings" +:+ nl else b) +:+ kv_line (k, v) +:+ nl
    else b.
Proof.
  cbn zeta. unfold render_step, entry_ok, kv_line; cbn [fst snd].
  case_bool_decide; cbn [negb]; by autorewrite with aether.
Qed.

Lemma render_loop extra ks b :
  foldl (render_step extra) b ks
  = match List.filter entry_ok (map (fun k => (k, default "" (map_get extra k))) ks) with
    | [] => b
    | es => (if b == "" then b +:+ "# spec.extraSettings" +:+ nl else b) +:+ text_of_lines (map kv_line es)
    end.
Proof.
  revert b. induction ks as [|k ks IH]; intros b; [done|]. cbn [foldl map List.filter].
  rewrite IH, render_step_eq. cbn zeta. destruct (entry_ok _); [|done].
  rewrite (bool_decide_eq_false_2 (_ +:+ kv_line _ +:+ nl = "")).
  - cbn [map]. rewrite text_of_lines_cons.
    destruct (List.filter _ _) as [|e es]; cbn [map]; by autorewrite with aether.
  - intros H. apply str_app_eq_nil in H as [_ H]. by apply str_app_eq_nil in H as [_ H].
Qed.

Lemma accepted_ok extra k v : (k, v) ∈ accepted extra -> entry_ok (k, v) = true.
Proof. unfold accepted. rewrite list_elem_of_In, filter_In. by intros [_ ?]. Qed.

Lemma kv_line_reads k v :
  entry_ok (k, v) = true ->
  (LF ∉ chars (kv_line (k, v))) /\ setting_of_line (chars (kv_line (k, v))) = Some (k, v).
Proof.
  intros (Hk & _ & Hv & _)%entry_ok_spec. apply key_matches_safe in Hk as (He & Hl & _ & Hh).
  split; [|by apply setting_of_kv]. unfold kv_line; cbn [fst snd]. rewrite !chars_app.
  rewrite !not_elem_of_app. repeat split; try done. cbn.
  apply not_elem_of_cons. split; [done|apply not_elem_of_nil].
Qed.

(** The extra block reads back as the accepted entries. *)
Lemma renderExtraSettings_settings extra :
  conf_settings (renderExtraSettings extra) = accepted extra.
Proof.
  unfold renderExtraSettings. rewrite render_loop. fold (accepted extra).
  pose proof (accepted_ok extra) as Hok. destruct (accepted extra) as [|e es]; [done|].
  rewrite bool_decide_eq_true_2, str_app_nil_l, str_app_assoc by done.
  rewrite conf_settings_line by (apply (bool_decide_unpack _); by vm_compute).
  rewrite <- (str_app_nil_r (text_of_lines _)), conf_settings_lines.
  - cbn [option_list app]. rewrite app_nil_r. clear -Hok.
    induction (e :: es) as [|[k v] l IH]; [done|]. cbn.
    rewrite (proj2 (kv_line_reads k v (Hok k v ltac:(set_solver)))). f_equal.
    apply IH. intros k' v' H. apply Hok. set_solver.
  - apply Forall_fmap, Forall_forall. intros [k v] H. apply kv_line_reads, Hok, H.
Qed.

(** ** Lemmas on the hash input *)

Definition entries (m : gomap string) : list (string * string) :=
  map (fun k => (k, default "" (map_get m k))) (sort_Strings (map_keys m)).
Definition hash_entry (kv : string * string) : list ascii :=
  chars kv.1 ++ NUL :: chars kv.2 ++ [NUL].

Lemma hash_input_entries conf secrets :
  hash_input conf secrets = chars conf ++ flat_map hash_entry (flat_map entries secrets).
Proof.
  unfold hash_input. f_equal. induction secrets as [|m secrets IH]; [done|].
  cbn [flat_map]. rewrite IH, flat_map_app. f_equal. unfold hash_secret, entries.
  induction (sort_Strings _) as [|k ks IHk]; [done|]. cbn [map flat_map]. by rewrite IHk.
Qed.

(** The bytes of an entry list determine it when no key or value has a NUL. *)
Lemma hash_entries_inj l1 l2 :
  Forall (fun kv => (NUL ∉ chars kv.1) /\ (NUL ∉ chars kv.2)) l1 ->
  Forall (fun kv => (NUL ∉ chars kv.1) /\ (NUL ∉ chars kv.2)) l2 ->
  flat_map hash_entry l1 = flat_map hash_entry l2 -> l1 = l2.
Proof.
  intros H1. revert l2. induction H1 as [|[k v] l1 [Hk Hv] _ IH]; intros l2 H2 E.
  - destruct H2 as [|[k' v'] l2]; [done|]. exfalso. cbn in E. by destruct (chars k').
  - destruct H2 as [|[k' v'] l2 [Hk' Hv'] H2]; [exfalso; cbn in E; by destruct (chars k)|].
    cbn [flat_map] in E. unfold hash_entry in E; cbn [fst snd] in *.
    rewrite <- !app_assoc in E. cbn [app] in E. apply app_cons_split in E as [Ek E]; [|done..].
    rewrite <- !app_assoc in E. apply app_cons_split in E as [Ev E]; [|done..].
    apply chars_inj in Ek as ->. apply chars_inj in Ev as ->. f_equal. by apply IH.
Qed.

Lemma hash_secret_perm m1 m2 : m1 ≡ₚ m2 -> wf_map m1 -> hash_secret m1 = hash_secret m2.
Proof.
  intros E Hwf. unfold hash_secret. rewrite (sort_Strings_proper (map_keys m1) (map_keys m2)).
  - apply flat_map_ext. intros k. by rewrite (map_get_perm m1 m2).
  - unfold map_keys. by rewrite E.
Qed.

(** ** Lemmas on the managed block *)

Lemma conf_literals_no_LF :
  Forall (fun l => LF ∉ chars l) conf_head /\ Forall (fun l => LF ∉ chars l) conf_tail.
Proof. split; apply (bool_decide_unpack _); by vm_compute. Qed.

Lemma conf_head_reads :
  omap (fun l => setting_of_line (chars l)) conf_head = [
    ("launch", "gpgsql"); ("local-address", "0.0.0.0"); ("local-port", itoa dnsTCPPort);
    ("webserver", "yes"); ("webserver-address", "0.0.0.0")].
Proof. by vm_compute. Qed.

Lemma conf_tail_reads :
  omap (fun l => setting_of_line (chars l)) conf_tail = [
    ("webserver-allow-from", "0.0.0.0/0,::/0"); ("api", "yes");
    ("default-soa-content", "@ hostmaster.@ 0 10800 3600 604800 3600"); ("loglevel", "4")].
Proof. by vm_compute. Qed.

Lemma port_line_reads p :
  setting_of_line (chars ("webserver-port=" +:+ p)) = Some ("webserver-port", p).
Proof. apply (setting_of_kv "webserver-port" p I). apply (bool_decide_unpack _). by vm_compute. Qed.

Lemma omap_line {B} (f : string -> option B) l ls :
  omap f (l :: ls) = option_list (f l) ++ omap f ls.
Proof. simpl. by destruct (f l). Qed.

(** ** Properties *)

Lemma PDNSConfig_reads s :
  conf_settings (PDNSConfig s) = managed_settings s ++ accepted (ps_ExtraSettings (srv_Spec s)).
Proof.
  unfold PDNSConfig. rewrite conf_settings_lines.
  - rewrite renderExtraSettings_settings, omap_app, conf_head_reads, omap_line, conf_tail_reads, port_line_reads.
    done.
  - apply Forall_app. split; [apply conf_literals_no_LF|]. constructor; [|apply conf_literals_no_LF].
    rewrite chars_app, not_elem_of_app. split; [apply (bool_decide_unpack _); by vm_compute|].
    apply itoa_no_LF.
Qed.

(** C14. The settings a reader finds in the rendered pdns.conf are exactly the
    operator's managed block followed by the user's accepted entries sorted by
    key, for every map of extra settings, malformed ones included: no key or
    value can add a line of its own. *)
Theorem PDNSConfig_settings s :
  conf_settings (PDNSConfig s) = managed_settings s ++ accepted (ps_ExtraSettings (srv_Spec s)).
Proof. apply PDNSConfig_reads. Qed.

(** C15. no extra setting overrides a setting the operator owns: whatever the
    spec says, a reserved name has only its managed value in pdns.conf and no
    gpgsql setting occurs in the file. *)
Theorem owned_settings_not_overridden s k v :
  (k, v) ∈ conf_settings (PDNSConfig s) -> owned_setting k ->
  (k, v) ∈ managed_settings s /\ HasPrefix k reservedSettingPrefix = false.
Proof.
  rewrite PDNSConfig_reads, elem_of_app. intros [Hm|Ha] Ho.
  - split; [done|]. unfold managed_settings in Hm. rewrite !elem_of_cons, elem_of_nil in Hm.
    destruct_or! Hm; by simplify_eq.
  - apply accepted_ok, entry_ok_spec in Ha as (_ & Hn & _). done.
Qed.

Lemma owned_settings_not_overridden_witness :
  ("local-port", "53") ∈ conf_settings (PDNSConfig sample_server)
  /\ ("local-port", "53") ∈ managed_settings sample_server.
Proof.
  assert (H : ("local-port", "53") ∈ conf_settings (PDNSConfig sample_server))
    by (apply (bool_decide_unpack _); by vm_compute).
  split; [exact H|]. apply (owned_settings_not_overridden sample_server "local-port" "53" H).
  left. apply (bool_decide_unpack _). by vm_compute.
Defined.

Lemma sortedKeys_perm e1 e2 : e1 ≡ₚ e2 -> sortedKeys e1 = sortedKeys e2.
Proof. intros E. apply sort_Strings_proper. unfold map_keys. by rewrite E. Qed.

Lemma elem_of_accepted extra k v :
  wf_map extra -> (k, v) ∈ accepted extra <-> (k, v) ∈ extra /\ entry_ok (k, v) = true.
Proof.
  intros Hwf. unfold accepted. rewrite list_elem_of_In, filter_In, <- list_elem_of_In.
  rewrite list_elem_of_fmap. split.
  - intros [(k' & E & Hk) Hok]; simplify_eq. split; [|done].
    unfold sortedKeys in Hk. rewrite elem_of_sort_Strings in Hk.
    apply list_elem_of_fmap in Hk as ([k'' v'] & -> & Hin). cbn [fst].
    by rewrite (proj2 (map_get_Some extra k'' v' Hwf) Hin).
  - intros [Hin Hok]. split; [|done]. exists k.
    rewrite (proj2 (map_get_Some extra k v Hwf) Hin). split; [done|].
    unfold sortedKeys. rewrite elem_of_sort_Strings. apply list_elem_of_fmap. by exists (k, v).
Qed.

(** C13. the renderer and the validator agree: validation reports no message
    exactly when every entry of the map is a setting of the rendered block. *)
Theorem validate_render_agree extra :
  wf_map extra ->
  (ValidateExtraSettings extra = [] <->
   forall k v, (k, v) ∈ extra -> (k, v) ∈ conf_settings (renderExtraSettings extra)).
Proof.
  intros Hwf. rewrite renderExtraSettings_settings. unfold ValidateExtraSettings. split.
  - intros E k v Hin. apply elem_of_accepted; [done|]. split; [done|].
    apply bool_decide_eq_true. cbn [fst snd]. destruct (decide (extraSettingViolation k v = "")) as [|Hne]; [done|].
    exfalso. assert (Hm : extraSettingViolation k v ∈ omap (violation_msg extra) (sortedKeys extra)); [|by rewrite E in Hm; set_solver].
    apply list_elem_of_omap. exists k. split.
    + unfold sortedKeys. rewrite elem_of_sort_Strings. apply list_elem_of_fmap. by exists (k, v).
    + unfold violation_msg. rewrite (proj2 (map_get_Some extra k v Hwf) Hin). cbn [from_option id].
      cbn zeta. by rewrite bool_decide_eq_false_2.
  - intros Hall. destruct (omap _ _) as [|m ms] eqn:E; [done|]. exfalso.
    assert (Hm : m ∈ m :: ms) by set_solver. rewrite <- E in Hm.
    apply list_elem_of_omap in Hm as (k & Hk & Hv). unfold violation_msg in Hv. cbn zeta in Hv.
    unfold sortedKeys in Hk. rewrite elem_of_sort_Strings in Hk.
    apply list_elem_of_fmap in Hk as ([k' v] & -> & Hin). cbn [fst] in Hv.
    rewrite (proj2 (map_get_Some extra k' v Hwf) Hin) in Hv. cbn [from_option id] in Hv.
    apply Hall, elem_of_accepted in Hin as [_ Hok]; [|done].
    unfold entry_ok in Hok; cbn [fst snd] in Hok. bool_prop. by rewrite Hok in Hv.
Qed.

Lemma validate_render_agree_witness :
  wf_map [("primary", "yes"); ("bad key", "x")] /\
  ~ (forall k v, (k, v) ∈ [("primary", "yes"); ("bad key", "x")] ->
     (k, v) ∈ conf_settings (renderExtraSettings [("primary", "yes"); ("bad key", "x")])).
Proof.
  assert (Hwf : wf_map [("primary", "yes"); ("bad key", "x")]).
  { apply (bool_decide_unpack _). by vm_compute. }
  split; [exact Hwf|]. intros H. apply (validate_render_agree _ Hwf) in H. by vm_compute in H.
Defined.

(** C32. the rendered pdns.conf and the configuration hash do not depend on the
    order in which Go visits the maps they range over, so an unchanged spec
    and unchanged Secrets never roll the pods. *)
Theorem config_order_independent conf s1 s2 m1 m2 :
  Forall2 (fun a b => wf_map a /\ a ≡ₚ b) s1 s2 -> wf_map m1 -> m1 ≡ₚ m2 ->
  ConfigHash conf s1 = ConfigHash conf s2 /\
  renderExtraSettings m1 = renderExtraSettings m2 /\
  ValidateExtraSettings m1 = ValidateExtraSettings m2.
Proof.
  intros Hs Hwf Hm. split.
  - unfold ConfigHash, hash_input. do 6 f_equal.
    induction Hs as [|a b s1 s2 [Ha Hab] _ IH]; [done|]. cbn [flat_map].
    by rewrite IH, (hash_secret_perm a b).
  - assert (Hg : forall k, map_get m1 k = map_get m2 k) by (intros; by apply map_get_perm).
    unfold renderExtraSettings, ValidateExtraSettings. rewrite (sortedKeys_perm m1 m2) by done. split.
    + generalize "". induction (sortedKeys m2) as [|k ks IH]; intros b; [done|]. cbn [foldl].
      rewrite IH. unfold render_step. by rewrite Hg.
    + induction (sortedKeys m2) as [|k ks IH]; [done|]. rewrite !omap_line, IH. unfold violation_msg. by rewrite Hg.
Qed.

Lemma config_order_independent_witness :
  ConfigHash "c" [[("host", "db"); ("port", "5432")]] = ConfigHash "c" [[("port", "5432"); ("host", "db")]].
Proof.
  apply (config_order_independent "c" [[("host", "db"); ("port", "5432")]]
    [[("port", "5432"); ("host", "db")]] [] []).
  - constructor; [|constructor]. split; [|by constructor]. apply (bool_decide_unpack _). by vm_compute.
  - apply (bool_decide_unpack _). by vm_compute.
  - done.
Defined.

Definition clean_secret (m : gomap string) : Prop :=
  Forall (fun kv => (NUL ∉ chars kv.1) /\ (LF ∉ chars kv.1) /\ (NUL ∉ chars kv.2)) (entries m).

Lemma clean_secrets l :
  Forall clean_secret l ->
  Forall (fun kv => (NUL ∉ chars kv.1) /\ (LF ∉ chars kv.1) /\ (NUL ∉ chars kv.2)) (flat_map entries l).
Proof. induction 1; [constructor|]. by apply Forall_app. Qed.

(** The bytes that are hashed determine the rendered text and the list of
    Secret entries: for texts that end in a line feed, Secret keys without NUL
    or line feed and values without NUL, two inputs with the same bytes have
    the same configuration and the same entries in order. A change of either
    changes the SHA-256 input. *)
Theorem hash_input_injective c1 c2 s1 s2 :
  NUL ∉ chars (c1 +:+ nl) -> NUL ∉ chars (c2 +:+ nl) -> Forall clean_secret s1 -> Forall clean_secret s2 ->
  hash_input (c1 +:+ nl) s1 = hash_input (c2 +:+ nl) s2 ->
  c1 = c2 /\ flat_map entries s1 = flat_map entries s2.
Proof.
  intros Hc1 Hc2 H1%clean_secrets H2%clean_secrets. rewrite !hash_input_entries.
  assert (Hw : forall l, Forall (fun kv => (NUL ∉ chars kv.1) /\ (LF ∉ chars kv.1) /\ (NUL ∉ chars kv.2)) l ->
    Forall (fun kv => (NUL ∉ chars kv.1) /\ (NUL ∉ chars kv.2)) l).
  { intros l Hl. eapply Forall_impl; [exact Hl|]. naive_solver. }
  destruct H1 as [|[k1 v1] l1 (Hk1 & Hl1 & Hv1) H1], H2 as [|[k2 v2] l2 (Hk2 & Hl2 & Hv2) H2]; intros E.
  - cbn in E. rewrite !app_nil_r in E. apply chars_inj, str_app_inj_r in E. done.
  - exfalso. cbn [flat_map] in E. apply Hc1. rewrite app_nil_r in E. rewrite E.
    unfold hash_entry. set_solver.
  - exfalso. cbn [flat_map] in E. apply Hc2. rewrite app_nil_r in E. rewrite <- E.
    unfold hash_entry. set_solver.
  - cbn [flat_map] in E. unfold hash_entry in E at 1 3; cbn [fst snd] in *.
    rewrite <- !app_assoc in E. cbn [app] in E. rewrite !(app_assoc (chars (_ +:+ nl))) in E.
    apply app_cons_split in E as [Ec E]; [|rewrite not_elem_of_app; done..].
    rewrite <- !app_assoc in E. apply app_cons_split in E as [Ev E]; [|done..].
    rewrite !chars_app, <- !app_assoc in Ec. cbn [chars nl app] in Ec.
    assert (Hcut : forall a b x y, LF ∉ x -> LF ∉ y -> a ++ LF :: x = b ++ LF :: y -> a = b /\ x = y).
    { clear. intros a b x y Hx Hy E%(f_equal (@rev ascii)). rewrite !rev_app_distr in E.
      cbn [rev] in E. rewrite <- !app_assoc in E. cbn [app] in E.
      apply app_cons_split in E as [Ex Ea]; [|by rewrite elem_of_rev..].
      split; [rewrite <- (rev_involutive a), <- (rev_involutive b)|rewrite <- (rev_involutive x), <- (rev_involutive y)]; congruence. }
    apply Hcut in Ec as [Ec Ek]; [|done..].
    apply chars_inj in Ec as ->, Ek as ->, Ev as ->. split; [done|]. f_equal.
    apply hash_entries_inj; auto.
Qed.

Lemma hash_input_injective_witness :
  hash_input ("launch=gpgsql" +:+ nl) [[("api-key", "a")]] <> hash_input ("launch=gpgsql" +:+ nl) [[("api-key", "b")]].
Proof.
  intros E. assert (Hc : forall v, NUL ∉ chars v -> Forall clean_secret [[("api-key", v)]]).
  { intros v Hv. constructor; [|constructor]. unfold clean_secret. cbn. constructor; [|constructor].
    cbn [fst snd]. repeat split; [apply (bool_decide_unpack _); by vm_compute..|done]. }
  destruct (hash_input_injective "launch=gpgsql" "launch=gpgsql" [[("api-key", "a")]] [[("api-key", "b")]])
    as [_ H]; [apply (bool_decide_unpack _); by vm_compute..| | |exact E|by vm_compute in H];
    apply Hc; apply (bool_decide_unpack _); by vm_compute.
Defined.

Lemma length_chars_of_chars l : String.length (of_chars l) = length l.
Proof. by rewrite length_chars, chars_of_chars. Qed.

Lemma length_hex l : length (chars (hex_EncodeToString l)) = (2 * length l)%nat.
Proof.
  unfold hex_EncodeToString. induction l as [|c l IH]; [done|].
  cbn [map concat_str foldr]. fold (concat_str (map (hex_byte true) l)).
  rewrite chars_app, length_app, IH. cbn. lia.
Qed.

(** The annotation always has 16 characters. *)
Lemma length_ConfigHash conf secrets : String.length (ConfigHash conf secrets) = 16%nat.
Proof.
  unfold ConfigHash. rewrite length_chars_of_chars, length_take, length_hex, length_Sum256. done.
Qed.

(** The boundary between two Secrets is not part of the hashed bytes: a key
    that moves from one Secret to the next leaves the hash unchanged. *)
Lemma hash_boundary_not_covered :
  ConfigHash "conf" [[("k", "v")]; []] = ConfigHash "conf" [[]; [("k", "v")]].
Proof. done. Qed.
