(* ===== verification/Workloads.v ===== *)
(** * internal/manifests and internal/cnpg: the objects rendered for a server

    The schema-init Job, the Deployment, the PodDisruptionBudget, the
    Services, the NetworkPolicy, the PodMonitor, the Gateway API routes and
    the CloudNativePG Cluster of a PowerDNSServer, as pure functions of the
    resource. Maps built by separate calls of labels are separate maps in the
    sources, so values model them; the shared map of the dnsdist tier is
    modelled with a store in the file of its manifests. *)

From Stdlib Require Import Ascii.
From S2P Require Import Prelude GoStd Meta ApiTypes KubeObjects Samples Manifests.

Open Scope go_scope.
Open Scope stdpp_scope.
Open Scope Z_scope.

(** ** Schema initialisation *)

Definition pgClientImage : string := "postgres:16-alpine".
Definition pdnsSchemaPath : string := "/usr/local/share/doc/pdns/schema.pgsql.sql".
Definition pdnsSchemaPathFallback : string := "/usr/share/doc/pdns/schema.pgsql.sql".

Definition secret_env (name secret key : string) : EnvVar :=
  {| env_Name := name; env_Value := ""; env_SecretKeyRef := Some (secret, key) |}.

Definition backendEnv (secret : string) : list EnvVar := [
  secret_env "PGHOST" secret "host";
  secret_env "PGPORT" secret "port";
  secret_env "PGDATABASE" secret "database";
  secret_env "PGUSER" secret "username";
  secret_env "PGPASSWORD" secret "password"].

Definition no_resources : ResourceRequirements := {| rr_Requests := None; rr_Limits := None |}.

Definition shell_container (name image script : string) (env : list EnvVar) (mounts : list VolumeMount) :
    Container := {|
  ct_Name := name; ct_Image := image; ct_Command := ["/bin/sh"; "-c"]; ct_Args := [script];
  ct_Ports := []; ct_Env := env; ct_Resources := no_resources; ct_VolumeMounts := mounts;
  ct_ReadinessProbe := None; ct_LivenessProbe := None;
|}.

Definition schema_script : string :=
  "set -e" +:+ nl
  +:+ "echo " +:+ dq +:+ "applying PowerDNS schema to ${PGHOST}:${PGPORT}/${PGDATABASE}" +:+ dq +:+ nl
  +:+ "psql -v ON_ERROR_STOP=1 -h " +:+ dq +:+ "$PGHOST" +:+ dq +:+ " -p " +:+ dq +:+ "$PGPORT" +:+ dq
  +:+ " -U " +:+ dq +:+ "$PGUSER" +:+ dq +:+ " -d " +:+ dq +:+ "$PGDATABASE" +:+ dq
  +:+ " -f /schema/schema.sql" +:+ nl
  +:+ "echo " +:+ dq +:+ "schema applied" +:+ dq.

Definition SchemaInitJob (s : PowerDNSServer) : Job :=
  let names := NameSet s in
  let image := ps_Image (srv_Spec s) in
  let image := if image == "" then DefaultImage else image in
  let mounts := [{| vm_Name := "schema"; vm_MountPath := "/schema"; vm_ReadOnly := false |}] in
  {|
    job_Meta := new_meta (n_SchemaJob names) (om_Namespace (srv_Meta s)) (labels s);
    job_BackoffLimit := Some 6;
    job_TTLSecondsAfterFinished := Some 3600;
    job_Template := {|
      pt_Labels := labels s;
      pt_Annotations := ∅;
      pt_Spec := {|
        pod_RestartPolicy := "OnFailure";
        pod_InitContainers := [
          shell_container "extract-schema" image
            ("cp " +:+ pdnsSchemaPath +:+ " /schema/schema.sql 2>/dev/null || cp "
             +:+ pdnsSchemaPathFallback +:+ " /schema/schema.sql") [] mounts];
        pod_Containers := [
          shell_container "apply-schema" pgClientImage schema_script
            (backendEnv (n_BackendSecret names)) mounts];
        pod_Volumes := [{| vol_Name := "schema"; vol_Source := VEmptyDir |}];
        pod_AntiAffinity := None;
        pod_TopologySpreadConstraints := [];
        pod_NodeSelector := ∅;
        pod_Tolerations := [];
        pod_PriorityClassName := "";
      |};
    |};
    job_Succeeded := 0;
    job_Conditions := [];
  |}.

(** ** Deployment *)

Definition gpgsqlMappings : list (string * string) := [
  ("PDNS_GPGSQL_HOST", "PGHOST");
  ("PDNS_GPGSQL_PORT", "PGPORT");
  ("PDNS_GPGSQL_DBNAME", "PGDATABASE");
  ("PDNS_GPGSQL_USER", "PGUSER");
  ("PDNS_GPGSQL_PASSWORD", "PGPASSWORD")].

Definition server_env (names : Names) : list EnvVar :=
  backendEnv (n_BackendSecret names)
  ++ [secret_env "PDNS_AUTH_API_KEY" (n_APIKeySecret names) "api-key"]
  ++ map (fun m => {| env_Name := m.1; env_Value := "$(" +:+ m.2 +:+ ")"; env_SecretKeyRef := None |})
         gpgsqlMappings.

Definition server_args : list string := [
  "--config-dir=/etc/powerdns";
  "--socket-dir=/var/run";
  "--api-key=$(PDNS_AUTH_API_KEY)";
  "--gpgsql-host=$(PDNS_GPGSQL_HOST)";
  "--gpgsql-port=$(PDNS_GPGSQL_PORT)";
  "--gpgsql-dbname=$(PDNS_GPGSQL_DBNAME)";
  "--gpgsql-user=$(PDNS_GPGSQL_USER)";
  "--gpgsql-password=$(PDNS_GPGSQL_PASSWORD)"].

Definition server_resources (r : ResourceRequirements) : ResourceRequirements := {|
  rr_Requests := match rr_Requests r with
                 | None => Some {[ "cpu" := "50m"; "memory" := "128Mi" ]}
                 | q => q
                 end;
  rr_Limits := match rr_Limits r with
               | None => Some {[ "memory" := "512Mi" ]}
               | q => q
               end;
|}.

Definition hash_annotations (configHash : string) : strmap :=
  if configHash != "" then {[ ConfigHashAnnotation := configHash ]} else ∅.

Definition anti_affinity (lb : strmap) : list WeightedPodAffinityTerm :=
  [{| wt_Weight := 100; wt_MatchLabels := lb; wt_TopologyKey := LabelHostname |}].
Definition spread_on (key : string) (lb : strmap) : TopologySpreadConstraint :=
  {| tsc_MaxSkew := 1; tsc_TopologyKey := key; tsc_WhenUnsatisfiable := ScheduleAnyway;
     tsc_MatchLabels := lb |}.

(** s.Spec.Replicas with its default, as three functions of the sources repeat it. *)
Definition replicas_of (r : option Z) : Z := match r with Some n => n | None => 1 end.

Definition Deployment_ (s : PowerDNSServer) (configHash : string) : Deployment :=
  let names := NameSet s in
  let lb := labels s in
  let replicas := replicas_of (ps_Replicas (srv_Spec s)) in
  let image := ps_Image (srv_Spec s) in
  let image := if image == "" then DefaultImage else image in
  let api := apiSpecOrDefault s in
  let sched := ps_Scheduling (srv_Spec s) in
  {|
    dep_Meta := new_meta (n_Deployment names) (om_Namespace (srv_Meta s)) lb;
    dep_Replicas := Some replicas;
    dep_Selector := lb;
    dep_Strategy := "RollingUpdate";
    dep_Template := {|
      pt_Labels := lb;
      pt_Annotations := hash_annotations configHash;
      pt_Spec := {|
        pod_RestartPolicy := "";
        pod_InitContainers := [];
        pod_Containers := [{|
          ct_Name := "pdns-auth";
          ct_Image := image;
          ct_Command := ["pdns_server"];
          ct_Args := server_args;
          ct_Ports := [
            {| cp_Name := "dns-tcp"; cp_ContainerPort := dnsTCPPort; cp_Protocol := ProtocolTCP |};
            {| cp_Name := "dns-udp"; cp_ContainerPort := dnsUDPPort; cp_Protocol := ProtocolUDP |};
            {| cp_Name := "api"; cp_ContainerPort := api_Port api; cp_Protocol := ProtocolTCP |}];
          ct_Env := server_env names;
          ct_Resources := server_resources (ps_Resources (srv_Spec s));
          ct_VolumeMounts := [
            {| vm_Name := "config"; vm_MountPath := "/etc/powerdns"; vm_ReadOnly := true |};
            {| vm_Name := "run"; vm_MountPath := "/var/run"; vm_ReadOnly := false |}];
          ct_ReadinessProbe := Some {|
            pr_Handler := PExec ["pdns_control"; "--socket-dir=/var/run"; "rping"];
            pr_InitialDelaySeconds := 5; pr_PeriodSeconds := 5;
            pr_TimeoutSeconds := 5; pr_FailureThreshold := 3 |};
          ct_LivenessProbe := Some {|
            pr_Handler := PTCPSocket (api_Port api);
            pr_InitialDelaySeconds := 30; pr_PeriodSeconds := 10;
            pr_TimeoutSeconds := 5; pr_FailureThreshold := 6 |};
        |}];
        pod_Volumes := [
          {| vol_Name := "config"; vol_Source := VConfigMap (n_ConfigMap names) |};
          {| vol_Name := "run"; vol_Source := VEmptyDir |}];
        pod_AntiAffinity := if 1 <? replicas then Some (anti_affinity lb) else None;
        pod_TopologySpreadConstraints :=
          if 1 <? replicas then
            spread_on LabelHostname lb
            :: (if sch_SpreadAcrossZones sched then [spread_on LabelTopologyZone lb] else [])
          else [];
        pod_NodeSelector := sch_NodeSelector sched;
        pod_Tolerations := sch_Tolerations sched;
        pod_PriorityClassName := sch_PriorityClassName sched;
      |};
    |};
    dep_ReadyReplicas := 0;
    dep_AvailableReplicas := 0;
  |}.

(** ** PodDisruptionBudget *)

Definition pdbFor (name namespace : string) (lbls : strmap) (replicas : Z) (override : option Z) :
    option PodDisruptionBudget :=
  if replicas <=? 1 then None
  else
    let minAvailable := wrap32 (replicas - 1) in
    let minAvailable := match override with Some n => n | None => minAvailable end in
    Some {| pdb_Meta := new_meta name namespace lbls;
            pdb_Spec_MinAvailable := Some minAvailable;
            pdb_Selector := lbls |}.

Definition pdb_override (p : option PDBSpec) : option Z :=
  match p with Some q => pdb_MinAvailable q | None => None end.

Definition PodDisruptionBudget_ (s : PowerDNSServer) : option PodDisruptionBudget :=
  pdbFor (n_PDB (NameSet s)) (om_Namespace (srv_Meta s)) (labels s)
    (replicas_of (ps_Replicas (srv_Spec s))) (pdb_override (ps_PodDisruptionBudget (srv_Spec s))).

(** ** Services *)

Definition dns_port (name : string) (port : Z) (protocol : string) : ServicePort :=
  {| sp_Name := name; sp_Port := port; sp_TargetPort := port; sp_Protocol := protocol; sp_NodePort := 0 |}.

Definition new_service_spec (type : string) (selector : strmap) (ports : list ServicePort) : ServiceSpec := {|
  ss_Type := type; ss_Selector := selector; ss_Ports := ports; ss_LoadBalancerIP := "";
  ss_ExternalTrafficPolicy := ""; ss_ClusterIP := ""; ss_Foreign := ∅ |}.

Definition APIService (s : PowerDNSServer) : Service :=
  let api := apiSpecOrDefault s in
  {| svc_Meta := new_meta (n_APIService (NameSet s)) (om_Namespace (srv_Meta s)) (labels s);
     svc_Spec := new_service_spec ServiceTypeClusterIP (labels s) [dns_port "api" (api_Port api) ProtocolTCP];
     svc_Ingress := [] |}.

Definition baseDNSService (s : PowerDNSServer) (name : string) : Service :=
  {| svc_Meta := new_meta name (om_Namespace (srv_Meta s)) (labels s);
     svc_Spec := new_service_spec ServiceTypeClusterIP (labels s)
       [dns_port "dns-tcp" dnsTCPPort ProtocolTCP; dns_port "dns-udp" dnsUDPPort ProtocolUDP];
     svc_Ingress := [] |}.

(** The load-balancer fields of a Service: type, address, policy. *)
Definition set_lb (type ip policy : string) (p : ServiceSpec) : ServiceSpec := {|
  ss_Type := type; ss_Selector := ss_Selector p; ss_Ports := ss_Ports p; ss_LoadBalancerIP := ip;
  ss_ExternalTrafficPolicy := policy; ss_ClusterIP := ss_ClusterIP p; ss_Foreign := ss_Foreign p |}.

Definition policy_or_local (policy : string) : string :=
  if policy != "" then policy else ServiceExternalTrafficPolicyLocal.

(** The load-balancer part shared by primary and additional Services: a
    non-empty address, non-empty annotations, a policy defaulting to Local. *)
Definition apply_lb (ip : string) (annotations : strmap) (policy : string) (svc : Service) : Service :=
  let spec := svc_Spec svc in
  let ip := if ip != "" then ip else ss_LoadBalancerIP spec in
  let meta := if bool_decide (annotations = ∅) then svc_Meta svc
              else set_om_Annotations annotations (svc_Meta svc) in
  {| svc_Meta := meta; svc_Spec := set_lb (ss_Type spec) ip (policy_or_local policy) spec;
     svc_Ingress := svc_Ingress svc |}.

Definition applyLBPrimary (svc : Service) (lb : option DNSLoadBalancerSpec) : Service :=
  match lb with
  | None =>
      let p := svc_Spec svc in
      set_svc_Spec (set_lb (ss_Type p) (ss_LoadBalancerIP p) ServiceExternalTrafficPolicyLocal p) svc
  | Some lb => apply_lb (lb_IP lb) (lb_Annotations lb) (lb_ExternalTrafficPolicy lb) svc
  end.

Definition set_type (type : string) (svc : Service) : Service :=
  let p := svc_Spec svc in
  set_svc_Spec (set_lb type (ss_LoadBalancerIP p) (ss_ExternalTrafficPolicy p) p) svc.

(** The exposure mode, empty meaning none. *)
Definition exposure_or_none (d : DNSSpec) : string :=
  if dns_Exposure d == "" then DNSExposureNone else dns_Exposure d.

Definition DNSService (s : PowerDNSServer) : Service :=
  let dns := ps_DNS (srv_Spec s) in
  let svc := baseDNSService s (n_DNSService (NameSet s)) in
  if exposure_or_none dns == DNSExposureLoadBalancer then
    applyLBPrimary (set_type ServiceTypeLoadBalancer svc) (dns_LoadBalancer dns)
  else svc.

Definition AdditionalDNSServices (s : PowerDNSServer) : list Service :=
  let dns := ps_DNS (srv_Spec s) in
  match dns_LoadBalancer dns with
  | Some lb =>
      if dns_Exposure dns != DNSExposureLoadBalancer then []
      else map (fun extra =>
        apply_lb (als_IP extra) (als_Annotations extra) (als_ExternalTrafficPolicy extra)
          (set_type ServiceTypeLoadBalancer
            (baseDNSService s (n_DNSService (NameSet s) +:+ als_NameSuffix extra))))
        (lb_AdditionalServices lb)
  | None => []
  end.

(** ** NetworkPolicy *)

Definition nsNameLabel : string := "kubernetes.io/metadata.name".

Definition NetworkPolicy_ (s : PowerDNSServer) : NetworkPolicy :=
  let api := apiSpecOrDefault s in
  let ns := om_Namespace (srv_Meta s) in
  let apiPeers := {[ nsNameLabel := ns ]}
    :: map (fun n => {[ nsNameLabel := n ]})
           (nps_AdditionalAllowedAPINamespaces (ps_NetworkPolicy (srv_Spec s))) in
  {| np_Meta := new_meta (n_NetPolicy (NameSet s)) ns (labels s);
     np_Spec := {|
       npo_PodSelector := labels s;
       npo_PolicyTypes := ["Ingress"];
       npo_Ingress := [
         {| npi_From := [];
            npi_Ports := [{| npp_Protocol := ProtocolTCP; npp_Port := dnsTCPPort |};
                          {| npp_Protocol := ProtocolUDP; npp_Port := dnsTCPPort |}] |};
         {| npi_From := apiPeers;
            npi_Ports := [{| npp_Protocol := ProtocolTCP; npp_Port := api_Port api |}] |}] |} |}.

(** ** PodMonitor *)

Definition PodMonitorGVK : GroupVersionKind :=
  {| gvk_Group := "monitoring.coreos.com"; gvk_Version := "v1"; gvk_Kind := "PodMonitor" |}.

(** A label map as the JSON object it becomes. *)
Definition json_of_map (m : strmap) : json := JObj (map (fun kv => (kv.1, JStr kv.2)) (map_to_list m)).

Definition PodMonitor (s : PowerDNSServer) : Unstructured :=
  let pm := obs_PodMonitor (ps_Observability (srv_Spec s)) in
  let interval := if pms_Interval pm == "" then "30s" else pms_Interval pm in
  {| u_GVK := PodMonitorGVK;
     u_Meta := new_meta (n_PodMonitor (NameSet s)) (om_Namespace (srv_Meta s)) (pms_Labels pm ∪ labels s);
     u_Spec := JObj [
       ("selector", JObj [("matchLabels", json_of_map (labels s))]);
       ("namespaceSelector", JObj [("matchNames", JArr [JStr (om_Namespace (srv_Meta s))])]);
       ("podMetricsEndpoints", JArr [JObj [
         ("port", JStr "api"); ("path", JStr "/metrics");
         ("interval", JStr interval); ("scheme", JStr "http")]])];
     u_Status := JNull |}.

(** ** CloudNativePG *)

Definition ClusterGVK : GroupVersionKind :=
  {| gvk_Group := "postgresql.cnpg.io"; gvk_Version := "v1"; gvk_Kind := "Cluster" |}.
Definition DefaultDatabase : string := "powerdns".
Definition DefaultOwner : string := "powerdns".

Definition Cluster (s : PowerDNSServer) (name : string) : Unstructured :=
  let pg := be_Postgres (ps_Backend (srv_Spec s)) in
  let instances := match pg with
                   | Some p => match pg_Instances p with Some n => n | None => 1 end
                   | None => 1
                   end in
  let storageSize := match pg with
                     | Some p => if pg_StorageSize p != "" then pg_StorageSize p else "5Gi"
                     | None => "5Gi"
                     end in
  let storageClass := match pg with Some p => pg_StorageClass p | None => "" end in
  {| u_GVK := ClusterGVK;
     u_Meta := new_meta name (om_Namespace (srv_Meta s))
       {[ "app.kubernetes.io/name" := "powerdns-postgres";
          "app.kubernetes.io/instance" := om_Name (srv_Meta s);
          "app.kubernetes.io/managed-by" := "aether-powerdns" ]};
     u_Spec := JObj [
       ("instances", JNum instances);
       ("storage", JObj (("size", JStr storageSize)
          :: (if storageClass != "" then [("storageClass", JStr storageClass)] else [])));
       ("bootstrap", JObj [("initdb", JObj [
          ("database", JStr DefaultDatabase); ("owner", JStr DefaultOwner)])])];
     u_Status := JNull |}.

Definition AppSecretName (cluster : string) : string := cluster +:+ "-app".

(** ** Gateway API routes *)

Inductive gatewayProto := gatewayProtoTCP | gatewayProtoUDP.

(** A pointer to the value, nil when it is empty. *)
Definition ptr_nonempty (s : string) : option string := if s != "" then Some s else None.

Definition dnsRouteParents (dns : DNSSpec) (localNS : string) (proto : gatewayProto) : list ParentReference :=
  match dns_Gateway dns with
  | None => []
  | Some gw =>
      map (fun p => {|
        par_Name := gpr_Name p;
        par_Group := ptr_nonempty (gpr_Group p);
        par_Kind := ptr_nonempty (gpr_Kind p);
        par_Namespace := if (gpr_Namespace p != "") && (gpr_Namespace p != localNS)
                         then Some (gpr_Namespace p) else None;
        par_SectionName := ptr_nonempty
          (match proto with
           | gatewayProtoTCP => gpr_TCPSectionName p
           | gatewayProtoUDP => gpr_UDPSectionName p
           end);
      |}) (dgw_ParentRefs gw)
  end.

Definition buildTCPRoute (name namespace : string) (lbls : strmap) (parents : list ParentReference)
    (backendSvc : string) (port : Z) : L4Route :=
  {| l4_Meta := new_meta name namespace lbls; l4_ParentRefs := parents;
     l4_Rules := [[{| br_Name := backendSvc; br_Port := Some port |}]] |}.

Definition buildUDPRoute (name namespace : string) (lbls : strmap) (parents : list ParentReference)
    (backendSvc : string) (port : Z) : L4Route :=
  {| l4_Meta := new_meta name namespace lbls; l4_ParentRefs := parents;
     l4_Rules := [[{| br_Name := backendSvc; br_Port := Some port |}]] |}.

Definition TCPRoute (s : PowerDNSServer) : L4Route :=
  let names := NameSet s in
  let ns := om_Namespace (srv_Meta s) in
  buildTCPRoute (n_TCPRoute names) ns (labels s)
    (dnsRouteParents (ps_DNS (srv_Spec s)) ns gatewayProtoTCP) (n_DNSService names) dnsTCPPort.

Definition UDPRoute (s : PowerDNSServer) : L4Route :=
  let names := NameSet s in
  let ns := om_Namespace (srv_Meta s) in
  buildUDPRoute (n_UDPRoute names) ns (labels s)
    (dnsRouteParents (ps_DNS (srv_Spec s)) ns gatewayProtoUDP) (n_DNSService names) dnsUDPPort.

Definition HTTPRoute_ (s : PowerDNSServer) : option HTTPRoute :=
  match api_Gateway (ps_API (srv_Spec s)) with
  | None => None
  | Some gw =>
      let names := NameSet s in
      let ns := om_Namespace (srv_Meta s) in
      let api := apiSpecOrDefault s in
      let parents := map (fun p => {|
        par_Name := apr_Name p;
        par_Group := ptr_nonempty (apr_Group p);
        par_Kind := ptr_nonempty (apr_Kind p);
        par_Namespace := if (apr_Namespace p != "") && (apr_Namespace p != ns)
                         then Some (apr_Namespace p) else None;
        par_SectionName := ptr_nonempty (apr_SectionName p);
      |}) (agw_ParentRefs gw) in
      Some {|
        hr_Meta := new_meta (n_HTTPRoute names) ns (labels s);
        hr_ParentRefs := parents;
        hr_Hostnames := agw_Hostnames gw;
        hr_Rules := [{| hrr_PathType := "PathPrefix"; hrr_PathValue := "/";
          hrr_BackendRefs := [{| br_Name := n_APIService names; br_Port := Some (api_Port api) |}] |}];
      |}
  end.

(** ** What the objects mean to Kubernetes

    A label selector selects the objects whose labels include it; the pods of
    a Deployment carry the labels of its template; kubelet expands $(NAME) in
    the arguments and values of a container. *)

Definition selects (selector lb : strmap) : Prop := selector ⊆ lb.

(** The labels of the pods of a server, and every selector that its objects use. *)
Definition pod_labels (s : PowerDNSServer) (hash : string) : strmap :=
  pt_Labels (dep_Template (Deployment_ s hash)).
Definition server_selectors (s : PowerDNSServer) (hash : string) : list strmap :=
  [dep_Selector (Deployment_ s hash); ss_Selector (svc_Spec (APIService s));
   ss_Selector (svc_Spec (DNSService s)); npo_PodSelector (np_Spec (NetworkPolicy_ s))]
  ++ map (fun svc => ss_Selector (svc_Spec svc)) (AdditionalDNSServices s)
  ++ match PodDisruptionBudget_ s with Some p => [pdb_Selector p] | None => [] end.

(** The names that a text refers to as $(NAME). *)
Fixpoint refs_from (fuel : nat) (s : string) : list string :=
  match fuel, s with
  | S fuel, String c s' =>
      if HasPrefix s "$(" then
        match split_on ")"%char (drop 2 (chars s)) with
        | name :: _ :: _ => [of_chars name]
        | _ => []
        end ++ refs_from fuel s'
      else refs_from fuel s'
  | _, _ => []
  end.
Definition env_refs (s : string) : list string := refs_from (S (String.length s)) s.

(** Every reference of an entry is to an entry before it: kubelet resolves
    only those. *)
Fixpoint env_resolved (seen : list string) (env : list EnvVar) : bool :=
  match env with
  | [] => true
  | e :: env =>
      forallb (fun r => bool_decide (r ∈ seen)) (env_refs (env_Value e))
      && env_resolved (env_Name e :: seen) env
  end.
Definition args_resolved (c : Container) : bool :=
  forallb (fun a => forallb (fun r => bool_decide (r ∈ map env_Name (ct_Env c))) (env_refs a)) (ct_Args c).

(** A connection to a selected pod from a namespace with these labels is admitted. *)
Definition np_admits (p : NetworkPolicy) (ns_labels : strmap) (proto : string) (port : Z) : Prop :=
  exists r, r ∈ npo_Ingress (np_Spec p)
    /\ (npi_From r = [] \/ exists sel, sel ∈ npi_From r /\ selects sel ns_labels)
    /\ {| npp_Protocol := proto; npp_Port := port |} ∈ npi_Ports r.

Lemma DNSService_selector s : ss_Selector (svc_Spec (DNSService s)) = labels s.
Proof. unfold DNSService, applyLBPrimary. by destruct (bool_decide _), (dns_LoadBalancer (ps_DNS (srv_Spec s))). Qed.

Lemma additional_selectors s svc :
  svc ∈ AdditionalDNSServices s -> ss_Selector (svc_Spec svc) = labels s.
Proof.
  unfold AdditionalDNSServices. destruct (dns_LoadBalancer (ps_DNS (srv_Spec s))) as [lb|]; [|by intros ?%elem_of_nil].
  destruct (negb _); [by intros ?%elem_of_nil|]. by intros (e & -> & _)%list_elem_of_fmap.
Qed.

Lemma selector_of_server s hash sel : sel ∈ server_selectors s hash -> sel = labels s.
Proof.
  unfold server_selectors. rewrite !elem_of_app. intros [H|[H|H]].
  - rewrite DNSService_selector in H. set_solver.
  - apply list_elem_of_fmap in H as (svc & -> & H). by apply additional_selectors.
  - unfold PodDisruptionBudget_, pdbFor in H.
    destruct (_ <=? _); [by apply elem_of_nil in H|]. by apply list_elem_of_singleton in H.
Qed.

(** The labels of the pods that are rendered for a server: those of its
    Deployment and those of its schema Job. *)
Definition rendered_pods (s : PowerDNSServer) (hash : string) : list strmap :=
  [pod_labels s hash; pt_Labels (job_Template (SchemaInitJob s))].

Lemma rendered_pod s hash l : l ∈ rendered_pods s hash -> l = labels s.
Proof. intros [->|[->|[]%elem_of_nil]%elem_of_cons]%elem_of_cons; done. Qed.

(** C33. Every selector of the objects rendered for a server (Deployment, API,
    DNS and additional Services, PodDisruptionBudget, NetworkPolicy) selects exactly
    the pods of the server of that name, and never those of another
    PowerDNSServer. The pods of a server are those of its Deployment and also
    those of its schema Job, which carry the same labels: while the Job's pod
    exists it is selected too, by every one of these selectors. *)
Theorem selectors_exact (s s' : PowerDNSServer) (hash hash' : string) (sel pod : strmap)
  (Hsel : sel ∈ server_selectors s hash) (Hpod : pod ∈ rendered_pods s' hash') :
  selects sel pod <-> om_Name (srv_Meta s) = om_Name (srv_Meta s').
Proof.
  apply selector_of_server in Hsel as ->. apply rendered_pod in Hpod as ->. unfold selects. split.
  - intros H. assert (E : labels s' !! labelInstance = Some (om_Name (srv_Meta s))).
    { apply (lookup_weaken (labels s)); [|done]. by vm_compute. }
    vm_compute in E. by inversion E.
  - intros E. unfold labels. by rewrite E.
Qed.

(** A selector of ns1 on the Deployment's pods and on the schema Job's pods,
    and on those of a server of another name. *)
Definition other_server : PowerDNSServer := set_srv_Meta (new_meta "ns2" "dns" ∅) sample_server.
Lemma selectors_exact_witness :
  (selects (labels sample_server) (pod_labels sample_server "h")
   /\ selects (labels sample_server) (pt_Labels (job_Template (SchemaInitJob sample_server))))
  /\ ~ selects (labels sample_server) (pod_labels other_server "h").
Proof.
  assert (Hsel : labels sample_server ∈ server_selectors sample_server "h") by (left).
  split; [split|].
  - apply (selectors_exact sample_server sample_server "h" "h" _ _ Hsel); [left|reflexivity].
  - apply (selectors_exact sample_server sample_server "h" "h" _ _ Hsel); [right; left|reflexivity].
  - intros H. apply (selectors_exact sample_server other_server "h" "h" _ _ Hsel) in H; [discriminate H|left].
Defined.

(** Kubelet resolves every $(NAME) of the pdns_server container: each
    reference in an argument is to a variable of the container, and each
    reference in a variable's value is to a variable defined before it;
    every variable without a value comes from a Secret. *)
Theorem env_references_resolved (s : PowerDNSServer) (hash : string) :
  Forall (fun c => args_resolved c = true /\ env_resolved [] (ct_Env c) = true
            /\ Forall (fun e => env_Value e <> "" <-> env_SecretKeyRef e = None) (ct_Env c))
    (pod_Containers (pt_Spec (dep_Template (Deployment_ s hash)))).
Proof.
  constructor; [|done]. split; [by vm_compute|]. split; [by vm_compute|].
  cbn [ct_Env]. repeat constructor; try done; by vm_compute.
Qed.

(** The server reads its API key from the Secret named after it, whatever
    spec.api.apiKeySecretRef says. *)
Lemma api_key_env_fixed (s : PowerDNSServer) (hash : string) :
  Forall (fun c => forall e, e ∈ ct_Env c -> env_Name e = "PDNS_AUTH_API_KEY" ->
    env_SecretKeyRef e = Some (om_Name (srv_Meta s) +:+ "-api-key", "api-key"))
    (pod_Containers (pt_Spec (dep_Template (Deployment_ s hash)))).
Proof.
  constructor; [|done]. cbn [ct_Env]. intros e He Hn. unfold server_env, backendEnv in He. simpl in He.
  repeat (apply elem_of_cons in He as [->|He]; [first [discriminate|reflexivity]|]). by apply elem_of_nil in He.
Qed.

Lemma np_admits_rules (s : PowerDNSServer) ns_labels proto port :
  np_admits (NetworkPolicy_ s) ns_labels proto port <->
  {| npp_Protocol := proto; npp_Port := port |} ∈
    [{| npp_Protocol := ProtocolTCP; npp_Port := dnsTCPPort |};
     {| npp_Protocol := ProtocolUDP; npp_Port := dnsTCPPort |}]
  \/ {| npp_Protocol := proto; npp_Port := port |} ∈
       [{| npp_Protocol := ProtocolTCP; npp_Port := api_Port (apiSpecOrDefault s) |}]
     /\ exists sel, sel ∈ {[ nsNameLabel := om_Namespace (srv_Meta s) ]}
          :: map (fun n => {[ nsNameLabel := n ]})
               (nps_AdditionalAllowedAPINamespaces (ps_NetworkPolicy (srv_Spec s)))
        /\ selects sel ns_labels.
Proof.
  unfold np_admits, NetworkPolicy_. cbn [np_Spec npo_Ingress]. split.
  - intros (r & Hr & Hf & Hp). apply elem_of_cons in Hr as [->|Hr]; [by left|].
    apply list_elem_of_singleton in Hr as ->. right. cbn [npi_From npi_Ports] in *.
    split; [done|]. by destruct Hf.
  - intros [H|[H (sel & Hs & Hsel)]].
    + eexists. split; [by left|]. split; [by left|done].
    + eexists. split; [by right; left|]. split; [|done]. right. by exists sel.
Qed.

(** What the rendered NetworkPolicy admits to the pods: DNS on port 53
    over TCP and UDP from everywhere, and the API port over TCP from the
    server's own namespace and the listed additional namespaces; nothing
    else. *)
Theorem NetworkPolicy_admits (s : PowerDNSServer) (ns_labels : strmap) (proto : string) (port : Z) :
  np_admits (NetworkPolicy_ s) ns_labels proto port <->
  (port = 53 /\ (proto = "TCP" \/ proto = "UDP"))
  \/ (proto = "TCP" /\ port = api_Port (apiSpecOrDefault s)
      /\ exists ns, ns_labels !! "kubernetes.io/metadata.name" = Some ns
         /\ (ns = om_Namespace (srv_Meta s)
             \/ ns ∈ nps_AdditionalAllowedAPINamespaces (ps_NetworkPolicy (srv_Spec s)))).
Proof.
  rewrite np_admits_rules, !elem_of_cons, elem_of_nil. unfold selects, nsNameLabel. split.
  - intros [[H|[H|[]]]|[[H|[]] (sel & Hs & Hsel)]]; simplify_eq; [by auto..|].
    right. split; [done|]. split; [done|]. apply elem_of_cons in Hs as [->|Hs].
    + exists (om_Namespace (srv_Meta s)). rewrite map_singleton_subseteq_l in Hsel. auto.
    + apply list_elem_of_fmap in Hs as (n & -> & Hn). exists n.
      rewrite map_singleton_subseteq_l in Hsel. auto.
  - intros [[-> [->| ->]]|(-> & -> & ns & Hns & H)]; [by auto..|]. right. split; [by auto|].
    exists {[ "kubernetes.io/metadata.name" := ns ]}. rewrite map_singleton_subseteq_l. split; [|done].
    rewrite elem_of_cons. destruct H as [->|H]; [by left|right]. apply list_elem_of_fmap. by exists ns.
Qed.
