(* ===== verification/Converge.v ===== *)
(** * internal/controller: converge.go, conditions.go, pdnsaccess.go

    The helpers that the four reconcilers share: converging a Service or a
    ConfigMap without churning it, deleting what exists, setting a condition,
    the API client of a server, the namespace allow-list and the reference
    keys of the indexes. *)

From S2P Require Import Prelude GoStd Meta ApiTypes KubeObjects Samples Effects RefMachinery PdnsClient Manifests.

Open Scope go_scope.
Open Scope stdpp_scope.
Open Scope Z_scope.

(** ** The Kubernetes client *)

Definition Get (k : kind) (key : NamespacedName) : prog (res (obj_of k)) := do_op (OGet k key).
Definition Create (k : kind) (o : obj_of k) : prog (option err) := do_op (OCreate k o).
Definition Update (k : kind) (o : obj_of k) : prog (res (obj_of k)) := do_op (OUpdate k o).
Definition StatusUpdate (k : kind) (o : obj_of k) : prog (res (obj_of k)) := do_op (OStatusUpdate k o).
Definition Delete (k : kind) (key : NamespacedName) : prog (option err) := do_op (ODelete k key None).

(** The error of a pair. *)
Definition error_of {A} (r : res A) : option err := match r with Ok _ => None | Err e => Some e end.
Definition only_err {A} (p : prog (res A)) : prog (option err) := bind p (fun r => Ret (error_of r)).

Definition requeueShort : Z := 5 * Second.
Definition requeueLong : Z := 30 * Second.
Definition requeue_after (d : Z) : Result := {| Requeue := false; RequeueAfter := d |}.
Definition requeue_now : Result := {| Requeue := true; RequeueAfter := 0 |}.

(** The Recorder field of a reconciler: nil in some tests. *)
Class Reconciler := { HasRecorder : bool }.

Definition event `{Reconciler} (k : kind) (o : obj_of k) (eventType reason message : string) : prog unit :=
  if HasRecorder then
    do_op (ORecord {| ke_Object := (k, obj_key k o); ke_Type := eventType; ke_Reason := reason;
                      ke_Message := message |})
  else Ret tt.

(** ** Pure parts *)

Definition servicePortsMatch (a b : ServicePort) : bool :=
  if (sp_Name a != "") || (sp_Name b != "") then sp_Name a == sp_Name b
  else (sp_Port a =? sp_Port b) && (sp_Protocol a == sp_Protocol b).

Definition set_NodePort (n : Z) (p : ServicePort) : ServicePort := {|
  sp_Name := sp_Name p; sp_Port := sp_Port p; sp_TargetPort := sp_TargetPort p;
  sp_Protocol := sp_Protocol p; sp_NodePort := n |}.

(** One iteration of the loop that keeps assigned NodePorts. *)
Definition keep_NodePort (existing : list ServicePort) (p : ServicePort) : ServicePort :=
  if negb (sp_NodePort p =? 0) then p
  else match List.find (fun ep => servicePortsMatch ep p) existing with
       | Some ep => set_NodePort (sp_NodePort ep) p
       | None => p
       end.

Definition assigns_NodePorts (type : string) : bool :=
  (type == ServiceTypeLoadBalancer) || (type == ServiceTypeNodePort).

(** The updated Service that updateService computes from the live one. *)
Definition service_update (existing desired : Service) : Service :=
  let old := svc_Spec existing in
  let want := svc_Spec desired in
  let ports := if assigns_NodePorts (ss_Type want)
               then map (keep_NodePort (ss_Ports old)) (ss_Ports want)
               else ss_Ports want in
  {| svc_Meta := set_om_Annotations
                   (om_Annotations (svc_Meta desired) ∪ om_Annotations (svc_Meta existing))
                   (svc_Meta existing);
     svc_Spec := {|
       ss_Type := ss_Type want; ss_Selector := ss_Selector want; ss_Ports := ports;
       ss_LoadBalancerIP := ss_LoadBalancerIP want;
       ss_ExternalTrafficPolicy := ss_ExternalTrafficPolicy want;
       ss_ClusterIP := ss_ClusterIP old; ss_Foreign := ss_Foreign old |};
     svc_Ingress := svc_Ingress existing |}.

(** The two comparisons that skip the write. *)
Definition service_unchanged (existing updated : Service) : bool :=
  bool_decide (svc_Spec existing = svc_Spec updated)
  && bool_decide (om_Annotations (svc_Meta existing) = om_Annotations (svc_Meta updated)).

Definition pickKey (src : Secret) (keys : list string) : string :=
  default "" (head (omap (fun k =>
    match map_get (sec_Data src) k with
    | Some v => if v != "" then Some v else None
    | None => None
    end) keys)).

Definition namespaceAllowed (server : PowerDNSServer) (ns : string) : bool :=
  (ns == om_Namespace (srv_Meta server))
  || existsb (fun a => (a == "*") || (a == ns)) (zms_AllowedNamespaces (ps_ZoneManagement (srv_Spec server))).

Definition refKey (ref : ObjectRef) (defaultNS : string) : string :=
  let ns := ref_Namespace ref in
  let ns := if ns == "" then defaultNS else ns in
  ns +:+ "/" +:+ ref_Name ref.

(** The key that a reference resolves to: serverKeyFor, zoneKeyFor. *)
Definition ref_target (ref : ObjectRef) (defaultNS : string) : NamespacedName :=
  let ns := ref_Namespace ref in
  NN (if ns == "" then defaultNS else ns) (ref_Name ref).

(** ** Effects *)

Section converge.
Context `{Machinery}.

Definition setCondOn (conds : list Condition) (gen : Z) (condType status reason message : string) :
    list Condition :=
  SetStatusCondition conds {| c_Type := condType; c_Status := status; c_Reason := reason;
                              c_Message := message; c_ObservedGeneration := gen |}.

Definition set_pst_Conditions (l : list Condition) (st : PowerDNSServerStatus) : PowerDNSServerStatus := {|
  pst_Phase := pst_Phase st; pst_Ready := pst_Ready st; pst_DNSEndpoint := pst_DNSEndpoint st;
  pst_APIEndpoint := pst_APIEndpoint st; pst_APIKeySecretName := pst_APIKeySecretName st;
  pst_BackendSecretName := pst_BackendSecretName st; pst_SchemaApplied := pst_SchemaApplied st;
  pst_DesiredReplicas := pst_DesiredReplicas st; pst_ReadyReplicas := pst_ReadyReplicas st;
  pst_ConfigHash := pst_ConfigHash st; pst_Conditions := l; pst_FailureMessage := pst_FailureMessage st |}.

Definition setCondition (condType status reason message : string) (s : PowerDNSServer) : PowerDNSServer :=
  set_srv_Status
    (set_pst_Conditions
      (setCondOn (pst_Conditions (srv_Status s)) (om_Generation (srv_Meta s)) condType status reason message)
      (srv_Status s)) s.
Definition trueCond (condType reason message : string) : PowerDNSServer -> PowerDNSServer :=
  setCondition condType ConditionTrue reason message.
Definition falseCond (condType reason message : string) : PowerDNSServer -> PowerDNSServer :=
  setCondition condType ConditionFalse reason message.

(** One attempt of updateService. *)
Definition updateService_attempt (desired : Service) : prog (option err) :=
  let! r := Get KService (obj_key KService desired) in
  match r with
  | Err e => if IsNotFound e then Create KService desired else Ret (Some e)
  | Ok existing =>
      let updated := service_update existing desired in
      if service_unchanged existing updated then done_ok
      else only_err (Update KService updated)
  end.

Definition updateService (desired : Service) : prog (option err) :=
  RetryOnConflict (updateService_attempt desired).

Definition deleteIfExists (k : kind) (key : NamespacedName) : prog (option err) :=
  let! r := Get k key in
  match r with
  | Err e => Ret (if IsNoMatchError e then None else IgnoreNotFound (Some e))
  | Ok _ => let! e := Delete k key in Ret (IgnoreNotFound e)
  end.

Definition updateConfigMap (desired : ConfigMap) (createFn : prog (option err)) : prog (option err) :=
  let! r := Get KConfigMap (obj_key KConfigMap desired) in
  match r with
  | Err e => if IsNotFound e then createFn else Ret (Some e)
  | Ok existing =>
      if bool_decide (cm_Data existing = cm_Data desired) then done_ok
      else RetryOnConflict (
        try! existing := Get KConfigMap (obj_key KConfigMap desired) in
        only_err (Update KConfigMap (set_cm_Data (cm_Data desired) existing)))
  end.

Definition pdnsClientFor (server : PowerDNSServer) : prog (res Client) :=
  let st := srv_Status server in
  let ns := om_Namespace (srv_Meta server) in
  if (pst_APIEndpoint st == "") || (pst_APIKeySecretName st == "") then
    Ret (Err (EText ("PowerDNSServer " +:+ ns +:+ "/" +:+ om_Name (srv_Meta server)
                     +:+ " has not published its API endpoint yet")))
  else
    try! sec := wrapping_res ("read API key secret " +:+ pst_APIKeySecretName st +:+ ": ")
                  (Get KSecret (NN ns (pst_APIKeySecretName st))) in
    let key := pickKey sec ["api-key"] in
    if key == "" then
      Ret (Err (EText ("secret " +:+ ns +:+ "/" +:+ pst_APIKeySecretName st +:+ " has no api-key entry")))
    else Ret (Ok (New (pst_APIEndpoint st) key)).
End converge.

(** ** When a Service is settled *)

(** The live port is the desired one up to an assigned NodePort. *)
Definition port_settled (assigns : bool) (live want : ServicePort) : Prop :=
  live = want \/ (assigns = true /\ sp_NodePort want = 0 /\ live = set_NodePort (sp_NodePort live) want).

(** The live Service already is what the desired one asks for: only fields
    that others assign may differ. *)
Record settled (live desired : Service) : Prop := {
  settled_type : ss_Type (svc_Spec live) = ss_Type (svc_Spec desired);
  settled_selector : ss_Selector (svc_Spec live) = ss_Selector (svc_Spec desired);
  settled_ip : ss_LoadBalancerIP (svc_Spec live) = ss_LoadBalancerIP (svc_Spec desired);
  settled_policy : ss_ExternalTrafficPolicy (svc_Spec live) = ss_ExternalTrafficPolicy (svc_Spec desired);
  settled_annotations : om_Annotations (svc_Meta desired) ⊆ om_Annotations (svc_Meta live);
  settled_ports : Forall2 (port_settled (assigns_NodePorts (ss_Type (svc_Spec desired))))
                    (ss_Ports (svc_Spec live)) (ss_Ports (svc_Spec desired));
}.

(** The ports of a desired Service have distinct, non-empty names, as the
    rendered Services do. *)
Definition named_ports (desired : Service) : Prop :=
  NoDup (map sp_Name (ss_Ports (svc_Spec desired)))
  /\ Forall (fun p => sp_Name p <> "") (ss_Ports (svc_Spec desired)).

Lemma servicePortsMatch_named a b : sp_Name b <> "" -> servicePortsMatch a b = (sp_Name a == sp_Name b).
Proof.
  intros Hb. unfold servicePortsMatch. rewrite (bool_decide_eq_false_2 (sp_Name b = "")) by done.
  by rewrite orb_true_r.
Qed.

Lemma set_NodePort_same p : set_NodePort (sp_NodePort p) p = p.
Proof. by destruct p. Qed.

Lemma keep_settles old p : port_settled true (keep_NodePort old p) p.
Proof.
  unfold keep_NodePort. destruct (sp_NodePort p =? 0) eqn:E; simpl; [|by left].
  destruct (List.find _ old) as [ep|]; [|by left]. right. bool_prop. auto.
Qed.

Lemma port_settled_name assigns q p : port_settled assigns q p -> sp_Name q = sp_Name p.
Proof. intros [->|(_ & _ & E)]; [done|]. by rewrite E. Qed.

Lemma settled_names assigns live want :
  Forall2 (port_settled assigns) live want -> map sp_Name live = map sp_Name want.
Proof. induction 1 as [|a b l l' Hab _ IH]; simpl; [done|]. rewrite IH. by rewrite (port_settled_name _ _ _ Hab). Qed.

Lemma keep_settled live want :
  Forall2 (port_settled true) live want -> NoDup (map sp_Name want) ->
  Forall (fun p => sp_Name p <> "") want -> map (keep_NodePort live) want = live.
Proof.
  intros HF Hnd Hne. pose proof (settled_names _ _ _ HF) as Hnames. rewrite <- Hnames in Hnd.
  apply list_eq. intros i. rewrite list_lookup_fmap. destruct (want !! i) as [p|] eqn:Ep; simpl.
  - destruct (Forall2_lookup_r _ _ _ _ _ HF Ep) as (q & Eq & Hq). rewrite Eq. f_equal.
    unfold keep_NodePort. destruct (sp_NodePort p =? 0) eqn:E0; simpl.
    + rewrite (find_unique _ _ q).
      * destruct Hq as [->|(_ & _ & E')]; [apply set_NodePort_same|by symmetry].
      * by eapply list_elem_of_lookup_2.
      * rewrite servicePortsMatch_named by (by eapply (Forall_lookup_1 _ _ _ _ Hne Ep)).
        apply bool_decide_eq_true_2. by eapply port_settled_name.
      * intros x Hx. rewrite servicePortsMatch_named by (by eapply (Forall_lookup_1 _ _ _ _ Hne Ep)).
        intros ?. bool_prop. eapply NoDup_map_inj; [done|done|by eapply list_elem_of_lookup_2|].
        rewrite (port_settled_name _ _ _ Hq). done.
    + destruct Hq as [->|(_ & E & _)]; [done|]. by rewrite E in E0.
  - apply lookup_ge_None in Ep. symmetry. apply lookup_ge_None. by rewrite (Forall2_length _ _ _ HF).
Qed.

Lemma settled_false live want : Forall2 (port_settled false) live want <-> live = want.
Proof.
  split.
  - induction 1 as [|a b l l' [->|(? & _)] _ IH]; [done|by rewrite IH|done].
  - intros ->. induction want; constructor; [by left|done].
Qed.

Lemma update_ports_settled old want :
  Forall2 (port_settled true) (map (keep_NodePort old) want) want.
Proof. induction want; simpl; constructor; [apply keep_settles|done]. Qed.

Lemma service_update_settled existing desired : settled (service_update existing desired) desired.
Proof.
  split; try done.
  - simpl. apply map_union_subseteq_l.
  - simpl. destruct (assigns_NodePorts _); [apply update_ports_settled|by apply settled_false].
Qed.

Lemma service_unchanged_settled existing desired :
  named_ports desired ->
  service_unchanged existing (service_update existing desired) = true <-> settled existing desired.
Proof.
  intros [Hnd Hne]. unfold service_unchanged. rewrite andb_true_iff, !bool_decide_eq_true. split.
  - intros [Es Ea]. pose proof (service_update_settled existing desired) as [? ? ? ? Han ?].
    split; try (rewrite Es; done). by rewrite Ea.
  - intros [Et Esel Eip Epol Ean Ep]. split.
    + unfold service_update. simpl. destruct (assigns_NodePorts _) eqn:Eas.
      * rewrite (keep_settled _ _ Ep Hnd Hne). destruct (svc_Spec existing); simpl in *; congruence.
      * apply settled_false in Ep. destruct (svc_Spec existing); simpl in *; congruence.
    + simpl. symmetry. by apply map_subseteq_union.
Qed.

(** The frame of an update: what others put on the live Service stays. *)
Lemma keep_NodePort_kept old want ep p :
  NoDup (map sp_Name old) -> ep ∈ old -> p ∈ want -> sp_Name p <> "" -> sp_NodePort p = 0 ->
  sp_Name ep = sp_Name p -> set_NodePort (sp_NodePort ep) p ∈ map (keep_NodePort old) want.
Proof.
  intros Hnd He Hp Hne H0 En. apply list_elem_of_fmap. exists p. split; [|done].
  unfold keep_NodePort. rewrite H0. simpl. rewrite (find_unique _ _ ep); [done|done|..].
  - rewrite servicePortsMatch_named by done. by apply bool_decide_eq_true_2.
  - intros x Hx. rewrite servicePortsMatch_named by done. intros ?. bool_prop.
    eapply NoDup_map_inj; [done..|congruence].
Qed.

(** One attempt of updateService: it reads the Service; a settled one is left
    alone, an unsettled one is written once with its update, an absent one is
    created as desired, and any other failure is returned. *)
Inductive service_attempt (desired : Service) : list obs -> option err -> Prop :=
| attempt_settled live :
    settled live desired ->
    service_attempt desired [Ev (OGet KService (obj_key KService desired)) (Ok live)] None
| attempt_update live answer :
    ~ settled live desired ->
    service_attempt desired [Ev (OGet KService (obj_key KService desired)) (Ok live);
                             Ev (OUpdate KService (service_update live desired)) answer] (error_of answer)
| attempt_create e answer :
    IsNotFound e = true ->
    service_attempt desired [Ev (OGet KService (obj_key KService desired)) (Err e);
                             Ev (OCreate KService desired) answer] answer
| attempt_fail e :
    IsNotFound e = false ->
    service_attempt desired [Ev (OGet KService (obj_key KService desired)) (Err e)] (Some e).

(** A sample of what a Service controller makes of the rendered one. *)
Definition sample_dns_service (node_port : Z) (annotations : strmap) : Service := {|
  svc_Meta := set_om_Annotations annotations (new_meta "ns1-dns" "dns" ∅);
  svc_Spec := {| ss_Type := ServiceTypeLoadBalancer; ss_Selector := ∅;
    ss_Ports := [{| sp_Name := "dns-tcp"; sp_Port := 53; sp_TargetPort := 53; sp_Protocol := ProtocolTCP;
                    sp_NodePort := node_port |}];
    ss_LoadBalancerIP := ""; ss_ExternalTrafficPolicy := ServiceExternalTrafficPolicyLocal;
    ss_ClusterIP := ""; ss_Foreign := ∅ |};
  svc_Ingress := [] |}.

Lemma sample_named_ports : named_ports (sample_dns_service 0 ∅).
Proof.
  split.
  - simpl. apply NoDup_singleton.
  - by repeat constructor.
Qed.

(** updateService against any API server: a sequence of attempts of which
    all but the last ended in a conflict. In each attempt the Service is
    written only when it is not settled (a Service that differs from the
    desired one in assigned NodePorts, foreign annotations or immutable
    fields only is settled, so the steady state writes nothing), what is
    written is the update of the Service just read, and only a missing
    Service is created. *)
Theorem updateService_attempts `{MachineryLaws} (desired : Service) (Hports : named_ports desired) :
  wp (updateService desired) (retried (service_attempt desired)).
Proof.
  apply wp_retry. intros [live|e]; cbn [bind]; cbv zeta.
  - destruct (service_unchanged live (service_update live desired)) eqn:E.
    + cbn [wp done_ok]. apply attempt_settled. by apply service_unchanged_settled.
    + intros x. apply attempt_update. intros Hs. apply service_unchanged_settled in Hs; [|done]. congruence.
  - destruct (IsNotFound e) eqn:E.
    + intros x. by apply attempt_create.
    + by apply attempt_fail.
Qed.

Lemma updateService_attempts_witness :
  wp (updateService (sample_dns_service 0 ∅)) (retried (service_attempt (sample_dns_service 0 ∅))).
Proof. apply updateService_attempts. exact sample_named_ports. Defined.

(** C29. What an update keeps and what it reaches: the updated Service is
    settled; its name, labels, owners, cluster IP, foreign spec fields and
    every annotation the operator does not set are those of the live
    Service; and for a LoadBalancer or NodePort Service each port keeps the
    NodePort the cluster assigned to the live port of that name. *)
Theorem service_update_frame (live desired : Service)
  (Hports : named_ports desired) (Hlive : NoDup (map sp_Name (ss_Ports (svc_Spec live)))) :
  let u := service_update live desired in
  settled u desired
  /\ (exists a, svc_Meta u = set_om_Annotations a (svc_Meta live))
  /\ (forall k, om_Annotations (svc_Meta desired) !! k = None ->
        om_Annotations (svc_Meta u) !! k = om_Annotations (svc_Meta live) !! k)
  /\ ss_ClusterIP (svc_Spec u) = ss_ClusterIP (svc_Spec live)
  /\ ss_Foreign (svc_Spec u) = ss_Foreign (svc_Spec live)
  /\ (forall ep p, assigns_NodePorts (ss_Type (svc_Spec desired)) = true ->
        ep ∈ ss_Ports (svc_Spec live) -> p ∈ ss_Ports (svc_Spec desired) ->
        sp_Name ep = sp_Name p -> sp_NodePort p = 0 ->
        set_NodePort (sp_NodePort ep) p ∈ ss_Ports (svc_Spec u)).
Proof.
  intros u. split; [apply service_update_settled|]. split; [by eexists|]. split.
  { intros k Hk. simpl. by rewrite lookup_union, Hk, (left_id_L None _). }
  split; [done|]. split; [done|]. intros ep p Has He Hp En H0. unfold u, service_update. simpl. rewrite Has.
  apply keep_NodePort_kept; try done. by apply (proj1 (Forall_forall _ _) (proj2 Hports)).
Qed.

Lemma service_update_frame_witness :
  set_NodePort 30053 {| sp_Name := "dns-tcp"; sp_Port := 53; sp_TargetPort := 53;
                        sp_Protocol := ProtocolTCP; sp_NodePort := 0 |}
  ∈ ss_Ports (svc_Spec (service_update (sample_dns_service 30053 {[ "metallb" := "pool" ]})
                                       (sample_dns_service 0 ∅))).
Proof.
  apply (service_update_frame (sample_dns_service 30053 {[ "metallb" := "pool" ]}) (sample_dns_service 0 ∅)
           sample_named_ports (NoDup_singleton _)) with
    (ep := {| sp_Name := "dns-tcp"; sp_Port := 53; sp_TargetPort := 53;
              sp_Protocol := ProtocolTCP; sp_NodePort := 30053 |}); try done; by left.
Defined.
