(* ===== verification/ServerController.v ===== *)
(** * internal/controller/powerdnsserver_controller.go: the PowerDNSServer reconciler

    The phase machine that provisions a server (API key, backend, schema Job,
    workload, exposure), its specification check, and the Ready loop that
    reverts drift and mirrors live state into the status. *)

From S2P Require Import Prelude GoStd Meta ApiTypes KubeObjects Samples Effects RefMachinery Manifests Workloads Converge.

Open Scope go_scope.
Open Scope stdpp_scope.
Open Scope Z_scope.

Definition finalizer : string := "dns.aetherplatform.cloud/server-protection".

(** ** validateSpec *)

(** The index of the first element that a loop rejects, with its message. *)
Fixpoint first_bad {A} (bad : nat -> A -> option string) (i : nat) (l : list A) : option string :=
  match l with
  | [] => None
  | x :: l => match bad i x with Some m => Some m | None => first_bad bad (S i) l end
  end.

Definition idx (i : nat) : string := itoa (Z.of_nat i).

Definition check_backend (s : PowerDNSServer) : option string :=
  let be := ps_Backend (srv_Spec s) in
  if be_Type be != BackendPostgres then
    Some ("backend type " +:+ quote (be_Type be) +:+ " not supported (only postgres)")
  else match be_Postgres be with
       | Some pg =>
           match pg_BYO pg with
           | Some byo =>
               if byo_Host byo == "" then Some "backend.postgres.byo.host is required"
               else if byo_CredentialsSecretRef byo == "" then
                 Some "backend.postgres.byo.credentialsSecretRef.name is required"
               else None
           | None => None
           end
       | None => None
       end.

Definition check_dns_gateway (s : PowerDNSServer) : option string :=
  let dns := ps_DNS (srv_Spec s) in
  if dns_Exposure dns == DNSExposureGateway then
    match dns_Gateway dns with
    | Some {| dgw_ParentRefs := (_ :: _) as refs |} =>
        first_bad (fun i p => if gpr_Name p == "" then
                                Some ("dns.gateway.parentRefs[" +:+ idx i +:+ "].name is required")
                              else None) 0 refs
    | _ => Some "dns.exposure=gateway requires dns.gateway.parentRefs (at least one)"
    end
  else None.

Definition check_api_gateway (s : PowerDNSServer) : option string :=
  match api_Gateway (ps_API (srv_Spec s)) with
  | None => None
  | Some gw =>
      match agw_ParentRefs gw with
      | [] => Some "api.gateway requires parentRefs (at least one)"
      | refs => first_bad (fun i p => if apr_Name p == "" then
                                        Some ("api.gateway.parentRefs[" +:+ idx i +:+ "].name is required")
                                      else None) 0 refs
      end
  end.

Definition check_pdb (s : PowerDNSServer) : option string :=
  match pdb_override (ps_PodDisruptionBudget (srv_Spec s)) with
  | None => None
  | Some m =>
      let replicas := replicas_of (ps_Replicas (srv_Spec s)) in
      if (1 <? replicas) && (replicas <=? m) then
        Some ("podDisruptionBudget.minAvailable (" +:+ itoa m +:+ ") must be < replicas (" +:+ itoa replicas
              +:+ ") — equal would block all drains")
      else None
  end.

(** The loop over additionalServices with the map of the suffixes seen. *)
Fixpoint suffix_violation (seen : gset string) (i : nat) (l : list AdditionalLoadBalancerService) : option string :=
  match l with
  | [] => None
  | e :: l =>
      let suffix := als_NameSuffix e in
      if suffix == "" then
        Some ("dns.loadBalancer.additionalServices[" +:+ idx i +:+ "].nameSuffix is required")
      else if bool_decide (suffix ∈ seen) then
        Some ("dns.loadBalancer.additionalServices[" +:+ idx i +:+ "].nameSuffix " +:+ quote suffix
              +:+ " is duplicated")
      else suffix_violation ({[ suffix ]} ∪ seen) (S i) l
  end.

Definition check_additional (dns : DNSSpec) : option string :=
  if dns_Exposure dns == DNSExposureLoadBalancer then
    match dns_LoadBalancer dns with
    | Some lb => suffix_violation ∅ 0 (lb_AdditionalServices lb)
    | None => None
    end
  else None.

Definition check_extra (s : PowerDNSServer) : option string :=
  match ValidateExtraSettings (ps_ExtraSettings (srv_Spec s)) with
  | [] => None
  | msgs => Some ("invalid extraSettings: " +:+ Join msgs "; ")
  end.

(** The first message of a sequence of checks. *)
Definition first_message (l : list (option string)) : string := default "" (head (omap (fun m => m) l)).

Definition validateSpec (s : PowerDNSServer) : string :=
  first_message [check_backend s; check_dns_gateway s; check_api_gateway s; check_pdb s;
                 check_additional (ps_DNS (srv_Spec s)); check_extra s].

(** ** Small helpers *)

Definition isBYO (s : PowerDNSServer) : option BYOPostgres :=
  match be_Postgres (ps_Backend (srv_Spec s)) with Some pg => pg_BYO pg | None => None end.

Definition ownerLabels (s : PowerDNSServer) : strmap :=
  {[ "app.kubernetes.io/name" := "powerdns"; "app.kubernetes.io/instance" := om_Name (srv_Meta s);
     "app.kubernetes.io/managed-by" := "aether-powerdns" ]}.

Definition SecretTypeOpaque : string := "Opaque".
Definition roleLabel : string := "dns.aetherplatform.cloud/role".
Definition additionalRole : string := "additional-dns".

(** The address of the first ingress entry that has one. *)
Fixpoint ingress_addr (l : list LoadBalancerIngress) : string :=
  match l with
  | [] => ""
  | i :: l => if ing_IP i != "" then ing_IP i
              else if ing_Hostname i != "" then ing_Hostname i else ingress_addr l
  end.

(** The endpoint text of the gateway mode. *)
Definition gateway_endpoint (refs : list GatewayParentRef) (localNS : string) : string :=
  "gateway:" +:+ Join (map (fun p =>
    (if gpr_Namespace p == "" then localNS else gpr_Namespace p) +:+ "/" +:+ gpr_Name p) refs) ",".

(** Data of two Secrets as maps. *)
Definition data_eq (a b : gomap string) : bool :=
  bool_decide ((list_to_map a : strmap) = list_to_map b).

(** ** Status assignments *)

Definition set_pst_Phase (p : string) (st : PowerDNSServerStatus) : PowerDNSServerStatus := {|
  pst_Phase := p; pst_Ready := pst_Ready st; pst_DNSEndpoint := pst_DNSEndpoint st;
  pst_APIEndpoint := pst_APIEndpoint st; pst_APIKeySecretName := pst_APIKeySecretName st;
  pst_BackendSecretName := pst_BackendSecretName st; pst_SchemaApplied := pst_SchemaApplied st;
  pst_DesiredReplicas := pst_DesiredReplicas st; pst_ReadyReplicas := pst_ReadyReplicas st;
  pst_ConfigHash := pst_ConfigHash st; pst_Conditions := pst_Conditions st;
  pst_FailureMessage := pst_FailureMessage st |}.
Definition set_pst_FailureMessage (m : string) (st : PowerDNSServerStatus) : PowerDNSServerStatus := {|
  pst_Phase := pst_Phase st; pst_Ready := pst_Ready st; pst_DNSEndpoint := pst_DNSEndpoint st;
  pst_APIEndpoint := pst_APIEndpoint st; pst_APIKeySecretName := pst_APIKeySecretName st;
  pst_BackendSecretName := pst_BackendSecretName st; pst_SchemaApplied := pst_SchemaApplied st;
  pst_DesiredReplicas := pst_DesiredReplicas st; pst_ReadyReplicas := pst_ReadyReplicas st;
  pst_ConfigHash := pst_ConfigHash st; pst_Conditions := pst_Conditions st; pst_FailureMessage := m |}.
Definition set_pst_secrets (api backend : string) (st : PowerDNSServerStatus) : PowerDNSServerStatus := {|
  pst_Phase := pst_Phase st; pst_Ready := pst_Ready st; pst_DNSEndpoint := pst_DNSEndpoint st;
  pst_APIEndpoint := pst_APIEndpoint st; pst_APIKeySecretName := api;
  pst_BackendSecretName := backend; pst_SchemaApplied := pst_SchemaApplied st;
  pst_DesiredReplicas := pst_DesiredReplicas st; pst_ReadyReplicas := pst_ReadyReplicas st;
  pst_ConfigHash := pst_ConfigHash st; pst_Conditions := pst_Conditions st;
  pst_FailureMessage := pst_FailureMessage st |}.
Definition set_pst_SchemaApplied (b : bool) (st : PowerDNSServerStatus) : PowerDNSServerStatus := {|
  pst_Phase := pst_Phase st; pst_Ready := pst_Ready st; pst_DNSEndpoint := pst_DNSEndpoint st;
  pst_APIEndpoint := pst_APIEndpoint st; pst_APIKeySecretName := pst_APIKeySecretName st;
  pst_BackendSecretName := pst_BackendSecretName st; pst_SchemaApplied := b;
  pst_DesiredReplicas := pst_DesiredReplicas st; pst_ReadyReplicas := pst_ReadyReplicas st;
  pst_ConfigHash := pst_ConfigHash st; pst_Conditions := pst_Conditions st;
  pst_FailureMessage := pst_FailureMessage st |}.
Definition set_pst_endpoints (dns api : string) (st : PowerDNSServerStatus) : PowerDNSServerStatus := {|
  pst_Phase := pst_Phase st; pst_Ready := pst_Ready st; pst_DNSEndpoint := dns; pst_APIEndpoint := api;
  pst_APIKeySecretName := pst_APIKeySecretName st;
  pst_BackendSecretName := pst_BackendSecretName st; pst_SchemaApplied := pst_SchemaApplied st;
  pst_DesiredReplicas := pst_DesiredReplicas st; pst_ReadyReplicas := pst_ReadyReplicas st;
  pst_ConfigHash := pst_ConfigHash st; pst_Conditions := pst_Conditions st;
  pst_FailureMessage := pst_FailureMessage st |}.
Definition set_pst_ConfigHash (h : string) (st : PowerDNSServerStatus) : PowerDNSServerStatus := {|
  pst_Phase := pst_Phase st; pst_Ready := pst_Ready st; pst_DNSEndpoint := pst_DNSEndpoint st;
  pst_APIEndpoint := pst_APIEndpoint st; pst_APIKeySecretName := pst_APIKeySecretName st;
  pst_BackendSecretName := pst_BackendSecretName st; pst_SchemaApplied := pst_SchemaApplied st;
  pst_DesiredReplicas := pst_DesiredReplicas st; pst_ReadyReplicas := pst_ReadyReplicas st;
  pst_ConfigHash := h; pst_Conditions := pst_Conditions st; pst_FailureMessage := pst_FailureMessage st |}.
Definition set_pst_replicas (ready : bool) (readyReplicas desired : Z) (st : PowerDNSServerStatus) :
    PowerDNSServerStatus := {|
  pst_Phase := pst_Phase st; pst_Ready := ready; pst_DNSEndpoint := pst_DNSEndpoint st;
  pst_APIEndpoint := pst_APIEndpoint st; pst_APIKeySecretName := pst_APIKeySecretName st;
  pst_BackendSecretName := pst_BackendSecretName st; pst_SchemaApplied := pst_SchemaApplied st;
  pst_DesiredReplicas := desired; pst_ReadyReplicas := readyReplicas;
  pst_ConfigHash := pst_ConfigHash st; pst_Conditions := pst_Conditions st;
  pst_FailureMessage := pst_FailureMessage st |}.

(** s.Status.<field> = ... *)
Definition upd_status (f : PowerDNSServerStatus -> PowerDNSServerStatus) (s : PowerDNSServer) : PowerDNSServer :=
  set_srv_Status (f (srv_Status s)) s.
Definition set_APIKeySecretName (n : string) (s : PowerDNSServer) : PowerDNSServer :=
  upd_status (set_pst_secrets n (pst_BackendSecretName (srv_Status s))) s.
Definition set_BackendSecretName (n : string) (s : PowerDNSServer) : PowerDNSServer :=
  upd_status (set_pst_secrets (pst_APIKeySecretName (srv_Status s)) n) s.
Definition set_DNSEndpoint (e : string) (s : PowerDNSServer) : PowerDNSServer :=
  upd_status (set_pst_endpoints e (pst_APIEndpoint (srv_Status s))) s.
Definition set_APIEndpoint (e : string) (s : PowerDNSServer) : PowerDNSServer :=
  upd_status (set_pst_endpoints (pst_DNSEndpoint (srv_Status s)) e) s.

(** ** Object helpers *)

Section reconciler.
Context `{Machinery, Reconciler}.

Definition setPhase (s : PowerDNSServer) (phase : string) : prog Outcome :=
  let! r := StatusUpdate KServer (upd_status (set_pst_Phase phase) s) in
  match r with
  | Err e => Ret (no_requeue, Some (wrap_err ("update phase to " +:+ phase +:+ ": ") e))
  | Ok _ => Ret (requeue_now, None)
  end.

Definition setFailed (s : PowerDNSServer) (msg : string) : prog Outcome :=
  let s := upd_status (fun st => set_pst_FailureMessage msg (set_pst_Phase PhaseFailed st)) s in
  let s := falseCond ConditionReady "Failed" msg s in
  try! s := StatusUpdate KServer s in
  let! _ := event KServer s EventTypeWarning "Failed" msg in
  Ret (no_requeue, None).

(** SetControllerReference on an object of any kind. *)
Definition own (s : PowerDNSServer) (k : kind) (o : obj_of k) : res (obj_of k) :=
  match SetControllerReference KServer (srv_Meta s) (get_meta k o) with
  | Ok m => Ok (set_meta k m o)
  | Err e => Err e
  end.

Definition ensureOwned (s : PowerDNSServer) (k : kind) (obj : obj_of k) : prog (option err) :=
  match own s k obj with
  | Err e => Ret (Some e)
  | Ok obj =>
      let! r := Get k (obj_key k obj) in
      match r with
      | Err e => if IsNotFound e then Create k obj else Ret (Some e)
      | Ok _ => done_ok
      end
  end.

Definition ensureUnstructured (s : PowerDNSServer) (k : kind) (obj : obj_of k) : prog (option err) :=
  match own s k obj with
  | Err e => Ret (Some e)
  | Ok obj =>
      let! r := Get k (obj_key k obj) in
      match r with
      | Err e => if IsNotFound e then Create k obj else Ret (Some e)
      | Ok _ => done_ok
      end
  end.

Definition updateDeployment (s : PowerDNSServer) (desired : Deployment) : prog (option err) :=
  let! r := Get KDeployment (obj_key KDeployment desired) in
  match r with
  | Err e => if IsNotFound e then ensureOwned s KDeployment desired else Ret (Some e)
  | Ok existing =>
      only_err (Update KDeployment {|
        dep_Meta := dep_Meta existing; dep_Replicas := dep_Replicas desired;
        dep_Selector := dep_Selector existing; dep_Strategy := dep_Strategy existing;
        dep_Template := dep_Template desired;
        dep_ReadyReplicas := dep_ReadyReplicas existing;
        dep_AvailableReplicas := dep_AvailableReplicas existing |})
  end.

(** The method wrappers of converge.go. *)
Definition updateServiceOwned (s : PowerDNSServer) (desired : Service) : prog (option err) :=
  match own s KService desired with
  | Err e => Ret (Some e)
  | Ok desired => updateService desired
  end.
Definition updateConfigMapOwned (s : PowerDNSServer) (desired : ConfigMap) : prog (option err) :=
  updateConfigMap desired (ensureOwned s KConfigMap desired).

(** ** API key and backend Secret *)

Definition randomHex (n : nat) : prog (res string) :=
  try! b := do_op (ORandRead n) in
  Ret (Ok (hex_EncodeToString b)).

Definition ensureAPIKey (s : PowerDNSServer) : prog (res PowerDNSServer) :=
  let names := NameSet s in
  let generated :=
    let secretName := n_APIKeySecret names in
    let! r := Get KSecret (NN (om_Namespace (srv_Meta s)) secretName) in
    match r with
    | Ok _ => Ret (Ok (set_APIKeySecretName secretName s))
    | Err e =>
        if negb (IsNotFound e) then Ret (Err e)
        else
          try! key := randomHex 32 in
          match own s KSecret {| sec_Meta := new_meta secretName (om_Namespace (srv_Meta s)) (ownerLabels s);
                                 sec_Type := SecretTypeOpaque; sec_Data := [("api-key", key)] |} with
          | Err e => Ret (Err e)
          | Ok secret =>
              check! Create KSecret secret in
              Ret (Ok (set_APIKeySecretName secretName s))
          end
    end in
  match api_APIKeySecretRef (ps_API (srv_Spec s)) with
  | Some ref => if ref != "" then Ret (Ok (set_APIKeySecretName ref s)) else generated
  | None => generated
  end.

Definition backend_data (host port user password database : string) : gomap string :=
  [("host", host); ("port", port); ("username", user); ("password", password); ("database", database)].

Definition writeBackendSecret (s : PowerDNSServer) (host port user password database : string) :
    prog (option err) :=
  let desired := {|
    sec_Meta := new_meta (n_BackendSecret (NameSet s)) (om_Namespace (srv_Meta s)) (ownerLabels s);
    sec_Type := SecretTypeOpaque;
    sec_Data := backend_data host port user password database |} in
  match own s KSecret desired with
  | Err e => Ret (Some e)
  | Ok desired =>
      let! r := Get KSecret (obj_key KSecret desired) in
      match r with
      | Err e => if IsNotFound e then Create KSecret desired else Ret (Some e)
      | Ok existing =>
          if data_eq (sec_Data existing) (sec_Data desired) then done_ok
          else only_err (Update KSecret (set_sec_Data (sec_Data desired) existing))
      end
  end.

(** (true, err) of a write. *)
Definition written (p : prog (option err)) : prog (res bool) :=
  let! e := p in Ret (match e with Some e => Err e | None => Ok true end).

Definition materialiseCNPGBackendSecret (s : PowerDNSServer) (cluster : string) : prog (res bool) :=
  let ns := om_Namespace (srv_Meta s) in
  let! r := Get KSecret (NN ns (AppSecretName cluster)) in
  match r with
  | Err e => Ret (if IsNotFound e then Ok false else Err e)
  | Ok src =>
      let host := pickKey src ["host"] in
      let host := if host == "" then cluster +:+ "-rw." +:+ ns +:+ ".svc" else host in
      let port := pickKey src ["port"] in
      let port := if port == "" then "5432" else port in
      let username := pickKey src ["username"; "user"] in
      let password := pickKey src ["password"] in
      let database := pickKey src ["dbname"; "database"] in
      let database := if database == "" then DefaultDatabase else database in
      if (username == "") || (password == "") then Ret (Ok false)
      else written (writeBackendSecret s host port username password database)
  end.

Definition materialiseBYOBackendSecret (s : PowerDNSServer) (byo : BYOPostgres) : prog (res bool) :=
  let! r := Get KSecret (NN (om_Namespace (srv_Meta s)) (byo_CredentialsSecretRef byo)) in
  match r with
  | Err e => Ret (if IsNotFound e then Ok false else Err e)
  | Ok src =>
      let username := pickKey src ["username"; "user"] in
      let password := pickKey src ["password"] in
      if (username == "") || (password == "") then
        Ret (Err (EText ("BYO secret " +:+ byo_CredentialsSecretRef byo +:+ " missing username/password keys")))
      else
        let port := if byo_Port byo =? 0 then 5432 else byo_Port byo in
        let db := if byo_Database byo == "" then DefaultDatabase else byo_Database byo in
        written (writeBackendSecret s (byo_Host byo) (itoa port) username password db)
  end.

Definition cnpgClusterReady (s : PowerDNSServer) (name : string) : prog (res bool) :=
  let! r := Get KCluster (NN (om_Namespace (srv_Meta s)) name) in
  match r with
  | Err e => Ret (if IsNotFound e then Ok false else Err e)
  | Ok u =>
      Ret (match NestedInt64 (JObj [("status", u_Status u)]) ["status"; "readyInstances"] with
           | Err e => Err (wrap_err "read CNPG cluster readyInstances: " e)
           | Ok None => Ok false
           | Ok (Some ready) => Ok (1 <=? ready)
           end)
  end.

(** A Secret that may be missing: its data, nil when it is. *)
Definition secret_data (key : NamespacedName) : prog (res (gomap string)) :=
  let! r := Get KSecret key in
  Ret (match r with
       | Ok sec => Ok (sec_Data sec)
       | Err e => if IsNotFound e then Ok [] else Err e
       end).

Definition computeConfigHash (s : PowerDNSServer) (cm : ConfigMap) : prog (res string) :=
  let names := NameSet s in
  let ns := om_Namespace (srv_Meta s) in
  let apiKeyName := match api_APIKeySecretRef (ps_API (srv_Spec s)) with
                    | Some ref => if ref != "" then ref else n_APIKeySecret names
                    | None => n_APIKeySecret names
                    end in
  try! api := secret_data (NN ns apiKeyName) in
  try! backend := secret_data (NN ns (n_BackendSecret names)) in
  Ret (Ok (ConfigHash (default "" (cm_Data cm !! "pdns.conf")) [api; backend])).
End reconciler.

(** ** Workload *)

Section workload.
Context `{Machinery, Reconciler}.

Definition tag_additional (svc : Service) : Service :=
  set_svc_Meta (set_om_Labels (<[roleLabel := additionalRole]> (om_Labels (svc_Meta svc))) (svc_Meta svc)) svc.

(** The labels by which the additional Services are found again. *)
Definition additional_selector (s : PowerDNSServer) : strmap :=
  {[ "app.kubernetes.io/managed-by" := "aether-powerdns"; "app.kubernetes.io/instance" := om_Name (srv_Meta s);
     roleLabel := additionalRole ]}.

Definition reconcileAdditionalDNSServices (s : PowerDNSServer) : prog (option err) :=
  let desired := map tag_additional (AdditionalDNSServices s) in
  check! for_each desired (updateServiceOwned s) in
  let desiredNames := map (fun svc => om_Name (svc_Meta svc)) desired in
  try! existing := do_op (OListLabels KService (om_Namespace (srv_Meta s)) (additional_selector s)) in
  for_each existing (fun svc =>
    if bool_decide (om_Name (svc_Meta svc) ∈ desiredNames) then done_ok
    else let! e := Delete KService (obj_key KService svc) in Ret (IgnoreNotFound e)).

Definition reconcileObservability (s : PowerDNSServer) : prog (option err) :=
  let pm := PodMonitor s in
  if negb (pms_Enabled (obs_PodMonitor (ps_Observability (srv_Spec s)))) then
    let! _ := Delete KPodMonitor (obj_key KPodMonitor pm) in done_ok
  else
    let! e := ensureUnstructured s KPodMonitor pm in
    match e with
    | Some e =>
        if IsNoMatchError e then
          let! _ := event KServer s EventTypeWarning "PodMonitorUnavailable"
            "PodMonitor CRD not installed; metrics scraping skipped" in
          done_ok
        else Ret (Some e)
    | None => done_ok
    end.

Definition reconcileNetworkPolicy (s : PowerDNSServer) : prog (option err) :=
  let np := NetworkPolicy_ s in
  if negb (nps_Enabled (ps_NetworkPolicy (srv_Spec s))) then
    let! _ := Delete KNetworkPolicy (obj_key KNetworkPolicy np) in done_ok
  else
    check! ensureOwned s KNetworkPolicy np in
    let! r := Get KNetworkPolicy (obj_key KNetworkPolicy np) in
    match r with
    | Ok existing =>
        only_err (Update KNetworkPolicy {| np_Meta := np_Meta existing; np_Spec := np_Spec np |})
    | Err _ => done_ok
    end.

(** The mutate function of a CreateOrUpdate: labels and spec of the desired
    object on the live one, then the controller reference. *)
Definition mutate_owned (s : PowerDNSServer) (k : kind) (lb : strmap) (assign : obj_of k -> obj_of k)
    (live : obj_of k) : res (obj_of k) :=
  own s k (assign (set_meta k (set_om_Labels lb (get_meta k live)) live)).

Definition l4_assign (desired live : L4Route) : L4Route :=
  {| l4_Meta := l4_Meta live; l4_ParentRefs := l4_ParentRefs desired; l4_Rules := l4_Rules desired |}.
Definition http_assign (desired live : HTTPRoute) : HTTPRoute :=
  {| hr_Meta := hr_Meta live; hr_ParentRefs := hr_ParentRefs desired;
     hr_Hostnames := hr_Hostnames desired; hr_Rules := hr_Rules desired |}.

Definition ensure_tcproute (s : PowerDNSServer) : prog (option err) :=
  let desired := TCPRoute s in
  let! r := do_op (OCreateOrUpdate KTCPRoute (obj_key KTCPRoute desired)
              (mutate_owned s KTCPRoute (om_Labels (l4_Meta desired)) (l4_assign desired))) in
  match r with
  | Ok _ => done_ok
  | Err e =>
      if IsNoMatchError e then
        let! _ := event KServer s EventTypeWarning "GatewayCRDMissing"
          "dns.exposure=gateway needs the Gateway API experimental channel (TCPRoute/UDPRoute CRDs not installed)" in
        Ret (Some (wrap_err
          "ensure tcproute: TCPRoute CRD not installed (Gateway API experimental channel): " e))
      else Ret (Some (wrap_err "ensure tcproute: " e))
  end.

Definition ensure_udproute (s : PowerDNSServer) : prog (option err) :=
  let desired := UDPRoute s in
  let! r := do_op (OCreateOrUpdate KUDPRoute (obj_key KUDPRoute desired)
              (mutate_owned s KUDPRoute (om_Labels (l4_Meta desired)) (l4_assign desired))) in
  match r with
  | Ok _ => done_ok
  | Err e =>
      if IsNoMatchError e then
        Ret (Some (wrap_err
          "ensure udproute: UDPRoute CRD not installed (Gateway API experimental channel): " e))
      else Ret (Some (wrap_err "ensure udproute: " e))
  end.

Definition ensure_httproute (s : PowerDNSServer) (desired : HTTPRoute) : prog (option err) :=
  let! r := do_op (OCreateOrUpdate KHTTPRoute (obj_key KHTTPRoute desired)
              (mutate_owned s KHTTPRoute (om_Labels (hr_Meta desired)) (http_assign desired))) in
  match r with
  | Err e =>
      if IsNoMatchError e then
        let! _ := event KServer s EventTypeWarning "GatewayCRDMissing"
          "spec.api.gateway needs the Gateway API HTTPRoute CRD, which is not installed" in
        Ret (Some (wrap_err "ensure httproute: HTTPRoute CRD not installed (Gateway API): " e))
      else Ret (Some (wrap_err "ensure httproute: " e))
  | Ok OpCreated =>
      let! _ := event KServer s EventTypeNormal "APIExposed"
        ("HTTP API exposed via Gateway API HTTPRoute " +:+ om_Name (hr_Meta desired)
         +:+ " — admin surface, ensure TLS at the listener") in
      done_ok
  | Ok _ => done_ok
  end.

Definition reconcileRoutes (s : PowerDNSServer) : prog (option err) :=
  let names := NameSet s in
  let ns := om_Namespace (srv_Meta s) in
  check! (if dns_Exposure (ps_DNS (srv_Spec s)) == DNSExposureGateway then
            check! ensure_tcproute s in ensure_udproute s
          else
            check! wrapping "delete tcproute: " (deleteIfExists KTCPRoute (NN ns (n_TCPRoute names))) in
            wrapping "delete udproute: " (deleteIfExists KUDPRoute (NN ns (n_UDPRoute names)))) in
  match HTTPRoute_ s with
  | Some desired => ensure_httproute s desired
  | None => wrapping "delete httproute: " (deleteIfExists KHTTPRoute (NN ns (n_HTTPRoute names)))
  end.

(** The PodDisruptionBudget part that ensureWorkload and reconcileDrift share. *)
Definition ensure_pdb (s : PowerDNSServer) : prog (option err) :=
  match PodDisruptionBudget_ s with
  | Some pdb => ensureOwned s KPDB pdb
  | None => let! _ := Delete KPDB (NN (om_Namespace (srv_Meta s)) (n_PDB (NameSet s))) in done_ok
  end.

Definition set_ConfigHash (h : string) (s : PowerDNSServer) : PowerDNSServer :=
  upd_status (set_pst_ConfigHash h) s.

Definition ensureWorkload (s : PowerDNSServer) : prog (res PowerDNSServer) :=
  let cm := ConfigMap_ s in
  check! wrapping "ensure configmap: " (updateConfigMapOwned s cm) in
  try! hash := wrapping_res "compute config hash: " (computeConfigHash s cm) in
  let s := set_ConfigHash hash s in
  check! wrapping "ensure deployment: " (ensureOwned s KDeployment (Deployment_ s hash)) in
  check! wrapping "ensure api service: " (ensureOwned s KService (APIService s)) in
  check! wrapping "ensure dns service: " (ensureOwned s KService (DNSService s)) in
  check! wrapping "reconcile additional dns services: " (reconcileAdditionalDNSServices s) in
  check! wrapping "ensure pdb: " (ensure_pdb s) in
  check! wrapping "reconcile observability: " (reconcileObservability s) in
  check! wrapping "reconcile network policy: " (reconcileNetworkPolicy s) in
  Ret (Ok s).

Definition reconcileDrift (s : PowerDNSServer) : prog (res PowerDNSServer) :=
  let cm := ConfigMap_ s in
  check! updateConfigMapOwned s cm in
  try! hash := computeConfigHash s cm in
  let s := set_ConfigHash hash s in
  check! updateDeployment s (Deployment_ s hash) in
  check! updateServiceOwned s (APIService s) in
  check! updateServiceOwned s (DNSService s) in
  check! reconcileAdditionalDNSServices s in
  check! reconcileRoutes s in
  check! ensure_pdb s in
  Ret (Ok s).

(** ** Status of a Ready server *)

Definition refreshDNSEndpoint (s : PowerDNSServer) : prog (res PowerDNSServer) :=
  let dns := ps_DNS (srv_Spec s) in
  let ns := om_Namespace (srv_Meta s) in
  let exposure := exposure_or_none dns in
  let store (endpoint : string) : prog (res PowerDNSServer) :=
    if pst_DNSEndpoint (srv_Status s) == endpoint then Ret (Ok s)
    else StatusUpdate KServer (set_DNSEndpoint endpoint s) in
  if (exposure == DNSExposureNone) || (exposure == DNSExposureLoadBalancer) then
    let! r := Get KService (NN ns (n_DNSService (NameSet s))) in
    match r with
    | Err e => Ret (match IgnoreNotFound (Some e) with Some e => Err e | None => Ok s end)
    | Ok svc =>
        if exposure == DNSExposureNone then store (ss_ClusterIP (svc_Spec svc) +:+ ":53")
        else
          let addr := ingress_addr (svc_Ingress svc) in
          let endpoint := if addr == "" then "" else addr +:+ ":53" in
          let! _ := (if (endpoint == "") && (pst_DNSEndpoint (srv_Status s) != "") then
                       event KServer s EventTypeWarning "LoadBalancerPending"
                         "DNS LoadBalancer has no assigned address; clearing status.dnsEndpoint"
                     else Ret tt) in
          store endpoint
    end
  else if exposure == DNSExposureGateway then
    store (match dns_Gateway dns with Some gw => gateway_endpoint (dgw_ParentRefs gw) ns | None => "" end)
  else store "".

Definition refreshReplicaStatus (s : PowerDNSServer) : prog (option err) :=
  try! deploy := Get KDeployment (NN (om_Namespace (srv_Meta s)) (n_Deployment (NameSet s))) in
  let desired := replicas_of (dep_Replicas deploy) in
  let st := srv_Status s in
  let ready := (dep_AvailableReplicas deploy =? desired) && (0 <? desired) in
  if negb (Bool.eqb (pst_Ready st) ready) || negb (pst_ReadyReplicas st =? dep_ReadyReplicas deploy)
     || negb (pst_DesiredReplicas st =? desired) then
    let prev := pst_Ready st in
    let s := upd_status (set_pst_replicas ready (dep_ReadyReplicas deploy) desired) s in
    let counts := itoa (dep_AvailableReplicas deploy) +:+ "/" +:+ itoa desired in
    let msg := counts +:+ " replicas available" in
    let s := if ready then
               trueCond ConditionReady "Ready" "Server is serving DNS and the API"
                 (trueCond ConditionAvailable "AllReplicasReady" msg s)
             else
               falseCond ConditionReady "Degraded" msg
                 (falseCond ConditionAvailable "ReplicasUnavailable" msg s) in
    try! s := StatusUpdate KServer s in
    let! _ := (if ready && negb prev then
                 event KServer s EventTypeNormal "Ready"
                   ("PowerDNSServer ready (" +:+ counts +:+ " replicas, dns="
                    +:+ pst_DNSEndpoint (srv_Status s) +:+ ")")
               else if negb ready && prev then event KServer s EventTypeWarning "Degraded" msg
               else Ret tt) in
    done_ok
  else done_ok.
End workload.

(** ** The phase machine *)

Section phases.
Context `{Machinery, Reconciler}.

Definition phasePending (s : PowerDNSServer) : prog Outcome :=
  let msg := validateSpec s in
  if msg != "" then setFailed s msg
  else
    try! s := wrapping_res "ensure api key: " (ensureAPIKey s) in
    let! _ := event KServer s EventTypeNormal "Provisioning" "PowerDNSServer accepted; provisioning backend" in
    let s := falseCond ConditionReady "Provisioning" "Backend not yet provisioned" s in
    let s := falseCond ConditionAvailable "Pending" "Server pods not yet running" s in
    setPhase s PhaseProvisioningBackend.

Definition phaseProvisioningBackend (s : PowerDNSServer) : prog Outcome :=
  let names := NameSet s in
  match isBYO s with
  | Some byo =>
      try! ready := materialiseBYOBackendSecret s byo in
      if negb ready then Ret (requeue_after requeueShort, None)
      else setPhase (set_BackendSecretName (n_BackendSecret names) s) PhaseInitializingSchema
  | None =>
      check! wrapping "ensure CNPG cluster: "
        (ensureUnstructured s KCluster (Cluster s (n_CNPGCluster names))) in
      try! ready := materialiseCNPGBackendSecret s (n_CNPGCluster names) in
      if negb ready then Ret (requeue_after requeueShort, None)
      else
        try! dbReady := cnpgClusterReady s (n_CNPGCluster names) in
        if negb dbReady then Ret (requeue_after requeueShort, None)
        else
          let s := set_BackendSecretName (n_BackendSecret names) s in
          let s := trueCond ConditionBackendProvisioned "BackendReady" "Backend secret published" s in
          let! _ := event KServer s EventTypeNormal "BackendProvisioned"
            "Postgres backend ready, applying schema" in
          setPhase s PhaseInitializingSchema
  end.

(** The first condition that says the Job failed. *)
Definition job_failure (job : Job) : option JobCondition :=
  List.find (fun c => (jc_Type c == JobFailed) && (jc_Status c == ConditionTrue)) (job_Conditions job).

Definition phaseInitializingSchema (s : PowerDNSServer) : prog Outcome :=
  let key := NN (om_Namespace (srv_Meta s)) (n_SchemaJob (NameSet s)) in
  let! r := Get KJob key in
  match r with
  | Err e =>
      if IsNotFound e then
        match own s KJob (SchemaInitJob s) with
        | Err e => Ret (no_requeue, Some e)
        | Ok newJob =>
            check! wrapping "create schema job: " (Create KJob newJob) in
            Ret (requeue_after requeueShort, None)
        end
      else Ret (no_requeue, Some e)
  | Ok job =>
      if 0 <? job_Succeeded job then
        let s := upd_status (set_pst_SchemaApplied true) s in
        let s := trueCond ConditionSchemaApplied "SchemaApplied" "PowerDNS schema applied to Postgres" s in
        let! _ := event KServer s EventTypeNormal "SchemaApplied" "PowerDNS schema initialised" in
        setPhase s PhaseDeployingServer
      else
        match job_failure job with
        | Some c =>
            let! _ := event KServer s EventTypeWarning "SchemaJobRetried"
              ("schema init Job failed (" +:+ jc_Reason c +:+ "); recreating: " +:+ jc_Message c) in
            let! e := do_op (ODelete KJob (obj_key KJob job) (Some "Background")) in
            match IgnoreNotFound e with
            | Some e => Ret (no_requeue, Some (wrap_err "delete failed schema job: " e))
            | None => Ret (requeue_after requeueLong, None)
            end
        | None => Ret (requeue_after requeueShort, None)
        end
  end.

Definition phaseDeployingServer (s : PowerDNSServer) : prog Outcome :=
  try! s := ensureWorkload s in
  let ns := om_Namespace (srv_Meta s) in
  let! r := Get KDeployment (NN ns (n_Deployment (NameSet s))) in
  match r with
  | Err _ => Ret (requeue_after requeueShort, None)
  | Ok deploy =>
      if dep_AvailableReplicas deploy <? 1 then Ret (requeue_after requeueShort, None)
      else
        let apiSvc := APIService s in
        let port := match ss_Ports (svc_Spec apiSvc) with p :: _ => sp_Port p | [] => 0 end in
        setPhase
          (set_APIEndpoint ("http://" +:+ om_Name (svc_Meta apiSvc) +:+ "." +:+ ns +:+ ".svc:" +:+ itoa port) s)
          PhaseExposingDNS
  end.

Definition phaseExposingDNS (s : PowerDNSServer) : prog Outcome :=
  let dns := ps_DNS (srv_Spec s) in
  let ns := om_Namespace (srv_Meta s) in
  let exposure := exposure_or_none dns in
  let svcKey := NN ns (n_DNSService (NameSet s)) in
  check! reconcileRoutes s in
  if exposure == DNSExposureNone then
    try! svc := Get KService svcKey in
    setPhase (set_DNSEndpoint (ss_ClusterIP (svc_Spec svc) +:+ ":53") s) PhaseReady
  else if exposure == DNSExposureLoadBalancer then
    try! svc := Get KService svcKey in
    let ip := ingress_addr (svc_Ingress svc) in
    if ip == "" then Ret (requeue_after requeueShort, None)
    else setPhase (set_DNSEndpoint (ip +:+ ":53") s) PhaseReady
  else if exposure == DNSExposureGateway then
    match dns_Gateway dns with
    | Some {| dgw_ParentRefs := (_ :: _) as refs |} =>
        setPhase (set_DNSEndpoint (gateway_endpoint refs ns) s) PhaseReady
    | _ => setFailed s "dns.exposure=gateway requires dns.gateway.parentRefs"
    end
  else setPhase s PhaseReady.

Definition phaseReady (s : PowerDNSServer) : prog Outcome :=
  let msgs := ValidateExtraSettings (ps_ExtraSettings (srv_Spec s)) in
  let! _ := (if (0 <? length msgs)%nat then
               event KServer s EventTypeWarning "ExtraSettingsRejected"
                 ("extraSettings entries rejected and NOT rendered into pdns.conf: " +:+ Join msgs "; ")
             else Ret tt) in
  try! s := reconcileDrift s in
  try! s := refreshDNSEndpoint s in
  check! refreshReplicaStatus s in
  Ret (requeue_after requeueLong, None).

Definition reconcileDelete (s : PowerDNSServer) : prog Outcome :=
  try! _ := Update KServer (set_srv_Meta (RemoveFinalizer (srv_Meta s) finalizer) s) in
  Ret (no_requeue, None).

Definition Reconcile (key : NamespacedName) : prog Outcome :=
  let! r := Get KServer key in
  match r with
  | Err e => Ret (no_requeue, IgnoreNotFound (Some e))
  | Ok server =>
      let meta := srv_Meta server in
      if negb (deletion_IsZero meta) then reconcileDelete server
      else if negb (ContainsFinalizer meta finalizer) then
        try! _ := Update KServer (set_srv_Meta (AddFinalizer meta finalizer) server) in
        Ret (requeue_now, None)
      else
        let phase := pst_Phase (srv_Status server) in
        if (phase == "") || (phase == PhasePending) then phasePending server
        else if phase == PhaseProvisioningBackend then phaseProvisioningBackend server
        else if phase == PhaseInitializingSchema then phaseInitializingSchema server
        else if phase == PhaseDeployingServer then phaseDeployingServer server
        else if phase == PhaseExposingDNS then phaseExposingDNS server
        else if phase == PhaseReady then phaseReady server
        else Ret (no_requeue, None)
  end.
End phases.

(** ** What a valid specification is *)

Record valid_spec (s : PowerDNSServer) : Prop := {
  vs_backend : be_Type (ps_Backend (srv_Spec s)) = BackendPostgres;
  vs_byo : forall byo, isBYO s = Some byo -> byo_Host byo <> "" /\ byo_CredentialsSecretRef byo <> "";
  vs_dns_gateway : dns_Exposure (ps_DNS (srv_Spec s)) = DNSExposureGateway ->
    exists gw, dns_Gateway (ps_DNS (srv_Spec s)) = Some gw /\ dgw_ParentRefs gw <> []
      /\ Forall (fun p => gpr_Name p <> "") (dgw_ParentRefs gw);
  vs_api_gateway : forall gw, api_Gateway (ps_API (srv_Spec s)) = Some gw ->
    agw_ParentRefs gw <> [] /\ Forall (fun p => apr_Name p <> "") (agw_ParentRefs gw);
  vs_pdb : forall m, pdb_override (ps_PodDisruptionBudget (srv_Spec s)) = Some m ->
    1 < replicas_of (ps_Replicas (srv_Spec s)) -> m < replicas_of (ps_Replicas (srv_Spec s));
  vs_additional : forall lb, dns_Exposure (ps_DNS (srv_Spec s)) = DNSExposureLoadBalancer ->
    dns_LoadBalancer (ps_DNS (srv_Spec s)) = Some lb ->
    NoDup (map als_NameSuffix (lb_AdditionalServices lb))
    /\ ("" ∉ map als_NameSuffix (lb_AdditionalServices lb));
  vs_extra : ValidateExtraSettings (ps_ExtraSettings (srv_Spec s)) = [];
}.

(** A message is never empty. *)
Definition says (m : option string) : Prop := m <> Some "".

Lemma first_message_empty l : Forall says l -> first_message l = "" <-> Forall (fun m => m = None) l.
Proof.
  unfold first_message. induction 1 as [|[m|] l Hm HF IH]; simpl.
  - split; [constructor|done].
  - split; [intros ->; by destruct Hm|]. intros [? _]%Forall_cons. done.
  - rewrite IH, Forall_cons. naive_solver.
Qed.

Lemma first_bad_none {A} (bad : nat -> A -> option string) i l :
  first_bad bad i l = None <-> forall j x, l !! j = Some x -> bad (i + j)%nat x = None.
Proof.
  revert i. induction l as [|x l IH]; intros i; simpl; [split; [by intros _ j x|done]|].
  destruct (bad i x) eqn:E.
  - split; [done|]. intros H. specialize (H 0%nat x eq_refl). by rewrite Nat.add_0_r, E in H.
  - rewrite IH. split.
    + intros H [|j] y; [intros [= <-]; by rewrite Nat.add_0_r|]. intros Hj. rewrite <- Nat.add_succ_comm. by apply H.
    + intros H j y Hj. specialize (H (S j) y Hj). by rewrite <- Nat.add_succ_comm in H.
Qed.

Lemma first_bad_says {A} (bad : nat -> A -> option string) i l :
  (forall j x, says (bad j x)) -> says (first_bad bad i l).
Proof.
  intros Hs. revert i. induction l as [|x l IH]; intros i; simpl; [done|].
  pose proof (Hs i x). by destruct (bad i x).
Qed.

Lemma first_bad_names {A} (name : A -> string) (msg : nat -> string) i l :
  first_bad (fun i p => if name p == "" then Some (msg i) else None) i l = None
  <-> Forall (fun p => name p <> "") l.
Proof.
  rewrite first_bad_none, Forall_lookup. split; intros H j x Hj; specialize (H j x Hj); simpl in *.
  - destruct (bool_decide (name x = "")) eqn:E; by bool_prop.
  - by rewrite bool_decide_eq_false_2.
Qed.

Lemma suffix_violation_none seen i l :
  suffix_violation seen i l = None <->
  NoDup (map als_NameSuffix l) /\ ("" ∉ map als_NameSuffix l)
  /\ (forall x, x ∈ map als_NameSuffix l -> x ∉ seen).
Proof.
  revert seen i. induction l as [|e l IH]; intros seen i; simpl.
  - split; [|done]. intros _. split; [constructor|]. split; set_solver.
  - rewrite NoDup_cons, not_elem_of_cons. destruct (bool_decide (als_NameSuffix e = "")) eqn:E1; bool_prop.
    { split; [done|]. naive_solver. }
    destruct (bool_decide (als_NameSuffix e ∈ seen)) eqn:E2; bool_prop.
    { split; [done|]. set_solver. }
    rewrite IH. set_solver.
Qed.

Lemma suffix_violation_says seen i l : says (suffix_violation seen i l).
Proof.
  revert seen i. induction l as [|e l IH]; intros seen i; simpl; [done|].
  destruct (bool_decide _); [done|]. by destruct (bool_decide _).
Qed.

Lemma checks_say s :
  Forall says [check_backend s; check_dns_gateway s; check_api_gateway s; check_pdb s;
               check_additional (ps_DNS (srv_Spec s)); check_extra s].
Proof.
  rewrite !Forall_cons, Forall_nil. split_and!; [..|done].
  - unfold check_backend. repeat split_match; done.
  - unfold check_dns_gateway. repeat split_match; try done; apply first_bad_says; intros j x; by destruct (bool_decide (_ x = "")).
  - unfold check_api_gateway. repeat split_match; try done; apply first_bad_says; intros j x; by destruct (bool_decide (_ x = "")).
  - unfold check_pdb. repeat split_match; done.
  - unfold check_additional. repeat split_match; try done; apply suffix_violation_says.
  - unfold check_extra. repeat split_match; done.
Qed.

Lemma check_dns_gateway_none s :
  check_dns_gateway s = None <->
  (dns_Exposure (ps_DNS (srv_Spec s)) = DNSExposureGateway ->
    exists gw, dns_Gateway (ps_DNS (srv_Spec s)) = Some gw /\ dgw_ParentRefs gw <> []
      /\ Forall (fun p => gpr_Name p <> "") (dgw_ParentRefs gw)).
Proof.
  unfold check_dns_gateway. case_bool_decide as He; [|naive_solver].
  destruct (dns_Gateway _) as [[[|r refs]]|] eqn:Eg.
  - split; [done|]. intros H. destruct (H He) as (gw & [= <-] & Hne & _). done.
  - rewrite first_bad_names. split; [intros HF _; by eexists|]. intros H.
    by destruct (H He) as (gw & [= <-] & _ & HF).
  - split; [done|]. intros H. by destruct (H He) as (gw & ? & _).
Qed.

Lemma check_api_gateway_none s :
  check_api_gateway s = None <->
  (forall gw, api_Gateway (ps_API (srv_Spec s)) = Some gw ->
    agw_ParentRefs gw <> [] /\ Forall (fun p => apr_Name p <> "") (agw_ParentRefs gw)).
Proof.
  unfold check_api_gateway. destruct (api_Gateway _) as [gw|]; [|naive_solver].
  destruct (agw_ParentRefs gw) as [|r refs] eqn:E.
  - split; [done|]. intros H. destruct (H gw eq_refl) as [H1 _]. by rewrite E in H1.
  - rewrite first_bad_names. split; [intros HF gw' [= <-]; by rewrite E|].
    intros H. destruct (H gw eq_refl) as [_ HF]. by rewrite E in HF.
Qed.

Lemma check_backend_none s :
  check_backend s = None <->
  be_Type (ps_Backend (srv_Spec s)) = BackendPostgres
  /\ (forall byo, isBYO s = Some byo -> byo_Host byo <> "" /\ byo_CredentialsSecretRef byo <> "").
Proof.
  unfold check_backend, isBYO. case_bool_decide as E; simpl; [|naive_solver].
  destruct (be_Postgres _) as [pg|]; [|naive_solver]. destruct (pg_BYO pg) as [byo|]; [|naive_solver].
  repeat case_bool_decide; naive_solver.
Qed.

Lemma check_pdb_none s :
  check_pdb s = None <->
  (forall m, pdb_override (ps_PodDisruptionBudget (srv_Spec s)) = Some m ->
    1 < replicas_of (ps_Replicas (srv_Spec s)) -> m < replicas_of (ps_Replicas (srv_Spec s))).
Proof.
  unfold check_pdb. destruct (pdb_override _) as [m|]; [|naive_solver].
  destruct ((1 <? _) && _) eqn:E; bool_prop.
  - split; [done|]. intros Hm. specialize (Hm m eq_refl). lia.
  - apply andb_false_iff in E. split; [|done]. intros _ m' [= <-]. destruct E; bool_prop; lia.
Qed.

Lemma check_additional_none dns :
  check_additional dns = None <->
  (forall lb, dns_Exposure dns = DNSExposureLoadBalancer -> dns_LoadBalancer dns = Some lb ->
    NoDup (map als_NameSuffix (lb_AdditionalServices lb))
    /\ ("" ∉ map als_NameSuffix (lb_AdditionalServices lb))).
Proof.
  unfold check_additional. case_bool_decide as E; [|naive_solver].
  destruct (dns_LoadBalancer dns) as [lb|]; [|naive_solver].
  rewrite suffix_violation_none. split; [naive_solver|]. intros H. destruct (H lb E eq_refl).
  split_and!; [done..|]. intros; apply not_elem_of_empty.
Qed.

Lemma validateSpec_iff s : validateSpec s = "" <-> valid_spec s.
Proof.
  unfold validateSpec. rewrite first_message_empty by apply checks_say. rewrite !Forall_cons, Forall_nil.
  rewrite check_backend_none, check_dns_gateway_none, check_api_gateway_none, check_pdb_none,
    check_additional_none.
  assert (Hx : check_extra s = None <-> ValidateExtraSettings (ps_ExtraSettings (srv_Spec s)) = []).
  { unfold check_extra. by destruct (ValidateExtraSettings _). }
  rewrite Hx. split; [intros ([? ?] & ? & ? & ? & ? & ? & _); by split|].
  intros [? ? ? ? ? ? ?]. by split_and!.
Qed.

(** C26. validateSpec accepts exactly the valid specifications: a postgres
    backend, a complete BYO section, at least one named parent for each
    gateway in use, a disruption budget below the replica count, distinct and
    non-empty suffixes of the additional Services, and extra settings that
    the renderer accepts. *)
Theorem validateSpec_accepts_valid (s : PowerDNSServer) : validateSpec s = "" <-> valid_spec s.
Proof. apply validateSpec_iff. Qed.

(** The names of the DNS Services of a server. *)
Definition dns_service_names (s : PowerDNSServer) : list string :=
  om_Name (svc_Meta (DNSService s)) :: map (fun svc => om_Name (svc_Meta svc)) (AdditionalDNSServices s).

Lemma apply_lb_name ip an pol svc : om_Name (svc_Meta (apply_lb ip an pol svc)) = om_Name (svc_Meta svc).
Proof. unfold apply_lb. simpl. by destruct (bool_decide _). Qed.

Lemma DNSService_name s : om_Name (svc_Meta (DNSService s)) = n_DNSService (NameSet s).
Proof.
  unfold DNSService, applyLBPrimary. destruct (bool_decide _); [|done].
  destruct (dns_LoadBalancer (ps_DNS (srv_Spec s))); [by rewrite apply_lb_name|done].
Qed.

Lemma additional_names s :
  dns_Exposure (ps_DNS (srv_Spec s)) = DNSExposureLoadBalancer ->
  map (fun svc => om_Name (svc_Meta svc)) (AdditionalDNSServices s)
  = map (String.app (n_DNSService (NameSet s)))
      (match dns_LoadBalancer (ps_DNS (srv_Spec s)) with
       | Some lb => map als_NameSuffix (lb_AdditionalServices lb)
       | None => []
       end).
Proof.
  intros He. unfold AdditionalDNSServices. destruct (dns_LoadBalancer _) as [lb|]; [|done].
  rewrite He. simpl negb. cbn iota. rewrite !map_map. apply map_ext. intros e. by rewrite apply_lb_name.
Qed.

Lemma no_additional s :
  dns_Exposure (ps_DNS (srv_Spec s)) <> DNSExposureLoadBalancer -> AdditionalDNSServices s = [].
Proof.
  intros He. unfold AdditionalDNSServices. destruct (dns_LoadBalancer _); [|done].
  by rewrite bool_decide_eq_false_2.
Qed.

Lemma suffixed_NoDup (n : string) (l : list string) :
  NoDup l -> ("" ∉ l) -> NoDup (n :: map (String.app n) l).
Proof.
  intros Hnd He. constructor.
  - intros (x & E & Hx)%list_elem_of_fmap. apply He. replace "" with x; [done|].
    apply (str_app_inj_l _ _ n). by rewrite str_app_nil_r.
  - apply NoDup_fmap_2; [|done]. intros x y. apply str_app_inj_l.
Qed.

(** C27. A valid specification renders Services under distinct names, so that
    no additional Service overwrites another or the primary one; and its
    disruption budget exists exactly when there are several replicas, always
    leaves a pod to evict, and selects the pods of the Deployment. *)
Theorem valid_spec_renders (s : PowerDNSServer) (hash : string)
  (Hvalid : validateSpec s = "") (Hw : in_int32 (replicas_of (ps_Replicas (srv_Spec s)))) :
  NoDup (dns_service_names s)
  /\ match PodDisruptionBudget_ s with
     | None => replicas_of (ps_Replicas (srv_Spec s)) <= 1
     | Some pdb => exists m, pdb_Spec_MinAvailable pdb = Some m
         /\ 1 < replicas_of (ps_Replicas (srv_Spec s)) /\ m < replicas_of (ps_Replicas (srv_Spec s))
         /\ dep_Replicas (Deployment_ s hash) = Some (replicas_of (ps_Replicas (srv_Spec s)))
         /\ pdb_Selector pdb = pod_labels s hash
     end.
Proof.
  apply validateSpec_iff in Hvalid as [? ? ? ? Hpdb Hadd ?]. split.
  - unfold dns_service_names. rewrite DNSService_name.
    destruct (decide (dns_Exposure (ps_DNS (srv_Spec s)) = DNSExposureLoadBalancer)) as [He|He].
    + rewrite additional_names by done. destruct (dns_LoadBalancer _) as [lb|] eqn:El; [|apply NoDup_singleton].
      destruct (Hadd lb He eq_refl). by apply suffixed_NoDup.
    + rewrite no_additional by done. apply NoDup_singleton.
  - unfold PodDisruptionBudget_, pdbFor. destruct (_ <=? 1) eqn:E; bool_prop; [done|].
    eexists. split; [done|]. split; [lia|]. split; [|done].
    destruct (pdb_override _) as [m|] eqn:Em; [by apply Hpdb|]. rewrite wrap32_id; [lia|].
    unfold in_int32 in *. lia.
Qed.

Lemma valid_spec_renders_witness :
  NoDup (dns_service_names sample_server) /\ replicas_of (ps_Replicas (srv_Spec sample_server)) = 3.
Proof.
  split; [|reflexivity]. apply (valid_spec_renders sample_server "h"); [reflexivity|].
  unfold in_int32. split; reflexivity || discriminate.
Defined.

(** ** The phase machine as a relation *)

(** The servers whose status a trace wrote. *)
Definition server_status_update (e : obs) : option PowerDNSServer :=
  match ev_op e with
  | OStatusUpdate k z =>
      match k return obj_of k -> option PowerDNSServer with KServer => Some | _ => fun _ => None end z
  | _ => None
  end.
Definition phases_written (t : list obs) : list PowerDNSServer := omap server_status_update t.

(** One transition of the phase machine, from the server read to the server
    whose status is written, with the reads that justify it. *)
Inductive transition `{Machinery} (t : list obs) (s s' : PowerDNSServer) : Prop :=
| tr_rejected :
    (pst_Phase (srv_Status s) = "" \/ pst_Phase (srv_Status s) = PhasePending) -> validateSpec s <> "" ->
    pst_Phase (srv_Status s') = PhaseFailed -> pst_FailureMessage (srv_Status s') = validateSpec s ->
    transition t s s'
| tr_accepted :
    (pst_Phase (srv_Status s) = "" \/ pst_Phase (srv_Status s) = PhasePending) -> validateSpec s = "" ->
    pst_Phase (srv_Status s') = PhaseProvisioningBackend ->
    transition t s s'
| tr_byo byo src :
    pst_Phase (srv_Status s) = PhaseProvisioningBackend -> isBYO s = Some byo ->
    Ev (OGet KSecret (NN (om_Namespace (srv_Meta s)) (byo_CredentialsSecretRef byo))) (Ok src) ∈ t ->
    pickKey src ["password"] <> "" -> pst_Phase (srv_Status s') = PhaseInitializingSchema ->
    transition t s s'
| tr_cnpg u ready :
    pst_Phase (srv_Status s) = PhaseProvisioningBackend -> isBYO s = None ->
    Ev (OGet KCluster (NN (om_Namespace (srv_Meta s)) (n_CNPGCluster (NameSet s)))) (Ok u) ∈ t ->
    NestedInt64 (JObj [("status", u_Status u)]) ["status"; "readyInstances"] = Ok (Some ready) -> 1 <= ready ->
    pst_Phase (srv_Status s') = PhaseInitializingSchema ->
    transition t s s'
| tr_schema job :
    pst_Phase (srv_Status s) = PhaseInitializingSchema ->
    Ev (OGet KJob (NN (om_Namespace (srv_Meta s)) (n_SchemaJob (NameSet s)))) (Ok job) ∈ t ->
    0 < job_Succeeded job -> pst_SchemaApplied (srv_Status s') = true ->
    pst_Phase (srv_Status s') = PhaseDeployingServer ->
    transition t s s'
| tr_deployed deploy :
    pst_Phase (srv_Status s) = PhaseDeployingServer ->
    Ev (OGet KDeployment (NN (om_Namespace (srv_Meta s)) (n_Deployment (NameSet s)))) (Ok deploy) ∈ t ->
    1 <= dep_AvailableReplicas deploy -> pst_Phase (srv_Status s') = PhaseExposingDNS ->
    transition t s s'
| tr_exposed :
    pst_Phase (srv_Status s) = PhaseExposingDNS ->
    (pst_Phase (srv_Status s') = PhaseReady \/ pst_Phase (srv_Status s') = PhaseFailed) ->
    transition t s s'
| tr_ready :
    pst_Phase (srv_Status s) = PhaseReady -> pst_Phase (srv_Status s') = PhaseReady ->
    transition t s s'.

(** The first status that a pass writes is a transition of the machine, and
    outside the Ready loop it is the only one. *)
Definition machine_step `{Machinery} (key : NamespacedName) (t : list obs) : Prop :=
  match phases_written t with
  | [] => True
  | s' :: rest =>
      exists s, Ev (OGet KServer key) (Ok s) ∈ t /\ deletion_IsZero (srv_Meta s) = true
        /\ ContainsFinalizer (srv_Meta s) finalizer = true /\ transition t s s'
        /\ (pst_Phase (srv_Status s) <> PhaseReady -> rest = [])
  end.

Section machine.
Context `{Machinery, Reconciler}.

Definition quiet_op (X : Type) (o : op X) : Prop := match o with OStatusUpdate _ _ => False | _ => True end.

Lemma phases_written_app t1 t2 : phases_written (t1 ++ t2) = phases_written t1 ++ phases_written t2.
Proof. apply omap_app. Qed.

Lemma phases_written_cons X (o : op X) x t : quiet_op X o -> phases_written (Ev o x :: t) = phases_written t.
Proof. by destruct o. Qed.

Lemma quiet_wp {A} (p : prog A) : all_ops quiet_op p -> wp p (fun t _ => phases_written t = []).
Proof.
  intros Hp. eapply wp_mono; [|by apply all_ops_wp]. intros t a HF. cbn beta in HF.
  induction t as [|[X o x] t IH]; [done|]. apply Forall_cons in HF as [Ho HF].
  rewrite phases_written_cons by done. by apply IH.
Qed.
End machine.

Section machine_laws.
Context `{MachineryLaws, Reconciler}.

Lemma updateService_quiet d : all_ops quiet_op (updateService d).
Proof.
  apply all_ops_retry. unfold updateService_attempt, Get, Create, Update, only_err. all_ops_run; done.
Qed.

Lemma updateConfigMap_quiet d fn : all_ops quiet_op fn -> all_ops quiet_op (updateConfigMap d fn).
Proof.
  intros Hf. unfold updateConfigMap, Get, only_err, Update. all_ops_run; try done.
  apply all_ops_retry. all_ops_run; done.
Qed.

Lemma ensureOwned_quiet s k o : all_ops quiet_op (ensureOwned s k o).
Proof. unfold ensureOwned, Get, Create. all_ops_run; done. Qed.

Lemma ensureUnstructured_quiet s k o : all_ops quiet_op (ensureUnstructured s k o).
Proof. unfold ensureUnstructured, Get, Create. all_ops_run; done. Qed.

Lemma updateServiceOwned_quiet s d : all_ops quiet_op (updateServiceOwned s d).
Proof. unfold updateServiceOwned. all_ops_run. apply updateService_quiet. Qed.

Lemma additional_quiet s : all_ops quiet_op (reconcileAdditionalDNSServices s).
Proof.
  unfold reconcileAdditionalDNSServices, Delete. all_ops_run; try done. apply updateServiceOwned_quiet.
Qed.

Lemma routes_quiet s : all_ops quiet_op (reconcileRoutes s).
Proof.
  unfold reconcileRoutes, ensure_tcproute, ensure_udproute, ensure_httproute, deleteIfExists, event, Get, Delete.
  all_ops_run; done.
Qed.

Lemma hash_quiet s cm : all_ops quiet_op (computeConfigHash s cm).
Proof. unfold computeConfigHash, secret_data, Get. all_ops_run; done. Qed.

Lemma pdb_quiet s : all_ops quiet_op (ensure_pdb s).
Proof. unfold ensure_pdb, Delete. all_ops_run; try done. apply ensureOwned_quiet. Qed.

Lemma ensureWorkload_quiet s : all_ops quiet_op (ensureWorkload s).
Proof.
  unfold ensureWorkload, reconcileObservability, reconcileNetworkPolicy, updateConfigMapOwned, event, Delete, Get,
    only_err, Update.
  all_ops_run; try done; auto using ensureOwned_quiet, ensureUnstructured_quiet, additional_quiet, hash_quiet,
    pdb_quiet, updateConfigMap_quiet.
Qed.

Lemma reconcileDrift_quiet s : all_ops quiet_op (reconcileDrift s).
Proof.
  unfold reconcileDrift, updateConfigMapOwned, updateDeployment, Get, only_err, Update.
  all_ops_run; try done; auto using ensureOwned_quiet, updateServiceOwned_quiet, additional_quiet, routes_quiet,
    hash_quiet, pdb_quiet, updateConfigMap_quiet.
Qed.

(** The step of a phase function on the server it was given. *)
Definition phase_post (s : PowerDNSServer) (t : list obs) : Prop :=
  match phases_written t with
  | [] => True
  | s' :: rest => transition t s s' /\ (pst_Phase (srv_Status s) <> PhaseReady -> rest = [])
  end.

Lemma phase_post_nil s t : phases_written t = [] -> phase_post s t.
Proof. unfold phase_post. by intros ->. Qed.

Lemma phase_post_one s s' t : phases_written t = [s'] -> transition t s s' -> phase_post s t.
Proof. unfold phase_post. by intros ->. Qed.

Lemma transition_mono t t' s s' : (forall e, e ∈ t -> e ∈ t') -> transition t s s' -> transition t' s s'.
Proof.
  intros Ht [].
  - by apply tr_rejected.
  - by apply tr_accepted.
  - eapply tr_byo; eauto.
  - eapply tr_cnpg; eauto.
  - eapply tr_schema; eauto.
  - eapply tr_deployed; eauto.
  - by apply tr_exposed.
  - by apply tr_ready.
Qed.

Lemma phasePending_step s :
  pst_Phase (srv_Status s) = "" \/ pst_Phase (srv_Status s) = PhasePending ->
  wp (phasePending s) (fun t _ => phase_post s t).
Proof.
  intros Hs. unfold phasePending, ensureAPIKey, randomHex, setFailed, setPhase, event, StatusUpdate, Get, Create.
  wp_run; try (by apply phase_post_nil); bool_prop.
  all: eapply phase_post_one; [done|].
  all: first [by apply tr_accepted|by apply tr_rejected].
Qed.

Lemma writeBackendSecret_quiet s h p u pw d : all_ops quiet_op (writeBackendSecret s h p u pw d).
Proof. unfold writeBackendSecret, Get, Create, only_err, Update. all_ops_run; done. Qed.

Lemma materialiseCNPG_quiet s c : all_ops quiet_op (materialiseCNPGBackendSecret s c).
Proof. unfold materialiseCNPGBackendSecret, written, Get. all_ops_run; try done. apply writeBackendSecret_quiet. Qed.

(** A part of a phase that writes no status. *)
Lemma step_skip {A} (p : prog A) (f : A -> prog Outcome) s :
  all_ops quiet_op p -> (forall a, wp (f a) (fun t _ => phase_post s t)) ->
  wp (bind p f) (fun t _ => phase_post s t).
Proof.
  intros Hp Hf. apply wp_bind. eapply wp_mono; [|by apply quiet_wp]. intros t1 a Ht1. cbn beta in Ht1.
  eapply wp_mono; [|apply Hf]. intros t2 r. unfold phase_post. rewrite phases_written_app, Ht1. simpl.
  destruct (phases_written t2) as [|s' rest]; [done|]. intros [Htr Hrest]. split; [|done].
  eapply transition_mono; [|done]. intros e He. apply elem_of_app. by right.
Qed.

Lemma phaseProvisioningBackend_step s :
  pst_Phase (srv_Status s) = PhaseProvisioningBackend ->
  wp (phaseProvisioningBackend s) (fun t _ => phase_post s t).
Proof.
  intros Hs. unfold phaseProvisioningBackend, setPhase, event, StatusUpdate. destruct (isBYO s) as [byo|] eqn:Eb.
  - unfold materialiseBYOBackendSecret, written, Get. wp_run; try (by apply phase_post_nil); bool_prop; subst.
    all: match goal with |- wp (bind (writeBackendSecret _ _ _ _ _ _) _) _ => idtac end.
    all: apply wp_bind; eapply wp_mono; [|apply quiet_wp, writeBackendSecret_quiet].
    all: intros t1 e Ht1; cbn beta in Ht1 |- *.
    all: wp_run; try (apply phase_post_nil; by rewrite phases_written_cons, phases_written_app, Ht1).
    all: eapply phase_post_one;
      [by rewrite phases_written_cons, phases_written_app, Ht1|eapply tr_byo; [done..|in_trace|done|done]].
  - apply step_skip; [apply all_ops_wrapping, ensureUnstructured_quiet|]. intros [e|]; wp_run;
      [by apply phase_post_nil|].
    apply step_skip; [apply materialiseCNPG_quiet|]. unfold cnpgClusterReady, Get. intros r.
    wp_run; try (by apply phase_post_nil); bool_prop; subst.
    all: eapply phase_post_one; [done|]; eapply tr_cnpg; [done..|in_trace|done|done|done].
Qed.

Lemma phaseInitializingSchema_step s :
  pst_Phase (srv_Status s) = PhaseInitializingSchema ->
  wp (phaseInitializingSchema s) (fun t _ => phase_post s t).
Proof.
  intros Hs. unfold phaseInitializingSchema, setPhase, event, StatusUpdate, Get, Create.
  wp_run; try (by apply phase_post_nil); bool_prop; subst.
  all: eapply phase_post_one; [done|]; by eapply tr_schema; [done|in_trace|done|..].
Qed.

(** What ensureWorkload and reconcileDrift return is the server with the new hash. *)
Lemma ensureWorkload_result s :
  wp (ensureWorkload s) (fun _ r => forall s', r = Ok s' -> exists h, s' = set_ConfigHash h s).
Proof.
  unfold ensureWorkload.
  repeat first
    [ progress unfold try_err, try_res
    | match goal with
      | |- wp (bind _ _) _ => apply wp_bind, wp_always; intros ? r; cbn beta
      | |- wp (match ?r with _ => _ end) _ => destruct r
      end ].
  all: cbn [wp]; intros s' ?; simplify_eq; by eexists.
Qed.

Lemma reconcileDrift_result s :
  wp (reconcileDrift s) (fun _ r => forall s', r = Ok s' -> exists h, s' = set_ConfigHash h s).
Proof.
  unfold reconcileDrift.
  repeat first
    [ progress unfold try_err, try_res
    | match goal with
      | |- wp (bind _ _) _ => apply wp_bind, wp_always; intros ? r; cbn beta
      | |- wp (match ?r with _ => _ end) _ => destruct r
      end ].
  all: cbn [wp]; intros s' ?; simplify_eq; by eexists.
Qed.

Lemma phaseDeployingServer_step s :
  pst_Phase (srv_Status s) = PhaseDeployingServer ->
  wp (phaseDeployingServer s) (fun t _ => phase_post s t).
Proof.
  intros Hs. unfold phaseDeployingServer, try_res. apply wp_bind.
  eapply wp_mono; [|apply wp_conj; [apply quiet_wp, ensureWorkload_quiet|apply ensureWorkload_result]].
  intros t1 r [Ht1 Hr]. cbn beta in Ht1, Hr |- *. unfold setPhase, StatusUpdate, Get.
  wp_run; try (apply phase_post_nil; by rewrite phases_written_app, Ht1); bool_prop; subst.
  all: destruct (Hr _ eq_refl) as [h ->].
  all: eapply phase_post_one;
    [by rewrite phases_written_app, Ht1|eapply tr_deployed; [done|in_trace|done|done]].
Qed.

Lemma phaseExposingDNS_step s :
  pst_Phase (srv_Status s) = PhaseExposingDNS ->
  wp (phaseExposingDNS s) (fun t _ => phase_post s t).
Proof.
  intros Hs. unfold phaseExposingDNS, setPhase, setFailed, event, StatusUpdate, Get. cbv zeta.
  apply step_skip; [apply routes_quiet|]. intros [e|]; wp_run; try (by apply phase_post_nil).
  all: eapply phase_post_one; [done|]; apply tr_exposed; [done|]; by (left + right).
Qed.

Lemma phaseReady_step s :
  pst_Phase (srv_Status s) = PhaseReady -> wp (phaseReady s) (fun t _ => phase_post s t).
Proof.
  intros Hs. unfold phaseReady. cbv zeta. apply step_skip.
  { unfold event. destruct (0 <? _)%nat, HasRecorder; done. }
  intros _. unfold try_res. apply wp_bind.
  eapply wp_mono; [|apply wp_conj; [apply quiet_wp, reconcileDrift_quiet|apply reconcileDrift_result]].
  intros t1 r [Ht1 Hr]. cbn beta in Ht1, Hr |- *. destruct r as [s1|e];
    [|cbn [wp]; apply phase_post_nil; by rewrite phases_written_app, Ht1].
  destruct (Hr _ eq_refl) as [h ->]. unfold refreshDNSEndpoint, refreshReplicaStatus, event, Get, StatusUpdate.
  wp_run; try (apply phase_post_nil; by rewrite phases_written_app, Ht1).
  all: unfold phase_post; rewrite phases_written_app, Ht1; cbn; (split; [|done]); apply tr_ready; [exact Hs|].
  all: repeat match goal with |- context [if ?b then _ else _] => destruct b end; exact Hs.
Qed.

Lemma Reconcile_machine key : wp (Reconcile key) (fun t _ => machine_step key t).
Proof.
  unfold Reconcile, reconcileDelete, Get, Update. wp_run; try done; subst.
  all: eapply wp_mono; [|first [apply phasePending_step|apply phaseProvisioningBackend_step
    |apply phaseInitializingSchema_step|apply phaseDeployingServer_step|apply phaseExposingDNS_step
    |apply phaseReady_step]].
  all: try (by bool_prop).
  2: { match goal with E : (_ || _) = true |- _ => apply orb_true_iff in E as [?|?] end; bool_prop; by auto. }
  all: intros t1 r; unfold machine_step, phase_post; rewrite phases_written_cons by done.
  all: destruct (phases_written t1) as [|s' rest]; [done|]; intros [Htr Hrest]; bool_prop.
  all: eexists; split; [in_trace|]; split; [done|]; split; [done|]; split; [|done].
  all: eapply transition_mono; [|done]; intros; by apply list_elem_of_further.
Qed.
End machine_laws.

(** ** What each phase writes *)

Definition write_kind {X} (o : op X) : option kind :=
  match o with
  | OCreate k _ | OUpdate k _ | OStatusUpdate k _ | ODelete k _ _ | OCreateOrUpdate k _ _ => Some k
  | _ => None
  end.
Definition kinds_op (ks : list kind) (X : Type) (o : op X) : Prop :=
  match write_kind o with Some k => bool_decide (k ∈ ks) = true | None => True end.

(** The kinds of objects that a phase creates, updates or deletes. *)
Definition phase_kinds (phase : string) : list kind :=
  if (phase == "") || (phase == PhasePending) then [KSecret; KServer]
  else if phase == PhaseProvisioningBackend then [KCluster; KSecret; KServer]
  else if phase == PhaseInitializingSchema then [KJob; KServer]
  else if phase == PhaseDeployingServer then
    [KConfigMap; KDeployment; KService; KPDB; KPodMonitor; KNetworkPolicy; KServer]
  else if phase == PhaseExposingDNS then [KTCPRoute; KUDPRoute; KHTTPRoute; KServer]
  else if phase == PhaseReady then
    [KConfigMap; KDeployment; KService; KTCPRoute; KUDPRoute; KHTTPRoute; KPDB; KServer]
  else [].

(** What a pass may write for the server it read: the kinds of its phase, for
    a live server that has its finalizer; otherwise one update of the server
    itself, which changes its finalizers. *)
Definition writes_allowed `{Machinery} (s : PowerDNSServer) (ws : list (verb * kind * NamespacedName)) : Prop :=
  if deletion_IsZero (srv_Meta s) && ContainsFinalizer (srv_Meta s) finalizer
  then Forall (fun w => w.1.2 ∈ phase_kinds (pst_Phase (srv_Status s))) ws
  else map fst ws = [(VUpdate, KServer)].

Lemma kinds_writes ks t :
  Forall (fun e => kinds_op ks (ev_type e) (ev_op e)) t ->
  Forall (fun w => w.1.2 ∈ ks) (kube_writes t).
Proof.
  induction t as [|[X o x] t IH]; [constructor|]. intros [Ho Ht]%Forall_cons. specialize (IH Ht).
  destruct o; try exact IH; (constructor; [by apply bool_decide_eq_true_1 in Ho|exact IH]).
Qed.

Section kinds.
Context `{MachineryLaws, Reconciler}.
Variable ks : list kind.

Lemma updateService_kinds d : bool_decide (KService ∈ ks) = true -> all_ops (kinds_op ks) (updateService d).
Proof.
  intros Hk. apply all_ops_retry. unfold updateService_attempt, Get, Create, Update, only_err.
  all_ops_run; done.
Qed.
Lemma ensureOwned_kinds s k o : bool_decide (k ∈ ks) = true -> all_ops (kinds_op ks) (ensureOwned s k o).
Proof. intros Hk. unfold ensureOwned, Get, Create. all_ops_run; done. Qed.
Lemma ensureUnstructured_kinds s k o :
  bool_decide (k ∈ ks) = true -> all_ops (kinds_op ks) (ensureUnstructured s k o).
Proof. intros Hk. unfold ensureUnstructured, Get, Create. all_ops_run; done. Qed.
Lemma updateServiceOwned_kinds s d :
  bool_decide (KService ∈ ks) = true -> all_ops (kinds_op ks) (updateServiceOwned s d).
Proof. intros Hk. unfold updateServiceOwned. all_ops_run. by apply updateService_kinds. Qed.
Lemma updateConfigMapOwned_kinds s d :
  bool_decide (KConfigMap ∈ ks) = true -> all_ops (kinds_op ks) (updateConfigMapOwned s d).
Proof.
  intros Hk. unfold updateConfigMapOwned, updateConfigMap, Get, only_err, Update.
  all_ops_run; try done; [|by apply ensureOwned_kinds]. apply all_ops_retry. all_ops_run; done.
Qed.
Lemma deleteIfExists_kinds k key : bool_decide (k ∈ ks) = true -> all_ops (kinds_op ks) (deleteIfExists k key).
Proof. intros Hk. unfold deleteIfExists, Get, Delete. all_ops_run; done. Qed.
Lemma event_kinds k (o : obj_of k) ty reason msg : all_ops (kinds_op ks) (event k o ty reason msg).
Proof. unfold event. destruct HasRecorder; done. Qed.
Lemma hash_kinds s cm : all_ops (kinds_op ks) (computeConfigHash s cm).
Proof. unfold computeConfigHash, secret_data, Get. all_ops_run; done. Qed.
Lemma additional_kinds s :
  bool_decide (KService ∈ ks) = true -> all_ops (kinds_op ks) (reconcileAdditionalDNSServices s).
Proof.
  intros Hk. unfold reconcileAdditionalDNSServices, Delete.
  all_ops_run; try done; by apply updateServiceOwned_kinds.
Qed.
Lemma pdb_kinds s : bool_decide (KPDB ∈ ks) = true -> all_ops (kinds_op ks) (ensure_pdb s).
Proof. intros Hk. unfold ensure_pdb, Delete. all_ops_run; try done; by apply ensureOwned_kinds. Qed.
Lemma routes_kinds s :
  bool_decide (KTCPRoute ∈ ks) = true -> bool_decide (KUDPRoute ∈ ks) = true ->
  bool_decide (KHTTPRoute ∈ ks) = true -> all_ops (kinds_op ks) (reconcileRoutes s).
Proof.
  intros Ht Hu Hh. unfold reconcileRoutes, ensure_tcproute, ensure_udproute, ensure_httproute.
  all_ops_run; try done; first [apply event_kinds|by apply deleteIfExists_kinds].
Qed.
Lemma writeBackendSecret_kinds s h p u pw d :
  bool_decide (KSecret ∈ ks) = true -> all_ops (kinds_op ks) (writeBackendSecret s h p u pw d).
Proof. intros Hk. unfold writeBackendSecret, Get, Create, only_err, Update. all_ops_run; done. Qed.
End kinds.

Ltac solve_kinds :=
  first [done | apply event_kinds | by apply updateServiceOwned_kinds | by apply updateConfigMapOwned_kinds
        | by apply ensureOwned_kinds | by apply ensureUnstructured_kinds | by apply additional_kinds
        | by apply routes_kinds | by apply pdb_kinds | by apply hash_kinds
        | by apply writeBackendSecret_kinds ].

Section kinds_phases.
Context `{MachineryLaws, Reconciler}.

Lemma phase_writes (p : prog Outcome) ks :
  all_ops (kinds_op ks) p -> wp p (fun t _ => Forall (fun w => w.1.2 ∈ ks) (kube_writes t)).
Proof. intros Hp. eapply wp_mono; [|by apply all_ops_wp]. intros t a HF. by apply kinds_writes. Qed.

Lemma Reconcile_writes key :
  wp (Reconcile key) (fun t _ =>
    kube_writes t = [] \/ exists s, Ev (OGet KServer key) (Ok s) ∈ t /\ writes_allowed s (kube_writes t)).
Proof.
  unfold Reconcile, Get. cbn [bind do_op]. intros r. destruct r as [s|e]; [|by left].
  eapply (wp_mono _ (fun t _ => writes_allowed s (kube_writes t))).
  { intros t a HF. right. exists s. split; [apply list_elem_of_here|done]. }
  unfold writes_allowed. destruct (deletion_IsZero (srv_Meta s)); cbn [negb andb].
  2: { unfold reconcileDelete, Update. by wp_run. }
  destruct (ContainsFinalizer (srv_Meta s) finalizer); cbn [negb].
  2: { unfold Update. by wp_run. }
  apply phase_writes. unfold phase_kinds. repeat split_match.
  - unfold phasePending, ensureAPIKey, randomHex, setFailed, setPhase, StatusUpdate, Get, Create.
    all_ops_run; solve_kinds.
  - unfold phaseProvisioningBackend, materialiseBYOBackendSecret, materialiseCNPGBackendSecret, cnpgClusterReady,
      written, setPhase, StatusUpdate, Get. all_ops_run; solve_kinds.
  - unfold phaseInitializingSchema, setPhase, StatusUpdate, Get, Create. all_ops_run; solve_kinds.
  - unfold phaseDeployingServer, ensureWorkload, reconcileObservability, reconcileNetworkPolicy, setPhase,
      StatusUpdate, Get, Delete, only_err, Update. all_ops_run; solve_kinds.
  - unfold phaseExposingDNS, setPhase, setFailed, StatusUpdate, Get. all_ops_run; solve_kinds.
  - unfold phaseReady, reconcileDrift, updateDeployment, refreshDNSEndpoint, refreshReplicaStatus, StatusUpdate, Get,
      only_err, Update. all_ops_run; solve_kinds.
  - done.
Qed.
End kinds_phases.

(** The phase that writes a kind. *)
Lemma writes_allowed_phase `{Machinery} s ws w :
  writes_allowed s ws -> w ∈ ws ->
  (w.1.2 = KJob -> pst_Phase (srv_Status s) = PhaseInitializingSchema)
  /\ (w.1.2 = KCluster -> pst_Phase (srv_Status s) = PhaseProvisioningBackend)
  /\ (w.1.2 = KDeployment \/ w.1.2 = KService ->
       pst_Phase (srv_Status s) = PhaseDeployingServer \/ pst_Phase (srv_Status s) = PhaseReady).
Proof.
  unfold writes_allowed. destruct (_ && _); intros Hw Hin.
  - apply (proj1 (Forall_forall _ _) Hw) in Hin. cbn beta in Hin. destruct w as [[v k] key]. cbn in *.
    unfold phase_kinds in Hin. repeat case_match; bool_prop.
    all: rewrite ?elem_of_cons, elem_of_nil in Hin; split_and!; intros Hk; destruct_or?; simplify_eq; auto.
  - assert (E : w.1 ∈ map fst ws) by by apply list_elem_of_fmap_2. rewrite Hw in E.
    apply list_elem_of_singleton in E as ->. cbn. split_and!; intros Hk; destruct_or?; done.
Qed.

(** C6. The phase machine: whatever Kubernetes answers, the first status
    that a pass over a server writes is a transition of the machine from the
    phase it read (no phase is skipped), justified by what the pass read (a
    valid specification; a ready CloudNativePG instance or the credentials of
    the BYO database before the schema; a succeeded schema Job before the
    workload; an available pod before the exposure), and outside the Ready
    loop a pass writes at most one status. *)
Theorem server_phase_machine `{MachineryLaws, Reconciler} (key : NamespacedName) :
  wp (Reconcile key) (fun t _ => machine_step key t).
Proof. apply Reconcile_machine. Qed.

Lemma server_phase_machine_witness :
  wp (@Reconcile RefMachinery {| HasRecorder := true |} (NN "dns" "ns1")) (fun t _ => machine_step (NN "dns" "ns1") t).
Proof. apply server_phase_machine. Defined.


(** The sample server, Failed, with and without its finalizer. *)
Definition failed_server (fin : bool) : PowerDNSServer :=
  set_srv_Meta (if fin then ref_AddFinalizer (srv_Meta sample_server) finalizer else srv_Meta sample_server)
    (upd_status (set_pst_Phase PhaseFailed) sample_server).
Definition holds_server (s : PowerDNSServer) : handler unit := fun X o w =>
  let absent := EText "not there" in
  (match o in op X return X with
   | OGet k _ => match k return res (obj_of k) with KServer => Ok s | _ => Err absent end
   | OUpdate _ z | OStatusUpdate _ z => Ok z
   | OCreateOrUpdate _ _ _ | OListIndex _ _ _ | OListLabels _ _ _ | ORandRead _ => Err absent
   | OCreate _ _ | ODelete _ _ _ => None
   | ORecord _ => tt
   | OHttp _ => HTransport absent
   end, w).
Definition pass_writes (s : PowerDNSServer) : list (verb * kind * NamespacedName) :=
  kube_writes (run_trace (holds_server s) (@Reconcile RefMachinery {| HasRecorder := true |} (NN "dns" "ns1")) tt).


(** The Secret that the Deployment reads the API key from is the generated
    one, whatever spec.api.apiKeySecretRef says, while the status, the
    configuration hash and the API client follow the reference. *)
Lemma api_key_reference_ignored (s : PowerDNSServer) (hash : string) :
  exists c e, c ∈ pod_Containers (pt_Spec (dep_Template (Deployment_ s hash))) /\ e ∈ ct_Env c
    /\ env_Name e = "PDNS_AUTH_API_KEY"
    /\ env_SecretKeyRef e = Some (om_Name (srv_Meta s) +:+ "-api-key", "api-key").
Proof.
  eexists _, _. split; [left|]. cbn [ct_Env]. unfold server_env.
  split; [apply elem_of_app; right; left|done].
Qed.
