(* ===== verification/ClusterEnv.v ===== *)
(** * ClusterEnv: one PowerDNSServer and its objects in a cluster

    The environment of the liveness proofs. It keeps the stored server as the
    API server does (status updates and updates of the rest are separate, a
    failed write may have been applied) and which objects exist: an object is
    there when it was created, and gone when it was deleted. Nobody else makes
    Clusters, Jobs, Deployments or Services, and what a phase waits for is
    provided only once these exist with all that their pods read, by the
    controllers of Kubernetes and CloudNativePG between two passes. Everything else is answered freely,
    errors included, unless the cluster cooperates. Then the parts of a pass
    that write no server, and what they leave. *)

From S2P Require Import Prelude GoStd Meta ApiTypes KubeObjects Samples Effects RefMachinery Environment Manifests Workloads Converge ServerController.

Open Scope go_scope.
Open Scope stdpp_scope.
Open Scope Z_scope.

(** The owner of a freshly rendered object in its own namespace can be set. *)
Class OwnershipLaws `{!Machinery} : Prop := {
  SetControllerReference_new k owner m :
    om_OwnerReferences m = [] -> om_Namespace m = om_Namespace owner ->
    exists m', SetControllerReference k owner m = Ok m';
}.

#[export] Instance RefMachinery_ownership : OwnershipLaws.
Proof. split. intros k o m Hr _. simpl. unfold ref_SetControllerReference. rewrite Hr. by eexists. Qed.

(** ** The environment *)

Definition is_ok {A} (r : res A) : Prop := exists a, r = Ok a.

(** The stored server, the objects that exist, and those of them that existed
    when the pass began. *)
Record cluster := Cl {
  cl_server : PowerDNSServer;
  cl_objects : list (kind * NamespacedName);
  cl_old : list (kind * NamespacedName);
}.

(** The answer to a write that makes the stored server the given one. *)
Definition stores (cur new : PowerDNSServer) (x : res PowerDNSServer) (cur' : PowerDNSServer) : Prop :=
  match x with
  | Ok y => y = new /\ cur' = new
  | Err _ => cur' = cur \/ cur' = new
  end.

(** What an operation does to the stored server. *)
Definition server_answer (cur : PowerDNSServer) {X} (o : op X) : X -> PowerDNSServer -> Prop :=
  match o in op X return X -> PowerDNSServer -> Prop with
  | OGet k _ =>
      match k return res (obj_of k) -> PowerDNSServer -> Prop with
      | KServer => fun x cur' => cur' = cur /\ forall s, x = Ok s -> s = cur
      | _ => fun _ cur' => cur' = cur
      end
  | OUpdate k z =>
      match k return obj_of k -> res (obj_of k) -> PowerDNSServer -> Prop with
      | KServer => fun z => stores cur (set_srv_Status (srv_Status cur) z)
      | _ => fun _ _ cur' => cur' = cur
      end z
  | OStatusUpdate k z =>
      match k return obj_of k -> res (obj_of k) -> PowerDNSServer -> Prop with
      | KServer => fun z => stores cur (set_srv_Status (srv_Status z) cur)
      | _ => fun _ _ cur' => cur' = cur
      end z
  | _ => fun _ cur' => cur' = cur
  end.

(** The kinds of which the operator makes every object that it works with. *)
Definition operated (k : kind) : bool :=
  match k with KCluster | KJob | KDeployment | KService => true | _ => false end.

(** The objects of a server that its phases are about. *)
Definition cnpg_cluster (s : PowerDNSServer) := (KCluster, NN (om_Namespace (srv_Meta s)) (n_CNPGCluster (NameSet s))).
Definition schema_job (s : PowerDNSServer) := (KJob, NN (om_Namespace (srv_Meta s)) (n_SchemaJob (NameSet s))).
Definition deployment (s : PowerDNSServer) := (KDeployment, NN (om_Namespace (srv_Meta s)) (n_Deployment (NameSet s))).
Definition dns_service (s : PowerDNSServer) := (KService, NN (om_Namespace (srv_Meta s)) (n_DNSService (NameSet s))).
Definition config_map (s : PowerDNSServer) := (KConfigMap, NN (om_Namespace (srv_Meta s)) (n_ConfigMap (NameSet s))).
Definition backend_secret (s : PowerDNSServer) := (KSecret, NN (om_Namespace (srv_Meta s)) (n_BackendSecret (NameSet s))).
Definition api_secret (s : PowerDNSServer) := (KSecret, NN (om_Namespace (srv_Meta s)) (n_APIKeySecret (NameSet s))).

(** The database that the operator makes, unless the user brings one. *)
Definition database (s : PowerDNSServer) : list (kind * NamespacedName) :=
  match isBYO s with Some _ => [] | None => [cnpg_cluster s] end.

(** What a server that answers queries consists of. *)
Definition workload (s : PowerDNSServer) : list (kind * NamespacedName) :=
  deployment s :: dns_service s :: config_map s :: backend_secret s :: api_secret s :: database s.

(** What an operation does to the objects. A read succeeds only for an object
    that exists, where only the operator makes it; a failed write may have been
    applied; a list by labels holds only objects with those labels, and the
    DNS Service carries the labels it was rendered with. *)
Definition object_answer (s : PowerDNSServer) (objs : list (kind * NamespacedName)) {X} (o : op X) :
    X -> list (kind * NamespacedName) -> Prop :=
  match o in op X return X -> list (kind * NamespacedName) -> Prop with
  | OGet k key => fun x objs' =>
      match x with
      | Ok _ => (operated k = true -> (k, key) ∈ objs) /\ objs' = (k, key) :: objs
      | Err _ => objs' = objs
      end
  | OCreate k z => fun x objs' => objs' = (k, obj_key k z) :: objs \/ (x <> None /\ objs' = objs)
  | ODelete k key _ => fun x objs' => objs' = filter (fun y => y <> (k, key)) objs \/ (x <> None /\ objs' = objs)
  | OCreateOrUpdate k key _ => fun x objs' => objs' = (k, key) :: objs \/ (~ is_ok x /\ objs' = objs)
  | OListLabels k _ lb => fun x objs' => objs' = objs /\ forall l o, x = Ok l -> o ∈ l ->
      lb ⊆ om_Labels (get_meta k o)
      /\ ((k, obj_key k o) = dns_service s -> om_Labels (get_meta k o) = om_Labels (svc_Meta (DNSService s)))
  | _ => fun _ objs' => objs' = objs
  end.

Section awaiting.
Context `{Machinery}.

(** What the phase of a server waits for others to provide. *)
Definition awaited (s : PowerDNSServer) (k : kind) (key : NamespacedName) : bool :=
  let phase := pst_Phase (srv_Status s) in
  let names := NameSet s in
  let at_ (p n : string) := bool_decide (phase = p) && bool_decide (key = NN (om_Namespace (srv_Meta s)) n) in
  match k with
  | KSecret => at_ PhaseProvisioningBackend
                 (match isBYO s with
                  | Some byo => byo_CredentialsSecretRef byo
                  | None => AppSecretName (n_CNPGCluster names)
                  end)
  | KCluster => at_ PhaseProvisioningBackend (n_CNPGCluster names)
  | KJob => at_ PhaseInitializingSchema (n_SchemaJob names)
  | KDeployment => at_ PhaseDeployingServer (n_Deployment names)
  | KService => at_ PhaseExposingDNS (n_DNSService names)
  | _ => false
  end.

(** When it is provided: credentials, a ready Postgres instance, a succeeded
    schema Job, an available pod, an assigned address. *)
Definition provided (s : PowerDNSServer) (k : kind) : obj_of k -> Prop :=
  match k return obj_of k -> Prop with
  | KSecret => fun sec => pickKey sec ["username"; "user"] <> "" /\ pickKey sec ["password"] <> ""
  | KCluster => fun u => exists n,
      NestedInt64 (JObj [("status", u_Status u)]) ["status"; "readyInstances"] = Ok (Some n) /\ 1 <= n
  | KJob => fun job => 0 < job_Succeeded job
  | KDeployment => fun d => 1 <= dep_AvailableReplicas d
  | KService => fun svc => exposure_or_none (ps_DNS (srv_Spec s)) = DNSExposureLoadBalancer ->
      ingress_addr (svc_Ingress svc) <> ""
  | _ => fun _ => True
  end.

(** The kinds whose CRD may be missing without harm. *)
Definition optional_kind (k : kind) : bool :=
  match k with KPodMonitor | KTCPRoute | KUDPRoute | KHTTPRoute => true | _ => false end.

(** The objects that the operator must have made for that: a Cluster; a Job,
    and what its pod reads; a Deployment, and what its pods read; a Service. *)
Definition needs (s : PowerDNSServer) : list (kind * NamespacedName) :=
  let phase := pst_Phase (srv_Status s) in
  if phase == PhaseProvisioningBackend then database s
  else if phase == PhaseInitializingSchema then schema_job s :: backend_secret s :: database s
  else if phase == PhaseDeployingServer then deployment s :: config_map s :: backend_secret s :: api_secret s :: database s
  else if phase == PhaseExposingDNS then [dns_service s]
  else [].
(** They were there before the pass, so that others could do their part. *)
Definition prepared (s : PowerDNSServer) (old : list (kind * NamespacedName)) : Prop :=
  Forall (fun y => y ∈ old) (needs s).

(** The answers of a cooperative cluster: writes succeed, an object that
    exists is not reported absent, and what the phase waits for is provided
    once the operator has prepared it, but no sooner. *)
Definition cooperative (s : PowerDNSServer) (objs old : list (kind * NamespacedName)) {X} (o : op X) : X -> Prop :=
  match o in op X return X -> Prop with
  | OGet k key => fun x =>
      match x with
      | Ok obj => awaited s k key = true -> prepared s old -> provided s k obj
      | Err e => ((k, key) ∉ objs) /\ k <> KServer
          /\ (operated k = false -> awaited s k key = true -> ~ prepared s old)
          /\ (IsNotFound e = true \/ (optional_kind k = true /\ IsNoMatchError e = true))
      end
  | OCreate k z => fun x => x = None
  | OUpdate _ _ | OStatusUpdate _ _ => is_ok
  | ODelete k key _ => fun x => forall e, x = Some e -> IsNotFound e = true
  | OCreateOrUpdate k key _ => is_ok
  | OListIndex _ _ _ | OListLabels _ _ _ | ORandRead _ => is_ok
  | ORecord _ | OHttp _ => fun _ => True
  end.

(** The environment of a pass; the flag says whether it is cooperative. *)
Definition cluster_env (coop : bool) : environment cluster := fun X o st x st' =>
  server_answer (cl_server st) o x (cl_server st')
  /\ object_answer (cl_server st) (cl_objects st) o x (cl_objects st')
  /\ cl_old st' = cl_old st
  /\ (coop = true -> cooperative (cl_server st) (cl_objects st) (cl_old st) o x).
End awaiting.

(** ** Parts of a pass that do not write the server *)

Section quiet.
Context `{MachineryLaws, Reconciler}.

(** No write to a PowerDNSServer. *)
Definition foreign_op (X : Type) (o : op X) : Prop :=
  match o with
  | OUpdate k _ | OStatusUpdate k _ => k <> KServer
  | _ => True
  end.

Lemma foreign_keeps coop X (o : op X) st x st' :
  foreign_op X o -> cluster_env coop X o st x st' -> cl_server st' = cl_server st.
Proof. intros Hf [Ha _]. destruct o; try exact Ha; destruct k; simpl in *; try done; by destruct Ha. Qed.

Lemma foreign_wpe {A} (p : prog A) coop st :
  all_ops foreign_op p -> wpe (cluster_env coop) p st (fun st' _ => cl_server st' = cl_server st).
Proof.
  intros Hp. eapply (wpe_all_ops _ _ (fun st' => cl_server st' = cl_server st)); [|done|done].
  intros X o st1 x st2 Ho <- HR. by eapply foreign_keeps.
Qed.

(** p succeeds in a cooperative cluster and does not write the server. *)
Definition succeeds (s : PowerDNSServer) (p : prog (option err)) : Prop :=
  forall st, cl_server st = s ->
    wpe (cluster_env true) p st (fun st' e => cl_server st' = s /\ e = None).
Definition yields {A} (s : PowerDNSServer) (p : prog (res A)) (P : A -> Prop) : Prop :=
  forall st, cl_server st = s ->
    wpe (cluster_env true) p st (fun st' r => cl_server st' = s /\ exists a, r = Ok a /\ P a).

Lemma succeeds_done s : succeeds s done_ok.
Proof. by intros st Hst. Qed.

Lemma succeeds_check s p q : succeeds s p -> succeeds s q -> succeeds s (try_err p q).
Proof. intros Hp Hq st Hst. eapply wpe_bind_post; [by apply Hp|]. intros st1 e [Hs ->]. by apply Hq. Qed.

Lemma succeeds_try {A} s (p : prog (res A)) P f :
  yields s p P -> (forall a, P a -> succeeds s (f a)) -> succeeds s (try_res p f).
Proof.
  intros Hp Hq st Hst. eapply wpe_bind_post; [by apply Hp|]. intros st1 e (Hs & a & -> & Ha). by apply Hq.
Qed.

Lemma yields_check {A} s p (q : prog (res A)) P : succeeds s p -> yields s q P -> yields s (try_err p q) P.
Proof. intros Hp Hq st Hst. eapply wpe_bind_post; [by apply Hp|]. intros st1 e [Hs ->]. by apply Hq. Qed.

Lemma yields_try {A B} s (p : prog (res A)) P (f : A -> prog (res B)) Q :
  yields s p P -> (forall a, P a -> yields s (f a) Q) -> yields s (try_res p f) Q.
Proof.
  intros Hp Hq st Hst. eapply wpe_bind_post; [by apply Hp|]. intros st1 e (Hs & a & -> & Ha). by apply Hq.
Qed.

Lemma yields_ret {A} s (a : A) (P : A -> Prop) : P a -> yields s (Ret (Ok a)) P.
Proof. intros Ha st Hst. simpl. eauto. Qed.

Lemma succeeds_wrapping s pre p : succeeds s p -> succeeds s (wrapping pre p).
Proof. intros Hp st Hst. eapply wpe_bind_post; [by apply Hp|]. by intros st1 e [Hs ->]. Qed.

Lemma yields_wrapping {A} s pre (p : prog (res A)) P : yields s p P -> yields s (wrapping_res pre p) P.
Proof.
  intros Hp st Hst. eapply wpe_bind_post; [by apply Hp|]. intros st1 e (Hs & a & -> & Ha). simpl. eauto.
Qed.

Lemma succeeds_for_each {A} s (l : list A) body :
  (forall x, x ∈ l -> succeeds s (body x)) -> succeeds s (for_each l body).
Proof.
  intros Hb st Hst. apply (wpe_for_each _ (fun st => cl_server st = s)); [|done].
  intros x st1 Hx Hst1. by apply Hb.
Qed.

(** A retried function that succeeds at once. *)
Lemma retry_wpe (Q : cluster -> Prop) fn st :
  wpe (cluster_env true) fn st (fun st' e => Q st' /\ e = None) ->
  wpe (cluster_env true) (RetryOnConflict fn) st (fun st' e => Q st' /\ e = None).
Proof.
  intros Hf. destruct (RetryOnConflict_unrolls fn) as [n ->].
  destruct n as [|n]; [done|]. simpl. eapply wpe_bind_post; [done|]. by intros st1 e [Hs ->].
Qed.

Lemma succeeds_retry s fn : succeeds s fn -> succeeds s (RetryOnConflict fn).
Proof. intros Hf st Hst. apply (retry_wpe (fun st' => cl_server st' = s)). by apply Hf. Qed.
End quiet.

(** Turn the answers of a cooperative cluster into facts. *)
Ltac coop_facts :=
  repeat match goal with
  | H : cluster_env true ?X ?o ?st ?x ?st' |- _ =>
      let Hk := fresh "Hk" in let Hc := fresh "Hc" in let Ho := fresh "Ho" in
      assert (Hk : cl_server st' = cl_server st) by (refine (foreign_keeps _ X o st x st' _ H); done);
      destruct H as (_ & Ho & _ & Hc); specialize (Hc eq_refl); cbn in Hk, Ho, Hc
  | H : _ /\ _ |- _ => destruct H
  | H : is_ok _ |- _ => destruct H as [? ?]; simplify_eq
  end.
Ltac coop_run := wpe_run; coop_facts; simplify_eq/=.
Ltac coop_done := bool_prop; destruct_or?; destruct_and?; first [congruence | done | solve [eauto]].

Lemma ignored_absent (x : option err) :
  (forall e, x = Some e -> IsNotFound e = true) -> IgnoreNotFound x = None.
Proof. destruct x as [e|]; [|done]. intros Hx. simpl. by rewrite (Hx e). Qed.

Section parts.
Context `{MachineryLaws, !OwnershipLaws, Reconciler}.
(** The stored server, and the copy of it that the pass works on. *)
Variables s0 s : PowerDNSServer.

(** A freshly rendered object of the server. *)
Definition fresh (k : kind) (o : obj_of k) : Prop :=
  om_OwnerReferences (get_meta k o) = [] /\ om_Namespace (get_meta k o) = om_Namespace (srv_Meta s).

Lemma fresh_new k o name lb : get_meta k o = new_meta name (om_Namespace (srv_Meta s)) lb -> fresh k o.
Proof. unfold fresh. by intros ->. Qed.

Lemma own_fresh k o : fresh k o -> exists m, own s k o = Ok (set_meta k m o) /\ meta_key m = obj_key k o.
Proof.
  intros [Hr Hn]. unfold own. destruct (SetControllerReference_new KServer (srv_Meta s) (get_meta k o) Hr Hn) as [m Hm].
  rewrite Hm. exists m. split; [done|]. by destruct (SetControllerReference_frame _ _ _ _ Hm) as [l ->].
Qed.

(** ensureOwned and ensureUnstructured, which are the same code. *)
Lemma ensure_post k o st :
  fresh k o -> cl_server st = s0 ->
  wpe (cluster_env true) (ensureOwned s k o) st (fun st' e => cl_server st' = s0
    /\ (e = None \/ optional_kind k = true /\ exists e', e = Some e' /\ IsNoMatchError e' = true)).
Proof.
  intros Hf Hst. unfold ensureOwned, Get, Create. destruct (own_fresh k o Hf) as (m & -> & Hm).
  coop_run; (split; [congruence|]); first [by left|right; destruct_or?; by eauto|idtac].
  destruct_or?; [congruence|]. right. naive_solver.
Qed.

Lemma ensureOwned_ok k o : fresh k o -> optional_kind k = false -> succeeds s0 (ensureOwned s k o).
Proof.
  intros Hf Hk st Hst. eapply wpe_mono; [|by apply ensure_post]. intros st' e [? [->|[Hopt _]]]; [done|congruence].
Qed.

Lemma updateService_ok d : succeeds s0 (updateService d).
Proof.
  apply succeeds_retry. intros st Hst. unfold updateService_attempt, Get, Create, Update, only_err.
  coop_run; split; coop_done.
Qed.

Lemma updateServiceOwned_ok d : fresh KService d -> succeeds s0 (updateServiceOwned s d).
Proof. intros Hf. unfold updateServiceOwned. destruct (own_fresh KService d Hf) as (m & -> & _). apply updateService_ok. Qed.

Lemma updateConfigMapOwned_ok cm : fresh KConfigMap cm -> succeeds s0 (updateConfigMapOwned s cm).
Proof.
  intros Hf st Hst. unfold updateConfigMapOwned, updateConfigMap, Get.
  wpe_run; [| |by eapply ensureOwned_ok; [..|coop_facts; congruence]|coop_facts; coop_done].
  - coop_facts. split; congruence.
  - apply (retry_wpe (fun st' => cl_server st' = s0)). unfold only_err, Update. coop_run; split; try congruence; try done.
    match goal with H : cl_objects st1 = _, H' : _ ∉ cl_objects st1 |- _ => rewrite H in H'; destruct H'; left end.
Qed.

Lemma secret_data_ok key : yields s0 (secret_data key) (fun _ => True).
Proof.
  intros st Hst. unfold secret_data, Get. wpe_run. destruct x as [sec|e]; coop_facts; (split; [congruence|]); [by eauto|].
  destruct_or?; destruct_and?; [|done]. match goal with E : IsNotFound e = true |- _ => rewrite E end. by eauto.
Qed.

Lemma computeConfigHash_ok cm : yields s0 (computeConfigHash s cm) (fun _ => True).
Proof.
  unfold computeConfigHash. eapply yields_try; [apply secret_data_ok|]. intros a _.
  eapply yields_try; [apply secret_data_ok|]. intros b _. by apply yields_ret.
Qed.

Lemma additional_fresh svc : svc ∈ AdditionalDNSServices s -> fresh KService (tag_additional svc).
Proof.
  unfold AdditionalDNSServices. destruct (dns_LoadBalancer _); [|set_solver].
  destruct (_ != _); [set_solver|]. intros (e & -> & _)%list_elem_of_fmap. unfold fresh. simpl.
  by destruct (bool_decide (als_Annotations e = ∅)).
Qed.

Lemma delete_ignored_ok k key : succeeds s0 (let! e := Delete k key in Ret (IgnoreNotFound e)).
Proof.
  intros st Hst. unfold Delete. coop_run. split; [congruence|]. by apply ignored_absent.
Qed.

Lemma additional_ok : succeeds s0 (reconcileAdditionalDNSServices s).
Proof.
  unfold reconcileAdditionalDNSServices. apply succeeds_check.
  - apply succeeds_for_each. intros svc (svc' & -> & Hin)%list_elem_of_fmap.
    by apply updateServiceOwned_ok, additional_fresh.
  - eapply (succeeds_try _ _ (fun _ => True)).
    + intros st Hst. coop_run. split; [congruence|]. by eauto.
    + intros existing _. apply succeeds_for_each. intros svc _.
      destruct (bool_decide _); [apply succeeds_done|apply delete_ignored_ok].
Qed.

Lemma ignored_ok {A} (p : prog A) : all_ops foreign_op p -> succeeds s0 (let! _ := p in done_ok).
Proof.
  intros Hp st Hst. eapply wpe_bind_post; [by apply foreign_wpe|]. intros st1 e ?. split; [|done]. cbn beta in *. congruence.
Qed.

Lemma ensure_pdb_ok : succeeds s0 (ensure_pdb s).
Proof.
  unfold ensure_pdb. destruct (PodDisruptionBudget_ s) as [pdb|] eqn:E; [|by apply ignored_ok].
  apply ensureOwned_ok; [|done]. unfold PodDisruptionBudget_, pdbFor in E. destruct (_ <=? 1); simplify_eq/=.
  by eapply fresh_new.
Qed.

Lemma event_foreign k (o : obj_of k) ty reason msg : all_ops foreign_op (event k o ty reason msg).
Proof. unfold event. by destruct HasRecorder. Qed.

Lemma observability_ok : succeeds s0 (reconcileObservability s).
Proof.
  unfold reconcileObservability. destruct (negb _); [by apply ignored_ok|].
  intros st Hst. eapply wpe_bind_post; [apply ensure_post; [by eapply fresh_new|done]|].
  intros st1 e (Hs & [->|(_ & e' & -> & Hm)]); [done|]. rewrite Hm. apply ignored_ok; [apply event_foreign|done].
Qed.

Lemma networkPolicy_ok : succeeds s0 (reconcileNetworkPolicy s).
Proof.
  unfold reconcileNetworkPolicy. destruct (negb _); [by apply ignored_ok|].
  apply succeeds_check; [apply ensureOwned_ok; [by eapply fresh_new|done]|].
  intros st Hst. unfold Get, only_err, Update. coop_run; split; congruence.
Qed.

Lemma deleteIfExists_ok k key : k <> KServer -> succeeds s0 (deleteIfExists k key).
Proof.
  intros Hk st Hst. unfold deleteIfExists, Get, Delete. wpe_run; coop_facts; (split; [congruence|]).
  - by apply ignored_absent.
  - destruct_or?; destruct_and?; unfold IgnoreNotFound; repeat case_match; congruence.
Qed.

Lemma createOrUpdate_ok k key f : yields s0 (do_op (OCreateOrUpdate k key f)) (fun _ => True).
Proof. intros st Hst. coop_run. split; [congruence|]. by eauto. Qed.

Lemma routes_ok : succeeds s0 (reconcileRoutes s).
Proof.
  unfold reconcileRoutes. apply succeeds_check.
  - destruct (bool_decide _).
    + apply succeeds_check; intros st Hst; (eapply wpe_bind_post; [by apply createOrUpdate_ok|]);
        by intros st1 r (Hs & a & -> & _).
    + apply succeeds_check; apply succeeds_wrapping, deleteIfExists_ok; done.
  - destruct (HTTPRoute_ s); [|by apply succeeds_wrapping, deleteIfExists_ok].
    intros st Hst. eapply wpe_bind_post; [by apply createOrUpdate_ok|]. intros st1 r (Hs & a & -> & _).
    destruct a; [done| |done]. apply ignored_ok; [apply event_foreign|done].
Qed.

Lemma writeBackendSecret_ok h p u pw d : succeeds s0 (writeBackendSecret s h p u pw d).
Proof.
  intros st Hst. unfold writeBackendSecret. cbv zeta.
  match goal with |- context [own s KSecret ?o] => destruct (own_fresh KSecret o) as (m & -> & _); [by eapply fresh_new|] end.
  unfold Get, Create, only_err, Update. coop_run; split; coop_done.
Qed.

Lemma ensureAPIKey_ok : yields s0 (ensureAPIKey s) (fun s' => exists n, s' = set_APIKeySecretName n s).
Proof.
  unfold ensureAPIKey. cbv zeta.
  assert (Hgen : forall p : prog (res PowerDNSServer), yields s0 p (fun s' => exists n, s' = set_APIKeySecretName n s) ->
    yields s0 (match api_APIKeySecretRef (ps_API (srv_Spec s)) with
      | Some ref => if ref != "" then Ret (Ok (set_APIKeySecretName ref s)) else p
      | None => p end) (fun s' => exists n, s' = set_APIKeySecretName n s)).
  { intros p Hp. destruct (api_APIKeySecretRef _) as [ref|]; [|done]. destruct (_ != _); [|done].
    apply yields_ret. by eexists. }
  apply Hgen. clear Hgen. intros st Hst. unfold randomHex, Get, Create.
  coop_run; (split; [congruence|]); try (eexists; split; [done|]; by eexists).
  - coop_done.
  - match goal with E : own s KSecret ?o = Err _ |- _ =>
      destruct (own_fresh KSecret o) as (m & Em & _); [by eapply fresh_new|]; congruence end.
Qed.
End parts.

Section workload.
Context `{MachineryLaws, !OwnershipLaws, Reconciler}.

(** ensureWorkload and reconcileDrift return the server with a new hash. *)
Definition rehashed (s s' : PowerDNSServer) : Prop := exists h, s' = set_ConfigHash h s.

Lemma DNSService_fresh s : fresh s KService (DNSService s).
Proof.
  unfold DNSService, applyLBPrimary, fresh. destruct (bool_decide _); [|done].
  destruct (dns_LoadBalancer _) as [lb|]; [|done]. simpl. by destruct (bool_decide (lb_Annotations lb = ∅)).
Qed.

Lemma ensureWorkload_ok s0 s : yields s0 (ensureWorkload s) (rehashed s).
Proof.
  unfold ensureWorkload. apply yields_check; [by apply succeeds_wrapping, updateConfigMapOwned_ok|].
  eapply yields_try; [apply yields_wrapping, computeConfigHash_ok|]. intros h _.
  repeat (apply yields_check; [apply succeeds_wrapping|]).
  all: auto using additional_ok, ensure_pdb_ok, observability_ok, networkPolicy_ok, ensureOwned_ok, DNSService_fresh.
  - by apply ensureOwned_ok.
  - by apply ensureOwned_ok.
  - apply yields_ret. by eexists.
Qed.
End workload.

(** ** What exists after a part *)

Section presence.
Context `{MachineryLaws, Reconciler}.
Variables (coop : bool) (s0 : PowerDNSServer) (old : list (kind * NamespacedName)).

(** The operation does not delete y. *)
Definition safe_op (y : kind * NamespacedName) (X : Type) (o : op X) : Prop :=
  match o with ODelete k key _ => (k, key) <> y | _ => True end.

Lemma safe_keeps y X (o : op X) st x st' :
  safe_op y X o -> cluster_env coop X o st x st' -> y ∈ cl_objects st -> y ∈ cl_objects st'.
Proof.
  intros Hs (_ & Ho & _) Hy. destruct o; simpl in Ho; try (by rewrite Ho).
  - destruct x; [destruct Ho as [_ ->]; by right|by rewrite Ho].
  - destruct Ho as [->|[_ ->]]; [by right|done].
  - destruct Ho as [->|[_ ->]]; [|done]. apply list_elem_of_filter. split; [|done]. intros ->. by apply Hs.
  - destruct Ho as [->|[_ ->]]; [by right|done].
  - by destruct Ho as [-> _].
Qed.

(** The server is s0, the objects of before are old, and those of Y exist. *)
Definition holding (Y : list (kind * NamespacedName)) (st : cluster) : Prop :=
  cl_server st = s0 /\ cl_old st = old /\ Forall (fun y => y ∈ cl_objects st) Y.

(** An operation on nothing that matters. *)
Definition harmless (Y : list (kind * NamespacedName)) (X : Type) (o : op X) : Prop :=
  foreign_op X o /\ Forall (fun y => safe_op y X o) Y.

Lemma harmless_op Y X (o : op X) st x st' : harmless Y X o -> cluster_env coop X o st x st' -> holding Y st -> holding Y st'.
Proof.
  intros [Hf Hs] HR (Hst & Ho & HY). split; [by rewrite (foreign_keeps _ _ _ _ _ _ Hf HR)|]. split.
  - destruct HR as (_ & _ & -> & _). done.
  - rewrite Forall_forall in *. intros y Hy. eapply safe_keeps; [|exact HR|]; auto.
Qed.

Lemma harmless_wpe {A} Y (p : prog A) st :
  all_ops (harmless Y) p -> holding Y st -> wpe (cluster_env coop) p st (fun st' _ => holding Y st').
Proof.
  intros Hp Hst. eapply (wpe_all_ops _ (harmless Y) (holding Y)); [|done|done].
  intros X o st1 x st2 Ho Hh HR. by eapply harmless_op.
Qed.

Lemma harmless_none {A} (p : prog A) : all_ops foreign_op p -> all_ops (harmless []) p.
Proof. apply all_ops_mono. by split. Qed.

Lemma harmless_check Y (p : prog (option err)) {R} `{Fails R} (q : prog R) st Q :
  all_ops (harmless Y) p -> holding Y st -> (forall st1, holding Y st1 -> wpe (cluster_env coop) q st1 Q) ->
  (forall st1 e, holding Y st1 -> Q st1 (failing e)) ->
  wpe (cluster_env coop) (try_err p q) st Q.
Proof.
  intros Hp Hst Hq He. eapply wpe_bind_post; [by apply (harmless_wpe Y)|]. intros st1 [e|] G1; [by apply He|by apply Hq].
Qed.

Lemma own_key s k o o' : own s k o = Ok o' -> obj_key k o' = obj_key k o.
Proof.
  unfold own. destruct (SetControllerReference _ _ _) as [m|] eqn:E; [|done]. intros [= <-].
  destruct (SetControllerReference_frame _ _ _ _ E) as [l ->]. unfold obj_key. by rewrite get_set_meta.
Qed.

(** ensureOwned that reports success leaves its object. *)
Lemma ensureOwned_made Y s k o st :
  holding Y st ->
  wpe (cluster_env coop) (ensureOwned s k o) st (fun st' e => holding Y st'
    /\ (e = None -> (k, obj_key k o) ∈ cl_objects st')).
Proof.
  intros Hst. unfold ensureOwned, Get, Create. destruct (own s k o) as [o'|] eqn:Eo; [|by split].
  cbn [bind do_op]. rewrite (own_key _ _ _ _ Eo). apply wpe_vis. intros x st1 HR.
  assert (G1 : holding Y st1) by (eapply harmless_op; [|exact HR|done]; split; [done|by apply Forall_true]).
  destruct x as [z|e]; [split; [done|]; intros _; destruct HR as (_ & [_ ->] & _); left|].
  destruct (IsNotFound e); [|by split]. apply wpe_vis. intros x st2 HR2. cbn.
  split; [eapply harmless_op; [|exact HR2|done]; split; [done|by apply Forall_true]|]. intros ->.
  destruct HR2 as (_ & [->|[? _]] & _); [|done]. rewrite (own_key _ _ _ _ Eo). left.
Qed.
End presence.

Section making.
Context `{MachineryLaws, Reconciler}.
Variables (coop : bool) (s0 s : PowerDNSServer) (old : list (kind * NamespacedName)).
Hypothesis Hmeta : srv_Meta s = srv_Meta s0.

Lemma workload_same s1 s2 : srv_Meta s1 = srv_Meta s2 -> srv_Spec s1 = srv_Spec s2 -> workload s1 = workload s2.
Proof.
  intros Em Es. unfold workload, database, isBYO, deployment, dns_service, config_map, backend_secret, api_secret,
    cnpg_cluster, NameSet. by rewrite Em, Es.
Qed.

(** The kinds of the workload. *)
Definition lasting (k : kind) : bool :=
  match k with KDeployment | KService | KConfigMap | KSecret | KCluster => true | _ => false end.
Lemma workload_lasting y : y ∈ workload s0 -> lasting y.1 = true.
Proof.
  unfold workload, database. destruct (isBYO s0); rewrite !elem_of_cons, elem_of_nil; intros Hy; by destruct_or! Hy; subst.
Qed.

(** No write to a server, and no deletion of an object of these kinds. *)
Definition gentle (X : Type) (o : op X) : Prop :=
  foreign_op X o /\ match o with ODelete k _ _ => lasting k = false | _ => True end.
Lemma gentle_harmless X (o : op X) : gentle X o -> harmless (workload s0) X o.
Proof.
  intros [Hf Hd]. split; [done|]. apply Forall_forall. intros y Hy%workload_lasting.
  destruct o; try done. intros <-. simpl in *. congruence.
Qed.

Lemma updateServiceOwned_harmless Y d : all_ops (harmless Y) (updateServiceOwned s d).
Proof.
  unfold updateServiceOwned. destruct (own s KService d); [|done]. apply all_ops_retry.
  unfold updateService_attempt, Get, Create, Update, only_err. all_ops_run; (split; [done|by apply Forall_true]).
Qed.

Lemma DNSService_labels s1 : om_Labels (svc_Meta (DNSService s1)) = labels s1.
Proof.
  unfold DNSService, applyLBPrimary. destruct (bool_decide _); [|done].
  destruct (dns_LoadBalancer _) as [lb|]; [|done]. simpl. by destruct (bool_decide (lb_Annotations lb = ∅)).
Qed.

(** The collection of additional Services spares the DNS Service. *)
Lemma additional_spares (l : list Service) :
  (forall svc : Service, svc ∈ l -> additional_selector s ⊆ om_Labels (svc_Meta svc)
     /\ ((KService, obj_key KService svc) = dns_service s0 -> om_Labels (svc_Meta svc) = om_Labels (svc_Meta (DNSService s0)))) ->
  forall svc : Service, svc ∈ l -> (KService, obj_key KService svc) <> dns_service s0.
Proof.
  intros Hl svc Hin E. destruct (Hl svc Hin) as [Hsel Hlb]. rewrite (Hlb E) in Hsel.
  pose proof (lookup_weaken (additional_selector s) _ roleLabel _ eq_refl Hsel) as Er.
  rewrite DNSService_labels in Er. vm_compute in Er. discriminate Er.
Qed.

Lemma additional_holding st :
  holding s0 old (workload s0) st ->
  wpe (cluster_env coop) (reconcileAdditionalDNSServices s) st (fun st' _ => holding s0 old (workload s0) st').
Proof.
  intros Hst. unfold reconcileAdditionalDNSServices. cbv zeta.
  eapply (harmless_check _ _ _ (workload s0)); [|done| |by intros].
  { apply all_ops_for_each. intros svc _. apply updateServiceOwned_harmless. }
  intros st1 G1. unfold try_res. cbn [bind do_op]. apply wpe_vis. intros x st2 HR.
  assert (G2 : holding s0 old (workload s0) st2).
  { eapply harmless_op; [|exact HR|done]. apply gentle_harmless. by split. }
  destruct HR as (_ & [_ Hlist] & _). destruct x as [l|e]; [|done].
  assert (Hspare : forall svc, svc ∈ l -> (KService, obj_key KService svc) <> dns_service s0).
  { apply additional_spares. intros svc Hin. rewrite (proj1 G1) in Hlist. by apply (Hlist l svc). }
  apply harmless_wpe; [|done]. apply all_ops_for_each. intros svc Hin. unfold Delete. all_ops_run.
  split; [done|]. apply Forall_forall. intros y Hy. simpl. intros <-.
  assert (E : (KService, obj_key KService svc) = dns_service s0); [|by eapply Hspare].
  unfold workload, database in Hy. destruct (isBYO s0); rewrite !elem_of_cons, elem_of_nil in Hy; by destruct_or! Hy.
Qed.

Ltac harmless_op_tac := apply gentle_harmless; split; [first [done|simpl; congruence]|done].
Lemma event_harmless Y k (o : obj_of k) ty reason msg : all_ops (harmless Y) (event k o ty reason msg).
Proof. unfold event. destruct HasRecorder; [|done]. split; [|done]. split; [done|by apply Forall_true]. Qed.

Lemma ensureOwned_harmless Y k o : all_ops (harmless Y) (ensureOwned s k o).
Proof. unfold ensureOwned, Get, Create. all_ops_run; (split; [done|by apply Forall_true]). Qed.

Lemma updateConfigMapOwned_harmless Y cm : all_ops (harmless Y) (updateConfigMapOwned s cm).
Proof.
  unfold updateConfigMapOwned, updateConfigMap, Get, only_err, Update.
  all_ops_run; [split; [done|by apply Forall_true]| |apply ensureOwned_harmless]. apply all_ops_retry.
  all_ops_run; (split; [done|by apply Forall_true]).
Qed.

Lemma hash_harmless Y cm : all_ops (harmless Y) (computeConfigHash s cm).
Proof. unfold computeConfigHash, secret_data, Get. all_ops_run; (split; [done|by apply Forall_true]). Qed.

Lemma deleteIfExists_harmless k key :
  lasting k = false -> all_ops (harmless (workload s0)) (deleteIfExists k key).
Proof. intros Hk. unfold deleteIfExists, Get, Delete. all_ops_run; apply gentle_harmless; by split. Qed.

Lemma pdb_harmless : all_ops (harmless (workload s0)) (ensure_pdb s).
Proof. unfold ensure_pdb, Delete. all_ops_run; [apply ensureOwned_harmless|]. harmless_op_tac. Qed.

Lemma observability_harmless : all_ops (harmless (workload s0)) (reconcileObservability s).
Proof.
  unfold reconcileObservability, Delete. all_ops_run; try apply event_harmless; try apply (ensureOwned_harmless _ KPodMonitor).
  harmless_op_tac.
Qed.

Lemma networkPolicy_harmless : all_ops (harmless (workload s0)) (reconcileNetworkPolicy s).
Proof.
  unfold reconcileNetworkPolicy, Get, Delete, only_err, Update. all_ops_run; try apply ensureOwned_harmless; harmless_op_tac.
Qed.

Lemma routes_harmless : all_ops (harmless (workload s0)) (reconcileRoutes s).
Proof.
  unfold reconcileRoutes, ensure_tcproute, ensure_udproute, ensure_httproute.
  all_ops_run; try apply event_harmless; try (by apply deleteIfExists_harmless); harmless_op_tac.
Qed.

Lemma DNSService_key : (KService, obj_key KService (DNSService s)) = dns_service s.
Proof.
  unfold DNSService, applyLBPrimary, obj_key, meta_key. cbn [get_meta]. destruct (bool_decide _); [|done].
  destruct (dns_LoadBalancer _) as [lb|]; [|done]. simpl. by destruct (bool_decide (lb_Annotations lb = ∅)).
Qed.
End making.

Ltac harmless_op_tac := apply gentle_harmless; split; [first [done|simpl; congruence]|done].

(** More of what exists, and less of it. *)
Lemma holding_more s0 old Y y st : holding s0 old Y st -> y ∈ cl_objects st -> holding s0 old (y :: Y) st.
Proof. intros (? & ? & ?) Hy. split_and!; [done..|]. by constructor. Qed.
Lemma holding_less s0 old Y Y' st : Y' ⊆ Y -> holding s0 old Y st -> holding s0 old Y' st.
Proof. intros Hs (? & ? & HY). split_and!; [done..|]. rewrite Forall_forall in *. auto. Qed.

Section secrets_made.
Context `{MachineryLaws, Reconciler}.
Variables (coop : bool) (s0 : PowerDNSServer) (old : list (kind * NamespacedName)).

Ltac harmless_step := eapply harmless_op; [|eassumption|eassumption]; (split; [done|by apply Forall_true]).

(** What a successful read or creation of an object leaves. *)
Lemma get_made Y k key x st st' :
  cluster_env coop _ (OGet k key) st x st' -> holding s0 old Y st ->
  holding s0 old Y st' /\ (is_ok x -> (k, key) ∈ cl_objects st').
Proof.
  intros HR Hst. split; [harmless_step|]. intros [o ->]. destruct HR as (_ & [_ ->] & _). left.
Qed.
Lemma create_made Y k o x st st' :
  cluster_env coop _ (OCreate k o) st x st' -> holding s0 old Y st ->
  holding s0 old Y st' /\ (x = None -> (k, obj_key k o) ∈ cl_objects st').
Proof.
  intros HR Hst. split; [harmless_step|]. intros ->. destruct HR as (_ & [->|[? _]] & _); [left|done].
Qed.

Lemma updateConfigMapOwned_made Y s cm st :
  holding s0 old Y st ->
  wpe (cluster_env coop) (updateConfigMapOwned s cm) st (fun st' e => holding s0 old Y st'
    /\ (e = None -> (KConfigMap, obj_key KConfigMap cm) ∈ cl_objects st')).
Proof.
  intros Hst. unfold updateConfigMapOwned, updateConfigMap, Get. cbn [bind do_op]. apply wpe_vis. intros x st1 HR.
  apply (get_made Y) in HR as [Hst1 Hin]; [|done]. destruct x as [z|e].
  - specialize (Hin ltac:(by eexists)). pose proof (holding_more _ _ _ _ _ Hst1 Hin) as Hmore.
    eapply wpe_mono; [|apply (harmless_wpe coop s0 old ((KConfigMap, obj_key KConfigMap cm) :: Y)); [|done]].
    + intros st' a Hh. split; [by eapply holding_less; [|exact Hh]; set_solver|]. intros _.
      destruct Hh as (_ & _ & Hh). by apply Forall_cons in Hh as [? _].
    + case_bool_decide; [done|]. apply all_ops_retry. unfold Get, only_err, Update.
      all_ops_run; (split; [done|by apply Forall_true]).
  - destruct (IsNotFound e); [by apply ensureOwned_made|by split].
Qed.

Lemma writeBackendSecret_made Y h p u pw d st :
  holding s0 old Y st ->
  wpe (cluster_env coop) (writeBackendSecret s0 h p u pw d) st (fun st' e => holding s0 old Y st'
    /\ (e = None -> backend_secret s0 ∈ cl_objects st')).
Proof.
  intros Hst. unfold writeBackendSecret. cbv zeta. destruct (own s0 KSecret _) as [o|] eqn:Eo; [|by split].
  assert (Ek : (KSecret, obj_key KSecret o) = backend_secret s0) by (by rewrite (own_key _ _ _ _ Eo)).
  unfold Get. cbn [bind do_op]. apply wpe_vis. intros x st1 HR.
  apply (get_made Y) in HR as [Hst1 Hin]; [|done]. rewrite Ek in Hin. destruct x as [z|e].
  - specialize (Hin ltac:(by eexists)). destruct (data_eq _ _); [by split|].
    unfold only_err, Update. cbn [bind do_op]. apply wpe_vis. intros y st2 HR. cbn.
    assert (Hm : holding s0 old (backend_secret s0 :: Y) st2).
    { eapply harmless_op; [|exact HR|by apply holding_more]. split; [done|by apply Forall_true]. }
    split; [by eapply holding_less; [|exact Hm]; set_solver|]. intros _. destruct Hm as (_ & _ & Hm).
    by apply Forall_cons in Hm as [? _].
  - destruct (IsNotFound e); [|by split]. unfold Create. cbn [bind do_op]. apply wpe_vis. intros y st2 HR.
    apply (create_made Y) in HR as [Hst2 Hin2]; [|done]. by rewrite Ek in Hin2.
Qed.

(** The API key is generated. *)
Definition generates_key (s : PowerDNSServer) : Prop := default "" (api_APIKeySecretRef (ps_API (srv_Spec s))) = "".

Lemma ensureAPIKey_made Y st :
  generates_key s0 -> holding s0 old Y st ->
  wpe (cluster_env coop) (ensureAPIKey s0) st (fun st' r => holding s0 old Y st'
    /\ (is_ok r -> api_secret s0 ∈ cl_objects st')).
Proof.
  intros Hgen Hst. unfold ensureAPIKey. cbv zeta. unfold generates_key in Hgen.
  match goal with |- wpe _ (match _ with Some ref => if ref != "" then _ else ?p | None => ?p end) _ _ =>
    cut (wpe (cluster_env coop) p st (fun st' r => holding s0 old Y st' /\ (is_ok r -> api_secret s0 ∈ cl_objects st'))) end.
  { destruct (api_APIKeySecretRef _) as [ref|]; [|done]. simpl in Hgen. by rewrite Hgen, bool_decide_eq_true_2. }
  assert (Hfail : forall st1 e, holding s0 old Y st1 ->
    holding s0 old Y st1 /\ (is_ok (Err (A := PowerDNSServer) e) -> api_secret s0 ∈ cl_objects st1)).
  { intros st1 e G1. split; [done|]. by intros [? ?]. }
  unfold Get. cbn [bind do_op]. apply wpe_vis. intros x st1 HR. apply (get_made Y) in HR as [Hst1 Hin]; [|done].
  destruct x as [z|e]; [split; [done|]; intros _; apply Hin; by eexists|].
  destruct (negb (IsNotFound e)); [by apply Hfail|]. unfold randomHex. cbn [bind do_op try_res]. apply wpe_vis. intros b st2 HR.
  assert (Hst2 : holding s0 old Y st2) by harmless_step.
  destruct b as [b|eb]; [|by apply Hfail]. cbn [bind].
  destruct (own s0 KSecret _) as [o|] eqn:Eo; [|by apply Hfail]. unfold try_err, Create. cbn [bind do_op]. apply wpe_vis.
  intros y st3 HR3. apply (create_made Y) in HR3 as [Hst3 Hin3]; [|done]. rewrite (own_key _ _ _ _ Eo) in Hin3.
  destruct y as [ey|]; [by apply Hfail|]. split; [done|]. intros _. by apply Hin3.
Qed.
End secrets_made.

Section workload_made.
Context `{MachineryLaws, Reconciler}.
Variables (coop : bool) (s0 s : PowerDNSServer) (old : list (kind * NamespacedName)).

(** What the phases before the deployment have made. *)
Definition base (s : PowerDNSServer) : list (kind * NamespacedName) := backend_secret s :: api_secret s :: database s.

(** ensureWorkload that reports success leaves the workload, whatever the
    cluster answered. *)
Lemma ensureWorkload_made st :
  holding s0 old (base s0) st ->
  wpe (cluster_env coop) (ensureWorkload s0) st (fun st' r => holding s0 old (base s0) st'
    /\ (is_ok r -> holding s0 old (workload s0) st')).
Proof.
  intros Hst. unfold ensureWorkload. cbv zeta.
  assert (Hfail : forall Y st1 (e : err), base s0 ⊆ Y -> holding s0 old Y st1 ->
    holding s0 old (base s0) st1 /\ (is_ok (Err (A := PowerDNSServer) e) -> holding s0 old (workload s0) st1)).
  { intros Y st1 e HY G1. split; [by eapply holding_less|]. by intros [? ?]. }
  assert (Hw : base s0 ⊆ workload s0) by (unfold base, workload; set_solver).
  unfold try_err at 1. apply wpe_bind_bind.
  eapply wpe_bind_post; [by apply (updateConfigMapOwned_made coop s0 old (base s0))|].
  intros st1 [e|] [G1 Hc]; cbn [bind]; [by eapply Hfail; [|exact G1]|].
  pose proof (holding_more _ _ _ _ _ G1 (Hc eq_refl)) as G1'. clear G1 Hc. set (Y1 := _ :: base s0) in G1'.
  unfold try_res, wrapping_res. apply wpe_bind_bind.
  eapply wpe_bind_post; [apply (harmless_wpe coop s0 old Y1); [apply hash_harmless|done]|].
  intros st2 [hash|e] G2; cbn [bind]; [|by eapply Hfail; [|exact G2]; set_solver].
  apply wpe_bind_bind. eapply wpe_bind_post; [by apply (ensureOwned_made _ s0 old Y1)|].
  intros st3 [e|] [G3 Hd]; cbn [bind]; [by eapply Hfail; [|exact G3]; set_solver|].
  pose proof (holding_more _ _ _ _ _ G3 (Hd eq_refl)) as G3'. clear G3 Hd. set (Y2 := _ :: Y1) in G3'.
  eapply (harmless_check _ _ _ Y2); [apply all_ops_wrapping, ensureOwned_harmless|done| |].
  2: { intros st4 e G4. by eapply Hfail; [|exact G4]; set_solver. }
  intros st4 G4. apply wpe_bind_bind. eapply wpe_bind_post; [by apply (ensureOwned_made _ s0 old Y2)|].
  intros st5 [e|] [G5 Hs]; cbn [bind]; [by eapply Hfail; [|exact G5]; set_solver|].
  assert (G5' : holding s0 old (workload s0) st5).
  { pose proof (holding_more _ _ _ _ _ G5 (Hs eq_refl)) as G5'. rewrite DNSService_key in G5'.
    eapply holding_less; [|exact G5']. unfold workload, Y2, Y1, base. clear. set_solver. }
  apply wpe_bind_bind. eapply wpe_bind_post; [by apply additional_holding|].
  intros st6 [e|] G6; cbn [bind]; [by eapply Hfail; [|exact G6]|].
  eapply (harmless_check _ _ _ (workload s0)); [apply all_ops_wrapping, pdb_harmless|done| |intros ? ?; by apply Hfail].
  intros st7 G7. eapply (harmless_check _ _ _ (workload s0)); [apply all_ops_wrapping, observability_harmless|done| |intros ? ?; by apply Hfail].
  intros st8 G8. eapply (harmless_check _ _ _ (workload s0)); [apply all_ops_wrapping, networkPolicy_harmless|done| |intros ? ?; by apply Hfail].
  intros st9 G9. by split; [eapply holding_less|].
Qed.

(** The pass over a Ready server keeps the workload. *)
Lemma reconcileDrift_holding st :
  holding s0 old (workload s0) st ->
  wpe (cluster_env coop) (reconcileDrift s) st (fun st' _ => holding s0 old (workload s0) st').
Proof.
  intros Hst. unfold reconcileDrift. cbv zeta.
  eapply (harmless_check _ _ _ (workload s0)); [apply updateConfigMapOwned_harmless|done| |done]. intros st1 G1.
  unfold try_res. eapply wpe_bind_post; [apply (harmless_wpe coop s0 old (workload s0)); [apply hash_harmless|done]|].
  intros st2 [hash|e] G2; [|done].
  eapply (harmless_check _ _ _ (workload s0)); [|done| |done].
  { unfold updateDeployment, Get, only_err, Update. all_ops_run; try apply ensureOwned_harmless; harmless_op_tac. }
  intros st3 G3. eapply (harmless_check _ _ _ (workload s0)); [apply updateServiceOwned_harmless|done| |done].
  intros st4 G4. eapply (harmless_check _ _ _ (workload s0)); [apply updateServiceOwned_harmless|done| |done].
  intros st5 G5. unfold try_err. eapply wpe_bind_post; [by apply additional_holding|]. intros st6 [e|] G6; [done|].
  eapply (harmless_check _ _ _ (workload s0)); [apply routes_harmless|done| |done].
  intros st7 G7. eapply (harmless_check _ _ _ (workload s0)); [apply pdb_harmless|done| |done]. by intros st8 G8.
Qed.
End workload_made.
