(* ===== verification/Provisioning.v ===== *)
(** * Provisioning: a server becomes Ready

    The reconciler of ServerController over a sequence of passes in the
    cluster of ClusterEnv. A pass that meets a cooperative cluster brings the
    server one phase further or makes the object that its phase waits for; the
    next cooperative pass, for which that object has been provided, then goes
    on. No pass brings the server back. *)

From S2P Require Import Prelude GoStd Meta ApiTypes KubeObjects Samples Effects RefMachinery Environment Manifests Workloads Converge ServerController ClusterEnv.

Open Scope go_scope.
Open Scope stdpp_scope.
Open Scope Z_scope.

(** ** One phase *)

(** The phases on the way to Ready, and the passes they are away from it. *)
Definition next_phase (p : string) : string :=
  if (p == "") || (p == PhasePending) then PhaseProvisioningBackend
  else if p == PhaseProvisioningBackend then PhaseInitializingSchema
  else if p == PhaseInitializingSchema then PhaseDeployingServer
  else if p == PhaseDeployingServer then PhaseExposingDNS
  else PhaseReady.
Definition distance (p : string) : nat :=
  if (p == "") || (p == PhasePending) then 5
  else if p == PhaseProvisioningBackend then 4
  else if p == PhaseInitializingSchema then 3
  else if p == PhaseDeployingServer then 2
  else if p == PhaseExposingDNS then 1
  else 0.
Definition provisioning_phases : list string :=
  [""; PhasePending; PhaseProvisioningBackend; PhaseInitializingSchema; PhaseDeployingServer; PhaseExposingDNS;
   PhaseReady].

(** What the operator has made of a server when it enters a phase. *)
Definition made (p : string) (s : PowerDNSServer) : list (kind * NamespacedName) :=
  if (p == "") || (p == PhasePending) then []
  else if p == PhaseProvisioningBackend then [api_secret s]
  else if (p == PhaseInitializingSchema) || (p == PhaseDeployingServer) then base s
  else workload s.

#[export] Instance prepared_dec s old : Decision (prepared s old).
Proof. unfold prepared. apply _. Defined.

(** A pass over s that began with the objects old: the stored server kept its
    specification, and its phase or moved to the next one. In a cooperative
    cluster it moved if what the phase needs was prepared, and otherwise it
    moved or prepared it. What was to be made before its phase exists. *)
Record stepped (coop : bool) (old : list (kind * NamespacedName)) (s : PowerDNSServer) (st' : cluster) : Prop := {
  stepped_meta : srv_Meta (cl_server st') = srv_Meta s;
  stepped_spec : srv_Spec (cl_server st') = srv_Spec s;
  stepped_phase : pst_Phase (srv_Status (cl_server st')) = pst_Phase (srv_Status s)
    \/ pst_Phase (srv_Status (cl_server st')) = next_phase (pst_Phase (srv_Status s));
  stepped_next : coop = true -> prepared s old ->
    pst_Phase (srv_Status (cl_server st')) = next_phase (pst_Phase (srv_Status s));
  stepped_made : coop = true ->
    pst_Phase (srv_Status (cl_server st')) = next_phase (pst_Phase (srv_Status s)) \/ prepared s (cl_objects st');
  stepped_all : Forall (fun y => y ∈ cl_objects st') (made (pst_Phase (srv_Status (cl_server st'))) s);
}.

Section phases.
Context `{MachineryLaws, !OwnershipLaws, Reconciler}.
Variables (coop : bool) (s0 : PowerDNSServer) (old : list (kind * NamespacedName)).
Abbreviation objects := (list (kind * NamespacedName)).
Abbreviation phase0 := (pst_Phase (srv_Status s0)).

(** From wherever the objects of Y exist, p is a step. *)
Definition advances (Y : objects) (p : prog Outcome) : Prop :=
  forall st, holding s0 old Y st -> wpe (cluster_env coop) p st (fun st' _ => stepped coop old s0 st').

(** The objects of Y include what was to be made before a phase. *)
Definition covers (p : string) (Y : objects) : Prop := made p s0 ⊆ Y.
(** A cooperative cluster has nothing prepared, but Y prepares it. *)
Definition waits (Y : objects) : Prop :=
  coop = true -> ~ prepared s0 old /\ forall objs, Forall (fun y => y ∈ objs) Y -> prepared s0 objs.

Lemma holding_made p Y st : covers p Y -> holding s0 old Y st -> Forall (fun y => y ∈ cl_objects st) (made p s0).
Proof. intros Hc Hst. by eapply holding_less in Hst as (_ & _ & ?). Qed.

Lemma stay Y st r : waits Y -> covers phase0 Y -> holding s0 old Y st ->
  wpe (cluster_env coop) (Ret (A := Outcome) r) st (fun st' _ => stepped coop old s0 st').
Proof.
  intros Hw Hc Hst. pose proof Hst as (Hs & _ & HY). apply wpe_ret. split; rewrite ?Hs; [done|done|by left| | |].
  - intros E Hp. by destruct (Hw E).
  - intros E. right. by apply (Hw E).
  - by eapply holding_made.
Qed.

Lemma stays Y r : waits Y -> covers phase0 Y -> advances Y (Ret r).
Proof. intros Hw Hc st. by apply stay. Qed.

Lemma waits_never Y : coop = false -> waits Y.
Proof. intros Hc E. congruence. Qed.

Lemma advances_check Y p q :
  all_ops (harmless Y) p -> succeeds s0 p -> covers phase0 Y -> advances Y q -> advances Y (try_err p q).
Proof.
  intros Hf Hp Hc Hq st Hst.
  apply (wpe_bind_post _ (fun st' e => holding s0 old Y st' /\ (coop = true -> e = None))).
  - apply wpe_conj; [by apply harmless_wpe|]. destruct coop; [|by apply (wpe_wp _ _ _ _), wp_always].
    eapply wpe_mono; [|by apply Hp, Hst]. naive_solver.
  - intros st1 [e|] [Hs He]; [|by apply Hq]. eapply stay; [|done..]. apply waits_never. destruct coop; naive_solver.
Qed.

(** A part whose result is used when it succeeds, with P whatever is answered,
    and that leaves the objects of Y' then. *)
Lemma advances_try {A} Y Y' (p : prog (res A)) (P Q : A -> Prop) f :
  (forall st, holding s0 old Y st -> wpe (cluster_env coop) p st (fun st' r => holding s0 old Y st'
     /\ (is_ok r -> holding s0 old Y' st'))) ->
  yields s0 p Q -> wp p (fun _ r => forall a, r = Ok a -> P a) -> covers phase0 Y ->
  (forall a, P a -> advances Y' (f a)) -> advances Y (try_res p f).
Proof.
  intros Hf Hp HP Hc Hq st Hst.
  apply (wpe_bind_post _ (fun st' r => ((holding s0 old Y st' /\ (is_ok r -> holding s0 old Y' st'))
    /\ (coop = true -> is_ok r)) /\ forall a, r = Ok a -> P a)).
  - apply wpe_conj; [|by apply wpe_wp]. apply wpe_conj; [by apply Hf|].
    destruct coop; [|by apply (wpe_wp _ _ _ _), wp_always].
    eapply wpe_mono; [|by apply Hp, Hst]. unfold is_ok. naive_solver.
  - intros st1 [a|e] [[[Hs Hs'] He] Ha]; [apply Hq; [by apply Ha|apply Hs'; by eexists]|]. eapply stay; [|done..].
    apply waits_never. destruct coop; [by destruct (He eq_refl)|done].
Qed.

Lemma advances_event Y k (o : obj_of k) ty reason msg q :
  advances Y q -> advances Y (let! _ := event k o ty reason msg in q).
Proof.
  intros Hq st Hst. eapply wpe_bind_post; [by apply (harmless_wpe coop s0 old Y); [apply event_harmless|]|].
  intros st1 e Hs. by apply Hq.
Qed.

Lemma setPhase_advances Y s p :
  p = next_phase phase0 -> covers phase0 Y -> covers p Y -> advances Y (setPhase s p).
Proof.
  intros -> Hc Hn st Hst. pose proof Hst as (Hs & Ho & HY). unfold setPhase, StatusUpdate. wpe_run.
  all: match goal with H : cluster_env _ _ _ _ _ _ |- _ => destruct H as (Ha & Hobj & _ & Hcoop) end; cbn in Ha, Hobj, Hcoop.
  all: assert (Hall : forall p, covers p Y -> Forall (fun y => y ∈ cl_objects st1) (made p s0))
    by (intros p Hp; rewrite Hobj; by eapply holding_made).
  - destruct Ha as [-> Ha]. split; rewrite Ha, ?Hs; [done|done|by right|done|by left|]. by apply Hall.
  - assert (coop <> true) by (intros E; by destruct (Hcoop E)).
    destruct Ha as [Ha|Ha]; (split; rewrite Ha, ?Hs; [done|done|by auto|done|done|]); by apply Hall.
Qed.

(** A part that makes y when it succeeds. *)
Lemma makes_more {A} (ok : A -> Prop) Y y (p : prog A) st :
  wpe (cluster_env coop) p st (fun st' r => holding s0 old Y st' /\ (ok r -> y ∈ cl_objects st')) ->
  wpe (cluster_env coop) p st (fun st' r => holding s0 old Y st' /\ (ok r -> holding s0 old (y :: Y) st')).
Proof. apply wpe_mono. intros st' r [Hh Hy]. split; [done|]. intros Hr. by apply holding_more; [|apply Hy]. Qed.

Lemma phasePending_advances :
  (phase0 = "" \/ phase0 = PhasePending) -> validateSpec s0 = "" -> generates_key s0 -> advances [] (phasePending s0).
Proof.
  intros Hp Hv Hg. unfold phasePending. rewrite Hv. cbn [negb]. rewrite bool_decide_eq_true_2 by done. cbn iota beta.
  assert (Hc : forall Y, covers phase0 Y) by (intros Y; destruct Hp as [-> | ->]; intros ? []%elem_of_nil).
  eapply (advances_try _ [api_secret s0] _ (fun _ => True)); [|apply yields_wrapping, ensureAPIKey_ok|by apply wp_always|done|].
  { intros st Hst. apply (makes_more is_ok). eapply wpe_bind_post; [by apply (ensureAPIKey_made coop s0 old [])|].
    intros st1 [a|e] [Hst1 Ha]; split; [done|..|done|by intros [? ?]]. intros _. apply Ha. by eexists. }
  intros s _. apply advances_event, setPhase_advances; [by destruct Hp as [-> | ->]|done|]. by intros y Hy.
Qed.

(** ** Waiting *)

(** p yields a result with P once what the phase needs is prepared. *)
Definition yields_prepared {A} (Y : objects) (p : prog (res A)) (P : A -> Prop) : Prop :=
  prepared s0 old -> forall st, holding s0 old Y st ->
    wpe (cluster_env true) p st (fun _ r => exists a, r = Ok a /\ P a).

Lemma advances_await Y Y' (p : prog (res bool)) r q :
  (forall st, holding s0 old Y st -> wpe (cluster_env coop) p st (fun st' r => holding s0 old Y st'
     /\ (r = Ok true -> holding s0 old Y' st'))) ->
  yields_prepared Y p (fun b => b = true) -> covers phase0 Y ->
  (forall objs, Forall (fun y => y ∈ objs) Y -> prepared s0 objs) -> advances Y' q ->
  advances Y (try! ready := p in if negb ready then Ret r else q).
Proof.
  intros Hf Hp Hc Hprep Hq st Hst.
  apply (wpe_bind_post _ (fun st' r => (holding s0 old Y st' /\ (r = Ok true -> holding s0 old Y' st'))
    /\ (coop = true -> prepared s0 old -> r = Ok true))).
  - apply wpe_conj; [by apply Hf|]. destruct coop; [|by apply (wpe_wp _ _ _ _), wp_always].
    destruct (decide (prepared s0 old)) as [Hd|Hd]; [|by apply (wpe_wp _ _ _ _), wp_always].
    eapply wpe_mono; [|by apply Hp]. naive_solver.
  - intros st1 [[]|e] [[Hs Hs'] Ha]; [by apply Hq, Hs'|..]; (eapply stay; [|done..]); intros E; (split; [|done]);
      intros Hd; by specialize (Ha E Hd).
Qed.

(** A read of what the phase waits for, in a cooperative cluster. *)
Lemma awaited_get Y {B} k key (f : res (obj_of k) -> prog B) st Q :
  prepared s0 old -> holding s0 old Y st -> awaited s0 k key = true -> (operated k = true -> (k, key) ∈ Y) ->
  (forall o st1, holding s0 old Y st1 -> provided s0 k o -> wpe (cluster_env true) (f (Ok o)) st1 Q) ->
  wpe (cluster_env true) (bind (Get k key) f) st Q.
Proof.
  intros Hprep Hst Ha HY Hf. unfold Get. cbn [bind do_op]. apply wpe_vis. intros x st1 HR.
  assert (Hst1 : holding s0 old Y st1) by (eapply harmless_op; [|exact HR|done]; split; [done|by apply Forall_true]).
  destruct HR as (_ & _ & _ & Hc). specialize (Hc eq_refl). destruct Hst as (Hs & Ho & Hin).
  rewrite Hs, Ho in Hc. simpl in Hc. destruct x as [o|e]; [by apply Hf; auto|].
  destruct Hc as (Hn & _ & Hop & _). destruct (operated k); [|by destruct Hop].
  destruct Hn. by apply (proj1 (Forall_forall _ _) Hin), HY.
Qed.

Lemma written_ok s p : succeeds s p -> yields s (written p) (fun b => b = true).
Proof.
  intros Hp st Hst. eapply wpe_bind_post; [by apply Hp|]. intros st1 e [Hs ->]. simpl. eauto.
Qed.

Lemma written_result Y p st : succeeds s0 p -> holding s0 old Y st ->
  wpe (cluster_env true) (written p) st (fun _ r => exists a, r = Ok a /\ a = true).
Proof. intros Hp (Hs & _). eapply wpe_mono; [|by apply (written_ok s0 p)]. naive_solver. Qed.

Lemma materialiseBYO_ok Y byo :
  phase0 = PhaseProvisioningBackend -> isBYO s0 = Some byo ->
  yields_prepared Y (materialiseBYOBackendSecret s0 byo) (fun b => b = true).
Proof.
  intros Hp Hb Hprep st Hst. unfold materialiseBYOBackendSecret. eapply awaited_get; [done..| |done|].
  { unfold awaited. by rewrite Hp, Hb, !bool_decide_eq_true_2. }
  intros sec st1 Hst1 [Hu Hpw]. cbv zeta. rewrite !bool_decide_eq_false_2 by done. cbn [orb].
  eapply written_result; [|done]. by apply writeBackendSecret_ok.
Qed.

Lemma materialiseCNPG_ok Y :
  phase0 = PhaseProvisioningBackend -> isBYO s0 = None ->
  yields_prepared Y (materialiseCNPGBackendSecret s0 (n_CNPGCluster (NameSet s0))) (fun b => b = true).
Proof.
  intros Hp Hb Hprep st Hst. unfold materialiseCNPGBackendSecret. cbv zeta. eapply awaited_get; [done..| |done|].
  { unfold awaited. by rewrite Hp, Hb, !bool_decide_eq_true_2. }
  intros sec st1 Hst1 [Hu Hpw]. rewrite !(bool_decide_eq_false_2 (pickKey _ _ = "")) by done. cbn [orb].
  eapply written_result; [|done]. by apply writeBackendSecret_ok.
Qed.

Lemma cnpgClusterReady_ok Y :
  phase0 = PhaseProvisioningBackend -> cnpg_cluster s0 ∈ Y ->
  yields_prepared Y (cnpgClusterReady s0 (n_CNPGCluster (NameSet s0))) (fun b => b = true).
Proof.
  intros Hp Hin Hprep st Hst. unfold cnpgClusterReady. eapply awaited_get; [done..| |by intros _|].
  { unfold awaited. by rewrite Hp, !bool_decide_eq_true_2. }
  intros u st1 Hst1 (n & -> & Hn). simpl. exists true. split; [|done]. f_equal. by apply Z.leb_le.
Qed.

(** ** The phases *)

(** The backend Secret, once it is written. *)
Lemma written_made Y h p u pw d st : holding s0 old Y st ->
  wpe (cluster_env coop) (written (writeBackendSecret s0 h p u pw d)) st (fun st' r => holding s0 old Y st'
    /\ (r = Ok true -> backend_secret s0 ∈ cl_objects st')).
Proof.
  intros Hst. eapply wpe_bind_post; [by apply writeBackendSecret_made|].
  intros st1 [e|] [Hs Hin]; (split; [done|]); [done|]. intros _. by apply Hin.
Qed.

Lemma read_then_made Y k key (f : res (obj_of k) -> prog (res bool)) st y :
  holding s0 old Y st ->
  (forall x st1, holding s0 old Y st1 ->
     wpe (cluster_env coop) (f x) st1 (fun st' r => holding s0 old Y st' /\ (r = Ok true -> y ∈ cl_objects st'))) ->
  wpe (cluster_env coop) (bind (Get k key) f) st (fun st' r => holding s0 old Y st'
    /\ (r = Ok true -> y ∈ cl_objects st')).
Proof.
  intros Hst Hf. unfold Get. cbn [bind do_op]. apply wpe_vis. intros x st1 HR.
  apply (get_made coop s0 old Y) in HR as [Hst1 _]; [|done]. by apply Hf.
Qed.

Lemma materialiseBYO_made Y byo st : holding s0 old Y st ->
  wpe (cluster_env coop) (materialiseBYOBackendSecret s0 byo) st (fun st' r => holding s0 old Y st'
    /\ (r = Ok true -> backend_secret s0 ∈ cl_objects st')).
Proof.
  intros Hst. unfold materialiseBYOBackendSecret. apply read_then_made; [done|]. intros [src|e] st1 Hst1.
  - cbv zeta. destruct (_ || _); [by split|by apply written_made].
  - destruct (IsNotFound e); by split.
Qed.

Lemma materialiseCNPG_made Y c st : holding s0 old Y st ->
  wpe (cluster_env coop) (materialiseCNPGBackendSecret s0 c) st (fun st' r => holding s0 old Y st'
    /\ (r = Ok true -> backend_secret s0 ∈ cl_objects st')).
Proof.
  intros Hst. unfold materialiseCNPGBackendSecret. cbv zeta. apply read_then_made; [done|]. intros [src|e] st1 Hst1.
  - destruct (_ || _); [by split|by apply written_made].
  - destruct (IsNotFound e); by split.
Qed.

(** After ensureOwned, in a cooperative cluster, the object is there. *)
Lemma advances_ensure Y pre k o q :
  fresh s0 k o -> optional_kind k = false -> covers phase0 Y -> advances ((k, obj_key k o) :: Y) q ->
  advances Y (try_err (wrapping pre (ensureOwned s0 k o)) q).
Proof.
  intros Hf Ho Hc Hq st Hst. apply wpe_bind_bind.
  apply (wpe_bind_post _ (fun st' e => (holding s0 old Y st' /\ (e = None -> (k, obj_key k o) ∈ cl_objects st'))
    /\ (coop = true -> e = None))).
  - apply wpe_conj; [by apply ensureOwned_made|]. destruct coop; [|by apply (wpe_wp _ _ _ _), wp_always].
    eapply wpe_mono; [|apply (ensureOwned_ok s0 s0 k o Hf Ho), Hst]. naive_solver.
  - intros st1 [e|] [[Hs Hin] He]; cbn [bind].
    + eapply stay; [|done..]. apply waits_never. destruct coop; [by specialize (He eq_refl)|done].
    + apply Hq. destruct Hs as (? & ? & ?). split_and!; [done..|]. constructor; [by apply Hin|done].
Qed.

Lemma phaseProvisioningBackend_advances :
  phase0 = PhaseProvisioningBackend -> advances [api_secret s0] (phaseProvisioningBackend s0).
Proof.
  intros Hp. unfold phaseProvisioningBackend. cbv zeta.
  assert (Hc : forall Y, covers phase0 (Y ++ [api_secret s0])).
  { intros Y. rewrite Hp. change (made PhaseProvisioningBackend s0) with [api_secret s0]. set_solver. }
  assert (Hn : covers PhaseInitializingSchema (base s0)) by by intros y.
  assert (Hneeds : needs s0 = database s0) by (unfold needs; by rewrite Hp).
  destruct (isBYO s0) as [byo|] eqn:Eb.
  - assert (Hb : base s0 = [backend_secret s0; api_secret s0]) by (unfold base, database; by rewrite Eb).
    rewrite Hb in Hn. apply (advances_await _ [backend_secret s0; api_secret s0]);
      [|by apply materialiseBYO_ok|apply (Hc [])| |apply setPhase_advances; [by rewrite Hp|apply (Hc [_])|done]].
    + intros st Hst. apply (makes_more (fun r => r = Ok true)). by apply materialiseBYO_made.
    + intros objs _. unfold prepared. rewrite Hneeds. unfold database. rewrite Eb. constructor.
  - assert (Hd : database s0 = [cnpg_cluster s0]) by (unfold database; by rewrite Eb).
    assert (Hmade : forall Y objs, cnpg_cluster s0 ∈ Y -> Forall (fun y => y ∈ objs) Y -> prepared s0 objs).
    { intros Y objs Hin HY. unfold prepared. rewrite Hneeds, Hd. constructor; [|constructor].
      by apply (proj1 (Forall_forall _ _) HY). }
    apply (advances_ensure [api_secret s0] _ KCluster); [by eapply fresh_new|done|apply (Hc [])|].
    change (KCluster, obj_key KCluster _) with (cnpg_cluster s0).
    apply (advances_await _ [backend_secret s0; cnpg_cluster s0; api_secret s0]);
      [|by apply materialiseCNPG_ok|apply (Hc [_])|intros objs; apply Hmade; left|].
    { intros st Hst. apply (makes_more (fun r => r = Ok true)). by apply materialiseCNPG_made. }
    apply (advances_await _ [backend_secret s0; cnpg_cluster s0; api_secret s0]);
      [|by apply cnpgClusterReady_ok; [|right; left]|apply (Hc [_; _])|intros objs; apply Hmade; right; left|].
    { intros st Hst. eapply wpe_mono; [|apply harmless_wpe; [|exact Hst]]; [by split|].
      unfold cnpgClusterReady, Get. all_ops_run; (split; [done|by apply Forall_true]). }
    apply advances_event, setPhase_advances; [by rewrite Hp|apply (Hc [_; _])|].
    intros y Hy. apply Hn in Hy. unfold base in Hy. rewrite Hd in Hy. clear -Hy. set_solver.
Qed.

(** The objects as the pass found them. *)
Definition untouched (st : cluster) : Prop := forall y, y.1 <> KServer -> y ∈ cl_objects st <-> y ∈ old.

Lemma untouched_old Y st : Y ⊆ workload s0 -> untouched st -> holding s0 old Y st -> Forall (fun y => y ∈ old) Y.
Proof.
  intros HY Hun (_ & _ & Hin). rewrite Forall_forall in *. intros y Hy. apply Hun; [|by apply Hin].
  intros E. pose proof (workload_lasting s0 y (HY y Hy)) as Hl. by rewrite E in Hl.
Qed.

Lemma base_workload s : base s ⊆ workload s.
Proof. unfold base, workload. set_solver. Qed.

Lemma gentle_base X (o : op X) : gentle X o -> harmless (base s0) X o.
Proof.
  intros [Hf Hd]%(gentle_harmless s0). split; [done|]. rewrite Forall_forall in *. intros y Hy. by apply Hd, base_workload.
Qed.

(** In a cluster that does not cooperate, a program that writes no server. *)
Lemma idle Y (p : prog Outcome) st : coop = false -> covers phase0 Y -> all_ops (harmless Y) p -> holding s0 old Y st ->
  wpe (cluster_env coop) p st (fun st' _ => stepped coop old s0 st').
Proof.
  intros Hc HY Hf Hst. eapply wpe_mono; [|by apply harmless_wpe]. cbn beta. intros st' _ Hst'.
  pose proof Hst' as (E & _). split; rewrite E; [done|done|by left|congruence|congruence|]. by eapply holding_made.
Qed.

(** A read of nothing that matters. *)
Lemma get_holding Y k key x st st' :
  cluster_env coop _ (OGet k key) st x st' -> holding s0 old Y st -> holding s0 old Y st'.
Proof. intros HR Hst. by apply (get_made coop s0 old Y) in HR as [? _]. Qed.

(** The Job was not there: it is created. *)
Lemma create_job_advances st :
  phase0 = PhaseInitializingSchema -> holding s0 old (base s0) st -> (coop = true -> schema_job s0 ∉ old) ->
  wpe (cluster_env coop)
    (match own s0 KJob (SchemaInitJob s0) with
     | Err e => Ret (no_requeue, Some e)
     | Ok newJob => check! wrapping "create schema job: " (Create KJob newJob) in Ret (requeue_after requeueShort, None)
     end) st (fun st' _ => stepped coop old s0 st').
Proof.
  intros Hp Hst Hn. assert (Hc : covers phase0 (base s0)) by (rewrite Hp; by intros y).
  assert (Hneeds : needs s0 = schema_job s0 :: backend_secret s0 :: database s0) by (unfold needs; by rewrite Hp).
  assert (Hnot : coop = true -> ~ prepared s0 old).
  { intros E. unfold prepared. rewrite Hneeds. intros [Hj _]%Forall_cons. by apply (Hn E). }
  destruct (decide (coop = true)) as [Ec|Ec].
  - destruct (own_fresh s0 KJob (SchemaInitJob s0)) as (m & -> & Hm); [by eapply fresh_new|].
    unfold try_err, wrapping, Create. cbn [bind do_op]. apply wpe_vis. intros x st1 HR.
    pose proof (proj2 (proj2 (proj2 HR)) Ec) as Hx. simpl in Hx. subst x.
    apply (create_made coop s0 old (base s0)) in HR as [Hst1 Hin]; [|done]. specialize (Hin eq_refl).
    cbn. assert (Hprep : prepared s0 (cl_objects st1)).
    { unfold prepared. rewrite Hneeds. constructor.
      - change (schema_job s0) with (KJob, obj_key KJob (SchemaInitJob s0)). by rewrite <- Hm.
      - destruct Hst1 as (_ & _ & HY). apply Forall_cons in HY as [? [_ ?]%Forall_cons]. by constructor. }
    pose proof Hst1 as (E & _). split; rewrite E; [done|done|by left| |by right|by eapply holding_made].
    intros _ Hd. by destruct (Hnot Ec).
  - destruct (own s0 KJob _); [|by eapply stay; [apply waits_never; destruct coop|..]].
    eapply idle; [by destruct coop|done| |done]. unfold Create. all_ops_run; (split; [done|by apply Forall_true]).
Qed.

Lemma phaseInitializingSchema_advances st :
  phase0 = PhaseInitializingSchema -> holding s0 old (base s0) st -> untouched st ->
  wpe (cluster_env coop) (phaseInitializingSchema s0) st (fun st' _ => stepped coop old s0 st').
Proof.
  intros Hp Hst Hun. unfold phaseInitializingSchema. cbv zeta. unfold Get. cbn [bind do_op]. apply wpe_vis.
  intros x st1 HR. pose proof (get_holding (base s0) _ _ _ _ _ HR Hst) as Hst1.
  assert (Hc : covers phase0 (base s0)) by (rewrite Hp; by intros y).
  pose proof (untouched_old _ _ (base_workload s0) Hun Hst) as Hbase.
  assert (Hjob : schema_job s0 ∈ cl_objects st <-> schema_job s0 ∈ old) by (by apply Hun).
  assert (Ha : awaited s0 KJob (schema_job s0).2 = true) by (unfold awaited; by rewrite Hp, !bool_decide_eq_true_2).
  destruct HR as (_ & Hobj & _ & Hcoop). destruct Hst as (Hs & Ho & _). rewrite Hs, Ho in Hcoop. simpl in Hobj, Hcoop.
  destruct x as [job|e].
  - destruct Hobj as [Hin _]. specialize (Hin eq_refl). apply Hjob in Hin.
    assert (Hprep : prepared s0 old).
    { unfold prepared, needs. rewrite Hp. cbn. constructor; [done|].
      apply Forall_cons in Hbase as [? [_ ?]%Forall_cons]. by constructor. }
    destruct (0 <? job_Succeeded job) eqn:E.
    + apply (advances_event (base s0)), Hst1. apply setPhase_advances; [by rewrite Hp|done|]. by intros y.
    + eapply idle; [|done| |apply Hst1].
      * destruct coop; [|done]. assert (Hx : 0 < job_Succeeded job) by (by apply (Hcoop eq_refl Ha)). bool_prop. lia.
      * all_ops_run; try apply event_harmless. by apply gentle_base.
  - destruct (IsNotFound e) eqn:Ee.
    + apply create_job_advances; [done..|]. intros Ec. rewrite <- Hjob. by apply Hcoop.
    + eapply stay; [|done..]. apply waits_never. destruct coop; [|done].
      destruct (Hcoop eq_refl) as (_ & _ & _ & [?|[? _]]); [congruence|done].
Qed.

Lemma phaseDeployingServer_advances :
  phase0 = PhaseDeployingServer -> advances (base s0) (phaseDeployingServer s0).
Proof.
  intros Hp st Hst. unfold phaseDeployingServer.
  assert (Hc : covers phase0 (base s0)) by (rewrite Hp; by intros y).
  assert (Hcw : covers phase0 (workload s0)) by (rewrite Hp; apply base_workload).
  assert (Hneeds : needs s0 = deployment s0 :: config_map s0 :: base s0) by (unfold needs; by rewrite Hp).
  eapply (advances_try _ (workload s0) _ (rehashed s0)); [|apply ensureWorkload_ok|apply ensureWorkload_result|exact Hc| |exact Hst].
  { intros st1. by apply ensureWorkload_made. }
  clear st Hst. intros s' [h ->] st Hst. unfold Get. cbn [bind do_op]. apply wpe_vis. intros x st2 HR.
  pose proof (get_holding (workload s0) _ _ _ _ _ HR Hst) as Hst2.
  assert (Ha : awaited s0 KDeployment (deployment s0).2 = true) by (unfold awaited; by rewrite Hp, !bool_decide_eq_true_2).
  destruct HR as (_ & _ & _ & Hcoop). destruct Hst as (Hs1 & Ho1 & Hin). rewrite Hs1, Ho1 in Hcoop. simpl in Hcoop.
  destruct x as [d|e].
  - destruct (dep_AvailableReplicas d <? 1) eqn:E.
    + eapply stay; [|done..]. intros Ec. split.
      * intros Hd. specialize (Hcoop Ec Ha Hd). simpl in Hcoop. bool_prop. lia.
      * intros objs HY. unfold prepared. rewrite Hneeds. rewrite Forall_forall in *. intros y Hy. apply HY.
        unfold workload. unfold base in Hy. clear -Hy. set_solver.
    + apply (setPhase_advances (workload s0)); [by rewrite Hp|done| |done]. by intros y.
  - eapply stay; [|done..]. apply waits_never. destruct coop; [|done]. destruct (Hcoop eq_refl) as [Hn _].
    destruct Hn. by apply Forall_cons in Hin as [? _].
Qed.

Lemma phaseExposingDNS_advances :
  phase0 = PhaseExposingDNS -> validateSpec s0 = "" -> dns_service s0 ∈ old ->
  advances (workload s0) (phaseExposingDNS s0).
Proof.
  intros Hp Hv Hold.
  assert (Hc : covers phase0 (workload s0)) by (rewrite Hp; by intros y).
  assert (Hprep : prepared s0 old) by (unfold prepared, needs; rewrite Hp; by constructor).
  unfold phaseExposingDNS. cbv zeta. apply advances_check; [by apply routes_harmless|apply routes_ok|done|].
  assert (Hset : forall s', advances (workload s0) (setPhase s' PhaseReady)).
  { intros s'. apply setPhase_advances; [by rewrite Hp|done|]. by intros y. }
  assert (Hget : forall f, (forall svc, (coop = true -> provided s0 KService svc) -> advances (workload s0) (f svc)) ->
    advances (workload s0) (try! svc := Get KService (dns_service s0).2 in f svc)).
  { intros f Hf st Hst. unfold try_res, Get. cbn [bind do_op]. apply wpe_vis. intros x st1 HR.
    pose proof (get_holding (workload s0) _ _ _ _ _ HR Hst) as Hst1.
    assert (Ha : awaited s0 KService (dns_service s0).2 = true) by (unfold awaited; by rewrite Hp, !bool_decide_eq_true_2).
    destruct HR as (_ & _ & _ & Hcoop). destruct Hst as (Hs & Ho & Hin). rewrite Hs, Ho in Hcoop. simpl in Hcoop.
    destruct x as [svc|e]; [apply Hf; [|done]; intros E; exact (Hcoop E Ha Hprep)|].
    eapply stay; [|done..]. apply waits_never. destruct coop; [|done]. destruct (Hcoop eq_refl) as [Hn _].
    destruct Hn. by apply Forall_cons in Hin as [_ [? _]%Forall_cons]. }
  case_bool_decide as E1; [|case_bool_decide as E2; [|case_bool_decide as E3; [|apply Hset]]].
  - apply Hget. intros svc _. apply Hset.
  - apply Hget. intros svc Hs. case_bool_decide as E; [|apply Hset].
    apply stays; [|done]. apply waits_never. destruct coop; [|done]. by destruct (Hs eq_refl E2).
  - apply validateSpec_iff in Hv. destruct (vs_dns_gateway s0 Hv) as (gw & Eg & Hne & _).
    { unfold exposure_or_none in E3. by case_bool_decide. }
    rewrite Eg. destruct gw as [[|r refs]]; [done|apply Hset].
Qed.
End phases.

Section ready.
Context `{MachineryLaws, !OwnershipLaws, Reconciler}.
Variables (coop : bool) (s0 : PowerDNSServer) (old : list (kind * NamespacedName)).

Definition is_ready (s : PowerDNSServer) : Prop := pst_Phase (srv_Status s) = PhaseReady.
(** The stored server is s0 with a status of phase Ready, and its workload exists. *)
Definition keeps_ready (st : cluster) : Prop :=
  srv_Meta (cl_server st) = srv_Meta s0 /\ srv_Spec (cl_server st) = srv_Spec s0 /\ is_ready (cl_server st)
  /\ Forall (fun y => y ∈ cl_objects st) (workload s0).

Lemma keeps_holding st : keeps_ready st -> holding (cl_server st) (cl_old st) (workload (cl_server st)) st.
Proof. intros (Hm & Hs & _ & Hw). split_and!; [done..|]. by rewrite (workload_same _ _ Hm Hs). Qed.
Lemma holding_keeps st st' : keeps_ready st -> holding (cl_server st) (cl_old st) (workload (cl_server st)) st' -> keeps_ready st'.
Proof. intros (Hm & Hs & Hr & Hw) (E & _ & HY). rewrite (workload_same _ _ Hm Hs) in HY. unfold keeps_ready. by rewrite E. Qed.

Lemma keeps_harmless {A} (p : prog A) st :
  all_ops (harmless (workload s0)) p -> keeps_ready st ->
  wpe (cluster_env coop) p st (fun st' _ => keeps_ready st').
Proof.
  intros Hp Hk. eapply wpe_mono; [|apply harmless_wpe; [|by apply keeps_holding]].
  - intros st' a Hh. by eapply holding_keeps.
  - by rewrite (workload_same _ _ (proj1 Hk) (proj1 (proj2 Hk))).
Qed.

Lemma status_ready z st :
  keeps_ready st -> is_ready z ->
  wpe (cluster_env coop) (StatusUpdate KServer z) st
    (fun st' r => keeps_ready st' /\ forall y, r = Ok y -> is_ready y).
Proof.
  intros (Hm & Hs & Hr & Hw) Hz x st1 (Ha & Ho & _). cbn in Ha, Ho |- *. unfold keeps_ready. rewrite Ho. destruct x as [y|e].
  - destruct Ha as [-> ->]. split; [done|]. by intros y [= <-].
  - split; [|done]. by destruct Ha as [->| ->].
Qed.

Lemma refreshDNSEndpoint_ready s st :
  keeps_ready st -> is_ready s ->
  wpe (cluster_env coop) (refreshDNSEndpoint s) st
    (fun st' r => keeps_ready st' /\ forall y, r = Ok y -> is_ready y).
Proof.
  intros Hk Hs. unfold refreshDNSEndpoint. cbv zeta.
  assert (Hstore : forall e st, keeps_ready st ->
    wpe (cluster_env coop) (if pst_DNSEndpoint (srv_Status s) == e then Ret (Ok s)
      else StatusUpdate KServer (set_DNSEndpoint e s)) st
      (fun st' r => keeps_ready st' /\ forall y, r = Ok y -> is_ready y)).
  { intros e st1 Hk1. destruct (bool_decide _); [|by apply status_ready]. split; [done|]. by intros y [= <-]. }
  destruct (_ || _); [|by destruct (bool_decide _); apply Hstore].
  eapply wpe_bind_post; [apply keeps_harmless; [|done]; unfold Get; all_ops_run; by harmless_op_tac|]. intros st1 [svc|e] Hk1.
  - cbv beta iota. case_bool_decide; [by apply Hstore|].
    eapply wpe_bind_post; [apply keeps_harmless; [|done]|intros st2 u Hk2; by apply Hstore].
    destruct (_ && _); [apply event_harmless|done].
  - simpl. split; [done|]. destruct (IsNotFound e); by intros y [= <-].
Qed.

Lemma refreshReplicaStatus_ready s st :
  keeps_ready st -> is_ready s ->
  wpe (cluster_env coop) (refreshReplicaStatus s) st (fun st' _ => keeps_ready st').
Proof.
  intros Hk Hs. unfold refreshReplicaStatus.
  eapply wpe_bind_post; [apply keeps_harmless; [|done]; unfold Get; all_ops_run; by harmless_op_tac|].
  intros st1 [d|e] Hk1; [|done]. cbv zeta. destruct (_ || _ || _); [|done].
  eapply wpe_bind_post; [apply status_ready; [done|]|].
  - unfold is_ready. destruct (_ && _); exact Hs.
  - intros st2 [y|e] [Hk2 _]; [|done]. eapply wpe_bind_post; [apply keeps_harmless; [|done]|by intros st3 u Hk3].
    destruct (_ && _); [apply event_harmless|]. destruct (_ && _); [apply event_harmless|done].
Qed.

Lemma phaseReady_advances st :
  is_ready s0 -> holding s0 old (workload s0) st ->
  wpe (cluster_env coop) (phaseReady s0) st (fun st' _ => stepped coop old s0 st').
Proof.
  intros Hr Hst. assert (Hk : keeps_ready st).
  { destruct Hst as (E & _ & HY). unfold keeps_ready. by rewrite E. }
  assert (Hpost : wpe (cluster_env coop) (phaseReady s0) st (fun st' _ => keeps_ready st')).
  { unfold phaseReady. cbv zeta. eapply wpe_bind_post; [apply keeps_harmless; [|done]|].
    { destruct (_ <? _)%nat; [apply event_harmless|done]. }
    intros st1 u Hk1. eapply wpe_bind_post.
    { apply wpe_conj; [|apply wpe_wp, reconcileDrift_result].
      eapply wpe_mono; [|apply (reconcileDrift_holding coop (cl_server st1) s0 (cl_old st1)); by apply keeps_holding].
      intros st' a. by apply holding_keeps. }
    intros st2 [s1|e] [Hk2 Hs1]; [|done]. destruct (Hs1 s1 eq_refl) as [h ->].
    eapply wpe_bind_post; [by apply refreshDNSEndpoint_ready|]. intros st3 [s2|e] [Hk3 Hs2]; [|done].
    eapply wpe_bind_post; [by apply refreshReplicaStatus_ready; [|apply Hs2]|]. by intros st4 [e|] Hk4. }
  eapply wpe_mono; [|exact Hpost]. intros st' _ (Hm & Hs & Hp & Hw). unfold is_ready in *.
  split; [done|done|by right; rewrite Hr|by rewrite Hr|by left; rewrite Hr|by rewrite Hp].
Qed.
End ready.

(** ** Passes *)

Section passes.
Context `{MachineryLaws, !OwnershipLaws, Reconciler}.

(** The server and the objects between passes. *)
Definition world : Type := PowerDNSServer * list (kind * NamespacedName).

(** What happens to the objects between two passes: others may make objects,
    and, unless the cluster cooperates, take any but the workload away. *)
Definition drifts (coop : bool) (s : PowerDNSServer) (objs objs' : list (kind * NamespacedName)) : Prop :=
  Forall (fun y => y ∈ objs -> y ∈ objs') (workload s) /\ (coop = true -> forall y, y ∈ objs -> y ∈ objs').

(** One pass over the stored server. *)
Definition pass (coop : bool) (w w' : world) : Prop :=
  exists r objs old, drifts coop w.1 w.2 objs
    /\ exec (cluster_env coop) (Reconcile (meta_key (srv_Meta w.1))) (Cl w.1 objs objs) r (Cl w'.1 w'.2 old).

(** A live server with a valid specification that is on its way, whose
    API key is generated, and of which exists what the operator has made on
    the way. *)
Record on_its_way (w : world) : Prop := {
  way_live : deletion_IsZero (srv_Meta w.1) = true;
  way_valid : validateSpec w.1 = "";
  way_phase : pst_Phase (srv_Status w.1) ∈ provisioning_phases;
  way_key : generates_key w.1;
  way_made : Forall (fun y => y ∈ w.2) (made (pst_Phase (srv_Status w.1)) w.1);
}.

(** The phases and the finalizer that are still ahead. *)
Definition steps_needed (s : PowerDNSServer) : nat :=
  (if ContainsFinalizer (srv_Meta s) finalizer then 0 else 1) + distance (pst_Phase (srv_Status s)).

Lemma validateSpec_spec s s' : srv_Spec s = srv_Spec s' -> validateSpec s = validateSpec s'.
Proof.
  intros E. unfold validateSpec, check_backend, check_dns_gateway, check_api_gateway, check_pdb, check_extra.
  by rewrite E.
Qed.

Lemma next_distance p :
  p ∈ provisioning_phases ->
  next_phase p ∈ provisioning_phases /\ distance (next_phase p) = pred (distance p).
Proof.
  unfold provisioning_phases. rewrite !elem_of_cons, elem_of_nil.
  intros [->|[->|[->|[->|[->|[->|[->|[]]]]]]]]; (split; [vm_compute; repeat first [by left|right]|done]).
Qed.

(** What a pass does: the server stays on its way and nothing more is ahead
    than before; a cooperative pass puts one step behind it if its needs were
    prepared, and otherwise does so or prepares them. *)
Record progress (coop : bool) (w w' : world) : Prop := {
  pg_way : on_its_way w';
  pg_le : (steps_needed w'.1 <= steps_needed w.1)%nat;
  pg_prepared : coop = true -> prepared w.1 w.2 -> (steps_needed w'.1 <= pred (steps_needed w.1))%nat;
  pg_coop : coop = true -> (steps_needed w'.1 <= pred (steps_needed w.1))%nat \/ prepared w'.1 w'.2;
}.

Lemma progress_none w : on_its_way w -> progress false w w.
Proof. intros Hw. by split. Qed.

Lemma needs_same s s' :
  srv_Meta s' = srv_Meta s -> srv_Spec s' = srv_Spec s -> pst_Phase (srv_Status s') = pst_Phase (srv_Status s) ->
  needs s' = needs s.
Proof.
  intros Hm Hs Hp. unfold needs, database, isBYO, cnpg_cluster, schema_job, deployment, dns_service, config_map,
    backend_secret, api_secret, NameSet. by rewrite Hm, Hs, Hp.
Qed.

Lemma made_same p s s' : srv_Meta s' = srv_Meta s -> srv_Spec s' = srv_Spec s -> made p s' = made p s.
Proof.
  intros Hm Hs. unfold made, base. rewrite (workload_same _ _ Hm Hs).
  unfold database, isBYO, cnpg_cluster, backend_secret, api_secret, NameSet. by rewrite Hm, Hs.
Qed.

Lemma made_workload p s : made p s ⊆ workload s.
Proof.
  unfold made. destruct (_ || _); [intros y []%elem_of_nil|]. case_bool_decide; [unfold workload; set_solver|].
  destruct (_ || _); [apply base_workload|done].
Qed.

(** What has been made is not lost between passes. *)
Lemma made_drifts coop w objs :
  on_its_way w -> drifts coop w.1 w.2 objs -> Forall (fun y => y ∈ objs) (made (pst_Phase (srv_Status w.1)) w.1).
Proof.
  intros Hw [Hd _]. pose proof (way_made w Hw) as Hm. rewrite Forall_forall in *. intros y Hy.
  apply Hd; [by eapply made_workload|by apply Hm].
Qed.

Lemma progress_stepped coop w objs st' :
  on_its_way w -> drifts coop w.1 w.2 objs -> ContainsFinalizer (srv_Meta w.1) finalizer = true ->
  stepped coop objs w.1 st' -> progress coop w (cl_server st', cl_objects st').
Proof.
  intros [Hlive Hv Hp Hk _] [_ Hd] Hf [Hm Hs Hph Hn Hmade Hall]. destruct (next_distance _ Hp) as [Hin Hdist].
  assert (Hprep : coop = true -> prepared w.1 w.2 -> prepared w.1 objs).
  { intros E. unfold prepared. rewrite !Forall_forall. intros Hy y Hin'. by apply Hd, Hy. }
  split; unfold steps_needed; cbn [fst snd]; rewrite ?Hm, ?Hf.
  - split; cbn [fst snd]; [by rewrite Hm|by rewrite (validateSpec_spec _ w.1)|by destruct Hph as [->| ->]| |].
    + unfold generates_key. by rewrite Hs.
    + by rewrite (made_same _ _ _ Hm Hs).
  - destruct Hph as [->| ->]; lia.
  - intros E Hpr. rewrite (Hn E (Hprep E Hpr)). lia.
  - intros E. destruct (decide (pst_Phase (srv_Status (cl_server st')) = next_phase (pst_Phase (srv_Status w.1)))) as [->|Hne].
    + left. lia.
    + right. destruct (Hmade E) as [?|Hpr]; [done|]. destruct Hph as [Hph|?]; [|done].
      unfold prepared. rewrite (needs_same _ _ Hm Hs Hph). exact Hpr.
Qed.

Lemma phases_advance coop w objs st :
  on_its_way w -> drifts coop w.1 w.2 objs -> holding w.1 objs [] st -> untouched objs st ->
  wpe (cluster_env coop)
    (let s := w.1 in let phase := pst_Phase (srv_Status s) in
     if (phase == "") || (phase == PhasePending) then phasePending s
     else if phase == PhaseProvisioningBackend then phaseProvisioningBackend s
     else if phase == PhaseInitializingSchema then phaseInitializingSchema s
     else if phase == PhaseDeployingServer then phaseDeployingServer s
     else if phase == PhaseExposingDNS then phaseExposingDNS s
     else if phase == PhaseReady then phaseReady s
     else Ret (no_requeue, None)) st (fun st' _ => stepped coop objs w.1 st').
Proof.
  intros Hw Hd Hst Hun. cbv zeta. pose proof (made_drifts _ _ _ Hw Hd) as Hm.
  assert (Hhold : holding w.1 objs (made (pst_Phase (srv_Status w.1)) w.1) st).
  { destruct Hst as (? & ? & _). split_and!; [done..|]. rewrite Forall_forall in *. intros y Hy. apply Hun; [|by apply Hm].
    apply made_workload, workload_lasting in Hy. by destruct y as [[] ?]. }
  destruct Hw as [Hlive Hv Hp Hk _]. unfold provisioning_phases in Hp. rewrite !elem_of_cons, elem_of_nil in Hp.
  destruct Hp as [E|[E|[E|[E|[E|[E|[E|[]]]]]]]]; rewrite E in Hm, Hhold |- *; cbn -[phasePending].
  - apply phasePending_advances; auto.
  - apply phasePending_advances; auto.
  - by apply phaseProvisioningBackend_advances.
  - by apply phaseInitializingSchema_advances.
  - by apply phaseDeployingServer_advances.
  - apply phaseExposingDNS_advances; [done..| |done]. apply (proj1 (Forall_forall _ _) Hm). right. left.
  - by apply phaseReady_advances.
Qed.

(** The pass that adds the finalizer. *)
Definition finalized (s : PowerDNSServer) : PowerDNSServer := set_srv_Meta (AddFinalizer (srv_Meta s) finalizer) s.

Lemma finalized_same p s :
  deletion_IsZero (srv_Meta (finalized s)) = deletion_IsZero (srv_Meta s) /\ made p (finalized s) = made p s.
Proof.
  unfold finalized, made, workload, base, database, deployment, dns_service, config_map, backend_secret, api_secret,
    cnpg_cluster, NameSet, isBYO. simpl.
  by destruct (AddFinalizer_frame (srv_Meta s) finalizer) as [l ->].
Qed.

Lemma progress_finalizer coop w objs objs' :
  on_its_way w -> drifts coop w.1 w.2 objs -> (forall y, y ∈ objs -> y ∈ objs') ->
  ContainsFinalizer (srv_Meta w.1) finalizer = false -> progress coop w (finalized w.1, objs').
Proof.
  intros Hw Hd Hsub Hf. pose proof (made_drifts _ _ _ Hw Hd) as Hm. destruct Hw as [Hlive Hv Hp Hk _].
  destruct (finalized_same (pst_Phase (srv_Status w.1)) w.1) as [Ed Ew].
  assert (Hlow : steps_needed (finalized w.1) = pred (steps_needed w.1)).
  { unfold steps_needed, finalized. simpl. by rewrite ContainsFinalizer_add, Hf. }
  split; cbn [fst snd]; rewrite ?Hlow; [|lia|done|by left].
  split; cbn [fst snd]; [by rewrite Ed|done..|]. unfold finalized at 1. simpl. rewrite Ew.
  eapply Forall_impl; [exact Hm|]. cbn beta. auto.
Qed.

(** A pass that failed before it did anything. *)
Lemma progress_idle w objs objs' :
  on_its_way w -> drifts false w.1 w.2 objs -> (forall y, y ∈ objs -> y ∈ objs') -> progress false w (w.1, objs').
Proof.
  intros Hw Hd Hsub. pose proof (made_drifts _ _ _ Hw Hd) as Hm. destruct Hw as [Hlive Hv Hp Hk _].
  split; cbn [fst snd]; [|done..]. split; cbn [fst snd]; [done..|]. eapply Forall_impl; [exact Hm|]. cbn beta. auto.
Qed.

Lemma Reconcile_progress coop w objs :
  on_its_way w -> drifts coop w.1 w.2 objs ->
  wpe (cluster_env coop) (Reconcile (meta_key (srv_Meta w.1))) (Cl w.1 objs objs)
    (fun st' _ => progress coop w (cl_server st', cl_objects st')).
Proof.
  intros Hw Hd. unfold Reconcile, Get. cbn [bind do_op]. apply wpe_vis. intros x st1 HR. cbn beta.
  destruct HR as ([Hk Hx] & Hobj & Hold & Hc). cbn in Hk, Hx, Hobj, Hold, Hc.
  assert (Hsub : forall y, y ∈ objs -> y ∈ cl_objects st1).
  { intros y Hy. destruct x; [destruct Hobj as [_ ->]; by right|by rewrite Hobj]. }
  destruct x as [s1|e].
  - rewrite (Hx s1 eq_refl), (way_live w Hw). cbn [negb]. destruct Hobj as [_ Hobj].
    destruct (ContainsFinalizer (srv_Meta w.1) finalizer) eqn:Ef; cbn [negb].
    + eapply wpe_mono; [|apply phases_advance; [done..| |]].
      * intros st' r Hst. by eapply progress_stepped.
      * by split_and!.
      * intros y Hy. rewrite Hobj, elem_of_cons. split; [intros [->|?]; done|by right].
    + unfold Update. cbn [bind do_op]. apply wpe_vis. intros x st2 (Ha & Ho & _ & Hc2).
      cbn in Ha, Ho, Hc2. rewrite Hk in *.
      assert (Hf : progress coop w (finalized w.1, cl_objects st2)) by (apply (progress_finalizer _ _ objs); [done..| |done]; by rewrite Ho).
      destruct x as [s2|e].
      * destruct Ha as [_ Ha]. apply wpe_ret. rewrite Ha. exact Hf.
      * destruct coop; [by destruct (Hc2 eq_refl)|].
        apply wpe_ret. destruct Ha as [Ha|Ha]; rewrite Ha; [|exact Hf]. apply (progress_idle _ objs); [done..|]. by rewrite Ho.
  - destruct coop; [by destruct (Hc eq_refl) as (_ & ? & _)|].
    destruct (IsNotFound e); apply wpe_ret; rewrite Hk; by apply (progress_idle _ objs).
Qed.

Lemma pass_progress coop w w' : on_its_way w -> pass coop w w' -> progress coop w w'.
Proof.
  intros Hw (r & objs & old & Hd & He). pose proof (Reconcile_progress coop w objs Hw Hd) as Hp.
  rewrite wpe_exec in Hp. specialize (Hp _ _ He). by destruct w'.
Qed.

Lemma steps_needed_six w : on_its_way w -> (steps_needed w.1 <= 6)%nat.
Proof.
  intros [_ _ Hp _ _]. unfold steps_needed, provisioning_phases in *. rewrite !elem_of_cons, elem_of_nil in Hp.
  destruct Hp as [->|[->|[->|[->|[->|[->|[->|[]]]]]]]]; destruct (ContainsFinalizer _ _); by apply Nat.leb_le.
Qed.

Lemma ready_when_none_needed w : on_its_way w -> steps_needed w.1 = 0%nat -> pst_Phase (srv_Status w.1) = PhaseReady.
Proof.
  intros [_ _ Hp _ _]. unfold steps_needed, provisioning_phases in *. rewrite !elem_of_cons, elem_of_nil in Hp.
  destruct Hp as [->|[->|[->|[->|[->|[->|[->|[]]]]]]]]; destruct (ContainsFinalizer _ _); done.
Qed.

(** How often a sequence of passes has two cooperative ones in a row. *)
Fixpoint rounds (l : list bool) : nat :=
  match l with
  | true :: (true :: l') => S (rounds l')
  | _ :: l' => rounds l'
  | [] => 0
  end.

(** Two cooperative passes in a row put a step behind the server. *)
Lemma round_progress w w1 w2 :
  on_its_way w -> pass true w w1 -> pass true w1 w2 ->
  on_its_way w2 /\ (steps_needed w2.1 <= pred (steps_needed w.1))%nat.
Proof.
  intros Hw P1 P2. destruct (pass_progress _ _ _ Hw P1) as [Hw1 Hle1 _ Hc1].
  destruct (pass_progress _ _ _ Hw1 P2) as [Hw2 Hle2 Hp2 _]. split; [done|].
  destruct (Hc1 eq_refl) as [?|Hp]; [lia|]. specialize (Hp2 eq_refl Hp). lia.
Qed.

Lemma rounds_progress n l w w' :
  (length l <= n)%nat -> on_its_way w -> steps pass l w w' ->
  on_its_way w' /\ (steps_needed w'.1 <= steps_needed w.1 - rounds l)%nat.
Proof.
  revert l w. induction n as [|n IH]; intros l w Hn Hw Hs.
  { destruct l; [|by apply Nat.nle_succ_0 in Hn]. inversion Hs; subst. split; [done|simpl; lia]. }
  inversion Hs as [|b l' ? w1 ? P1 S1]; subst; [by split; [|simpl; lia]|]. simpl in Hn.
  destruct (pass_progress _ _ _ Hw P1) as [Hw1 Hle _ _].
  destruct (IH l' w1 ltac:(lia) Hw1 S1) as [Hw' Hm]. split; [done|].
  inversion S1 as [|b' l'' ? w2 ? P2 S2]; subst; [destruct b; simpl in *; lia|].
  destruct b; [destruct b'|]; [|simpl in *; lia..]. simpl in Hn.
  destruct (round_progress w w1 w2 Hw P1 P2) as [Hw2 Hlow]. destruct (IH l'' w2 ltac:(lia) Hw2 S2). simpl. lia.
Qed.
End passes.

(** C5. Liveness of provisioning: from any phase on the way, a live server
    with a valid specification is Ready after any sequence of passes in which a
    cooperative cluster is met six times twice in a row (once for the finalizer
    and once for each of the five phases before Ready), and everything that
    makes it answer queries exists then: the Deployment, the DNS Service, the
    configuration, the Secrets of the backend and of the API key, and the CNPG
    Cluster unless the user brought a database. The cluster provides nothing
    that the operator has not made: Clusters, Jobs, Deployments and Services
    are there only if the operator created them; a Cluster becomes ready, a Job
    succeeds, a Deployment becomes available and a Service gets its address
    only if it, and all that its pods read, was there before the pass began;
    that is why a phase may take two passes. The other passes, in any order
    between them, may be answered with anything: errors, stale absences, writes
    that failed and were applied nevertheless; before them any object but those
    listed above may be lost. The API key is the generated one, since a key by
    reference does not reach the pods. The server never fails and stays Ready. *)
Theorem server_becomes_ready `{MachineryLaws, !OwnershipLaws, Reconciler} (l : list bool) (w w' : world)
  (Hway : on_its_way w) (Hpasses : steps pass l w w') (Henough : (6 <= rounds l)%nat) :
  pst_Phase (srv_Status w'.1) = PhaseReady /\ on_its_way w' /\ Forall (fun y => y ∈ w'.2) (workload w'.1).
Proof.
  destruct (rounds_progress (length l) l w w') as [Hw Hm]; [done..|].
  pose proof (steps_needed_six w Hway) as Hsix.
  assert (Hr : pst_Phase (srv_Status w'.1) = PhaseReady) by (apply ready_when_none_needed; [done|lia]).
  split_and!; [done..|]. pose proof (way_made _ Hw) as Hmade. by rewrite Hr in Hmade.
Qed.

(** ** A cooperative cluster *)

Definition sample_pod : PodTemplateSpec := {|
  pt_Labels := ∅; pt_Annotations := ∅;
  pt_Spec := {| pod_RestartPolicy := ""; pod_InitContainers := []; pod_Containers := []; pod_Volumes := [];
    pod_AntiAffinity := None; pod_TopologySpreadConstraints := []; pod_NodeSelector := ∅; pod_Tolerations := [];
    pod_PriorityClassName := "" |} |}.

(** An object of each kind, with what a server waits for once it is done. *)
Definition sample_object (ready : bool) (k : kind) (key : NamespacedName) : obj_of k :=
  let m := new_meta (nn_Name key) (nn_Namespace key) ∅ in
  let count (n : Z) : Z := if ready then n else 0 in
  match k return obj_of k with
  | KServer => set_srv_Meta m sample_server
  | KZone => set_zn_Meta m sample_zone
  | KRRSet => set_rr_Meta m sample_rrset
  | KDNSDist => set_dd_Meta m sample_dnsdist
  | KSecret => {| sec_Meta := m; sec_Type := "";
                  sec_Data := if ready then [("username", "pdns"); ("password", "secret")] else [] |}
  | KConfigMap => {| cm_Meta := m; cm_Data := ∅ |}
  | KService => {| svc_Meta := m; svc_Spec := new_service_spec "" ∅ [];
                   svc_Ingress := if ready then [{| ing_IP := "192.0.2.53"; ing_Hostname := "" |}] else [] |}
  | KDeployment => {| dep_Meta := m; dep_Replicas := Some 3; dep_Selector := ∅; dep_Strategy := "";
                      dep_Template := sample_pod; dep_ReadyReplicas := count 3; dep_AvailableReplicas := count 3 |}
  | KJob => {| job_Meta := m; job_BackoffLimit := None; job_TTLSecondsAfterFinished := None;
               job_Template := sample_pod; job_Succeeded := count 1; job_Conditions := [] |}
  | KPDB => {| pdb_Meta := m; pdb_Spec_MinAvailable := None; pdb_Selector := ∅ |}
  | KNetworkPolicy => {| np_Meta := m;
                         np_Spec := {| npo_PodSelector := ∅; npo_PolicyTypes := []; npo_Ingress := [] |} |}
  | KTCPRoute | KUDPRoute => {| l4_Meta := m; l4_ParentRefs := []; l4_Rules := [] |}
  | KHTTPRoute => {| hr_Meta := m; hr_ParentRefs := []; hr_Hostnames := []; hr_Rules := [] |}
  | KPodMonitor | KCluster => {|
      u_GVK := {| gvk_Group := ""; gvk_Version := ""; gvk_Kind := "" |}; u_Meta := m; u_Spec := JNull;
      u_Status := JObj [("readyInstances", JNum (count 1))] |}
  end.

(** Every write succeeds; an object that the operator has to make exists only
    once it was written, and is done when what it needs was there before the
    pass. *)
Definition generous : handler cluster := fun X o w =>
  let with_objects l := Cl (cl_server w) l (cl_old w) in
  let seen k key := with_objects ((k, key) :: cl_objects w) in
  let ready := bool_decide (prepared (cl_server w) (cl_old w)) in
  match o in op X return X * cluster with
  | OGet k key =>
      if (operated k || bool_decide ((k, key) ∈ workload (cl_server w)) && negb (awaited (cl_server w) k key))
         && negb (bool_decide ((k, key) ∈ cl_objects w))
      then (Err (EKube RNotFound "not found"), w)
      else (match k return res (obj_of k) with KServer => Ok (cl_server w) | k => Ok (sample_object ready k key) end,
            seen k key)
  | OCreate k z => (None, seen k (obj_key k z))
  | OUpdate k z =>
      match k return obj_of k -> res (obj_of k) * cluster with
      | KServer => fun z => let s := set_srv_Status (srv_Status (cl_server w)) z in (Ok s, Cl s (cl_objects w) (cl_old w))
      | _ => fun z => (Ok z, w)
      end z
  | OStatusUpdate k z =>
      match k return obj_of k -> res (obj_of k) * cluster with
      | KServer => fun z => let s := set_srv_Status (srv_Status z) (cl_server w) in (Ok s, Cl s (cl_objects w) (cl_old w))
      | _ => fun z => (Ok z, w)
      end z
  | ODelete k key _ => (None, with_objects (filter (fun y => y <> (k, key)) (cl_objects w)))
  | OCreateOrUpdate k key _ => (Ok OpUpdated, seen k key)
  | OListIndex k _ _ => (Ok [], w)
  | OListLabels k _ _ => (Ok [], w)
  | ORecord _ => (tt, w)
  | ORandRead n => (Ok (repeat NUL n), w)
  | OHttp _ => (HTransport (EText "no route to host"), w)
  end.

(** Every request fails. *)
Definition outage : handler cluster := fun X o w =>
  let down := EText "connection refused" in
  (match o in op X return X with
   | OGet _ _ | OUpdate _ _ | OStatusUpdate _ _ | OCreateOrUpdate _ _ _ | OListIndex _ _ _ | OListLabels _ _ _
   | ORandRead _ => Err down
   | OCreate _ _ | ODelete _ _ _ => Some down
   | ORecord _ => tt
   | OHttp _ => HTransport down
   end, w).

Lemma generous_refines : refines (cluster_env true) generous (fun w => w).
Proof.
  intros X o w. unfold cluster_env.
  destruct o as [k key|k z|k z|k z|k key p|k key f|k f v|k n l|e|n|r].
  - cbn -[operated prepared awaited provided workload]. destruct (operated k) eqn:Eo; cbn [orb andb].
    + case_bool_decide as E; cbn [negb]; destruct k; try discriminate Eo; cbn -[prepared awaited];
        (split_and!; [done..|]); intros _; try (by split_and!; auto); intros _ Hp;
        cbn; rewrite !bool_decide_eq_true_2 by done; first [done|by exists 1].
    + destruct (_ && negb (awaited _ _ _)) eqn:Ea; cbn [andb].
      * apply andb_true_iff in Ea as [Hl%bool_decide_eq_true_1%workload_lasting Ea%negb_true_iff].
        case_bool_decide as E; cbn [negb]; destruct k; try discriminate Eo; try discriminate Hl;
          cbn -[prepared awaited]; (split_and!; try done); intros _;
          first [done|congruence|split_and!; [done..|congruence|by left]].
      * destruct k; try discriminate Eo; cbn -[prepared awaited]; (split_and!; try done); try (by intros ? [= <-]);
          intros _; try done; intros _ Hp; by rewrite bool_decide_eq_true_2.
  - cbn. split_and!; auto.
  - destruct k; cbn; (split_and!; [done..|]); by eexists.
  - destruct k; cbn; (split_and!; [done..|]); by eexists.
  - cbn. split_and!; [done|by left|done|by intros _ ? ?].
  - cbn. split_and!; [done|by left|done|]. intros _. by eexists.
  - cbn. split_and!; [done..|]. intros _. by eexists.
  - cbn. split_and!; [done..| |done|intros _; by eexists]. by intros l' o [= <-] ?%not_elem_of_nil.
  - done.
  - cbn. split_and!; [done..|]. intros _. by eexists.
  - done.
Qed.

Lemma outage_refines : refines (cluster_env false) outage (fun w => w).
Proof.
  intros X o w. unfold cluster_env.
  destruct o as [k key|k z|k z|k z|k key p|k key f|k f v|k n l|e|n|r]; cbn; try done.
  - by destruct k.
  - split_and!; [done|by right|done..].
  - destruct k; (split_and!; [first [done|by left]|done..]).
  - destruct k; (split_and!; [first [done|by left]|done..]).
  - split_and!; [done|by right|done..].
  - split_and!; [done|right; split; [by intros [? ?]|done]|done..].
Qed.

(** The world after a pass against one or the other; before an outage
    everything but the workload is lost. *)
Definition kept (coop : bool) (w : world) : list (kind * NamespacedName) :=
  if coop then w.2 else filter (fun y => y ∈ workload w.1) w.2.
Definition pass_result (coop : bool) (w : world) : world :=
  let st := run_world (if coop then generous else outage)
    (@Reconcile RefMachinery {| HasRecorder := true |} (meta_key (srv_Meta w.1))) (Cl w.1 (kept coop w) (kept coop w)) in
  (cl_server st, cl_objects st).

Lemma kept_drifts coop w : drifts coop w.1 w.2 (kept coop w).
Proof.
  split; unfold kept; [|by intros ->]. apply Forall_forall. intros y Hy Hin. destruct coop; [done|].
  by apply list_elem_of_filter.
Qed.

Lemma pass_result_pass coop w : @pass RefMachinery {| HasRecorder := true |} coop w (pass_result coop w).
Proof.
  assert (Hr : refines (cluster_env coop) (if coop then generous else outage) (fun w => w)).
  { destruct coop; [apply generous_refines|apply outage_refines]. }
  pose proof (run_exec _ _ _ (@Reconcile RefMachinery {| HasRecorder := true |} (meta_key (srv_Meta w.1)))
    (Cl w.1 (kept coop w) (kept coop w)) Hr) as He.
  cbn beta in He. unfold pass, pass_result.
  destruct (run_world _ _ (Cl w.1 _ _)) as [s' objs' old']. eexists _, (kept coop w), old'.
  split; [apply kept_drifts|exact He].
Qed.

Lemma steps_result l w : steps (@pass RefMachinery {| HasRecorder := true |}) l w (foldl (fun w b => pass_result b w) w l).
Proof. revert w. induction l as [|b l IH]; intros w; [constructor|]. econstructor; [apply pass_result_pass|apply IH]. Qed.

(** From a new server, with an outage after the second pass and others later. *)
Lemma server_becomes_ready_witness :
  let l := [true; true; false; true; true; false; false; true; true; true; true; true; true; true; true; false] in
  exists w', steps (@pass RefMachinery {| HasRecorder := true |}) l (sample_server, []) w' /\ is_ready w'.1
    /\ Forall (fun y => y ∈ w'.2) (workload w'.1)
    /\ pst_DNSEndpoint (srv_Status w'.1) = ":53" /\ pst_APIEndpoint (srv_Status w'.1) = "http://ns1-api.dns.svc:8081".
Proof.
  intros l. exists (foldl (fun w b => pass_result b w) (sample_server, []) l). split; [apply steps_result|].
  assert (Hway : on_its_way (sample_server, [])).
  { split; [reflexivity|vm_compute; reflexivity|left|reflexivity|constructor]. }
  destruct (server_becomes_ready l (sample_server, []) _ Hway (steps_result l (sample_server, []))) as (Hr & _ & Hw);
    [vm_compute; lia|].
  split_and!; [exact Hr|exact Hw|vm_compute; reflexivity..].
Defined.
