(* ===== verification/ZoneController.v ===== *)
(** * internal/controller/zone_controller.go: the Zone reconciler

    Every pass converges a whole Zone against the HTTP API of its server:
    registration with a SOA seeded once, kind and masters, the DNSSEC keys,
    and the deletion behind a finalizer. *)

From S2P Require Import Prelude GoStd Meta ApiTypes KubeObjects Samples Effects RefMachinery PdnsClient Manifests Converge.

Open Scope go_scope.
Open Scope stdpp_scope.
Open Scope Z_scope.

Definition zoneFinalizer : string := "dns.aetherplatform.cloud/zone-protection".
Definition zoneServerIndex : string := "spec.serverRef".
Definition resyncInterval : Z := 300 * Second.

(** ** Pure parts *)

Definition serverKeyFor (zone : Zone) : NamespacedName :=
  ref_target (zs_ServerRef (zn_Spec zone)) (om_Namespace (zn_Meta zone)).

Definition apiReason (e : err) : string :=
  if errors_Is e ErrUnreachable then "APIUnreachable" else "APIError".

(** spec.kind with its default. *)
Definition wantKind (zone : Zone) : string :=
  let kind := zs_Kind (zn_Spec zone) in if kind == "" then ZoneKindNative else kind.

(** The body of the POST that registers the zone. *)
Definition newZone (zone : Zone) : PZone := {|
  pz_ID := ""; pz_Name := zs_ZoneName (zn_Spec zone); pz_Kind := wantKind zone; pz_Serial := 0;
  pz_Masters := zs_Masters (zn_Spec zone);
  pz_Nameservers := match zs_Nameservers (zn_Spec zone) with None => Some [] | ns => ns end;
  pz_DNSSEC := false; pz_RRSets := [] |}.

(** The SOA that createZone seeds. *)
Definition soaSeed (zone : Zone) : PRRSet :=
  let spec := zn_Spec zone in
  let primary := match elems (zs_Nameservers spec) with [] => zs_ZoneName spec | ns :: _ => ns end in
  let hostmaster := "hostmaster." +:+ zs_ZoneName spec in
  let hostmaster := match zs_SOA spec with
                    | Some soa => if soa_Hostmaster soa != "" then soa_Hostmaster soa else hostmaster
                    | None => hostmaster
                    end in
  let ttl := match zs_SOA spec with
             | Some soa => match soa_TTL soa with Some t => t | None => 3600 end
             | None => 3600
             end in
  {| prr_Name := zs_ZoneName spec; prr_Type := "SOA"; prr_TTL := ttl; prr_ChangeType := "REPLACE";
     prr_Records := [{| prec_Content := primary +:+ " " +:+ hostmaster +:+ " 0 10800 3600 604800 3600";
                        prec_Disabled := false |}] |}.

Definition set_ck_Active (b : bool) (k : Cryptokey) : Cryptokey :=
  {| ck_ID := ck_ID k; ck_KeyType := ck_KeyType k; ck_Active := b; ck_DS := ck_DS k |}.
Definition newKey : Cryptokey := {| ck_ID := 0; ck_KeyType := "csk"; ck_Active := true; ck_DS := [] |}.
(** The DS records of the active keys. *)
Definition activeDS (keys : list Cryptokey) : list string :=
  flat_map (fun k => if ck_Active k then ck_DS k else []) keys.

(** ** Status assignments *)

Definition set_zst_Conditions (l : list Condition) (zone : Zone) : Zone :=
  let st := zn_Status zone in
  set_zn_Status {| zst_Phase := zst_Phase st; zst_Serial := zst_Serial st; zst_DSRecords := zst_DSRecords st;
    zst_ObservedGeneration := zst_ObservedGeneration st; zst_Conditions := l;
    zst_FailureMessage := zst_FailureMessage st |} zone.
Definition set_zst_DSRecords (ds : list string) (zone : Zone) : Zone :=
  let st := zn_Status zone in
  set_zn_Status {| zst_Phase := zst_Phase st; zst_Serial := zst_Serial st; zst_DSRecords := ds;
    zst_ObservedGeneration := zst_ObservedGeneration st; zst_Conditions := zst_Conditions st;
    zst_FailureMessage := zst_FailureMessage st |} zone.
Definition set_zst_failure (phase msg : string) (zone : Zone) : Zone :=
  let st := zn_Status zone in
  set_zn_Status {| zst_Phase := phase; zst_Serial := zst_Serial st; zst_DSRecords := zst_DSRecords st;
    zst_ObservedGeneration := zst_ObservedGeneration st; zst_Conditions := zst_Conditions st;
    zst_FailureMessage := msg |} zone.
Definition set_zst_ready (serial : Z) (zone : Zone) : Zone :=
  let st := zn_Status zone in
  set_zn_Status {| zst_Phase := ZonePhaseReady; zst_Serial := serial; zst_DSRecords := zst_DSRecords st;
    zst_ObservedGeneration := om_Generation (zn_Meta zone); zst_Conditions := zst_Conditions st;
    zst_FailureMessage := "" |} zone.

(** ** The reconciler *)

Section reconciler.
Context `{Machinery, Reconciler}.

Definition zone_cond (condType status reason message : string) (zone : Zone) : Zone :=
  set_zst_Conditions
    (setCondOn (zst_Conditions (zn_Status zone)) (om_Generation (zn_Meta zone)) condType status reason message)
    zone.

Definition markNotReady (zone : Zone) (reason msg : string) (after : Z) : prog Outcome :=
  let zone := set_zst_failure ZonePhasePending msg zone in
  let zone := zone_cond ConditionReady ConditionFalse reason msg zone in
  try! _ := StatusUpdate KZone zone in
  Ret (requeue_after after, None).

Definition markFailed (zone : Zone) (msg : string) : prog Outcome :=
  let zone := set_zst_failure ZonePhaseFailed msg zone in
  let zone := zone_cond ConditionReady ConditionFalse "InvalidSpec" msg zone in
  try! zone := StatusUpdate KZone zone in
  let! _ := event KZone zone EventTypeWarning "InvalidSpec" msg in
  Ret (no_requeue, None).

Definition createZone (zone : Zone) (pc : Client) : prog (res PZone) :=
  let name := zs_ZoneName (zn_Spec zone) in
  try! created := CreateZone pc (newZone zone) in
  let registered : prog (res PZone) :=
    let! _ := event KZone zone EventTypeNormal "ZoneCreated" ("registered " +:+ name +:+ " in PowerDNS") in
    Ret (Ok created) in
  if wantKind zone != ZoneKindSecondary then
    let! e := PatchRRSets pc name [soaSeed zone] in
    match e with
    | Some e =>
        let! derr := DeleteZone pc name in
        match derr with
        | Some _ =>
            let! _ := event KZone zone EventTypeWarning "SOASeedFailed"
              ("zone created but SOA seed and compensating delete both failed; zone keeps the PowerDNS default SOA: "
               +:+ Error e) in
            Ret (Err (wrap_err "seed SOA: " e))
        | None => Ret (Err (wrap_err "seed SOA (zone rolled back, will retry): " e))
        end
    | None => registered
    end
  else registered.

Definition ensureDNSSEC (zone : Zone) (pc : Client) : prog (res (list string)) :=
  let name := zs_ZoneName (zn_Spec zone) in
  try! keys := ListCryptokeys pc name in
  if negb (dnssec_Enabled (zs_DNSSEC (zn_Spec zone))) then
    check! for_each keys (fun k =>
      if negb (ck_Active k) then done_ok
      else UpdateCryptokey pc name (set_ck_Active false k)) in
    Ret (Ok [])
  else
    try! keys :=
      (if negb (existsb ck_Active keys) then
        check! match keys with
               | k :: _ => UpdateCryptokey pc name (set_ck_Active true k)
               | [] => only_err (CreateCryptokey pc name newKey)
               end in
        check! RectifyZone pc name in
        ListCryptokeys pc name
      else Ret (Ok keys)) in
    Ret (Ok (activeDS keys)).

(** The zone in PowerDNS: found, created, or adopted after a lost create. *)
Definition register (zone : Zone) (pc : Client) : prog (res PZone) :=
  let name := zs_ZoneName (zn_Spec zone) in
  let! r := GetZone pc name in
  match r with
  | Err e =>
      if errors_Is e ErrNotFound then
        let! r := createZone zone pc in
        match r with
        | Err e => if errors_Is e ErrAlreadyExists then GetZone pc name else Ret (Err e)
        | Ok pz => Ret (Ok pz)
        end
      else Ret (Err e)
  | Ok pz => Ret (Ok pz)
  end.

Definition reconcileZone (zone : Zone) (pc : Client) : prog Outcome :=
  let name := zs_ZoneName (zn_Spec zone) in
  let! r := register zone pc in
  match r with
  | Err e =>
      let zone := zone_cond ConditionRegistered ConditionFalse (apiReason e) (Error e) zone in
      markNotReady zone (apiReason e) (Error e) requeueLong
  | Ok pz =>
      let zone := zone_cond ConditionRegistered ConditionTrue "ZoneExists" "zone registered in PowerDNS" zone in
      let! uerr :=
        (if (pz_Kind pz != wantKind zone)
            || negb (bool_decide (elems (pz_Masters pz) = elems (zs_Masters (zn_Spec zone)))) then
           UpdateZone pc name {| zu_Kind := wantKind zone; zu_Masters := zs_Masters (zn_Spec zone) |}
         else done_ok) in
      match uerr with
      | Some uerr => markNotReady zone (apiReason uerr) (Error uerr) requeueLong
      | None =>
          let! r := ensureDNSSEC zone pc in
          match r with
          | Err derr =>
              let zone := zone_cond ConditionDNSSECReady ConditionFalse (apiReason derr) (Error derr) zone in
              markNotReady zone (apiReason derr) (Error derr) requeueLong
          | Ok ds =>
              let zone := set_zst_DSRecords ds zone in
              let zone :=
                if dnssec_Enabled (zs_DNSSEC (zn_Spec zone)) then
                  zone_cond ConditionDNSSECReady ConditionTrue "Secured"
                    "zone is signed; lodge status.dsRecords at the registrar" zone
                else zone_cond ConditionDNSSECReady ConditionFalse "Disabled" "dnssec not enabled" zone in
              let zone := set_zst_ready (pz_Serial pz) zone in
              let zone := zone_cond ConditionReady ConditionTrue "Reconciled" "" zone in
              try! _ := StatusUpdate KZone zone in
              Ret (requeue_after resyncInterval, None)
          end
      end
  end.

Definition release (zone : Zone) : prog Outcome :=
  let! r := Update KZone (set_zn_Meta (RemoveFinalizer (zn_Meta zone) zoneFinalizer) zone) in
  Ret (no_requeue, error_of r).

Definition reconcileDelete (zone : Zone) : prog Outcome :=
  if negb (ContainsFinalizer (zn_Meta zone) zoneFinalizer) then Ret (no_requeue, None)
  else if zs_DeletionPolicy (zn_Spec zone) != DeletionPolicyOrphan then
    let! r := Get KServer (serverKeyFor zone) in
    match r with
    | Err e => if IsNotFound e then release zone else Ret (no_requeue, Some e)
    | Ok server =>
        if negb (deletion_IsZero (srv_Meta server)) || (pst_Phase (srv_Status server) == PhaseFailed) then
          release zone
        else
          try! pc := pdnsClientFor server in
          check! DeleteZone pc (zs_ZoneName (zn_Spec zone)) in
          let! _ := event KZone zone EventTypeNormal "ZoneDeleted"
            ("removed " +:+ zs_ZoneName (zn_Spec zone) +:+ " from PowerDNS") in
          release zone
    end
  else release zone.

Definition Reconcile (key : NamespacedName) : prog Outcome :=
  let! r := Get KZone key in
  match r with
  | Err e => Ret (no_requeue, IgnoreNotFound (Some e))
  | Ok zone =>
      let meta := zn_Meta zone in
      if negb (deletion_IsZero meta) then reconcileDelete zone
      else if negb (ContainsFinalizer meta zoneFinalizer) then
        try! _ := Update KZone (set_zn_Meta (AddFinalizer meta zoneFinalizer) zone) in
        Ret (requeue_now, None)
      else if (zs_Kind (zn_Spec zone) == ZoneKindSecondary) && dnssec_Enabled (zs_DNSSEC (zn_Spec zone)) then
        markFailed zone "dnssec cannot be enabled on Secondary zones — sign at the primary"
      else
        let! r := Get KServer (serverKeyFor zone) in
        match r with
        | Err e =>
            if IsNotFound e then
              markNotReady zone "ServerNotFound"
                ("PowerDNSServer " +:+ nn_String (serverKeyFor zone) +:+ " not found") requeueLong
            else Ret (no_requeue, Some e)
        | Ok server =>
            if negb (namespaceAllowed server (om_Namespace meta)) then
              markNotReady zone "NamespaceNotAllowed"
                ("namespace " +:+ quote (om_Namespace meta) +:+ " is not allowed by "
                 +:+ om_Namespace (srv_Meta server) +:+ "/" +:+ om_Name (srv_Meta server)
                 +:+ " spec.zoneManagement.allowedNamespaces") requeueLong
            else if pst_Phase (srv_Status server) != PhaseReady then
              markNotReady zone "ServerNotReady" "PowerDNSServer is not Ready yet" requeueShort
            else
              let! r := pdnsClientFor server in
              match r with
              | Err e => markNotReady zone "APIUnreachable" (Error e) requeueLong
              | Ok pc => reconcileZone zone pc
              end
        end
  end.

(** The requests for the Zones of a server, from the index. *)
Definition zonesForServer (server : PowerDNSServer) : prog (list NamespacedName) :=
  let! r := do_op (OListIndex KZone zoneServerIndex
              (om_Namespace (srv_Meta server) +:+ "/" +:+ om_Name (srv_Meta server))) in
  Ret (match r with Err _ => [] | Ok zones => map (obj_key KZone) zones end).
End reconciler.

(** The index function registered for Zones. *)
Definition zone_index (z : Zone) : list string :=
  [refKey (zs_ServerRef (zn_Spec z)) (om_Namespace (zn_Meta z))].

(** ** The HTTP sessions of a pass *)

(** The requests of the reconciler and what their answers mean. *)
Definition zone_answer (name : string) (x : http_result) : res PZone :=
  do_result MethodGet (zonePath name) (into dec_zone) x.
Definition post_answer (x : http_result) : res PZone :=
  do_result MethodPost "/servers/localhost/zones" (into dec_zone) x.
Definition patch_answer (name : string) (x : http_result) : res unit :=
  do_result MethodPatch (zonePath name) no_out x.
Definition delete_answer (name : string) (x : http_result) : option err :=
  match do_result MethodDelete (zonePath name) no_out x with
  | Err e => if errors_Is e ErrNotFound then None else Some e
  | Ok _ => None
  end.
Definition keys_answer (name : string) (x : http_result) : res (list Cryptokey) :=
  do_result MethodGet (zonePath name +:+ "/cryptokeys") (into dec_keys) x.

Definition get_zone_req (pc : Client) (name : string) : HttpRequest := request pc MethodGet (zonePath name) None.
Definition post_zone_req (pc : Client) (zone : Zone) : HttpRequest :=
  request pc MethodPost "/servers/localhost/zones" (Some (enc_zone (newZone zone))).
Definition patch_req (pc : Client) (name : string) (l : list PRRSet) : HttpRequest :=
  request pc MethodPatch (zonePath name) (Some (enc_patch l)).
Definition delete_zone_req (pc : Client) (name : string) : HttpRequest :=
  request pc MethodDelete (zonePath name) None.
Definition list_keys_req (pc : Client) (name : string) : HttpRequest :=
  request pc MethodGet (zonePath name +:+ "/cryptokeys") None.
Definition put_key_req (pc : Client) (name : string) (k : Cryptokey) : HttpRequest :=
  request pc MethodPut (zonePath name +:+ "/cryptokeys/" +:+ itoa (ck_ID k)) (Some (enc_key k)).
Definition post_key_req (pc : Client) (name : string) : HttpRequest :=
  request pc MethodPost (zonePath name +:+ "/cryptokeys") (Some (enc_key newKey)).
Definition rectify_req (pc : Client) (name : string) : HttpRequest :=
  request pc MethodPut (zonePath name +:+ "/rectify") None.

Definition not_found {A} (r : res A) : Prop := exists e, r = Err e /\ errors_Is e ErrNotFound = true.
Definition already_exists (e : err) : Prop := errors_Is e ErrAlreadyExists = true.

(** createZone: a POST; for a zone that is not Secondary, the SOA seed right
    after a successful POST; and a compensating DELETE right after a failed
    seed. *)
Inductive create_session (zone : Zone) (pc : Client) :
    list (HttpRequest * http_result) -> res PZone -> Prop :=
| create_failed x e :
    post_answer x = Err e -> create_session zone pc [(post_zone_req pc zone, x)] (Err e)
| create_secondary x pz :
    post_answer x = Ok pz -> wantKind zone = ZoneKindSecondary ->
    create_session zone pc [(post_zone_req pc zone, x)] (Ok pz)
| create_seeded x pz y :
    post_answer x = Ok pz -> wantKind zone <> ZoneKindSecondary ->
    patch_answer (zs_ZoneName (zn_Spec zone)) y = Ok tt ->
    create_session zone pc
      [(post_zone_req pc zone, x); (patch_req pc (zs_ZoneName (zn_Spec zone)) [soaSeed zone], y)] (Ok pz)
| create_rolled_back x pz y e d e' :
    post_answer x = Ok pz -> wantKind zone <> ZoneKindSecondary ->
    patch_answer (zs_ZoneName (zn_Spec zone)) y = Err e ->
    (exists pre, e' = wrap_err pre e) ->
    create_session zone pc
      [(post_zone_req pc zone, x); (patch_req pc (zs_ZoneName (zn_Spec zone)) [soaSeed zone], y);
       (delete_zone_req pc (zs_ZoneName (zn_Spec zone)), d)] (Err e').

(** Registration: an existing zone is only read; a missing one is created; a
    creation that reports that the zone exists is followed by a second read,
    whose zone is adopted. *)
Inductive register_session (zone : Zone) (pc : Client) :
    list (HttpRequest * http_result) -> res PZone -> Prop :=
| register_read x :
    ~ not_found (zone_answer (zs_ZoneName (zn_Spec zone)) x) ->
    register_session zone pc [(get_zone_req pc (zs_ZoneName (zn_Spec zone)), x)]
      (zone_answer (zs_ZoneName (zn_Spec zone)) x)
| register_created x l r :
    not_found (zone_answer (zs_ZoneName (zn_Spec zone)) x) ->
    create_session zone pc l r -> (forall e, r = Err e -> ~ already_exists e) ->
    register_session zone pc ((get_zone_req pc (zs_ZoneName (zn_Spec zone)), x) :: l) r
| register_adopted x l e y :
    not_found (zone_answer (zs_ZoneName (zn_Spec zone)) x) ->
    create_session zone pc l (Err e) -> already_exists e ->
    register_session zone pc
      ((get_zone_req pc (zs_ZoneName (zn_Spec zone)), x) :: l
         ++ [(get_zone_req pc (zs_ZoneName (zn_Spec zone)), y)])
      (zone_answer (zs_ZoneName (zn_Spec zone)) y).

(** What a successful pass over the keys sends: nothing but a read when
    signing is on and a key is active; otherwise one key is activated, or
    created when there is none, then the zone is rectified and the keys read
    again; when signing is off each active key is deactivated. Keys are never
    deleted. *)
Inductive dnssec_session (zone : Zone) (pc : Client) :
    list (HttpRequest * http_result) -> list string -> Prop :=
| dnssec_off x keys l :
    dnssec_Enabled (zs_DNSSEC (zn_Spec zone)) = false ->
    keys_answer (zs_ZoneName (zn_Spec zone)) x = Ok keys ->
    map fst l = map (fun k => put_key_req pc (zs_ZoneName (zn_Spec zone)) (set_ck_Active false k))
                  (List.filter ck_Active keys) ->
    dnssec_session zone pc ((list_keys_req pc (zs_ZoneName (zn_Spec zone)), x) :: l) []
| dnssec_active x keys :
    dnssec_Enabled (zs_DNSSEC (zn_Spec zone)) = true ->
    keys_answer (zs_ZoneName (zn_Spec zone)) x = Ok keys -> existsb ck_Active keys = true ->
    dnssec_session zone pc [(list_keys_req pc (zs_ZoneName (zn_Spec zone)), x)] (activeDS keys)
| dnssec_activate x k keys y z w keys' :
    dnssec_Enabled (zs_DNSSEC (zn_Spec zone)) = true ->
    keys_answer (zs_ZoneName (zn_Spec zone)) x = Ok (k :: keys) -> existsb ck_Active (k :: keys) = false ->
    keys_answer (zs_ZoneName (zn_Spec zone)) w = Ok keys' ->
    dnssec_session zone pc
      [(list_keys_req pc (zs_ZoneName (zn_Spec zone)), x);
       (put_key_req pc (zs_ZoneName (zn_Spec zone)) (set_ck_Active true k), y);
       (rectify_req pc (zs_ZoneName (zn_Spec zone)), z);
       (list_keys_req pc (zs_ZoneName (zn_Spec zone)), w)] (activeDS keys')
| dnssec_create x y z w keys' :
    dnssec_Enabled (zs_DNSSEC (zn_Spec zone)) = true ->
    keys_answer (zs_ZoneName (zn_Spec zone)) x = Ok [] ->
    keys_answer (zs_ZoneName (zn_Spec zone)) w = Ok keys' ->
    dnssec_session zone pc
      [(list_keys_req pc (zs_ZoneName (zn_Spec zone)), x); (post_key_req pc (zs_ZoneName (zn_Spec zone)), y);
       (rectify_req pc (zs_ZoneName (zn_Spec zone)), z);
       (list_keys_req pc (zs_ZoneName (zn_Spec zone)), w)] (activeDS keys').

Lemma CreateZone_newZone pc zone :
  CreateZone pc (newZone zone)
  = do_req pc MethodPost "/servers/localhost/zones" (Some (enc_zone (newZone zone))) (into dec_zone).
Proof. unfold CreateZone, newZone. cbn [pz_Nameservers]. by destruct (zs_Nameservers (zn_Spec zone)). Qed.

Section sessions.
Context `{Machinery, Reconciler}.

Lemma createZone_session zone pc :
  wp (createZone zone pc) (fun t r => create_session zone pc (http_exchanges t) r).
Proof.
  unfold createZone, event. rewrite CreateZone_newZone.
  unfold PatchRRSets, DeleteZone, do_req, err_of.
  wp_run; exchanges; bool_prop.
  all: try solve [by eapply create_failed].
  all: try solve [by eapply create_secondary].
  all: try solve [by eapply create_rolled_back; eauto].
  all: repeat match goal with u : unit |- _ => destruct u end; by eapply create_seeded.
Qed.

Lemma register_session_wp zone pc :
  wp (register zone pc) (fun t r => register_session zone pc (http_exchanges t) r).
Proof.
  unfold register, GetZone, do_req. cbn [wp bind do_op]. intros x.
  destruct (do_result MethodGet _ _ x) as [pz|e] eqn:Ex; cbn [wp].
  - exchanges. rewrite <- Ex. apply register_read. unfold zone_answer, not_found. rewrite Ex. naive_solver.
  - destruct (errors_Is e ErrNotFound) eqn:Enf; cbn [wp].
    + assert (Hnf : not_found (zone_answer (zs_ZoneName (zn_Spec zone)) x)) by (by exists e).
      apply wp_bind. eapply wp_mono; [|apply createZone_session]. intros t [pz|e2] Hc; cbn [wp].
      * rewrite app_nil_r. exchanges. by apply register_created.
      * destruct (errors_Is e2 ErrAlreadyExists) eqn:Eae; cbn [wp bind do_op].
        -- intros y. exchanges. rewrite omap_app. exchanges. by eapply register_adopted.
        -- rewrite app_nil_r. exchanges. apply register_created; [done..|].
           unfold already_exists. naive_solver congruence.
    + exchanges. rewrite <- Ex. apply register_read. unfold zone_answer, not_found. rewrite Ex. naive_solver congruence.
Qed.
Lemma deactivate_wp zone pc keys :
  wp (for_each keys (fun k => if negb (ck_Active k) then done_ok
                              else UpdateCryptokey pc (zs_ZoneName (zn_Spec zone)) (set_ck_Active false k)))
     (fun t r => r = None -> map fst (http_exchanges t)
        = map (fun k => put_key_req pc (zs_ZoneName (zn_Spec zone)) (set_ck_Active false k))
            (List.filter ck_Active keys)).
Proof.
  induction keys as [|k keys IH]; [done|]. cbn [for_each List.filter].
  destruct (ck_Active k); cbn [negb].
  - unfold UpdateCryptokey, do_req, err_of. cbn [wp bind do_op try_err].
    intros x. destruct (do_result _ _ _ x) as [u|e]; cbn [wp]; [|done].
    eapply wp_mono; [|apply IH]. intros t r Ht ->. exchanges. cbn [map fst]. by rewrite <- Ht.
  - apply IH.
Qed.

Lemma ensureDNSSEC_session zone pc :
  wp (ensureDNSSEC zone pc) (fun t r => forall ds, r = Ok ds -> dnssec_session zone pc (http_exchanges t) ds).
Proof.
  unfold ensureDNSSEC, ListCryptokeys, do_req. unfold try_res at 1. cbn [wp bind do_op]. intros x.
  destruct (do_result MethodGet _ _ x) as [keys|e] eqn:Ex; cbn [wp]; [|done].
  destruct (dnssec_Enabled _) eqn:Een; cbn [negb].
  - destruct (existsb ck_Active keys) eqn:Eact; cbn [negb].
    + unfold try_res. cbn [wp bind]. intros ds [= <-]. exchanges. by eapply dnssec_active.
    + destruct keys as [|k keys]; unfold UpdateCryptokey, CreateCryptokey, RectifyZone, ListCryptokeys, do_req,
        err_of, only_err; wp_run; intros ds ?; simplify_eq; exchanges.
      * by eapply dnssec_create.
      * by eapply dnssec_activate.
  - unfold try_err. apply wp_bind. eapply wp_mono; [|apply deactivate_wp].
    intros t [e|] Ht; cbn [wp]; [done|]. intros ds [= <-]. rewrite app_nil_r. exchanges.
    eapply dnssec_off; [done|done|by apply Ht].
Qed.
End sessions.

(** ** Guards, status and release *)

(** The conditions under which a Zone is reconciled against PowerDNS. *)
Record zone_apply_guards (zone : Zone) (server : PowerDNSServer) : Prop := {
  zg_live : deletion_IsZero (zn_Meta zone) = true;
  zg_kind : ~ (zs_Kind (zn_Spec zone) = ZoneKindSecondary /\ dnssec_Enabled (zs_DNSSEC (zn_Spec zone)) = true);
  zg_allowed : namespaceAllowed server (om_Namespace (zn_Meta zone)) = true;
  zg_server : pst_Phase (srv_Status server) = PhaseReady;
}.

(** The conditions under which its deletion reaches PowerDNS. *)
Record zone_delete_guards (zone : Zone) (server : PowerDNSServer) : Prop := {
  zd_deleted : deletion_IsZero (zn_Meta zone) = false;
  zd_policy : zs_DeletionPolicy (zn_Spec zone) <> DeletionPolicyOrphan;
  zd_server_live : deletion_IsZero (srv_Meta server) = true;
  zd_server : pst_Phase (srv_Status server) <> PhaseFailed;
}.

(** A request that neither edits records nor deletes anything. *)
Definition metadata_request (r : HttpRequest) : Prop := rq_Method r <> MethodPatch /\ rq_Method r <> MethodDelete.
Definition metadata_op (X : Type) (o : op X) : Prop :=
  match o with OHttp r => metadata_request r | _ => True end.

(** A registration session, then requests on the zone's metadata only. *)
Definition zone_session (zone : Zone) (pc : Client) (l : list (HttpRequest * http_result)) : Prop :=
  exists l1 r l2, l = l1 ++ l2 /\ register_session zone pc l1 r
    /\ Forall (fun x => metadata_request x.1) l2 /\ (forall e, r = Err e -> l2 = []).

Definition zone_guarded (key : NamespacedName) (t : list obs) : Prop :=
  http_exchanges t = []
  \/ exists zone server pc,
       Ev (OGet KZone key) (Ok zone) ∈ t /\ Ev (OGet KServer (serverKeyFor zone)) (Ok server) ∈ t
       /\ ((zone_apply_guards zone server /\ zone_session zone pc (http_exchanges t))
           \/ (zone_delete_guards zone server
               /\ exists x, http_exchanges t = [(delete_zone_req pc (zs_ZoneName (zn_Spec zone)), x)])).

(** A status that the reconciler may write. *)
Definition zone_status_ok (z : Zone) : Prop :=
  let st := zn_Status z in
  exists ready, find_cond ConditionReady (zst_Conditions st) = Some ready
    /\ c_ObservedGeneration ready = om_Generation (zn_Meta z)
    /\ ((zst_Phase st = ZonePhaseReady /\ c_Status ready = ConditionTrue /\ zst_FailureMessage st = ""
         /\ zst_ObservedGeneration st = om_Generation (zn_Meta z)
         /\ (exists reg, find_cond ConditionRegistered (zst_Conditions st) = Some reg
              /\ c_Status reg = ConditionTrue)
         /\ exists sec, find_cond ConditionDNSSECReady (zst_Conditions st) = Some sec
              /\ (c_Status sec = ConditionTrue <-> dnssec_Enabled (zs_DNSSEC (zn_Spec z)) = true))
        \/ (zst_Phase st <> ZonePhaseReady /\ c_Status ready = ConditionFalse
            /\ c_Message ready = zst_FailureMessage st)).
Definition zone_status_op (X : Type) (o : op X) : Prop :=
  match o with
  | OStatusUpdate k z =>
      match k return obj_of k -> Prop with KZone => zone_status_ok | _ => fun _ => True end z
  | _ => True
  end.

(** The Zones that a trace wrote (not their status). *)
Definition zone_update (e : obs) : option Zone :=
  match ev_op e with
  | OUpdate k z => match k return obj_of k -> option Zone with KZone => Some | _ => fun _ => None end z
  | _ => None
  end.
Definition zone_updates (t : list obs) : list Zone := omap zone_update t.

(** Why the finalizer of a zone may be removed. *)
Definition zone_release_justified (zone : Zone) (t : list obs) : Prop :=
  deletion_IsZero (zn_Meta zone) = false
  /\ (zs_DeletionPolicy (zn_Spec zone) = DeletionPolicyOrphan
      \/ (exists e, Ev (OGet KServer (serverKeyFor zone)) (Err e) ∈ t /\ IsNotFound e = true)
      \/ (exists server, Ev (OGet KServer (serverKeyFor zone)) (Ok server) ∈ t
           /\ (deletion_IsZero (srv_Meta server) = false \/ pst_Phase (srv_Status server) = PhaseFailed))
      \/ (exists pc x, (delete_zone_req pc (zs_ZoneName (zn_Spec zone)), x) ∈ http_exchanges t
           /\ delete_answer (zs_ZoneName (zn_Spec zone)) x = None)).

Section guards.
Context `{Machinery, Reconciler}.

Lemma metadata_get pc path body : metadata_request (request pc MethodGet path body).
Proof. done. Qed.
Lemma metadata_put pc path body : metadata_request (request pc MethodPut path body).
Proof. done. Qed.
Lemma metadata_post pc path body : metadata_request (request pc MethodPost path body).
Proof. done. Qed.

Lemma markNotReady_no_http zone reason msg after :
  wp (markNotReady zone reason msg after) (fun t _ => http_exchanges t = []).
Proof. apply no_http_wp. unfold no_http, markNotReady, StatusUpdate. all_ops_run. done. Qed.

Lemma ensureDNSSEC_metadata zone pc : all_ops metadata_op (ensureDNSSEC zone pc).
Proof.
  unfold ensureDNSSEC, ListCryptokeys, UpdateCryptokey, CreateCryptokey, RectifyZone, do_req, err_of, only_err.
  all_ops_run; done.
Qed.

Lemma reconcileZone_session zone pc :
  wp (reconcileZone zone pc) (fun t _ => zone_session zone pc (http_exchanges t)).
Proof.
  unfold reconcileZone. apply wp_bind. eapply wp_mono; [|apply register_session_wp].
  intros t1 [pz|e] Hr; cbv zeta.
  - eapply wp_mono; [|apply (all_ops_wp metadata_op)].
    + intros t2 a Ht2. rewrite http_exchanges_app.
      exists (http_exchanges t1), (Ok pz), (http_exchanges t2). split; [done|]. split; [done|].
      split; [by apply (exchanges_all_ops metadata_op) in Ht2|done].
    + unfold UpdateZone, do_req, err_of, markNotReady, StatusUpdate.
      all_ops_run; try done; apply ensureDNSSEC_metadata.
  - eapply wp_mono; [|apply markNotReady_no_http]. intros t2 a Ht2. cbn beta in Ht2.
    rewrite http_exchanges_app, Ht2, app_nil_r. exists (http_exchanges t1), (Err e), [].
    split; [by rewrite app_nil_r|]. split; [done|]. split; [constructor|done].
Qed.

Lemma zone_Reconcile_guarded key : wp (Reconcile key) (fun t _ => zone_guarded key t).
Proof.
  unfold Reconcile, reconcileDelete, release, markNotReady, markFailed, pdnsClientFor, DeleteZone, do_req, err_of,
    event, StatusUpdate, Get, Update.
  wp_run; try (by left); bool_prop; subst.
  all: try match goal with |- wp (reconcileZone _ _) _ =>
    eapply wp_mono; [|apply reconcileZone_session]; intros t1 r1 Hs; cbn beta in Hs |- * end.
  all: right; do 3 eexists; split_and!; [in_trace|in_trace|].
  all: try solve [right; split; [by split|eexists; by exchanges]].
  all: left; rewrite !http_exchanges_cons by done; split; [|done].
  all: split; try done; bool_prop.
  all: intros [E1 E2]; apply andb_false_iff in Heqb1 as [?|?]; bool_prop; congruence.
Qed.
End guards.

Section laws.
Context `{MachineryLaws, Reconciler}.

Lemma zone_cond_same ty status reason msg z :
  find_cond ty (zst_Conditions (zn_Status (zone_cond ty status reason msg z)))
  = Some {| c_Type := ty; c_Status := status; c_Reason := reason; c_Message := msg;
            c_ObservedGeneration := om_Generation (zn_Meta z) |}.
Proof.
  exact (SetStatusCondition_same _ {| c_Type := ty; c_Status := status; c_Reason := reason; c_Message := msg;
    c_ObservedGeneration := om_Generation (zn_Meta z) |}).
Qed.

Lemma zone_cond_other ty ty' status reason msg z :
  ty' <> ty ->
  find_cond ty' (zst_Conditions (zn_Status (zone_cond ty status reason msg z)))
  = find_cond ty' (zst_Conditions (zn_Status z)).
Proof.
  exact (SetStatusCondition_other _ {| c_Type := ty; c_Status := status; c_Reason := reason; c_Message := msg;
    c_ObservedGeneration := om_Generation (zn_Meta z) |} ty').
Qed.

Lemma not_ready_status_ok zone phase reason msg :
  phase <> ZonePhaseReady ->
  zone_status_ok (zone_cond ConditionReady ConditionFalse reason msg (set_zst_failure phase msg zone)).
Proof.
  intros Hp. eexists. split; [apply zone_cond_same|]. split; [done|]. right. done.
Qed.

Lemma markNotReady_status zone reason msg after : all_ops zone_status_op (markNotReady zone reason msg after).
Proof. unfold markNotReady, StatusUpdate. all_ops_run. by apply not_ready_status_ok. Qed.

Lemma ready_status_ok zone ds serial s1 r1 m1 :
  (s1 = ConditionTrue <-> dnssec_Enabled (zs_DNSSEC (zn_Spec zone)) = true) ->
  zone_status_ok
    (zone_cond ConditionReady ConditionTrue "Reconciled" "" (set_zst_ready serial
      (zone_cond ConditionDNSSECReady s1 r1 m1 (set_zst_DSRecords ds
        (zone_cond ConditionRegistered ConditionTrue "ZoneExists" "zone registered in PowerDNS" zone))))).
Proof.
  intros Hs. eexists. split; [apply zone_cond_same|]. split; [done|]. left. split_and!; try done.
  - eexists. split.
    + rewrite zone_cond_other by done. etransitivity; [by apply zone_cond_other|]. apply zone_cond_same.
    + done.
  - eexists. split.
    + rewrite zone_cond_other by done. apply zone_cond_same.
    + exact Hs.
Qed.

Lemma no_status_ops {A} (p : prog A) :
  all_ops (fun _ o => match o with OStatusUpdate _ _ => False | _ => True end) p -> all_ops zone_status_op p.
Proof. apply all_ops_mono. by intros X []. Qed.

Lemma zone_Reconcile_status key : all_ops zone_status_op (Reconcile key).
Proof.
  unfold Reconcile, reconcileDelete, release, reconcileZone, markFailed, pdnsClientFor, event, StatusUpdate, Get,
    Update, DeleteZone, UpdateZone, do_req, err_of.
  all_ops_run; try done; try apply markNotReady_status.
  - by apply not_ready_status_ok.
  - apply no_status_ops.
    unfold register, createZone, event, GetZone, CreateZone, PatchRRSets, DeleteZone, do_req, err_of.
    all_ops_run; done.
  - apply no_status_ops.
    unfold ensureDNSSEC, ListCryptokeys, UpdateCryptokey, CreateCryptokey, RectifyZone, do_req, err_of, only_err.
    all_ops_run; done.
  - unfold zone_status_op.
    match goal with |- context [if ?b then _ else _] =>
      change b with (dnssec_Enabled (zs_DNSSEC (zn_Spec a0))) end.
    destruct (dnssec_Enabled (zs_DNSSEC (zn_Spec a0))) eqn:E; apply ready_status_ok; rewrite E; by split.
Qed.

(** Programs that write no Zone. *)
Lemma no_zone_updates {A} (p : prog A) :
  all_ops (fun _ o => match o with OUpdate _ _ => False | _ => True end) p ->
  wp p (fun t _ => zone_updates t = []).
Proof.
  intros Hp. eapply wp_mono; [|by apply all_ops_wp]. intros t a HF. cbn beta in HF.
  induction t as [|[X o x] t IH]; [done|]. apply Forall_cons in HF as [Ho HF].
  destruct o; try done; by apply IH.
Qed.

Lemma reconcileZone_no_updates zone pc : wp (reconcileZone zone pc) (fun t _ => zone_updates t = []).
Proof.
  apply no_zone_updates.
  unfold reconcileZone, register, createZone, ensureDNSSEC, markNotReady, event, GetZone, CreateZone,
    PatchRRSets, DeleteZone, UpdateZone, ListCryptokeys, UpdateCryptokey, CreateCryptokey, RectifyZone, do_req,
    err_of, only_err, StatusUpdate.
  all_ops_run; done.
Qed.

Lemma zone_updates_cons X (o : op X) x t :
  match o with OUpdate _ _ => False | _ => True end -> zone_updates (Ev o x :: t) = zone_updates t.
Proof. by destruct o. Qed.

Lemma zone_Reconcile_release key :
  wp (Reconcile key) (fun t _ => forall z, z ∈ zone_updates t ->
    ContainsFinalizer (zn_Meta z) zoneFinalizer = false ->
    exists zone, Ev (OGet KZone key) (Ok zone) ∈ t /\ zone_release_justified zone t).
Proof.
  unfold Reconcile, reconcileDelete, release, markNotReady, markFailed, pdnsClientFor, DeleteZone, do_req, err_of,
    event, StatusUpdate, Get, Update.
  wp_run; bool_prop; subst.
  all: try match goal with |- wp (reconcileZone _ _) _ =>
    eapply wp_mono; [|apply reconcileZone_no_updates]; intros t1 r1 Hs; cbn beta in Hs |- * end.
  all: intros z Hz Hf; rewrite ?zone_updates_cons in Hz by done; rewrite ?Hs in Hz.
  all: try solve [by apply elem_of_nil in Hz].
  all: try solve [apply list_elem_of_singleton in Hz as ->; cbn in Hf;
                  by rewrite ContainsFinalizer_add in Hf].
  all: eexists; (split; [in_trace|]); split; [done|].
  all: first
    [ by left
    | right; left; eexists; split; [in_trace|done]
    | right; right; left; eexists; split; [in_trace|];
      match goal with E : (_ || _) = true |- _ => apply orb_true_iff in E as [?|?] end; bool_prop; by auto
    | right; right; right; eexists _, _; split; [exchanges; apply list_elem_of_here|]; unfold delete_answer;
      repeat match goal with E : ?x = _ |- context [match ?x with _ => _ end] => rewrite E end; done ].
Qed.
End laws.

(** C1. Whatever Kubernetes and PowerDNS answer, one pass over a Zone sends
    nothing to PowerDNS, or it read the Zone and its server and: either the
    Zone is live, is not a signed Secondary, and its server is Ready and
    admits its namespace, and then the session is a registration (existing
    zones are only read, the SOA is patched only right after a successful
    POST, the only DELETE compensates a failed seed, a lost creation is
    adopted) followed by requests that edit no record and delete nothing; or
    the Zone is deleted under a policy other than Orphan while its server is
    live and not Failed, and then exactly one DELETE of the zone is sent. *)
Theorem zone_reconcile_guarded `{Machinery, Reconciler} (key : NamespacedName) :
  wp (Reconcile key) (fun t _ => zone_guarded key t).
Proof. apply zone_Reconcile_guarded. Qed.

(** A successful pass over the keys of a zone against any answers:
    nothing is sent but one read when signing is on and a key is active;
    otherwise a listed key is activated, or one is created when none is
    listed, then the zone is rectified and the keys are read again; with
    signing off exactly the active keys are deactivated. No key is deleted,
    and the DS records reported are those of the active keys last read. *)
Theorem zone_dnssec_sessions `{Machinery, Reconciler} (zone : Zone) (pc : Client) :
  wp (ensureDNSSEC zone pc)
     (fun t r => forall ds, r = Ok ds -> dnssec_session zone pc (http_exchanges t) ds).
Proof. apply ensureDNSSEC_session. Qed.

(** C21. Every status that the Zone reconciler writes is consistent: the
    phase is Ready exactly when the Ready condition is True, and then the
    zone is registered, the failure message is empty, the generation is the
    observed one and DNSSECReady says whether signing is on; otherwise Ready
    is False and carries the failure message. *)
Theorem zone_status_consistent `{MachineryLaws, Reconciler} (key : NamespacedName) :
  all_ops zone_status_op (Reconcile key).
Proof. apply zone_Reconcile_status. Qed.

Lemma zone_status_consistent_witness :
  all_ops zone_status_op (@Reconcile RefMachinery {| HasRecorder := true |} (NN "dns" "example")).
Proof. apply zone_status_consistent. Defined.

(** C18. The finalizer of a Zone is removed only from a Zone under deletion,
    and only if its policy is Orphan, its server is gone, deleting or Failed,
    or PowerDNS answered its DELETE with success or not found. *)
Theorem zone_release_safe `{MachineryLaws, Reconciler} (key : NamespacedName) :
  wp (Reconcile key) (fun t _ => forall z, z ∈ zone_updates t ->
    ContainsFinalizer (zn_Meta z) zoneFinalizer = false ->
    exists zone, Ev (OGet KZone key) (Ok zone) ∈ t /\ zone_release_justified zone t).
Proof. apply zone_Reconcile_release. Qed.

Lemma zone_release_safe_witness :
  wp (@Reconcile RefMachinery {| HasRecorder := true |} (NN "dns" "example"))
    (fun t _ => forall z, z ∈ zone_updates t ->
      ContainsFinalizer (zn_Meta z) zoneFinalizer = false ->
      exists zone, Ev (OGet KZone (NN "dns" "example")) (Ok zone) ∈ t /\ zone_release_justified zone t).
Proof. apply zone_release_safe. Defined.
