(* ===== verification/ZoneConvergence.v ===== *)
(** * A pass over a Zone against a PowerDNS that stores zones

    The Zone reconciler against what one PowerDNS server holds of one zone:
    its kind, its masters and its DNSSEC keys, in the terms of the in-memory
    server of the tests (pdnsfake_test.go). An accepted request was performed
    and an answer that can be read is true; a request that fails may have been
    performed, and a read may miss an existing zone. A working server accepts
    what it can. The record content is the subject of RRSetConvergence. *)

From Stdlib Require Import Ascii.
From S2P Require Import Prelude GoStd Meta ApiTypes KubeObjects Samples Effects RefMachinery Environment PdnsClient Manifests Converge ZoneController.

Open Scope go_scope.
Open Scope stdpp_scope.
Open Scope Z_scope.

(** ** Requests about one zone *)

Inductive zone_call :=
| CGet | CCreate | CPut | CDelete | CPatch
| CKeys | CAddKey | CSetKey (id : string) | CRectify
| COther.

(** What a method means on a path below the zone. *)
Definition route (method suffix : string) : zone_call :=
  if suffix == "" then
    if method == MethodGet then CGet else if method == MethodPut then CPut
    else if method == MethodDelete then CDelete else if method == MethodPatch then CPatch else COther
  else if suffix == "/cryptokeys" then
    if method == MethodGet then CKeys else if method == MethodPost then CAddKey else COther
  else if suffix == "/rectify" then if method == MethodPut then CRectify else COther
  else match strip_prefix (chars "/cryptokeys/") (chars suffix) with
       | Some id => if method == MethodPut then CSetKey (of_chars id) else COther
       | None => COther
       end.

Definition call_of (pc : Client) (name : string) (r : HttpRequest) : zone_call :=
  let api := cl_baseURL pc +:+ "/api/v1" in
  match strip_prefix (chars (api +:+ zonePath name)) (chars (rq_URL r)) with
  | Some suffix => route (rq_Method r) (of_chars suffix)
  | None => if (rq_Method r == MethodPost) && (rq_URL r == api +:+ "/servers/localhost/zones") then CCreate else COther
  end.

Lemma strip_prefix_app p s : strip_prefix p (p ++ s) = Some s.
Proof. by apply strip_prefix_Some. Qed.

Lemma call_of_path pc name method suffix body :
  call_of pc name (request pc method (zonePath name +:+ suffix) body) = route method suffix.
Proof.
  unfold call_of, request. cbn [rq_URL rq_Method]. rewrite <- !str_app_assoc, (chars_app (_ +:+ _) suffix), strip_prefix_app.
  by rewrite of_chars_chars.
Qed.

Lemma call_of_zone pc name method body :
  call_of pc name (request pc method (zonePath name) body) = route method "".
Proof. pose proof (call_of_path pc name method "" body) as E. by rewrite str_app_nil_r in E. Qed.

Lemma call_of_create pc name body :
  call_of pc name (request pc MethodPost "/servers/localhost/zones" body) = CCreate.
Proof.
  unfold call_of, request. cbn [rq_URL rq_Method].
  destruct (strip_prefix _ _) as [s|] eqn:E.
  - apply strip_prefix_Some, (f_equal length) in E. unfold zonePath in E.
    rewrite !chars_app, !length_app in E. simpl in E. lia.
  - rewrite !bool_decide_eq_true_2; [done| |done]. by rewrite str_app_assoc.
Qed.

(** ** What the server holds *)

Record held := { hz_Kind : string; hz_Masters : list string; hz_Keys : list Cryptokey }.

(** The zone, when it exists, the methods of the requests that were not
    reads, and the statuses of Zones that the pass wrote, latest first. *)
Record zworld := ZW { zw_zone : option held; zw_writes : list string; zw_statuses : list Zone }.

(** The value that a body carries. *)
Definition decoded {A} (dec : json -> res A) (body : option json) : option A :=
  match body with Some j => match dec j with Ok a => Some a | Err _ => None end | None => None end.

Definition set_active (id : string) (b : bool) (k : Cryptokey) : Cryptokey :=
  if itoa (ck_ID k) == id then set_ck_Active b k else k.
Definition with_keys (f : list Cryptokey -> list Cryptokey) (z : held) : held :=
  {| hz_Kind := hz_Kind z; hz_Masters := hz_Masters z; hz_Keys := f (hz_Keys z) |}.

(** What a performed request does. The server chooses the number and the DS
    records of a new key. *)
Definition performed (c : zone_call) (body : option json) (z z' : option held) : Prop :=
  match c with
  | CGet | CPatch | CKeys | CRectify | COther => z' = z
  | CDelete => z' = None
  | CCreate => exists n, decoded dec_zone body = Some n
      /\ z' = match z with
              | None => Some {| hz_Kind := pz_Kind n; hz_Masters := elems (pz_Masters n); hz_Keys := [] |}
              | Some h => Some h
              end
  | CPut => exists u, decoded dec_update body = Some u
      /\ z' = (fun h => {| hz_Kind := zu_Kind u; hz_Masters := elems (zu_Masters u); hz_Keys := hz_Keys h |}) <$> z
  | CAddKey => exists k id ds, decoded dec_key body = Some k /\ in_int64 id
      /\ z' = with_keys (fun l => l ++ [{| ck_ID := id; ck_KeyType := ck_KeyType k; ck_Active := ck_Active k;
                                           ck_DS := ds |}]) <$> z
  | CSetKey id => exists k, decoded dec_key body = Some k
      /\ z' = with_keys (map (set_active id (ck_Active k))) <$> z
  end.

(** What an accepted answer says about the zone. *)
Definition truthful (name : string) (c : zone_call) (x : http_result) (z : option held) : Prop :=
  match c with
  | CGet => exists h, z = Some h
      /\ forall pz, zone_answer name x = Ok pz -> pz_Kind pz = hz_Kind h /\ elems (pz_Masters pz) = hz_Masters h
  | CKeys => exists h, z = Some h /\ forall keys, keys_answer name x = Ok keys -> keys = hz_Keys h
  | CCreate => z = None
  | COther => True
  | _ => is_Some z
  end.

(** The body says what to do. *)
Definition readable (c : zone_call) (body : option json) : Prop :=
  match c with
  | CCreate => is_Some (decoded dec_zone body)
  | CPut => is_Some (decoded dec_update body)
  | CAddKey | CSetKey _ => is_Some (decoded dec_key body)
  | _ => True
  end.

(** What a working server answers to a readable request. *)
Definition works (name : string) (c : zone_call) (body : option json) (x : http_result) (z : option held) : Prop :=
  match c with
  | CGet => match z with Some _ => exists pz, zone_answer name x = Ok pz | None => not_found (zone_answer name x) end
  | CKeys => is_Some z -> exists keys, keys_answer name x = Ok keys
  | CCreate => z = None -> readable c body -> exists pz, post_answer x = Ok pz
  | CAddKey => is_Some z -> readable c body ->
      exists k, do_result MethodPost (zonePath name +:+ "/cryptokeys") (into dec_key) x = Ok k
  | COther => True
  | _ => is_Some z -> readable c body -> http_accepted x
  end.

(** The method of a request, when it is not a read. *)
Definition non_read (r : HttpRequest) : list string := if rq_Method r == MethodGet then [] else [rq_Method r].

(** The answers of the server about the zone, and of Kubernetes to status
    updates; the flag says whether both work. *)
Definition zone_env (works_ : bool) (pc : Client) (name : string) : environment zworld := fun X o st x st' =>
  match o in op X return X -> Prop with
  | OHttp r => fun x =>
      let c := call_of pc name r in
      zw_statuses st' = zw_statuses st /\ zw_writes st' = non_read r ++ zw_writes st
      /\ ((http_accepted x /\ truthful name c x (zw_zone st) /\ performed c (rq_Body r) (zw_zone st) (zw_zone st'))
          \/ (~ http_accepted x
              /\ (zw_zone st' = zw_zone st \/ performed c (rq_Body r) (zw_zone st) (zw_zone st'))))
      /\ (works_ = true -> works name c (rq_Body r) x (zw_zone st))
  | OStatusUpdate k z => fun x =>
      zw_zone st' = zw_zone st /\ zw_writes st' = zw_writes st
      /\ zw_statuses st' = (match k return obj_of k -> list Zone with KZone => fun z => [z] | _ => fun _ => [] end) z
                             ++ zw_statuses st
      /\ (works_ = true -> exists y, x = Ok y)
  | _ => fun _ => st' = st
  end x.

(** ** The client against the server *)

(** A decoded key has a number in range. *)
Lemma dec_int_range bits j z : dec_int bits j = Ok z -> 0 < bits -> - 2 ^ (bits - 1) <= z < 2 ^ (bits - 1).
Proof.
  unfold dec_int, dec_with. intros E Hb. assert (0 < 2 ^ (bits - 1)) by (apply Z.pow_pos_nonneg; lia).
  destruct j as [[]|]; simplify_eq; try lia. destruct (_ && _) eqn:Ez; [|done]. bool_prop. simplify_eq. lia.
Qed.

Lemma dec_key_range j k : dec_key j = Ok k -> in_int64 (ck_ID k).
Proof.
  unfold dec_key, dec_struct. destruct j; try done; [intros [= <-]; done|].
  destruct (dec_int 64 _) as [i|] eqn:Ei; [|done]. simpl. repeat (destruct (dec_string _); [|done]; simpl).
  repeat (destruct (dec_bool _); [|done]; simpl). destruct (dec_list _ _); [|done]. simpl. intros [= <-].
  by apply (dec_int_range 64 _ _ Ei).
Qed.

Lemma dec_all_Forall {A} (d : json -> res A) (P : A -> Prop) l r :
  (forall j a, d j = Ok a -> P a) -> dec_all d l = Ok r -> Forall P r.
Proof.
  intros Hd. revert r. induction l as [|j l IH]; intros r; simpl; [intros [= <-]; constructor|].
  destruct (d j) eqn:E; [|done]. destruct (dec_all d l); [|done]. intros [= <-]. constructor; eauto.
Qed.

Lemma keys_in_range name x keys : keys_answer name x = Ok keys -> Forall (fun k => in_int64 (ck_ID k)) keys.
Proof.
  intros (r & _ & _ & E)%do_result_value. unfold into, res_bind in E. destruct (resp_JSON r) as [j|]; [|done].
  unfold dec_keys, dec_list, dec_with in E. destruct j; try done; [by injection E as <-|].
  eapply dec_all_Forall; [apply dec_key_range|done].
Qed.

Lemma route_key id : route MethodPut ("/cryptokeys/" +:+ id) = CSetKey id.
Proof.
  unfold route. rewrite !bool_decide_eq_false_2 by done. rewrite chars_app, strip_prefix_app. by rewrite of_chars_chars.
Qed.

(** What the requests of the client carry. *)
Lemma decoded_new_zone zone : decoded dec_zone (Some (enc_zone (newZone zone))) = Some (norm_zone (newZone zone)).
Proof. unfold decoded. by rewrite dec_enc_zone by (split; [unfold in_int64; simpl; lia|constructor]). Qed.
Lemma decoded_update u : decoded dec_update (Some (enc_update u)) = Some u.
Proof. unfold decoded. by rewrite dec_enc_update. Qed.
Lemma decoded_key k : in_int64 (ck_ID k) -> decoded dec_key (Some (enc_key k)) = Some k.
Proof. intros Hk. unfold decoded. by rewrite dec_enc_key. Qed.

Section client.
Variables (works_ : bool) (pc : Client) (name : string).
Abbreviation R := (zone_env works_ pc name).

(** The effect of a request on the zone: performed and true when it was
    accepted, possibly performed otherwise. *)
Definition effect (c : zone_call) (body : option json) (x : http_result) (z z' : option held) : Prop :=
  (http_accepted x /\ truthful name c x z /\ performed c body z z')
  \/ (~ http_accepted x /\ (z' = z \/ performed c body z z')).
(** The log after the requests with these methods, latest first. *)
Definition logged (m : list string) (st st' : zworld) : Prop :=
  zw_statuses st' = zw_statuses st /\ zw_writes st' = m ++ zw_writes st.

Lemma exchange_post {A} c method path body (out : res json -> res A) st :
  call_of pc name (request pc method path body) = c ->
  wpe R (do_req pc method path body out) st (fun st' r => exists x,
    r = do_result method path out x /\ logged (non_read (request pc method path body)) st st'
    /\ effect c body x (zw_zone st) (zw_zone st') /\ (works_ = true -> works name c body x (zw_zone st))).
Proof.
  intros <-. unfold do_req. cbn [bind do_op]. apply wpe_vis. intros x st' (Hs & Hw & Heff & Hworks). simpl.
  exists x. by split_and!.
Qed.

(** An error-only request. *)
Lemma exchange_err_post c method path body st :
  call_of pc name (request pc method path body) = c ->
  wpe R (err_of (do_req pc method path body no_out)) st (fun st' e => exists x,
    (e = None <-> http_accepted x) /\ logged (non_read (request pc method path body)) st st'
    /\ effect c body x (zw_zone st) (zw_zone st') /\ (works_ = true -> works name c body x (zw_zone st))).
Proof.
  intros Hc. unfold err_of. eapply wpe_bind_post; [by apply exchange_post|]. intros st' r (x & -> & Hl & He & Hw). simpl.
  exists x. split; [|done]. split.
  - destruct (do_result _ _ _ x) eqn:E; [|done]. intros _. by eapply do_result_ok.
  - intros Hx. by rewrite accepted_no_out.
Qed.

Lemma GetZone_post st :
  wpe R (GetZone pc name) st (fun st' r =>
    logged [] st st' /\ zw_zone st' = zw_zone st
    /\ (forall pz, r = Ok pz -> exists h, zw_zone st = Some h /\ pz_Kind pz = hz_Kind h
          /\ elems (pz_Masters pz) = hz_Masters h)
    /\ (works_ = true -> match zw_zone st with Some _ => exists pz, r = Ok pz | None => not_found r end)).
Proof.
  eapply wpe_mono; [|apply (exchange_post CGet), call_of_zone]. intros st' r (x & -> & Hl & He & Hw).
  split; [done|]. split; [unfold effect, performed in He; naive_solver|]. split; [|done].
  intros pz E. destruct He as [(_ & (h & Hh & Ht) & _)|[Hn _]]; [|destruct Hn; by eapply do_result_ok].
  exists h. split; [done|]. by apply Ht.
Qed.

(** What a registration of the zone makes the server hold. *)
Definition registered (zone : Zone) : held :=
  {| hz_Kind := wantKind zone; hz_Masters := elems (zs_Masters (zn_Spec zone)); hz_Keys := [] |}.

Lemma CreateZone_post zone st :
  wpe R (CreateZone pc (newZone zone)) st (fun st' r =>
    logged [MethodPost] st st'
    /\ (forall pz, r = Ok pz -> zw_zone st = None /\ zw_zone st' = Some (registered zone))
    /\ (works_ = true -> zw_zone st = None -> exists pz, r = Ok pz)).
Proof.
  rewrite CreateZone_newZone. eapply wpe_mono; [|apply (exchange_post CCreate), call_of_create].
  intros st' r (x & -> & Hl & He & Hw). split; [done|].
  split; [|intros Hc Hz; apply Hw; [done..|]; unfold readable; rewrite decoded_new_zone; by eexists].
  intros pz E. destruct He as [(_ & Ht & n & Hd & Hz)|[Hn _]]; [|destruct Hn; by eapply do_result_ok].
  simpl in Ht. split; [done|]. rewrite decoded_new_zone in Hd. injection Hd as <-.
  rewrite Hz, Ht. unfold registered. simpl. by destruct (zs_Masters (zn_Spec zone)) as [[|]|].
Qed.

Lemma PatchRRSets_post l st :
  wpe R (PatchRRSets pc name l) st (fun st' e =>
    logged [MethodPatch] st st' /\ zw_zone st' = zw_zone st /\ (works_ = true -> is_Some (zw_zone st) -> e = None)).
Proof.
  eapply wpe_mono; [|apply (exchange_err_post CPatch), call_of_zone]. intros st' e (x & Hx & Hl & He & Hw).
  split; [done|]. split; [unfold effect, performed in He; naive_solver|]. intros Hc Hz. apply Hx. by apply Hw.
Qed.

Lemma UpdateZone_post k (m : slice string) st :
  wpe R (UpdateZone pc name {| zu_Kind := k; zu_Masters := m |}) st (fun st' e =>
    logged [MethodPut] st st'
    /\ (e = None -> exists h, zw_zone st = Some h
          /\ zw_zone st' = Some {| hz_Kind := k; hz_Masters := elems m; hz_Keys := hz_Keys h |})
    /\ (works_ = true -> is_Some (zw_zone st) -> e = None)).
Proof.
  unfold UpdateZone. cbv zeta. cbn [zu_Kind zu_Masters].
  eapply wpe_mono; [|apply (exchange_err_post CPut), call_of_zone]. intros st' e (x & Hx & Hl & He & Hw).
  split; [done|]. split; [|intros Hc Hz; apply Hx, Hw; [done..|]; unfold readable; rewrite decoded_update; by eexists].
  intros Hacc%Hx.
  destruct He as [(_ & [h Hh] & u & Hd & Hz)|[Hn _]]; [|done].
  exists h. split; [done|]. rewrite decoded_update in Hd. injection Hd as <-. rewrite Hz, Hh. by destruct m.
Qed.

Lemma DeleteZone_post st :
  wpe R (DeleteZone pc name) st (fun st' _ => logged [MethodDelete] st st').
Proof.
  unfold DeleteZone. eapply wpe_bind_post; [apply (exchange_err_post CDelete), call_of_zone|].
  by intros st' e (x & _ & Hl & _).
Qed.

Lemma ListCryptokeys_post st :
  wpe R (ListCryptokeys pc name) st (fun st' r =>
    logged [] st st' /\ zw_zone st' = zw_zone st
    /\ (forall keys, r = Ok keys -> Forall (fun k => in_int64 (ck_ID k)) keys
          /\ exists h, zw_zone st = Some h /\ keys = hz_Keys h)
    /\ (works_ = true -> is_Some (zw_zone st) -> exists keys, r = Ok keys)).
Proof.
  eapply wpe_mono; [|apply (exchange_post CKeys), call_of_path]. intros st' r (x & -> & Hl & He & Hw).
  split; [done|]. split; [unfold effect, performed in He; naive_solver|]. split; [|done].
  intros keys E. split; [by eapply keys_in_range|].
  destruct He as [(_ & (h & Hh & Ht) & _)|[Hn _]]; [|destruct Hn; by eapply do_result_ok].
  exists h. split; [done|]. by apply Ht.
Qed.

Lemma UpdateCryptokey_post k st :
  in_int64 (ck_ID k) ->
  wpe R (UpdateCryptokey pc name k) st (fun st' e =>
    logged [MethodPut] st st'
    /\ (e = None -> exists h, zw_zone st = Some h
          /\ zw_zone st' = Some (with_keys (map (set_active (itoa (ck_ID k)) (ck_Active k))) h))
    /\ (works_ = true -> is_Some (zw_zone st) -> e = None)).
Proof.
  intros Hk. eapply wpe_mono; [|apply (exchange_err_post (CSetKey (itoa (ck_ID k))))].
  - intros st' e (x & Hx & Hl & He & Hw). split; [done|].
    split; [|intros Hc Hz; apply Hx, Hw; [done..|]; unfold readable; rewrite decoded_key by done; by eexists].
    intros Hacc%Hx. destruct He as [(_ & [h Hh] & k' & Hd & Hz)|[Hn _]]; [|done].
    exists h. split; [done|]. rewrite decoded_key in Hd by done. injection Hd as <-. by rewrite Hz, Hh.
  - rewrite <- (str_app_assoc (zonePath name)). rewrite str_app_assoc, call_of_path. apply route_key.
Qed.

Lemma CreateCryptokey_post st :
  wpe R (CreateCryptokey pc name newKey) st (fun st' r =>
    logged [MethodPost] st st'
    /\ (forall k, r = Ok k -> exists h key, zw_zone st = Some h /\ ck_Active key = true
          /\ zw_zone st' = Some (with_keys (fun l => l ++ [key]) h))
    /\ (works_ = true -> is_Some (zw_zone st) -> exists k, r = Ok k)).
Proof.
  eapply wpe_mono; [|apply (exchange_post CAddKey), call_of_path]. intros st' r (x & -> & Hl & He & Hw).
  split; [done|]. split; [|intros Hc Hz; apply Hw; [done..|]; unfold readable; rewrite decoded_key by done; by eexists].
  intros k E.
  destruct He as [(_ & [h Hh] & k' & id & ds & Hd & _ & Hz)|[Hn _]]; [|destruct Hn; by eapply do_result_ok].
  rewrite decoded_key in Hd by done. injection Hd as <-. eexists h, _.
  split_and!; [done| |rewrite Hz, Hh; done]. done.
Qed.

Lemma RectifyZone_post st :
  wpe R (RectifyZone pc name) st (fun st' e =>
    logged [MethodPut] st st' /\ zw_zone st' = zw_zone st /\ (works_ = true -> is_Some (zw_zone st) -> e = None)).
Proof.
  eapply wpe_mono; [|apply (exchange_err_post CRectify), call_of_path]. intros st' e (x & Hx & Hl & He & Hw).
  split; [done|]. split; [unfold effect, performed in He; naive_solver|]. intros Hc Hz. apply Hx. by apply Hw.
Qed.
End client.

(** ** The reconciler against the server *)

(** A kind and masters as the Zone declares them. *)
Definition as_declared (zone : Zone) (h : held) : Prop :=
  hz_Kind h = wantKind zone /\ hz_Masters h = elems (zs_Masters (zn_Spec zone)).
(** A zone is signed when the Zone asks for it, and only then. *)
Definition signed_as_declared (zone : Zone) (h : held) : Prop :=
  existsb ck_Active (hz_Keys h) = dnssec_Enabled (zs_DNSSEC (zn_Spec zone)).
(** The specification of a pass: what the server holds is what the Zone
    declares, and ds are the DS records of the keys it is signed with. *)
Definition zone_converged (zone : Zone) (h : held) (ds : list string) : Prop :=
  as_declared zone h /\ signed_as_declared zone h /\ ds = activeDS (hz_Keys h).

Lemma no_active_no_ds keys : existsb ck_Active keys = false -> activeDS keys = [].
Proof.
  induction keys as [|k keys IH]; [done|]. simpl. intros [-> Hk]%orb_false_iff. by apply IH.
Qed.

Section pass.
Context `{Machinery, Reconciler} (works_ : bool) (pc : Client) (zone : Zone).
Abbreviation name := (zs_ZoneName (zn_Spec zone)).
Abbreviation R := (zone_env works_ pc name).

Lemma event_post k o ty reason msg st : wpe R (event k o ty reason msg) st (fun st' _ => st' = st).
Proof. unfold event. destruct HasRecorder; [|by apply wpe_ret]. by apply wpe_vis. Qed.

Lemma StatusUpdate_post z st :
  wpe R (StatusUpdate KZone z) st (fun st' r =>
    zw_zone st' = zw_zone st /\ zw_writes st' = zw_writes st /\ zw_statuses st' = z :: zw_statuses st
    /\ (works_ = true -> exists y, r = Ok y)).
Proof. by apply wpe_vis. Qed.

Lemma createZone_post st :
  wpe R (createZone zone pc) st (fun st' r =>
    zw_statuses st' = zw_statuses st
    /\ (forall pz, r = Ok pz -> zw_zone st' = Some (registered zone))
    /\ (works_ = true -> zw_zone st = None -> exists pz, r = Ok pz)).
Proof.
  unfold createZone, try_res. eapply wpe_bind_post; [apply CreateZone_post|].
  intros st1 [pz|e] ([Hs1 _] & Hok & Hw); [|split_and!; [done..|]; intros Hc Hz; by destruct (Hw Hc Hz)].
  destruct (Hok pz eq_refl) as [Hz0 Hz1]. destruct (_ != _); [|].
  - eapply wpe_bind_post; [apply PatchRRSets_post|]. intros st2 [e|] ([Hs2 _] & Hz2 & Hw2).
    + eapply wpe_bind_post; [apply DeleteZone_post|]. intros st3 d [Hs3 _].
      assert (Hno : works_ = true -> False) by (intros Hc; by specialize (Hw2 Hc ltac:(by rewrite Hz1))).
      destruct d; [|split_and!; [congruence|done|by intros ?%Hno]].
      eapply wpe_bind_post; [apply event_post|]. intros st4 ? ->. split_and!; [congruence|done|by intros ?%Hno].
    + eapply wpe_bind_post; [apply event_post|]. intros st4 ? ->. split_and!; [congruence|intros; congruence|eauto].
  - eapply wpe_bind_post; [apply event_post|]. intros st4 ? ->. split_and!; [congruence|intros; congruence|eauto].
Qed.

(** The zone that was read agrees with the one that is held. *)
Definition agrees (pz : PZone) (h : held) : Prop := pz_Kind pz = hz_Kind h /\ elems (pz_Masters pz) = hz_Masters h.

Lemma register_post st :
  wpe R (register zone pc) st (fun st' r =>
    zw_statuses st' = zw_statuses st
    /\ (forall pz, r = Ok pz -> exists h, zw_zone st' = Some h /\ (agrees pz h \/ as_declared zone h))
    /\ (works_ = true -> (exists pz, r = Ok pz)
          /\ forall h, zw_zone st = Some h -> zw_zone st' = Some h /\ zw_writes st' = zw_writes st
               /\ forall pz, r = Ok pz -> agrees pz h)).
Proof.
  unfold register. eapply wpe_bind_post; [apply GetZone_post|].
  intros st1 [pz|e] ([Hs1 Hl1] & Hz1 & Hok & Hw).
  - apply wpe_ret. destruct (Hok pz eq_refl) as (h & Hh & Ha). split_and!; [done| |].
    + intros ? [= <-]. exists h. split; [congruence|]. by left.
    + intros Hc. split; [by eexists|]. intros h' Hh'. split_and!; [congruence|done|].
      intros ? [= <-]. by replace h' with h by congruence.
  - assert (Hnone : works_ = true -> zw_zone st = None /\ errors_Is e ErrNotFound = true).
    { intros Hc. specialize (Hw Hc). destruct (zw_zone st); [by destruct Hw|].
      by destruct Hw as (? & [= <-] & ?). }
    destruct (errors_Is e ErrNotFound) eqn:En.
    2: { apply wpe_ret. split_and!; [done..|]. intros Hc. by destruct (Hnone Hc). }
    eapply wpe_bind_post; [apply createZone_post|]. intros st2 [pz|e2] (Hs2 & Hok2 & Hw2).
    + apply wpe_ret. split_and!; [congruence| |].
      * intros ? [= <-]. eexists. split; [by eapply Hok2|]. by right.
      * intros Hc. split; [by eexists|]. destruct (Hnone Hc) as [-> _]. done.
    + assert (Hno : works_ = true -> False).
      { intros Hc. destruct (Hnone Hc) as [Hz _]. destruct (Hw2 Hc); [congruence|done]. }
      destruct (errors_Is e2 ErrAlreadyExists); [|apply wpe_ret; split_and!; [congruence|done|by intros ?%Hno]].
      eapply wpe_mono; [|apply GetZone_post]. intros st3 r ([Hs3 _] & Hz3 & Hok3 & _).
      split_and!; [congruence| |by intros ?%Hno]. intros pz E. destruct (Hok3 pz E) as (h & Hh & Ha).
      exists h. split; [congruence|]. by left.
Qed.

(** The held zone when its kind, masters are those of h0 and its active keys
    are among l. *)
Definition active_among (h0 : held) (l : list Cryptokey) (st : zworld) : Prop :=
  exists h, zw_zone st = Some h /\ hz_Kind h = hz_Kind h0 /\ hz_Masters h = hz_Masters h0
    /\ forall k, k ∈ hz_Keys h -> ck_Active k = true -> k ∈ l.

Lemma active_among_deactivated h0 k l st st' h :
  active_among h0 (k :: l) st -> zw_zone st = Some h ->
  zw_zone st' = Some (with_keys (map (set_active (itoa (ck_ID k)) false)) h) -> active_among h0 l st'.
Proof.
  intros (h1 & Hh1 & Hk1 & Hm1 & Ha) Hh Hst. assert (h1 = h) as -> by congruence.
  eexists. split; [exact Hst|]. split_and!; [done..|]. intros k' Hin Hact. simpl in Hin.
  apply list_elem_of_fmap in Hin as (k0 & -> & Hin). unfold set_active in *.
  destruct (itoa (ck_ID k0) == itoa (ck_ID k)) eqn:E; [done|]. specialize (Ha k0 Hin Hact).
  apply elem_of_cons in Ha as [->|]; [|done]. by rewrite bool_decide_eq_true_2 in E.
Qed.

Lemma active_among_inactive h0 k l st : active_among h0 (k :: l) st -> ck_Active k = false -> active_among h0 l st.
Proof.
  intros (h & Hh & Hk & Hm & Ha) Hoff. exists h. split_and!; [done..|]. intros k' Hin Hact.
  specialize (Ha k' Hin Hact). apply elem_of_cons in Ha as [->|]; [congruence|done].
Qed.

(** Switching the listed keys off. *)
Lemma deactivate_post h0 keys st :
  Forall (fun k => in_int64 (ck_ID k)) keys -> active_among h0 keys st ->
  wpe R (for_each keys (fun k => if negb (ck_Active k) then done_ok
                                 else UpdateCryptokey pc name (set_ck_Active false k))) st (fun st' e =>
    zw_statuses st' = zw_statuses st /\ (e = None -> active_among h0 [] st') /\ (works_ = true -> e = None)
    /\ (existsb ck_Active keys = false -> st' = st)).
Proof.
  intros Hids. revert st. induction Hids as [|k keys Hk Hids IH]; intros st Ha; [by apply wpe_ret|].
  cbn [for_each existsb]. unfold try_err. destruct (ck_Active k) eqn:Ek; cbn [negb orb bind done_ok].
  - eapply wpe_bind_post; [by apply UpdateCryptokey_post|]. intros st1 e ([Hs1 _] & Hok & Hw).
    assert (Hsome : is_Some (zw_zone st)) by (destruct Ha as (h & -> & _); by eexists).
    destruct e as [e|]; [apply wpe_ret; split_and!; [done..| |done]; intros Hc; by apply Hw|].
    destruct (Hok eq_refl) as (h & Hh & Hst1). eapply wpe_mono; [|apply IH; by eapply active_among_deactivated].
    intros st' e (Hs & Hok' & Hw' & _). split_and!; [congruence|done..].
  - apply IH. by eapply active_among_inactive.
Qed.

(** Switching one key on, the first that is listed or a new one. *)
Definition activate (keys : list Cryptokey) : prog (option err) :=
  match keys with
  | k :: _ => UpdateCryptokey pc name (set_ck_Active true k)
  | [] => only_err (CreateCryptokey pc name newKey)
  end.

Lemma activate_post h keys st :
  zw_zone st = Some h -> hz_Keys h = keys -> Forall (fun k => in_int64 (ck_ID k)) keys ->
  wpe R (activate keys) st (fun st' e =>
    zw_statuses st' = zw_statuses st
    /\ (e = None -> exists h', zw_zone st' = Some h' /\ hz_Kind h' = hz_Kind h /\ hz_Masters h' = hz_Masters h
         /\ existsb ck_Active (hz_Keys h') = true)
    /\ (works_ = true -> e = None)).
Proof.
  intros Hh <- Hids. assert (Hsome : is_Some (zw_zone st)) by by eexists.
  unfold activate. destruct (hz_Keys h) as [|k keys] eqn:Ek.
  - unfold only_err. eapply wpe_bind_post; [apply CreateCryptokey_post|]. intros st1 r ([Hs _] & Hok & Hw).
    apply wpe_ret. split_and!; [done| |intros Hc; by destruct (Hw Hc Hsome) as [? ->]].
    destruct r as [k|]; [|done]. intros _. destruct (Hok k eq_refl) as (h1 & key & Hh1 & Hkey & Hst1).
    assert (h1 = h) as -> by congruence. eexists. split; [exact Hst1|]. split_and!; [done..|]. simpl.
    rewrite existsb_app. simpl. rewrite Hkey. by rewrite orb_true_r.
  - eapply wpe_mono; [|apply UpdateCryptokey_post; by apply Forall_cons in Hids as [? _]].
    intros st1 e ([Hs _] & Hok & Hw). split_and!; [done| |auto]. intros He. destruct (Hok He) as (h1 & Hh1 & Hst1).
    assert (h1 = h) as -> by congruence. eexists. split; [exact Hst1|]. split_and!; [done..|]. simpl.
    rewrite Ek. simpl. unfold set_active at 1. by rewrite bool_decide_eq_true_2.
Qed.

(** Signing a zone without an active key: a key is switched on, the zone is
    rectified, and the keys are read again. *)
Definition sign (keys : list Cryptokey) : prog (res (list Cryptokey)) :=
  check! activate keys in check! RectifyZone pc name in ListCryptokeys pc name.

Lemma sign_post h keys st :
  zw_zone st = Some h -> hz_Keys h = keys -> Forall (fun k => in_int64 (ck_ID k)) keys ->
  wpe R (sign keys) st (fun st' r =>
    zw_statuses st' = zw_statuses st
    /\ (forall keys', r = Ok keys' -> exists h', zw_zone st' = Some h' /\ hz_Kind h' = hz_Kind h
         /\ hz_Masters h' = hz_Masters h /\ existsb ck_Active (hz_Keys h') = true /\ keys' = hz_Keys h')
    /\ (works_ = true -> exists keys', r = Ok keys')).
Proof.
  intros Hh Hk Hids. unfold sign, try_err at 1.
  eapply wpe_bind_post; [by apply (activate_post h)|]. intros st2 [e|] (Hs2 & Hok2 & Hw2).
  { apply wpe_ret; split_and!; [done..|]. intros Hc. by specialize (Hw2 Hc). }
  destruct (Hok2 eq_refl) as (h2 & Hh2 & Hk2 & Hm2 & Ha2). unfold try_err.
  eapply wpe_bind_post; [apply RectifyZone_post|]. intros st3 [e|] ([Hs3 _] & Hz3 & Hw3).
  { apply wpe_ret; split_and!; [congruence|done|]. intros Hc. by specialize (Hw3 Hc ltac:(by eexists)). }
  eapply wpe_mono; [|apply ListCryptokeys_post]. intros st4 r ([Hs4 _] & Hz4 & Hok4 & Hw4). split_and!; [congruence| |].
  - intros keys' E. destruct (Hok4 keys' E) as (_ & h4 & Hh4 & ->). assert (h4 = h2) as -> by congruence.
    exists h2. split_and!; congruence.
  - intros Hc. apply Hw4; [done|]. rewrite Hz3, Hh2. by eexists.
Qed.

Lemma ensureDNSSEC_post h st :
  zw_zone st = Some h ->
  wpe R (ensureDNSSEC zone pc) st (fun st' r =>
    zw_statuses st' = zw_statuses st
    /\ (forall ds, r = Ok ds -> exists h', zw_zone st' = Some h' /\ hz_Kind h' = hz_Kind h
         /\ hz_Masters h' = hz_Masters h /\ signed_as_declared zone h' /\ ds = activeDS (hz_Keys h'))
    /\ (works_ = true -> (exists ds, r = Ok ds)
         /\ (signed_as_declared zone h -> zw_zone st' = zw_zone st /\ zw_writes st' = zw_writes st))).
Proof.
  intros Hh. assert (Hsome : is_Some (zw_zone st)) by by eexists. unfold ensureDNSSEC, signed_as_declared, try_res at 1.
  eapply wpe_bind_post; [apply ListCryptokeys_post|]. intros st1 [keys|e] ([Hs1 Hl1] & Hz1 & Hok & Hw).
  2: { apply wpe_ret. split_and!; [done..|]. intros Hc. by destruct (Hw Hc Hsome). }
  destruct (Hok keys eq_refl) as (Hids & h1 & Hh1 & Hkeys). assert (h1 = h) as -> by congruence. clear Hok Hw.
  destruct (dnssec_Enabled _) eqn:Een; cbn [negb].
  - unfold try_res. destruct (existsb ck_Active keys) eqn:Eact; cbn [negb].
    + apply wpe_ret. split_and!; [done| |intros _; split; [by eexists|by split]].
      intros ds [= <-]. exists h. rewrite Hz1, <- Hkeys. by split_and!.
    + eapply wpe_bind_post; [by apply (sign_post h keys); [congruence|..]|].
      intros st2 [keys2|e] (Hs2 & Hok2 & Hw2); apply wpe_ret.
      * destruct (Hok2 keys2 eq_refl) as (h2 & Hh2 & Hk2 & Hm2 & Ha2 & ->).
        split_and!; [congruence| |intros _; split; [by eexists|congruence]].
        intros ds [= <-]. exists h2. by split_and!.
      * split_and!; [congruence|done|]. intros Hc. by destruct (Hw2 Hc).
  - unfold try_err. eapply wpe_bind_post; [apply (deactivate_post h); [done|]|].
    { exists h. rewrite <- Hkeys. split_and!; [congruence|done..]. }
    intros st2 [e|] (Hs2 & Hok2 & Hw2 & Hsame); apply wpe_ret.
    { split_and!; [congruence|done|intros Hc; by specialize (Hw2 Hc)]. }
    split_and!; [congruence| |intros _; split; [by eexists|]].
    + intros ds [= <-]. destruct (Hok2 eq_refl) as (h2 & Hh2 & Hk2 & Hm2 & Hnone). exists h2.
      assert (Hoff : existsb ck_Active (hz_Keys h2) = false).
      { apply not_true_iff_false. intros (k & Hin & Hact)%existsb_exists.
        by apply list_elem_of_In, Hnone, elem_of_nil in Hin. }
      split_and!; [done..|]. by rewrite no_active_no_ds.
    + rewrite <- Hkeys. intros ->%Hsame. by rewrite Hz1.
Qed.

(** The Ready statuses among those written since st are true of the zone. *)
Definition ready_statuses_true (st st' : zworld) : Prop :=
  exists l, zw_statuses st' = l ++ zw_statuses st
    /\ forall z, z ∈ l -> zst_Phase (zn_Status z) = ZonePhaseReady ->
         exists h, zw_zone st' = Some h /\ zone_converged zone h (zst_DSRecords (zn_Status z)).

(** A pass that ends by declaring the zone Ready. *)
Definition declared_ready (st st' : zworld) (r : Outcome) : Prop :=
  r = (requeue_after resyncInterval, None)
  /\ exists z h, zw_statuses st' = z :: zw_statuses st /\ zst_Phase (zn_Status z) = ZonePhaseReady
       /\ zw_zone st' = Some h /\ zone_converged zone h (zst_DSRecords (zn_Status z)).

(** Nothing was written to PowerDNS. *)
Definition untouched (st st' : zworld) : Prop := zw_zone st' = zw_zone st /\ zw_writes st' = zw_writes st.

(** The zone is held as the Zone declares it. *)
Definition settled (st : zworld) : Prop :=
  exists h, zw_zone st = Some h /\ as_declared zone h /\ signed_as_declared zone h.

Definition pass_post (st st' : zworld) (r : Outcome) : Prop :=
  ready_statuses_true st st'
  /\ (works_ = true -> declared_ready st st' r /\ (settled st -> untouched st st')).

Lemma markNotReady_post z reason msg after st :
  wpe R (markNotReady z reason msg after) st (fun st' _ => ready_statuses_true st st').
Proof.
  unfold markNotReady, try_res. eapply wpe_bind_post; [apply StatusUpdate_post|].
  intros st1 r (_ & _ & Hs & _). assert (Hpost : ready_statuses_true st st1).
  { eexists [_]. split; [exact Hs|]. by intros ? ->%list_elem_of_singleton. }
  by destruct r; apply wpe_ret.
Qed.

Lemma ready_statuses_same st0 st1 st' :
  zw_statuses st1 = zw_statuses st0 -> ready_statuses_true st1 st' -> ready_statuses_true st0 st'.
Proof. unfold ready_statuses_true. by intros ->. Qed.

(** A failed step of a pass. *)
Lemma pass_failed z reason msg after st st1 :
  zw_statuses st1 = zw_statuses st -> (works_ = true -> False) ->
  wpe R (markNotReady z reason msg after) st1 (fun st' r => pass_post st st' r).
Proof.
  intros Hs Hno. eapply wpe_mono; [|apply markNotReady_post]. intros st' r Hr. split; [|by intros ?%Hno].
  by eapply ready_statuses_same.
Qed.

(** The update of the kind and the masters, when they differ from the answer. *)
Definition update_drift (pz : PZone) : prog (option err) :=
  if (pz_Kind pz != wantKind zone) || negb (bool_decide (elems (pz_Masters pz) = elems (zs_Masters (zn_Spec zone)))) then
    UpdateZone pc name {| zu_Kind := wantKind zone; zu_Masters := zs_Masters (zn_Spec zone) |}
  else done_ok.

Lemma update_drift_post pz h st :
  zw_zone st = Some h -> agrees pz h \/ as_declared zone h ->
  wpe R (update_drift pz) st (fun st' e =>
    zw_statuses st' = zw_statuses st
    /\ (e = None -> exists h', zw_zone st' = Some h' /\ as_declared zone h')
    /\ (works_ = true -> e = None)
    /\ (agrees pz h -> as_declared zone h -> st' = st)).
Proof.
  intros Hh Hor. unfold update_drift. destruct (_ || _) eqn:Ed.
  - eapply wpe_mono; [|apply UpdateZone_post]. intros st' e ([Hs _] & Hok & Hw). split_and!; [done| | |].
    + intros He. destruct (Hok He) as (h1 & _ & Hz). eexists. by split; [exact Hz|split].
    + intros Hc. by apply Hw; [|eexists].
    + unfold agrees, as_declared. intros [Ek Em] [Ek' Em']. apply orb_true_iff in Ed as [Ed|Ed]; bool_prop; congruence.
  - apply wpe_ret. split_and!; [done| |done..]. intros _. exists h. split; [done|]. destruct Hor as [[Ek Em]|]; [|done].
    apply orb_false_iff in Ed as [E1 E2]. bool_prop. split; congruence.
Qed.

Lemma reconcileZone_post st : wpe R (reconcileZone zone pc) st (fun st' r => pass_post st st' r).
Proof.
  unfold reconcileZone. eapply wpe_bind_post; [apply register_post|]. intros st1 [pz|e] (Hs1 & Hok1 & Hw1).
  2: { apply pass_failed; [done|]. intros Hc. by destruct (Hw1 Hc) as [[? ?] _]. }
  destruct (Hok1 pz eq_refl) as (h1 & Hh1 & Hor).
  eapply wpe_bind_post; [exact (update_drift_post pz h1 st1 Hh1 Hor)|]. intros st2 [e|] (Hs2 & Hok2 & Hw2 & Hst2).
  { apply pass_failed; [congruence|]. intros Hc. by specialize (Hw2 Hc). }
  destruct (Hok2 eq_refl) as (h2 & Hh2 & Hdecl).
  eapply wpe_bind_post; [by apply (ensureDNSSEC_post h2)|]. intros st3 [ds|e] (Hs3 & Hok3 & Hw3).
  2: { apply pass_failed; [congruence|]. intros Hc. by destruct (Hw3 Hc) as [[? ?] _]. }
  destruct (Hok3 ds eq_refl) as (h3 & Hh3 & Hk3 & Hm3 & Hsig & Hds). cbv zeta. unfold try_res.
  eapply wpe_bind_post; [apply StatusUpdate_post|]. intros st4 r (Hz4 & Hl4 & Hs4 & Hw4).
  match type of Hs4 with _ = ?z :: _ =>
    assert (Hready : zst_Phase (zn_Status z) = ZonePhaseReady /\ zst_DSRecords (zn_Status z) = ds)
      by (by destruct (dnssec_Enabled _)); generalize dependent z end.
  intros z Hs4 [Hp Hz]. rewrite Hs3, Hs2, Hs1 in Hs4. assert (Hconv : zone_converged zone h3 (zst_DSRecords (zn_Status z))).
  { destruct Hdecl. split_and!; [split; congruence|done|congruence]. }
  assert (Hall : ready_statuses_true st st4).
  { exists [z]. split; [done|]. intros ? ->%list_elem_of_singleton _. exists h3. by split; [congruence|]. }
  destruct r as [y|e]; apply wpe_ret; (split; [done|]); intros Hc; [|by destruct (Hw4 Hc)].
  split; [split; [done|]; exists z, h3; split_and!; [done..|congruence|done]|].
  intros (h & Hh & Hd & Hsg). destruct (Hw1 Hc) as [_ Hkeep]. destruct (Hkeep h Hh) as (Hz1 & Hl1 & Hagree).
  assert (h1 = h) as -> by congruence. specialize (Hst2 (Hagree pz eq_refl) Hd) as ->.
  assert (h2 = h) as -> by congruence. destruct (Hw3 Hc) as [_ Hquiet]. destruct (Hquiet Hsg). split; congruence.
Qed.
End pass.

Lemma converged_settled zone h ds st : zw_zone st = Some h -> zone_converged zone h ds -> settled zone st.
Proof. intros Hh (Hd & Hs & _). by exists h. Qed.

(** A pass against a server that works or not. *)
Definition zone_pass `{Machinery, Reconciler} (zone : Zone) (pc : Client) (w : bool) (st st' : zworld) : Prop :=
  exists r, exec (zone_env w pc (zs_ZoneName (zn_Spec zone))) (reconcileZone zone pc) st r st'.

Lemma zone_pass_post `{Machinery, Reconciler} zone pc w st st' :
  zone_pass zone pc w st st' -> exists r, pass_post w zone st st' r.
Proof. intros [r He]. exists r. by eapply wpe_exec; [apply reconcileZone_post|]. Qed.

(** A working pass declares the zone Ready, and a settled zone stays as it is. *)
Lemma working_pass `{Machinery, Reconciler} zone pc st st' :
  zone_pass zone pc true st st' ->
  settled zone st' /\ (settled zone st -> untouched st st')
  /\ exists z l h, zw_statuses st' = z :: l /\ zst_Phase (zn_Status z) = ZonePhaseReady
       /\ zw_zone st' = Some h /\ zone_converged zone h (zst_DSRecords (zn_Status z)).
Proof.
  intros (r & _ & Hw)%zone_pass_post. destruct (Hw eq_refl) as [(_ & z & h & Hs & Hp & Hh & Hc) Hu].
  split_and!; [by eapply converged_settled|done|]. by exists z, (zw_statuses st), h.
Qed.

(** C3. The Zone reconciler implements its specification: whatever zone the
    server holds at the start, and whichever requests of the pass fail, are
    performed although they fail, or miss an existing zone, a status Ready is
    written only when the server holds the zone with the declared kind and
    masters, signed exactly when the Zone asks for it, and the status lists
    the DS records of its active keys. *)
Theorem zone_ready_is_converged `{Machinery, Reconciler} (zone : Zone) (pc : Client) (st : zworld) :
  wpe (zone_env false pc (zs_ZoneName (zn_Spec zone))) (reconcileZone zone pc) st (fun st' _ =>
    exists l, zw_statuses st' = l ++ zw_statuses st
      /\ forall z, z ∈ l -> zst_Phase (zn_Status z) = ZonePhaseReady ->
           exists h, zw_zone st' = Some h /\ zone_converged zone h (zst_DSRecords (zn_Status z))).
Proof. eapply wpe_mono; [|apply reconcileZone_post]. by intros st' r [Hr _]. Qed.

(** C7. Zones converge and settle: from any zone or none, in whatever state
    earlier passes and failures left it, one pass against a working server
    ends with the zone as declared and a status Ready that lists its DS
    records; every later working pass sends only reads, changes nothing and
    declares it Ready again. *)
Theorem zone_pass_converges `{Machinery, Reconciler} (zone : Zone) (pc : Client) (n : nat) (st st1 st2 : zworld)
  (Hfirst : zone_pass zone pc true st st1) (Hmore : steps (zone_pass zone pc) (replicate n true) st1 st2) :
  untouched st1 st2
  /\ exists z l h, zw_statuses st2 = z :: l /\ zst_Phase (zn_Status z) = ZonePhaseReady
       /\ zw_zone st2 = Some h /\ zone_converged zone h (zst_DSRecords (zn_Status z)).
Proof.
  apply working_pass in Hfirst as (Hset & _ & Hst). remember (replicate n true) as ls eqn:El.
  revert n El. induction Hmore as [st1|b ls st1 st3 st2 Hp _ IH]; intros n El; [done|].
  destruct n as [|n]; [done|]. injection El as -> El. apply working_pass in Hp as (Hset3 & Hu & Hst3).
  destruct (IH Hset3 Hst3 n El) as [[Hz Hl] Hend]. split; [|done]. destruct (Hu Hset). split; congruence.
Qed.

(** ** A working server *)

Definition answered (code : Z) (j : json) : http_result := HResponse {|
  resp_StatusCode := code; resp_Status := ""; resp_Body := ""; resp_JSON := Ok j |}.

Definition held_zone (name : string) (h : held) : PZone := {|
  pz_ID := name; pz_Name := name; pz_Kind := hz_Kind h; pz_Serial := 1; pz_Masters := Some (hz_Masters h);
  pz_Nameservers := None; pz_DNSSEC := existsb ck_Active (hz_Keys h); pz_RRSets := [] |}.

(** The answer to a request and the zone afterwards. The first key that is
    added has the number 7 and one DS record. *)
Definition serve (name : string) (c : zone_call) (body : option json) (z : option held) : http_result * option held :=
  let missing := (answered 404 JNull, z) in
  match c, z with
  | CGet, Some h => (answered 200 (enc_zone (held_zone name h)), z)
  | CCreate, None =>
      match decoded dec_zone body with
      | Some n => (answered 201 (enc_zone (held_zone name {| hz_Kind := pz_Kind n; hz_Masters := []; hz_Keys := [] |})),
          Some {| hz_Kind := pz_Kind n; hz_Masters := elems (pz_Masters n); hz_Keys := [] |})
      | None => (answered 422 JNull, z)
      end
  | CCreate, Some _ => (answered 409 JNull, z)
  | CPut, Some h =>
      match decoded dec_update body with
      | Some u => (answered 204 JNull,
          Some {| hz_Kind := zu_Kind u; hz_Masters := elems (zu_Masters u); hz_Keys := hz_Keys h |})
      | None => (answered 422 JNull, z)
      end
  | CDelete, Some _ => (answered 204 JNull, None)
  | CPatch, Some _ | CRectify, Some _ => (answered 204 JNull, z)
  | CKeys, Some h => (answered 200 (JArr (map enc_key (hz_Keys h))), z)
  | CAddKey, Some h =>
      match decoded dec_key body with
      | Some k =>
          let k := {| ck_ID := 7; ck_KeyType := ck_KeyType k; ck_Active := ck_Active k; ck_DS := ["12345 13 2 abcd"] |} in
          (answered 201 (enc_key k), Some (with_keys (fun l => l ++ [k]) h))
      | None => (answered 422 JNull, z)
      end
  | CSetKey id, Some h =>
      match decoded dec_key body with
      | Some k => (answered 204 JNull, Some (with_keys (map (set_active id (ck_Active k))) h))
      | None => (answered 422 JNull, z)
      end
  | _, _ => missing
  end.

Definition pdns (pc : Client) (name : string) : handler zworld := fun X o w =>
  let down := EText "not served" in
  match o in op X return X * zworld with
  | OHttp r =>
      let '(x, z) := serve name (call_of pc name r) (rq_Body r) (zw_zone w) in
      (x, ZW z (non_read r ++ zw_writes w) (zw_statuses w))
  | OStatusUpdate k z =>
      (Ok z, ZW (zw_zone w) (zw_writes w)
        ((match k return obj_of k -> list Zone with KZone => fun z => [z] | _ => fun _ => [] end) z ++ zw_statuses w))
  | OGet _ _ | OUpdate _ _ | OCreateOrUpdate _ _ _ | OListIndex _ _ _ | OListLabels _ _ _ | ORandRead _ => (Err down, w)
  | OCreate _ _ | ODelete _ _ _ => (Some down, w)
  | ORecord _ => (tt, w)
  end.

Definition signed_zone : Zone := {|
  zn_Meta := zn_Meta sample_zone;
  zn_Spec := {|
    zs_ServerRef := zs_ServerRef sample_zone_spec; zs_ZoneName := "example.org."; zs_Kind := "";
    zs_Masters := None; zs_Nameservers := Some ["ns1.example.org."]; zs_SOA := None;
    zs_DNSSEC := {| dnssec_Enabled := true |}; zs_DeletionPolicy := "" |};
  zn_Status := zn_Status sample_zone |}.
Definition sample_client : Client := New "http://ns1-api.dns.svc:8081" "k".

Definition served_pass (st : zworld) : zworld :=
  run_world (pdns sample_client "example.org.")
    (@reconcileZone RefMachinery {| HasRecorder := true |} signed_zone sample_client) st.


(** The numbers of the keys fit. *)
Definition wf_held (h : held) : Prop := Forall (fun k => in_int64 (ck_ID k)) (hz_Keys h).
Definition wf_world (w : zworld) : Prop := forall h, zw_zone w = Some h -> wf_held h.

Lemma into_answered {A} method path (dec : json -> res A) code j :
  200 <= code < 300 -> do_result method path (into dec) (answered code j) = dec j.
Proof. intros Hc. unfold answered. rewrite do_result_2xx; [done|]. unfold is_2xx. simpl. lia. Qed.

Lemma zone_answer_held name h : zone_answer name (answered 200 (enc_zone (held_zone name h))) = Ok (norm_zone (held_zone name h)).
Proof.
  unfold zone_answer. rewrite into_answered by lia. apply dec_enc_zone. split; [unfold in_int64; simpl; lia|constructor].
Qed.

Lemma keys_answer_held name keys :
  Forall (fun k => in_int64 (ck_ID k)) keys -> keys_answer name (answered 200 (JArr (map enc_key keys))) = Ok keys.
Proof.
  intros Hk. unfold keys_answer. rewrite into_answered by lia. apply (dec_all_map dec_key enc_key).
  eapply Forall_impl; [exact Hk|]. apply dec_enc_key.
Qed.

(** The answer x to a request is as a working server gives it, and the zone
    becomes z'. *)
Definition served (name : string) (c : zone_call) (body : option json) (z : option held) (a : http_result * option held) :
    Prop :=
  ((http_accepted a.1 /\ truthful name c a.1 z /\ performed c body z a.2) \/ (~ http_accepted a.1 /\ a.2 = z))
  /\ works name c body a.1 z /\ (forall h, a.2 = Some h -> wf_held h).

Lemma answered_accepted code j : 200 <= code <= 299 -> http_accepted (answered code j).
Proof. done. Qed.

Lemma served_accepted name c body z code j z' :
  200 <= code <= 299 -> truthful name c (answered code j) z -> performed c body z z' ->
  works name c body (answered code j) z -> (forall h, z' = Some h -> wf_held h) ->
  served name c body z (answered code j, z').
Proof. intros Hc Ht Hp Hw Hwf. split; [|done]. left. by split_and!. Qed.

Lemma served_rejected name c body z code j :
  299 < code -> works name c body (answered code j) z -> (forall h, z = Some h -> wf_held h) ->
  served name c body z (answered code j, z).
Proof. intros Hc Hw Hwf. split; [|done]. right. split; [|done]. simpl. unfold is_2xx. simpl. lia. Qed.

Lemma serve_missing name c body : served name c body None (serve name c body None).
Proof.
  destruct c; cbn [serve].
  2: { destruct (decoded dec_zone body) as [n|] eqn:E.
    - apply served_accepted; [lia|done|by exists n| |by intros h [= <-]; constructor].
      intros _ _. eexists. unfold post_answer. rewrite into_answered by lia. apply dec_enc_zone.
      split; [unfold in_int64; simpl; lia|constructor].
    - apply served_rejected; [lia|simpl; rewrite E; by intros _ []|done]. }
  all: apply served_rejected; [lia| |done].
  2-9: by try (intros []).
  by eexists.
Qed.

Lemma serve_held name c body h : wf_held h -> served name c body (Some h) (serve name c body (Some h)).
Proof.
  intros Hwf. assert (Hwf' : forall h', Some h = Some h' -> wf_held h') by (by intros h' [= <-]).
  destruct c; cbn [serve].
  - apply served_accepted; [lia| |done| |done].
    + exists h. split; [done|]. intros pz. rewrite zone_answer_held. intros [= <-]. simpl. by destruct (hz_Masters h).
    + eexists. apply zone_answer_held.
  - apply served_rejected; [lia|done|done].
  - destruct (decoded dec_update body) as [u|] eqn:E.
    + apply served_accepted; [lia|by eexists|by exists u|by intros _ _; apply answered_accepted|].
      by intros h' [= <-].
    + apply served_rejected; [lia|simpl; rewrite E; by intros _ []|done].
  - apply served_accepted; [lia|by eexists|done|by intros _ _; apply answered_accepted|done].
  - apply served_accepted; [lia|by eexists|done|by intros _ _; apply answered_accepted|done].
  - apply served_accepted; [lia| |done| |done].
    + exists h. split; [done|]. intros keys. rewrite keys_answer_held by done. by intros [= <-].
    + intros _. eexists. by apply keys_answer_held.
  - destruct (decoded dec_key body) as [k|] eqn:E.
    + apply served_accepted; [lia|by eexists|by exists k, 7, ["12345 13 2 abcd"]| |].
      * intros _ _. eexists. rewrite into_answered by lia. by apply dec_enc_key.
      * intros h' [= <-]. apply Forall_app. by split; [|constructor].
    + apply served_rejected; [lia|simpl; rewrite E; by intros _ []|done].
  - destruct (decoded dec_key body) as [k|] eqn:E.
    + apply served_accepted; [lia|by eexists|by exists k|by intros _ _; apply answered_accepted|].
      intros h' [= <-]. apply Forall_fmap. eapply Forall_impl; [exact Hwf|].
      intros k' Hk'. unfold set_active. simpl. by destruct (_ == _).
    + apply served_rejected; [lia|simpl; rewrite E; by intros _ []|done].
  - apply served_accepted; [lia|by eexists|done|by intros _ _; apply answered_accepted|done].
  - by apply served_rejected.
Qed.

Lemma pdns_answers pc name X (o : op X) w :
  wf_world w ->
  zone_env true pc name X o w (pdns pc name X o w).1 (pdns pc name X o w).2 /\ wf_world (pdns pc name X o w).2.
Proof.
  intros Hwf. destruct o as [k key|k z|k z|k z|k key p|k key f|k f v|k n l|e|n|r]; try done.
  - split; [|by destruct k]. simpl. split_and!; [done..|]. by eexists.
  - assert (Hs : served name (call_of pc name r) (rq_Body r) (zw_zone w)
                   (serve name (call_of pc name r) (rq_Body r) (zw_zone w))).
    { destruct (zw_zone w) as [h|] eqn:E; [by apply serve_held, Hwf|apply serve_missing]. }
    cbn [pdns]. destruct (serve _ _ _ _) as [x z']. destruct Hs as (Heff & Hworks & Hwf'). split; [|exact Hwf'].
    split_and!; [done|done| |by intros _]. simpl in *. destruct Heff as [?|[? ?]]; [by left|right]. auto.
Qed.

Lemma served_pass_pass st :
  wf_world st -> @zone_pass RefMachinery {| HasRecorder := true |} signed_zone sample_client true st (served_pass st).
Proof.
  intros Hst. eexists. eapply (allowed_exec _ _ (fun w => w)), (allowed_invariant _ _ _ wf_world); [|exact Hst].
  apply pdns_answers.
Qed.

(** A signed zone that PowerDNS does not know: the first pass creates it,
    seeds its SOA, adds a key and rectifies it; the second only reads. *)
Lemma zone_pass_converges_witness :
  let st1 := served_pass (ZW None [] []) in let st2 := served_pass st1 in
  rev (zw_writes st2) = [MethodPost; MethodPatch; MethodPost; MethodPut]
  /\ map (fun z => zst_DSRecords (zn_Status z)) (zw_statuses st2) = [["12345 13 2 abcd"]; ["12345 13 2 abcd"]]
  /\ untouched st1 st2.
Proof.
  intros st1 st2. split; [vm_compute; reflexivity|]. split; [vm_compute; reflexivity|].
  assert (H1 : @zone_pass RefMachinery {| HasRecorder := true |} signed_zone sample_client true (ZW None [] []) st1)
    by by apply served_pass_pass.
  assert (Hz : hz_Keys <$> zw_zone st1
    = Some [{| ck_ID := 7; ck_KeyType := "csk"; ck_Active := true; ck_DS := ["12345 13 2 abcd"] |}])
    by (vm_compute; reflexivity).
  refine (proj1 (zone_pass_converges signed_zone sample_client 1 _ st1 st2 H1 (steps_cons _ _ _ _ _ _ _ (steps_nil _ _)))).
  apply served_pass_pass. intros h Hh. rewrite Hh in Hz. injection Hz as Hz. unfold wf_held. rewrite Hz.
  by constructor; [|constructor].
Defined.

(** ** A Zone that was never admitted *)

(** A Zone of another namespace, deleted, that names the sample server. *)
Definition foreign_zone : Zone := {|
  zn_Meta := {| om_Name := "stray"; om_Namespace := "other"; om_Labels := ∅; om_Annotations := ∅;
    om_Finalizers := [zoneFinalizer]; om_DeletionTimestamp := Some 1704067200; om_Generation := 1;
    om_OwnerReferences := [] |};
  zn_Spec := {|
    zs_ServerRef := {| ref_Name := "ns1"; ref_Namespace := "dns" |}; zs_ZoneName := "example.org."; zs_Kind := "";
    zs_Masters := None; zs_Nameservers := None; zs_SOA := None; zs_DNSSEC := {| dnssec_Enabled := false |};
    zs_DeletionPolicy := DeletionPolicyDelete |};
  zn_Status := zn_Status sample_zone |}.

(** A cluster with that Zone, the Ready sample server and its API key. *)
Definition stray_cluster : handler unit := fun X o w =>
  let down := EText "not served" in
  (match o in op X return X with
   | OGet k _ =>
       match k return res (obj_of k) with
       | KZone => Ok foreign_zone
       | KServer => Ok sample_ready_server
       | KSecret => Ok {| sec_Meta := new_meta "ns1-api-key" "dns" ∅; sec_Type := ""; sec_Data := [("api-key", "k")] |}
       | _ => Err down
       end
   | OUpdate _ z | OStatusUpdate _ z => Ok z
   | OCreate _ _ | ODelete _ _ _ => None
   | OCreateOrUpdate _ _ _ | OListIndex _ _ _ | OListLabels _ _ _ | ORandRead _ => Err down
   | ORecord _ => tt
   | OHttp _ => answered 204 JNull
   end, w).

(** Its deletion removes the zone from the server, although the server does
    not admit its namespace. *)
Lemma deletion_ignores_allow_list :
  namespaceAllowed sample_ready_server (om_Namespace (zn_Meta foreign_zone)) = false
  /\ map (fun x => (rq_Method x.1, rq_URL x.1))
       (http_exchanges (run_trace stray_cluster
          (@Reconcile RefMachinery {| HasRecorder := true |} (NN "other" "stray")) tt))
     = [(MethodDelete, "http://ns1-api.dns.svc:8081/api/v1/servers/localhost/zones/example.org.")].
Proof. split; vm_compute; reflexivity. Qed.
