(* ===== verification/RRSetController.v ===== *)
(** * internal/controller/rrset_controller.go: the RRSet reconciler

    Applies one declared record set to PowerDNS: the guards on the Zone, the
    server and rival claimants, the comparison that avoids a PATCH, and the
    deletion behind a finalizer. *)

From Stdlib Require Import Ascii Permutation.
From S2P Require Import Prelude GoStd Meta ApiTypes KubeObjects Samples Effects RefMachinery PdnsClient Manifests Converge ZoneController.

Open Scope go_scope.
Open Scope stdpp_scope.
Open Scope Z_scope.

Definition rrsetFinalizer : string := "dns.aetherplatform.cloud/rrset-protection".
Definition rrsetZoneIndex : string := "spec.zoneRef".

(** ** Pure parts *)

Definition zoneKeyFor (rr : RRSet) : NamespacedName :=
  ref_target (rs_ZoneRef (rr_Spec rr)) (om_Namespace (rr_Meta rr)).

Definition nameInZone (name zone : string) : bool := (name == zone) || HasSuffix name ("." +:+ zone).

Definition desiredRRSet (rr : RRSet) : PRRSet := {|
  prr_Name := rs_Name (rr_Spec rr); prr_Type := rs_Type (rr_Spec rr);
  prr_TTL := match rs_TTL (rr_Spec rr) with Some t => t | None => 3600 end;
  prr_ChangeType := "REPLACE";
  prr_Records := map (fun c => {| prec_Content := c; prec_Disabled := false |}) (rs_Records (rr_Spec rr)) |}.

(** The rrset of the PATCH that deletes. *)
Definition deletedRRSet (rr : RRSet) : PRRSet := {|
  prr_Name := rs_Name (rr_Spec rr); prr_Type := rs_Type (rr_Spec rr); prr_TTL := 0;
  prr_ChangeType := "DELETE"; prr_Records := [] |}.

(** The map of wanted contents to their multiplicity; an absent key counts 0. *)
Definition count_of (want : gmap string Z) (k : string) : Z := default 0 (want !! k).
Definition count_up (want : gmap string Z) (rec : PRecord) : gmap string Z :=
  <[prec_Content rec := count_of want (prec_Content rec) + 1]> want.
Fixpoint consume (want : gmap string Z) (got : list PRecord) : bool :=
  match got with
  | [] => true
  | rec :: got =>
      if count_of want (prec_Content rec) =? 0 then false
      else consume (<[prec_Content rec := count_of want (prec_Content rec) - 1]> want) got
  end.

Fixpoint matches_in (l : list PRRSet) (desired : PRRSet) : bool :=
  match l with
  | [] => false
  | got :: l =>
      if (prr_Name got != prr_Name desired) || (prr_Type got != prr_Type desired) then matches_in l desired
      else if negb (prr_TTL got =? prr_TTL desired)
              || negb (length (prr_Records got) =? length (prr_Records desired))%nat then false
      else consume (foldl count_up ∅ (prr_Records desired)) (prr_Records got)
  end.
Definition rrsetMatches (pz : PZone) (desired : PRRSet) : bool := matches_in (pz_RRSets pz) desired.

(** The other RRSet that findConflict names, among the listed ones. *)
Definition is_rival (rr o : RRSet) : bool :=
  negb ((om_Namespace (rr_Meta o) == om_Namespace (rr_Meta rr)) && (om_Name (rr_Meta o) == om_Name (rr_Meta rr)))
  && deletion_IsZero (rr_Meta o)
  && (rs_Name (rr_Spec o) == rs_Name (rr_Spec rr)) && (rs_Type (rr_Spec o) == rs_Type (rr_Spec rr)).
Definition conflict_in (rr : RRSet) (items : list RRSet) : string :=
  match List.find (is_rival rr) items with
  | Some o => om_Namespace (rr_Meta o) +:+ "/" +:+ om_Name (rr_Meta o)
  | None => ""
  end.

Definition set_rst_failure (msg : string) (rr : RRSet) : RRSet :=
  let st := rr_Status rr in
  set_rr_Status {| rst_ObservedGeneration := rst_ObservedGeneration st;
    rst_Conditions := rst_Conditions st; rst_FailureMessage := msg |} rr.
Definition set_rst_applied (rr : RRSet) : RRSet :=
  set_rr_Status {| rst_ObservedGeneration := om_Generation (rr_Meta rr);
    rst_Conditions := rst_Conditions (rr_Status rr); rst_FailureMessage := "" |} rr.

(** ** The reconciler *)

Section reconciler.
Context `{Machinery, Reconciler}.

Definition rrset_cond (condType status reason message : string) (rr : RRSet) : RRSet :=
  let st := rr_Status rr in
  set_rr_Status {| rst_ObservedGeneration := rst_ObservedGeneration st;
    rst_Conditions := setCondOn (rst_Conditions st) (om_Generation (rr_Meta rr)) condType status reason message;
    rst_FailureMessage := rst_FailureMessage st |} rr.

Definition markNotReady (rr : RRSet) (reason msg : string) (after : Z) : prog Outcome :=
  let rr := rrset_cond ConditionReady ConditionFalse reason msg (set_rst_failure msg rr) in
  try! _ := StatusUpdate KRRSet rr in
  Ret (requeue_after after, None).

Definition findConflict (rr : RRSet) : prog (res string) :=
  try! items := do_op (OListIndex KRRSet rrsetZoneIndex
                  (refKey (rs_ZoneRef (rr_Spec rr)) (om_Namespace (rr_Meta rr)))) in
  Ret (Ok (conflict_in rr items)).

Definition deleteFromPowerDNS (rr : RRSet) : prog (option err) :=
  let! r := Get KZone (zoneKeyFor rr) in
  match r with
  | Err e => Ret (if IsNotFound e then None else Some e)
  | Ok zone =>
      if negb (deletion_IsZero (zn_Meta zone)) then done_ok
      else
        try! other := findConflict rr in
        if other != "" then done_ok
        else
          let! r := Get KServer (serverKeyFor zone) in
          match r with
          | Err e => Ret (if IsNotFound e then None else Some e)
          | Ok server =>
              if negb (deletion_IsZero (srv_Meta server)) || (pst_Phase (srv_Status server) == PhaseFailed)
              then done_ok
              else
                try! pc := pdnsClientFor server in
                let! derr := PatchRRSets pc (zs_ZoneName (zn_Spec zone)) [deletedRRSet rr] in
                match derr with
                | Some e => Ret (if errors_Is e ErrNotFound then None else Some e)
                | None =>
                    let! _ := event KRRSet rr EventTypeNormal "RRSetDeleted"
                      ("removed " +:+ rs_Name (rr_Spec rr) +:+ " " +:+ rs_Type (rr_Spec rr)
                       +:+ " from PowerDNS") in
                    done_ok
                end
          end
  end.

Definition reconcileDelete (rr : RRSet) : prog Outcome :=
  if negb (ContainsFinalizer (rr_Meta rr) rrsetFinalizer) then Ret (no_requeue, None)
  else
    check! (if rs_DeletionPolicy (rr_Spec rr) != DeletionPolicyOrphan then deleteFromPowerDNS rr
            else done_ok) in
    let! r := Update KRRSet (set_rr_Meta (RemoveFinalizer (rr_Meta rr) rrsetFinalizer) rr) in
    Ret (no_requeue, error_of r).

(** The part of Reconcile that talks to PowerDNS. *)
Definition applyRRSet (rr : RRSet) (zone : Zone) (pc : Client) : prog Outcome :=
  let desired := desiredRRSet rr in
  let! r := GetZone pc (zs_ZoneName (zn_Spec zone)) in
  match r with
  | Err e => markNotReady rr (apiReason e) (Error e) requeueLong
  | Ok pz =>
      let applied : prog Outcome :=
        let rr := rrset_cond ConditionReady ConditionTrue "Applied" "" (set_rst_applied rr) in
        try! _ := StatusUpdate KRRSet rr in
        Ret (requeue_after resyncInterval, None) in
      if negb (rrsetMatches pz desired) then
        let! e := PatchRRSets pc (zs_ZoneName (zn_Spec zone)) [desired] in
        match e with
        | Some e => markNotReady rr (apiReason e) (Error e) requeueLong
        | None =>
            let! _ := event KRRSet rr EventTypeNormal "RRSetApplied"
              ("applied " +:+ rs_Name (rr_Spec rr) +:+ " " +:+ rs_Type (rr_Spec rr) +:+ " ("
               +:+ itoa (Z.of_nat (length (rs_Records (rr_Spec rr)))) +:+ " records)") in
            applied
        end
      else applied
  end.

Definition Reconcile (key : NamespacedName) : prog Outcome :=
  let! r := Get KRRSet key in
  match r with
  | Err e => Ret (no_requeue, IgnoreNotFound (Some e))
  | Ok rr =>
      let meta := rr_Meta rr in
      let spec := rr_Spec rr in
      if negb (deletion_IsZero meta) then reconcileDelete rr
      else if negb (ContainsFinalizer meta rrsetFinalizer) then
        try! _ := Update KRRSet (set_rr_Meta (AddFinalizer meta rrsetFinalizer) rr) in
        Ret (requeue_now, None)
      else
        let! r := Get KZone (zoneKeyFor rr) in
        match r with
        | Err e =>
            if IsNotFound e then
              markNotReady rr "ZoneNotFound" ("Zone " +:+ nn_String (zoneKeyFor rr) +:+ " not found") requeueLong
            else Ret (no_requeue, Some e)
        | Ok zone =>
            let zspec := zn_Spec zone in
            if negb (deletion_IsZero (zn_Meta zone)) then
              markNotReady rr "ZoneDeleting" "referenced Zone is being deleted" requeueLong
            else if zs_Kind zspec == ZoneKindSecondary then
              markNotReady rr "SecondaryZone"
                "Secondary zone content is replicated from its primaries — manage records there" requeueLong
            else if negb (nameInZone (rs_Name spec) (zs_ZoneName zspec)) then
              markNotReady rr "NameOutsideZone"
                (quote (rs_Name spec) +:+ " is not within zone " +:+ quote (zs_ZoneName zspec)) requeueLong
            else
              let! r := Get KServer (serverKeyFor zone) in
              match r with
              | Err e =>
                  if IsNotFound e then
                    markNotReady rr "ServerNotFound"
                      ("PowerDNSServer " +:+ nn_String (serverKeyFor zone) +:+ " not found") requeueLong
                  else Ret (no_requeue, Some e)
              | Ok server =>
                  if negb (namespaceAllowed server (om_Namespace meta)) then
                    markNotReady rr "NamespaceNotAllowed"
                      ("namespace " +:+ quote (om_Namespace meta) +:+ " is not allowed by "
                       +:+ om_Namespace (srv_Meta server) +:+ "/" +:+ om_Name (srv_Meta server)
                       +:+ " spec.zoneManagement.allowedNamespaces") requeueLong
                  else if pst_Phase (srv_Status server) != PhaseReady then
                    markNotReady rr "ServerNotReady" "PowerDNSServer is not Ready yet" requeueShort
                  else
                    try! other := findConflict rr in
                    if other != "" then
                      markNotReady rr "Conflict"
                        ("RRSet " +:+ other +:+ " also declares " +:+ rs_Name spec +:+ " " +:+ rs_Type spec
                         +:+ " in this zone — delete one") requeueLong
                    else if zst_Phase (zn_Status zone) != ZonePhaseReady then
                      markNotReady rr "ZoneNotReady" "Zone is not Ready yet" requeueShort
                    else
                      let! r := pdnsClientFor server in
                      match r with
                      | Err e => markNotReady rr "APIUnreachable" (Error e) requeueLong
                      | Ok pc => applyRRSet rr zone pc
                      end
              end
        end
  end.

(** The requests for the RRSets of a zone, from the index. *)
Definition rrsetsForZone (zone : Zone) : prog (list NamespacedName) :=
  let! r := do_op (OListIndex KRRSet rrsetZoneIndex
              (om_Namespace (zn_Meta zone) +:+ "/" +:+ om_Name (zn_Meta zone))) in
  Ret (match r with Err _ => [] | Ok l => map (obj_key KRRSet) l end).
End reconciler.

(** The index function registered for RRSets. *)
Definition rrset_index (rr : RRSet) : list string :=
  [refKey (rs_ZoneRef (rr_Spec rr)) (om_Namespace (rr_Meta rr))].

(** ** What the comparison and the name test mean *)

(** The record contents of an rrset, in order. *)
Definition contents (r : PRRSet) : list string := map prec_Content (prr_Records r).
(** The rrset of the zone that has the key of the desired one. *)
Definition same_key (a b : PRRSet) : Prop := prr_Name a = prr_Name b /\ prr_Type a = prr_Type b.
(** The zone's first rrset with that key lists the desired TTL and contents;
    whether its records are disabled is not looked at. *)
Definition lists (pz : PZone) (desired : PRRSet) : Prop :=
  exists l1 got l2, pz_RRSets pz = l1 ++ got :: l2
    /\ Forall (fun r => ~ same_key r desired) l1 /\ same_key got desired
    /\ prr_TTL got = prr_TTL desired /\ contents got ≡ₚ contents desired.

(** What an RRSet declares, and what PowerDNS serves. The meaning of an RRSet
    is read off its specification alone, not off [desiredRRSet]: the records
    of an rrset that are disabled are stored and not served. *)
Definition declared_TTL (rr : RRSet) : Z := default 3600 (rs_TTL (rr_Spec rr)).
Definition declares (rr : RRSet) (r : PRRSet) : Prop :=
  prr_Name r = rs_Name (rr_Spec rr) /\ prr_Type r = rs_Type (rr_Spec rr).
Definition served (r : PRRSet) : list string :=
  map prec_Content (filter (fun rec => prec_Disabled rec = false) (prr_Records r)).
Definition enabled (r : PRRSet) : Prop := Forall (fun rec => prec_Disabled rec = false) (prr_Records r).
(** r answers queries with exactly what rr declares. *)
Definition serves_rrset (rr : RRSet) (r : PRRSet) : Prop :=
  prr_TTL r = declared_TTL rr /\ served r ≡ₚ rs_Records (rr_Spec rr).
(** The same with no disabled record in it: what a PATCH of rr leaves. *)
Definition settled_rrset (rr : RRSet) (r : PRRSet) : Prop := serves_rrset rr r /\ enabled r.
(** r holds what rr declares, but some of its records are disabled. *)
Definition hidden_rrset (rr : RRSet) (r : PRRSet) : Prop :=
  prr_TTL r = declared_TTL rr /\ contents r ≡ₚ rs_Records (rr_Spec rr) /\ ~ enabled r.
(** P of the zone's first rrset of the declared name and type. *)
Definition first_rrset (pz : PZone) (rr : RRSet) (P : PRRSet -> Prop) : Prop :=
  exists l1 got l2, pz_RRSets pz = l1 ++ got :: l2
    /\ Forall (fun r => ~ declares rr r) l1 /\ declares rr got /\ P got.
Definition serves (pz : PZone) (rr : RRSet) : Prop := first_rrset pz rr (serves_rrset rr).
Definition settles (pz : PZone) (rr : RRSet) : Prop := first_rrset pz rr (settled_rrset rr).
Definition hides (pz : PZone) (rr : RRSet) : Prop := first_rrset pz rr (hidden_rrset rr).

#[export] Instance enabled_dec r : Decision (enabled r).
Proof. unfold enabled. apply _. Defined.

(** The labels of a domain name. *)
Definition dns_labels (s : string) : list string := map of_chars (split_on "."%char (chars s)).

(** want counts the elements of l. *)
Definition counts (want : gmap string Z) (l : list string) : Prop :=
  forall k, count_of want k = Z.of_nat (List.count_occ String.string_dec l k).

Lemma count_of_insert want k k' (z : Z) :
  count_of (<[k := z]> want) k' = if bool_decide (k = k') then z else count_of want k'.
Proof. unfold count_of. rewrite lookup_insert. by case_decide; case_bool_decide. Qed.

Lemma count_occ_cons_if (l : list string) x k :
  Z.of_nat (List.count_occ String.string_dec (x :: l) k)
  = Z.of_nat (List.count_occ String.string_dec l k) + (if bool_decide (x = k) then 1 else 0).
Proof. simpl. destruct (String.string_dec x k); case_bool_decide; simplify_eq; lia. Qed.

Lemma counts_up want l rec : counts want l -> counts (count_up want rec) (prec_Content rec :: l).
Proof.
  intros Hw k. unfold count_up. rewrite count_of_insert, count_occ_cons_if, !Hw.
  case_bool_decide; simplify_eq; lia.
Qed.

Lemma counts_perm want l l' : l ≡ₚ l' -> counts want l -> counts want l'.
Proof. intros HP Hw k. rewrite Hw. f_equal. by apply Permutation_count_occ. Qed.

Lemma counts_foldl (recs : list PRecord) want l :
  counts want l -> counts (foldl count_up want recs) (l ++ map prec_Content recs).
Proof.
  revert want l. induction recs as [|r recs IH]; intros want l Hw; simpl; [by rewrite app_nil_r|].
  eapply counts_perm; [|apply IH, counts_up, Hw]. simpl. by rewrite Permutation_middle.
Qed.

Lemma consume_submseteq want l (got : list PRecord) :
  counts want l -> consume want got = true <-> map prec_Content got ⊆+ l.
Proof.
  revert want l. induction got as [|r got IH]; intros want l Hw; simpl.
  - split; [intros _; apply submseteq_nil_l|done].
  - rewrite Hw. destruct (_ =? 0) eqn:E; bool_prop.
    + split; [done|]. intros Hs. exfalso.
      assert (Hin : prec_Content r ∈ l) by (eapply elem_of_submseteq; [by left|done]).
      apply list_elem_of_In, (List.count_occ_In String.string_dec) in Hin. lia.
    + assert (Hin : prec_Content r ∈ l).
      { apply list_elem_of_In, (List.count_occ_In String.string_dec). lia. }
      apply elem_of_Permutation in Hin as [l' Hl'].
      rewrite (IH _ l'), Hl'.
      * split; [by apply submseteq_skip|]. intros Hs. by apply (submseteq_app_inv_l _ _ [prec_Content r]).
      * intros k. rewrite count_of_insert.
        pose proof (counts_perm _ _ _ Hl' Hw k) as Hk. rewrite count_occ_cons_if in Hk.
        pose proof (Hw k). case_bool_decide; simplify_eq; lia.
Qed.

Lemma same_key_spec a b :
  ((prr_Name a != prr_Name b) || (prr_Type a != prr_Type b)) = false <-> same_key a b.
Proof. unfold same_key. rewrite orb_false_iff, !negb_false_iff, !bool_decide_eq_true. done. Qed.

Lemma consume_contents got desired :
  length (prr_Records got) = length (prr_Records desired) ->
  consume (foldl count_up ∅ (prr_Records desired)) (prr_Records got) = true
  <-> contents got ≡ₚ contents desired.
Proof.
  intros Hlen. rewrite (consume_submseteq _ (contents desired)).
  - unfold contents. split; [|intros HP; by rewrite HP].
    intros Hs. apply submseteq_length_Permutation; [done|]. rewrite !length_map. lia.
  - apply (counts_foldl _ ∅ []). intros k. unfold count_of. by rewrite lookup_empty.
Qed.

Lemma rrsetMatches_iff (pz : PZone) (desired : PRRSet) :
  rrsetMatches pz desired = true <-> lists pz desired.
Proof.
  unfold rrsetMatches, lists. induction (pz_RRSets pz) as [|got l IH]; simpl.
  - split; [done|]. intros ([|??] & got & l2 & ? & _); done.
  - destruct (_ || _) eqn:Ek.
    + rewrite IH. assert (Hk : ~ same_key got desired) by (rewrite <- same_key_spec; congruence).
      split; intros (l1 & g & l2 & E & Hf & H).
      * exists (got :: l1), g, l2. rewrite E. split; [done|]. split; [by constructor|done].
      * destruct l1 as [|x l1]; simplify_eq/=; [by destruct H|].
        exists l1, g, l2. apply Forall_cons in Hf as [_ Hf]. done.
    + apply same_key_spec in Ek. transitivity (prr_TTL got = prr_TTL desired /\ contents got ≡ₚ contents desired).
      * destruct (_ || _) eqn:Et.
        -- split; [done|]. intros [Ht HP]. apply Permutation_length in HP. unfold contents in HP.
           rewrite !length_map in HP. rewrite Ht, HP, Z.eqb_refl, Nat.eqb_refl in Et. done.
        -- apply orb_false_iff in Et as [Et El]. bool_prop. apply Nat.eqb_eq in El.
           rewrite consume_contents by done. naive_solver.
      * split; [intros [Ht HP]; by exists [], got, l|].
        intros (l1 & g & l2 & E & Hf & Hg & Ht & HP). destruct l1 as [|x l1]; simplify_eq/=; [done|].
        by apply Forall_cons in Hf as [? _].
Qed.

Lemma served_enabled r : enabled r -> served r = contents r.
Proof.
  unfold enabled, served, contents. induction 1 as [|rec l Hd _ IH]; [done|].
  rewrite filter_cons_True by done. cbn [map]. by f_equal.
Qed.

(** The rrset of the PATCH is what the RRSet declares. *)
Lemma desiredRRSet_contents rr : contents (desiredRRSet rr) = rs_Records (rr_Spec rr).
Proof. unfold contents. cbn. rewrite map_map. apply map_id. Qed.
Lemma desiredRRSet_enabled rr : enabled (desiredRRSet rr).
Proof. apply Forall_forall. by intros rec (c & -> & _)%list_elem_of_fmap. Qed.
Lemma desiredRRSet_settled rr : declares rr (desiredRRSet rr) /\ settled_rrset rr (desiredRRSet rr).
Proof.
  split; [done|]. split; [|apply desiredRRSet_enabled]. split; [unfold declared_TTL; cbn; by destruct (rs_TTL (rr_Spec rr))|].
  by rewrite served_enabled, desiredRRSet_contents by apply desiredRRSet_enabled.
Qed.

(** What is listed is served, or hidden by disabled records. *)
Lemma listed_rrset rr got :
  prr_TTL got = prr_TTL (desiredRRSet rr) /\ contents got ≡ₚ contents (desiredRRSet rr)
  <-> settled_rrset rr got \/ hidden_rrset rr got.
Proof.
  destruct (desiredRRSet_settled rr) as [_ [[Ht _] _]]. unfold settled_rrset, serves_rrset, hidden_rrset.
  rewrite Ht, desiredRRSet_contents. destruct (decide (enabled got)) as [E|E]; [|naive_solver].
  rewrite (served_enabled got E). naive_solver.
Qed.

Lemma first_rrset_mono pz rr (P Q : PRRSet -> Prop) :
  (forall r, r ∈ pz_RRSets pz -> declares rr r -> P r -> Q r) -> first_rrset pz rr P -> first_rrset pz rr Q.
Proof.
  intros HPQ (l1 & got & l2 & E & Hf & Hd & HP). exists l1, got, l2. split_and!; [done..|].
  apply HPQ; [|done..]. rewrite E. apply elem_of_app. right. left.
Qed.

Lemma lists_first pz rr : lists pz (desiredRRSet rr) <-> settles pz rr \/ hides pz rr.
Proof.
  unfold settles, hides, lists, first_rrset, same_key, declares. split.
  - intros (l1 & got & l2 & E & Hf & Hk & H). apply listed_rrset in H as [H|H]; [left|right]; by exists l1, got, l2.
  - intros [H|H]; destruct H as (l1 & got & l2 & E & Hf & Hk & H); exists l1, got, l2; (split; [done|]);
      (split; [done|]); (split; [done|]); apply listed_rrset; auto.
Qed.

(** C16. The comparison before a PATCH decides what PowerDNS serves, up to
    disabled records: where no record of the declared name and type is
    disabled, rrsetMatches says true exactly if the zone serves what the
    RRSet declares (its name and type, its TTL or 3600, its contents as a
    multiset); in any zone it says true exactly if the zone does so without
    a disabled record, or holds the declared TTL and contents with some
    records disabled, which are then not served and not repaired; and what
    it patches in otherwise is an rrset that serves the RRSet. *)
Theorem rrsetMatches_serves (pz : PZone) (rr : RRSet) :
  ((forall r, r ∈ pz_RRSets pz -> declares rr r -> enabled r) ->
     rrsetMatches pz (desiredRRSet rr) = true <-> serves pz rr)
  /\ (rrsetMatches pz (desiredRRSet rr) = true <-> settles pz rr \/ hides pz rr)
  /\ declares rr (desiredRRSet rr) /\ settled_rrset rr (desiredRRSet rr).
Proof.
  rewrite rrsetMatches_iff, lists_first. split; [|split; [done|apply desiredRRSet_settled]].
  intros He. split.
  - intros [H|H]; apply (first_rrset_mono pz rr _ _) with (2 := H); intros r Hr Hd; [by intros [? _]|].
    intros (_ & _ & Hn). by destruct Hn; apply He.
  - intros H. left. apply (first_rrset_mono pz rr _ _) with (2 := H). intros r Hr Hd Hs. split; [done|by apply He].
Qed.

(** The sample RRSet in a zone where its record is disabled: nothing is
    served, and the comparison finds nothing to do. *)
Definition disabled_zone : PZone := {|
  pz_ID := "example.org"; pz_Name := "example.org"; pz_Kind := "Native"; pz_Serial := 1; pz_Masters := None;
  pz_Nameservers := None; pz_DNSSEC := false;
  pz_RRSets := [{| prr_Name := rs_Name (rr_Spec sample_rrset); prr_Type := rs_Type (rr_Spec sample_rrset);
    prr_TTL := declared_TTL sample_rrset; prr_ChangeType := "";
    prr_Records := map (fun c => {| prec_Content := c; prec_Disabled := true |}) (rs_Records (rr_Spec sample_rrset)) |}] |}.
Lemma disabled_records_not_repaired :
  rrsetMatches disabled_zone (desiredRRSet sample_rrset) = true /\ map served (pz_RRSets disabled_zone) = [[]].
Proof. split; vm_compute; reflexivity. Qed.

Lemma split_on_not_nil c l : split_on c l <> [].
Proof. destruct l as [|x l]; simpl; [done|]. destruct (bool_decide (x = c)); [done|]. by destruct (split_on c l). Qed.

Lemma split_on_app_sep c a b : split_on c (a ++ c :: b) = split_on c a ++ split_on c b.
Proof.
  induction a as [|x a IH]; simpl.
  - by rewrite bool_decide_eq_true_2.
  - rewrite IH. destruct (bool_decide (x = c)); [done|].
    pose proof (split_on_not_nil c a). by destruct (split_on c a).
Qed.

(** The inverse of splitting. *)
Fixpoint unsplit (c : Ascii.ascii) (l : list (list Ascii.ascii)) : list Ascii.ascii :=
  match l with
  | [] => []
  | [x] => x
  | x :: l => x ++ c :: unsplit c l
  end.

Lemma unsplit_split_on c l : unsplit c (split_on c l) = l.
Proof.
  induction l as [|x l IH]; simpl; [done|]. pose proof (split_on_not_nil c l).
  destruct (bool_decide (x = c)) eqn:E; bool_prop; subst; destruct (split_on c l) as [|h [|h' t]]; simpl in *; congruence.
Qed.

Lemma unsplit_app c l1 l2 : l1 <> [] -> l2 <> [] -> unsplit c (l1 ++ l2) = unsplit c l1 ++ c :: unsplit c l2.
Proof.
  intros H1 H2. induction l1 as [|x [|y l1] IH]; [done|simpl; by destruct l2|].
  transitivity (x ++ c :: unsplit c ((y :: l1) ++ l2)); [done|]. rewrite IH by done.
  simpl. by rewrite <- app_assoc.
Qed.

Lemma of_chars_inj l l' : of_chars l = of_chars l' -> l = l'.
Proof. intros E. by rewrite <- (chars_of_chars l), E, chars_of_chars. Qed.

#[export] Instance of_chars_Inj : Inj (=) (=) of_chars.
Proof. exact of_chars_inj. Qed.

(** C17. A name is accepted for a zone exactly when the labels of the zone are
    the last labels of the name: the apex or a name below it, never a name
    that merely ends with the zone's text. *)
Theorem nameInZone_labels (name zone : string) :
  nameInZone name zone = true <-> dns_labels zone `suffix_of` dns_labels name.
Proof.
  unfold nameInZone, dns_labels. rewrite orb_true_iff, bool_decide_eq_true, HasSuffix_spec. split.
  - intros [->|[p ->]]; [done|]. exists (map of_chars (split_on "."%char (chars p))).
    rewrite !chars_app. cbn [chars app]. rewrite split_on_app_sep. by rewrite map_app.
  - intros [pre E]. apply fmap_app_inv in E as (l1 & l2 & -> & E2 & Es).
    apply (inj (fmap of_chars)) in E2. subst l2. apply (f_equal (unsplit "."%char)) in Es.
    destruct l1 as [|x l1]; rewrite ?unsplit_app in Es by (done || apply split_on_not_nil);
      simpl app in Es; rewrite !unsplit_split_on in Es.
    + left. by apply chars_inj.
    + right. exists (of_chars (unsplit "."%char (x :: l1))). apply chars_inj.
      by rewrite !chars_app, chars_of_chars.
Qed.

(** ** Who may reach PowerDNS, and what is sent *)

(** The conditions under which an RRSet is applied. *)
Record apply_guards (rr : RRSet) (zone : Zone) (server : PowerDNSServer) (items : list RRSet) : Prop := {
  ag_live : deletion_IsZero (rr_Meta rr) = true;
  ag_zone_live : deletion_IsZero (zn_Meta zone) = true;
  ag_kind : zs_Kind (zn_Spec zone) <> ZoneKindSecondary;
  ag_name : nameInZone (rs_Name (rr_Spec rr)) (zs_ZoneName (zn_Spec zone)) = true;
  ag_allowed : namespaceAllowed server (om_Namespace (rr_Meta rr)) = true;
  ag_server : pst_Phase (srv_Status server) = PhaseReady;
  ag_no_rival : conflict_in rr items = "";
  ag_zone_ready : zst_Phase (zn_Status zone) = ZonePhaseReady;
}.

(** The conditions under which the deletion of an RRSet reaches PowerDNS. *)
Record delete_guards (rr : RRSet) (zone : Zone) (server : PowerDNSServer) (items : list RRSet) : Prop := {
  dg_deleted : deletion_IsZero (rr_Meta rr) = false;
  dg_policy : rs_DeletionPolicy (rr_Spec rr) <> DeletionPolicyOrphan;
  dg_zone_live : deletion_IsZero (zn_Meta zone) = true;
  dg_server_live : deletion_IsZero (srv_Meta server) = true;
  dg_server : pst_Phase (srv_Status server) <> PhaseFailed;
  dg_no_rival : conflict_in rr items = "";
}.

(** The HTTP exchanges of one application of an RRSet: a GET of the zone, and
    one PATCH with the desired rrset exactly when the zone read does not
    list it. *)
Inductive apply_session (rr : RRSet) (name : string) (pc : Client) : list (HttpRequest * http_result) -> Prop :=
| session_unchanged x :
    (forall pz, zone_answer name x = Ok pz -> lists pz (desiredRRSet rr)) ->
    apply_session rr name pc [(get_zone_req pc name, x)]
| session_patched x pz y :
    zone_answer name x = Ok pz -> ~ lists pz (desiredRRSet rr) ->
    apply_session rr name pc [(get_zone_req pc name, x); (patch_req pc name [desiredRRSet rr], y)].

(** The reads that a trace of Reconcile performed. *)
Definition has_read (t : list obs) (key : NamespacedName) (rr : RRSet) (zone : Zone)
    (server : PowerDNSServer) (items : list RRSet) : Prop :=
  Ev (OGet KRRSet key) (Ok rr) ∈ t
  /\ Ev (OGet KZone (zoneKeyFor rr)) (Ok zone) ∈ t
  /\ Ev (OGet KServer (serverKeyFor zone)) (Ok server) ∈ t
  /\ Ev (OListIndex KRRSet rrsetZoneIndex
           (refKey (rs_ZoneRef (rr_Spec rr)) (om_Namespace (rr_Meta rr)))) (Ok items) ∈ t.

Definition rrset_guarded (key : NamespacedName) (t : list obs) : Prop :=
  http_exchanges t = []
  \/ exists rr zone server items pc, has_read t key rr zone server items
     /\ ((apply_guards rr zone server items
          /\ apply_session rr (zs_ZoneName (zn_Spec zone)) pc (http_exchanges t))
         \/ (delete_guards rr zone server items
             /\ exists x, http_exchanges t = [(patch_req pc (zs_ZoneName (zn_Spec zone)) [deletedRRSet rr], x)])).

Section guards.
Context `{Machinery, Reconciler}.

Lemma applyRRSet_session rr zone pc :
  wp (applyRRSet rr zone pc)
     (fun t _ => apply_session rr (zs_ZoneName (zn_Spec zone)) pc (http_exchanges t)).
Proof.
  unfold applyRRSet, markNotReady, event, StatusUpdate, GetZone, PatchRRSets, do_req, err_of.
  wp_run.
  all: exchanges; first
    [ apply session_unchanged; intros pz Hpz; unfold zone_answer in Hpz;
      first [congruence|rewrite Heqr in Hpz; injection Hpz as <-; apply rrsetMatches_iff; by bool_prop]
    | eapply session_patched; [done|]; rewrite <- rrsetMatches_iff; bool_prop; congruence ].
Qed.

Lemma deleteFromPowerDNS_guarded rr :
  wp (deleteFromPowerDNS rr) (fun t _ =>
    http_exchanges t = []
    \/ exists zone server items pc x,
         Ev (OGet KZone (zoneKeyFor rr)) (Ok zone) ∈ t
         /\ Ev (OGet KServer (serverKeyFor zone)) (Ok server) ∈ t
         /\ Ev (OListIndex KRRSet rrsetZoneIndex
                  (refKey (rs_ZoneRef (rr_Spec rr)) (om_Namespace (rr_Meta rr)))) (Ok items) ∈ t
         /\ deletion_IsZero (zn_Meta zone) = true /\ deletion_IsZero (srv_Meta server) = true
         /\ pst_Phase (srv_Status server) <> PhaseFailed /\ conflict_in rr items = ""
         /\ http_exchanges t = [(patch_req pc (zs_ZoneName (zn_Spec zone)) [deletedRRSet rr], x)]).
Proof.
  unfold deleteFromPowerDNS, findConflict, pdnsClientFor, event, Get, PatchRRSets, do_req, err_of.
  wp_run; exchanges; try (by left); right.
  all: bool_prop; subst; eexists _, _, _, _, _.
  all: do 3 (split; [in_trace|]).
  all: split_and!; done.
Qed.

Lemma rrset_Reconcile_guarded key : wp (Reconcile key) (fun t _ => rrset_guarded key t).
Proof.
  unfold Reconcile, reconcileDelete, findConflict, markNotReady, pdnsClientFor, StatusUpdate, Get, Update.
  wp_run; try (by left).
  all: try match goal with |- wp (bind (deleteFromPowerDNS _) _) _ => apply wp_bind end.
  all: eapply wp_mono; [|first [apply applyRRSet_session|apply deleteFromPowerDNS_guarded]];
    intros t1 r1; cbn beta.
  all: bool_prop; subst.
  - intros [Hn|(zone & server & items & pc & x & Hz & Hs & Hi & H1 & H2 & H3 & H4 & He)];
      wp_run; [left|left|right..]; rewrite ?http_exchanges_cons, ?http_exchanges_app, ?Hn by done; try done.
    all: exists a, zone, server, items, pc; split; [split_and!; in_trace|right; split; [done|]].
    all: exists x; by rewrite He.
  - intros Hs. right. eexists a, a0, a1, a2, _. split; [split_and!; in_trace|left]. split; [done|].
    by rewrite !http_exchanges_cons by done.
Qed.
End guards.

(** C2. Whatever Kubernetes and PowerDNS answer, one pass over an RRSet
    sends nothing to PowerDNS, or it read the resources that permit it: to
    apply, a live RRSet inside a live, Ready, non-Secondary Zone of a Ready
    server whose allow-list admits its namespace, with no rival claimant, and
    then exactly a GET and, if the zone does not list the declared rrset, one
    PATCH of that rrset alone; to delete, a live zone and server, no
    rival, and then exactly one PATCH that deletes that rrset alone. *)
Theorem rrset_reconcile_guarded `{Machinery, Reconciler} (key : NamespacedName) :
  wp (Reconcile key) (fun t _ => rrset_guarded key t).
Proof. apply rrset_Reconcile_guarded. Qed.

(** ** Status and release *)

(** A status that the reconciler may write. *)
Definition rrset_status_ok (rr : RRSet) : Prop :=
  let st := rr_Status rr in
  exists ready, find_cond ConditionReady (rst_Conditions st) = Some ready
    /\ c_ObservedGeneration ready = om_Generation (rr_Meta rr)
    /\ ((c_Status ready = ConditionTrue /\ rst_FailureMessage st = ""
         /\ rst_ObservedGeneration st = om_Generation (rr_Meta rr))
        \/ (c_Status ready = ConditionFalse /\ c_Message ready = rst_FailureMessage st)).

(** The RRSets whose status a trace wrote, and those it wrote. *)
Definition rrset_status_update (e : obs) : option RRSet :=
  match ev_op e with
  | OStatusUpdate k z => match k return obj_of k -> option RRSet with KRRSet => Some | _ => fun _ => None end z
  | _ => None
  end.
Definition rrset_update (e : obs) : option RRSet :=
  match ev_op e with
  | OUpdate k z => match k return obj_of k -> option RRSet with KRRSet => Some | _ => fun _ => None end z
  | _ => None
  end.
Definition ready_true (rr : RRSet) : Prop :=
  exists c, find_cond ConditionReady (rst_Conditions (rr_Status rr)) = Some c /\ c_Status c = ConditionTrue.

(** What PowerDNS acknowledged: the answer to the only exchange, a GET, shows
    the zone serving what rr declares, or holding it with records disabled; or
    the exchange after the GET, a PATCH that replaces one rrset by what rr
    declares, was accepted. *)
Definition acknowledged (rr : RRSet) (t : list obs) : Prop :=
  exists pc zone, Ev (OGet KZone (zoneKeyFor rr)) (Ok zone) ∈ t
    /\ let name := zs_ZoneName (zn_Spec zone) in
       (exists y pz, http_exchanges t = [(get_zone_req pc name, y)]
          /\ zone_answer name y = Ok pz /\ (settles pz rr \/ hides pz rr))
       \/ (exists x y r, http_exchanges t = [(get_zone_req pc name, x); (patch_req pc name [r], y)]
          /\ declares rr r /\ prr_ChangeType r = "REPLACE" /\ settled_rrset rr r
          /\ patch_answer name y = Ok tt).

(** Why the finalizer of an RRSet may be removed. *)
Definition rrset_release_justified (rr : RRSet) (t : list obs) : Prop :=
  deletion_IsZero (rr_Meta rr) = false
  /\ (rs_DeletionPolicy (rr_Spec rr) = DeletionPolicyOrphan
      \/ (exists e, Ev (OGet KZone (zoneKeyFor rr)) (Err e) ∈ t /\ IsNotFound e = true)
      \/ (exists zone, Ev (OGet KZone (zoneKeyFor rr)) (Ok zone) ∈ t
          /\ (deletion_IsZero (zn_Meta zone) = false
              \/ (exists items, Ev (OListIndex KRRSet rrsetZoneIndex
                    (refKey (rs_ZoneRef (rr_Spec rr)) (om_Namespace (rr_Meta rr)))) (Ok items) ∈ t
                  /\ conflict_in rr items <> "")
              \/ (exists e, Ev (OGet KServer (serverKeyFor zone)) (Err e) ∈ t /\ IsNotFound e = true)
              \/ (exists server, Ev (OGet KServer (serverKeyFor zone)) (Ok server) ∈ t
                   /\ (deletion_IsZero (srv_Meta server) = false \/ pst_Phase (srv_Status server) = PhaseFailed))
              \/ (exists pc x, (patch_req pc (zs_ZoneName (zn_Spec zone)) [deletedRRSet rr], x) ∈ http_exchanges t
                   /\ match do_result MethodPatch (zonePath (zs_ZoneName (zn_Spec zone))) no_out x with
                      | Ok _ => True
                      | Err e => errors_Is e ErrNotFound = true
                      end)))).

Section laws.
Context `{MachineryLaws, Reconciler}.

Lemma rrset_cond_same ty status reason msg rr :
  find_cond ty (rst_Conditions (rr_Status (rrset_cond ty status reason msg rr)))
  = Some {| c_Type := ty; c_Status := status; c_Reason := reason; c_Message := msg;
            c_ObservedGeneration := om_Generation (rr_Meta rr) |}.
Proof.
  exact (SetStatusCondition_same _ {| c_Type := ty; c_Status := status; c_Reason := reason; c_Message := msg;
    c_ObservedGeneration := om_Generation (rr_Meta rr) |}).
Qed.

Lemma not_ready_written rr reason msg :
  let rr' := rrset_cond ConditionReady ConditionFalse reason msg (set_rst_failure msg rr) in
  rrset_status_ok rr' /\ ~ ready_true rr'.
Proof.
  split.
  - eexists. split; [apply rrset_cond_same|]. split; [done|]. by right.
  - intros (c & Hc & Ht). rewrite rrset_cond_same in Hc. by simplify_eq.
Qed.

Lemma applied_written rr :
  rrset_status_ok (rrset_cond ConditionReady ConditionTrue "Applied" "" (set_rst_applied rr)).
Proof. eexists. split; [apply rrset_cond_same|]. split; [done|]. by left. Qed.

(** The status of a pass: consistent, and Ready only when acknowledged. *)
Definition status_post (t : list obs) : Prop :=
  forall rr', rr' ∈ omap rrset_status_update t ->
    rrset_status_ok rr' /\ (ready_true rr' -> acknowledged rr' t).

Lemma status_post_none t : omap rrset_status_update t = [] -> status_post t.
Proof. intros Ht rr' Hrr. rewrite Ht in Hrr. by apply elem_of_nil in Hrr. Qed.

Lemma status_post_not_ready t rr reason msg :
  omap rrset_status_update t = [rrset_cond ConditionReady ConditionFalse reason msg (set_rst_failure msg rr)] ->
  status_post t.
Proof.
  intros Ht rr' Hrr. rewrite Ht in Hrr. apply list_elem_of_singleton in Hrr as ->.
  destruct (not_ready_written rr reason msg). naive_solver.
Qed.

Lemma status_post_applied t rr :
  omap rrset_status_update t = [rrset_cond ConditionReady ConditionTrue "Applied" "" (set_rst_applied rr)] ->
  acknowledged rr t -> status_post t.
Proof.
  intros Ht Ha rr' Hrr. rewrite Ht in Hrr. apply list_elem_of_singleton in Hrr as ->.
  split; [apply applied_written|by intros _].
Qed.

Lemma reconcileDelete_no_status rr : wp (reconcileDelete rr) (fun t _ => omap rrset_status_update t = []).
Proof.
  unfold reconcileDelete, deleteFromPowerDNS, findConflict, pdnsClientFor, event, PatchRRSets, do_req, err_of,
    Get, Update.
  wp_run; done.
Qed.

Lemma rrset_Reconcile_status key : wp (Reconcile key) (fun t _ => status_post t).
Proof.
  unfold Reconcile, applyRRSet, findConflict, markNotReady, pdnsClientFor, event, StatusUpdate, Get, Update,
    GetZone, PatchRRSets, do_req, err_of.
  wp_run; subst.
  all: try by (apply status_post_none).
  all: try by (eapply status_post_not_ready).
  all: try (eapply wp_mono; [|apply reconcileDelete_no_status]; intros t1 r1 Ht; by apply status_post_none).
  all: eapply status_post_applied; [done|].
  all: repeat match goal with u : unit |- _ => destruct u end.
  all: eexists _, _; (split; [in_trace|]); cbv zeta; first
    [ left; eexists _, _; split; [by exchanges|]; split; [done|]; apply lists_first, rrsetMatches_iff; by bool_prop
    | right; eexists _, _, (desiredRRSet _); split; [by exchanges|]; split_and!; try done; apply desiredRRSet_settled ].
Qed.

Lemma rrset_Reconcile_release key :
  wp (Reconcile key) (fun t _ => forall rr', rr' ∈ omap rrset_update t ->
    ContainsFinalizer (rr_Meta rr') rrsetFinalizer = false ->
    exists rr, Ev (OGet KRRSet key) (Ok rr) ∈ t /\ rrset_release_justified rr t).
Proof.
  unfold Reconcile, reconcileDelete, deleteFromPowerDNS, applyRRSet, findConflict, markNotReady, pdnsClientFor, event,
    StatusUpdate, Get, Update, GetZone, PatchRRSets, do_req, err_of.
  wp_run; bool_prop; subst; intros rr' Hr Hf; cbn in Hr.
  all: try solve [by apply elem_of_nil in Hr].
  all: try solve [apply list_elem_of_singleton in Hr as ->; cbn in Hf; by rewrite ContainsFinalizer_add in Hf].
  all: eexists; (split; [in_trace|]); split; [done|].
  all: first
    [ by left
    | right; left; eexists; split; [in_trace|done]
    | right; right; eexists; split; [in_trace|]; first
      [ left; by bool_prop
      | right; left; eexists; split; [in_trace|done]
      | right; right; left; eexists; split; [in_trace|done]
      | right; right; right; left; eexists; split; [in_trace|];
        match goal with E : (_ || _) = true |- _ => apply orb_true_iff in E as [?|?] end; bool_prop; by auto
      | right; right; right; right; eexists _, _; split; [exchanges; apply list_elem_of_here|];
        repeat match goal with E : ?x = _ |- context [match ?x with _ => _ end] => rewrite E end; done ] ].
Qed.
End laws.

(** C20. The Ready condition of an RRSet is backed by PowerDNS: every status
    that a pass writes is consistent (the Ready condition carries the observed
    generation, and a False one the failure message), and it is True only if
    PowerDNS, in that pass, accepted a PATCH that replaces one rrset by enabled
    records with the declared name, type, TTL and contents, or answered the
    GET with a zone that serves exactly those already. The one exception is
    stated with it: a zone that holds the declared TTL and contents with
    records disabled by someone else is reported Ready too. *)
Theorem rrset_status_honest `{MachineryLaws, Reconciler} (key : NamespacedName) :
  wp (Reconcile key) (fun t _ => forall rr, rr ∈ omap rrset_status_update t ->
    rrset_status_ok rr /\ (ready_true rr -> acknowledged rr t)).
Proof. apply rrset_Reconcile_status. Qed.

Lemma rrset_status_honest_witness :
  wp (@Reconcile RefMachinery {| HasRecorder := true |} (NN "dns" "www"))
    (fun t _ => forall rr, rr ∈ omap rrset_status_update t ->
      rrset_status_ok rr /\ (ready_true rr -> acknowledged rr t)).
Proof. apply rrset_status_honest. Defined.

(** C19. The finalizer of an RRSet is removed only from an RRSet under
    deletion, and only if its policy is Orphan, its zone or server is gone or
    going, a rival claims the rrset, or PowerDNS answered the PATCH that
    deletes the rrset with success or not found. *)
Theorem rrset_release_safe `{MachineryLaws, Reconciler} (key : NamespacedName) :
  wp (Reconcile key) (fun t _ => forall rr', rr' ∈ omap rrset_update t ->
    ContainsFinalizer (rr_Meta rr') rrsetFinalizer = false ->
    exists rr, Ev (OGet KRRSet key) (Ok rr) ∈ t /\ rrset_release_justified rr t).
Proof. apply rrset_Reconcile_release. Qed.

Lemma rrset_release_safe_witness :
  wp (@Reconcile RefMachinery {| HasRecorder := true |} (NN "dns" "www"))
    (fun t _ => forall rr', rr' ∈ omap rrset_update t ->
      ContainsFinalizer (rr_Meta rr') rrsetFinalizer = false ->
      exists rr, Ev (OGet KRRSet (NN "dns" "www")) (Ok rr) ∈ t /\ rrset_release_justified rr t).
Proof. apply rrset_release_safe. Defined.

Lemma is_rival_spec rr o :
  is_rival rr o = true <->
  obj_key KRRSet o <> obj_key KRRSet rr /\ deletion_IsZero (rr_Meta o) = true
  /\ rs_Name (rr_Spec o) = rs_Name (rr_Spec rr) /\ rs_Type (rr_Spec o) = rs_Type (rr_Spec rr).
Proof.
  unfold is_rival, obj_key, meta_key. cbn [get_meta].
  rewrite !andb_true_iff, negb_true_iff, andb_false_iff, !bool_decide_eq_true, !bool_decide_eq_false.
  destruct (decide (om_Namespace (rr_Meta o) = om_Namespace (rr_Meta rr))),
    (decide (om_Name (rr_Meta o) = om_Name (rr_Meta rr))); naive_solver congruence.
Qed.

Lemma is_rival_sym rr o :
  deletion_IsZero (rr_Meta rr) = true -> is_rival rr o = true -> is_rival o rr = true.
Proof. rewrite !is_rival_spec. naive_solver. Qed.

Lemma conflict_in_nonempty rr items : conflict_in rr items <> "" <-> exists o, o ∈ items /\ is_rival rr o = true.
Proof.
  unfold conflict_in. split.
  - destruct (List.find _ _) as [o|] eqn:E; [|done]. intros _. apply List.find_some in E as [Hi Hr].
    exists o. split; [by apply list_elem_of_In|done].
  - intros (o & Ho & Hr). destruct (List.find _ _) as [o'|] eqn:E.
    + intros E'. apply (f_equal chars) in E'. rewrite !chars_app in E'.
      destruct (chars (om_Namespace (rr_Meta o'))); done.
    + apply list_elem_of_In in Ho. eapply List.find_none in E; [|done]. congruence.
Qed.

(** What the API server answers to the query of the zone index: the RRSets of
    the cluster whose index value is the one asked for. *)
Definition indexed (all : list RRSet) (rr : RRSet) : list RRSet :=
  filter (fun o => refKey (rs_ZoneRef (rr_Spec rr)) (om_Namespace (rr_Meta rr)) ∈ rrset_index o) all.

(** Two RRSets claim one rrset: they are different, live resources whose
    references resolve to one Zone, with one name and type. *)
Record rivals (a b : RRSet) : Prop := {
  rivals_differ : obj_key KRRSet a <> obj_key KRRSet b;
  rivals_live : deletion_IsZero (rr_Meta a) = true /\ deletion_IsZero (rr_Meta b) = true;
  rivals_zone : zoneKeyFor a = zoneKeyFor b;
  rivals_name : rs_Name (rr_Spec a) = rs_Name (rr_Spec b);
  rivals_type : rs_Type (rr_Spec a) = rs_Type (rr_Spec b);
}.

#[export] Instance rivals_sym : Symmetric rivals.
Proof. intros a b [? [? ?] ? ? ?]. by split. Qed.

(** No namespace has a slash, which Kubernetes never admits. *)
Definition plain_namespaces (all : list RRSet) : Prop :=
  forall o, o ∈ all -> "/"%char ∉ chars (nn_Namespace (zoneKeyFor o)).

Lemma elem_of_indexed all a b :
  plain_namespaces all -> a ∈ all -> b ∈ indexed all a <-> b ∈ all /\ zoneKeyFor a = zoneKeyFor b.
Proof.
  intros Hns Ha. unfold indexed. rewrite list_elem_of_filter.
  pose proof (Hns a Ha) as H1. unfold rrset_index. rewrite list_elem_of_singleton.
  cut (b ∈ all -> refKey (rs_ZoneRef (rr_Spec a)) (om_Namespace (rr_Meta a))
    = refKey (rs_ZoneRef (rr_Spec b)) (om_Namespace (rr_Meta b)) <-> zoneKeyFor a = zoneKeyFor b); [tauto|].
  intros Hb. pose proof (Hns b Hb) as H2. unfold refKey, zoneKeyFor, ref_target in *. cbn in *.
  split; [intros [-> ->]%of_nn_String; done|by intros [= -> ->]].
Qed.

Lemma conflict_iff_rival all rr :
  plain_namespaces all -> rr ∈ all -> deletion_IsZero (rr_Meta rr) = true ->
  conflict_in rr (indexed all rr) <> "" <-> exists o, o ∈ all /\ rivals rr o.
Proof.
  intros Hns Hin Hlive. rewrite conflict_in_nonempty. split.
  - intros (o & [Ho Hz]%elem_of_indexed & (Hk & Hl & Hn & Ht)%is_rival_spec); [|done..]. exists o. by split.
  - intros (o & Ho & [Hk [_ Hl] Hz Hn Ht]). exists o. split; [by apply elem_of_indexed|]. by apply is_rival_spec.
Qed.

(** C34. Of the RRSets of a cluster, a live one finds a conflict exactly if
    another live RRSet, of any namespace, refers to the same Zone and declares
    the same name and the same type; the rejection is mutual, so that of two
    rivals neither is applied. RRSets that differ in type, name or zone, or
    are being deleted, are never in conflict. *)
Theorem rivals_both_rejected (all : list RRSet) (rr : RRSet)
  (Hns : plain_namespaces all) (Hin : rr ∈ all) (Hlive : deletion_IsZero (rr_Meta rr) = true) :
  (conflict_in rr (indexed all rr) <> "" <-> exists o, o ∈ all /\ rivals rr o)
  /\ forall o, o ∈ all -> rivals rr o -> conflict_in o (indexed all o) <> "".
Proof.
  split; [by apply conflict_iff_rival|]. intros o Ho Hr. apply conflict_iff_rival; [done..|by apply Hr|].
  exists rr. by split.
Qed.

(** A second claimant of the sample rrset, and another type of the same name. *)
Definition sample_rival : RRSet := set_rr_Meta (new_meta "www2" "dns" ∅) sample_rrset.
Definition sample_aaaa : RRSet := {|
  rr_Meta := new_meta "www6" "dns" ∅;
  rr_Spec := {| rs_ZoneRef := rs_ZoneRef (rr_Spec sample_rrset); rs_Name := rs_Name (rr_Spec sample_rrset);
    rs_Type := "AAAA"; rs_TTL := None; rs_Records := ["2001:db8::1"]; rs_DeletionPolicy := DeletionPolicyDelete |};
  rr_Status := rr_Status sample_rrset |}.

Lemma rivals_both_rejected_witness :
  let all := [sample_rrset; sample_rival; sample_aaaa] in
  conflict_in sample_rrset (indexed all sample_rrset) <> ""
  /\ conflict_in sample_rival (indexed all sample_rival) <> ""
  /\ conflict_in sample_aaaa (indexed all sample_aaaa) = "".
Proof.
  intros all. assert (Hns : plain_namespaces all).
  { intros o Ho. apply (bool_decide_unpack _).
    apply elem_of_cons in Ho as [->|[->|[->|[]%elem_of_nil]%elem_of_cons]%elem_of_cons]; by vm_compute. }
  assert (Hr : rivals sample_rrset sample_rival) by (split; [by vm_compute|by split|done..]).
  destruct (rivals_both_rejected all sample_rrset Hns) as [H1 H2]; [left|reflexivity|].
  split; [|split].
  - apply H1. exists sample_rival. split; [right; left|exact Hr].
  - apply H2; [right; left|exact Hr].
  - vm_compute. reflexivity.
Defined.

(** The indexes and the lookups agree: for namespaces without a slash,
    which Kubernetes never admits, the index key of a Zone is the one that
    its server's fan-out queries exactly when the Zone resolves its reference
    to that server, and the same holds between an RRSet and its zone, so an
    event of the target reaches its dependents and no others. *)
Theorem index_agrees_with_lookup (rr : RRSet) (zone zone' : Zone) (server : PowerDNSServer)
  (H1 : "/"%char ∉ chars (nn_Namespace (serverKeyFor zone))) (H2 : "/"%char ∉ chars (om_Namespace (srv_Meta server)))
  (H3 : "/"%char ∉ chars (nn_Namespace (zoneKeyFor rr))) (H4 : "/"%char ∉ chars (om_Namespace (zn_Meta zone'))) :
  (zone_index zone = [om_Namespace (srv_Meta server) +:+ "/" +:+ om_Name (srv_Meta server)]
     <-> serverKeyFor zone = obj_key KServer server)
  /\ (rrset_index rr = [om_Namespace (zn_Meta zone') +:+ "/" +:+ om_Name (zn_Meta zone')]
     <-> zoneKeyFor rr = obj_key KZone zone').
Proof.
  unfold zone_index, rrset_index, refKey, serverKeyFor, zoneKeyFor, ref_target, obj_key, meta_key in *. cbn in *.
  split; (split; [intros [= E]; apply of_nn_String in E as [-> ->]; done|by intros [= -> ->]]).
Qed.

Lemma index_agrees_with_lookup_witness :
  zone_index sample_zone = ["dns/ns1"] /\ rrset_index sample_rrset = ["dns/example"].
Proof.
  destruct (index_agrees_with_lookup sample_rrset sample_zone sample_zone sample_server) as [H1 H2];
    [apply (bool_decide_unpack _); by vm_compute..|].
  split; [by apply H1|by apply H2].
Defined.
