(* ===== verification/RRSetConvergence.v ===== *)
(** * A pass over an RRSet against a PowerDNS that stores what it accepts

    The reconciler of RRSetController against the zone content of a PowerDNS
    server: a transition relation on what the server stores, in the terms of
    the in-memory server of the tests (pdnsfake_test.go), while Kubernetes
    answers anything. An answer that is lost or an error leaves open whether
    a PATCH was applied; an accepted one was. *)

From S2P Require Import Prelude GoStd Meta ApiTypes KubeObjects Samples Effects RefMachinery Environment Manifests PdnsClient Converge ZoneController RRSetController.

Open Scope go_scope.
Open Scope stdpp_scope.
Open Scope Z_scope.

(** ** The content of the zones *)

#[export] Instance same_key_dec a b : Decision (same_key a b).
Proof. unfold same_key. apply _. Defined.

(** rr.ChangeType = "". *)
Definition stored (r : PRRSet) : PRRSet := {|
  prr_Name := prr_Name r; prr_Type := prr_Type r; prr_TTL := prr_TTL r; prr_ChangeType := "";
  prr_Records := prr_Records r |}.

Definition without (l : list PRRSet) (r : PRRSet) : list PRRSet := filter (fun x => ~ same_key x r) l.

(** One rrset of a PATCH body. *)
Definition patch_one (l : list PRRSet) (r : PRRSet) : list PRRSet :=
  if prr_ChangeType r == "REPLACE" then without l r ++ [stored r]
  else if prr_ChangeType r == "DELETE" then without l r
  else l.
Definition patch_all (l rs : list PRRSet) : list PRRSet := foldl patch_one l rs.

(** The rrsets of each zone, by the URL of the zone. *)
Abbreviation content := (gmap string (list PRRSet)).

(** What one exchange of the RRSet reconciler does to the content. *)
Inductive pdns_step (st : content) : HttpRequest * http_result -> content -> Prop :=
| step_get rq x :
    rq_Method rq = MethodGet ->
    (forall n pz, zone_answer n x = Ok pz -> exists l, st !! rq_URL rq = Some l /\ pz_RRSets pz ≡ₚ l) ->
    pdns_step st (rq, x) st
| step_patch rq x j rs l :
    rq_Method rq = MethodPatch -> rq_Body rq = Some j -> dec_patch j = Ok rs ->
    st !! rq_URL rq = Some l ->
    pdns_step st (rq, x) (<[rq_URL rq := patch_all l rs]> st)
| step_patch_rejected rq x :
    rq_Method rq = MethodPatch -> ~ http_accepted x ->
    pdns_step st (rq, x) st.

Inductive pdns_run (st : content) : list (HttpRequest * http_result) -> content -> Prop :=
| run_nil : pdns_run st [] st
| run_cons x st1 xs st2 : pdns_step st x st1 -> pdns_run st1 xs st2 -> pdns_run st (x :: xs) st2.

(** A zone holds at most one rrset of a name and type. *)
Definition unique_keys (l : list PRRSet) : Prop := NoDup (map (fun r => (prr_Name r, prr_Type r)) l).
Definition wf_content (st : content) : Prop := map_Forall (fun _ l => unique_keys l) st.

(** The zone holds the TTL and the contents of the rrset, enabled or not. *)
Definition zone_lists (l : list PRRSet) (desired : PRRSet) : Prop :=
  exists got, got ∈ l /\ same_key got desired /\ prr_TTL got = prr_TTL desired
    /\ contents got ≡ₚ contents desired.

(** The zone answers queries with what the RRSet declares, from an rrset
    without disabled records. *)
Definition zone_serves (l : list PRRSet) (rr : RRSet) : Prop :=
  exists got, got ∈ l /\ declares rr got /\ settled_rrset rr got.
(** The zone holds what the RRSet declares, with records disabled. *)
Definition zone_hides (l : list PRRSet) (rr : RRSet) : Prop :=
  exists got, got ∈ l /\ declares rr got /\ hidden_rrset rr got.

(** ** Lemmas *)

Lemma same_key_pair a b : same_key a b <-> (prr_Name a, prr_Type a) = (prr_Name b, prr_Type b).
Proof. unfold same_key. split; [by intros [-> ->]|by intros [= -> ->]]. Qed.

Lemma unique_same l a b : unique_keys l -> a ∈ l -> b ∈ l -> same_key a b -> a = b.
Proof. intros Hu Ha Hb Hk. apply same_key_pair in Hk. by apply (NoDup_map_inj _ l a b Hu). Qed.

(** Under unique keys the comparison of the reconciler is about the content. *)
Lemma lists_zone pz l desired :
  pz_RRSets pz ≡ₚ l -> unique_keys l -> lists pz desired <-> zone_lists l desired.
Proof.
  intros HP Hu. unfold lists, zone_lists. split.
  - intros (l1 & got & l2 & E & _ & Hk & Ht & Hc). exists got. rewrite <- HP, E. split; [|done].
    apply elem_of_app. right. left.
  - intros (got & Hin & Hk & Ht & Hc). rewrite <- HP in Hin. apply list_elem_of_split in Hin as (l1 & l2 & E).
    exists l1, got, l2. split; [done|]. split; [|done].
    apply Forall_forall. intros x Hx Hkx. unfold unique_keys in Hu. rewrite <- HP, E, map_app in Hu.
    apply NoDup_app in Hu as (_ & Hd & _). eapply Hd.
    + by apply list_elem_of_fmap_2.
    + cbn [map]. apply same_key_pair in Hk, Hkx. rewrite Hkx, <- Hk. left.
Qed.

Lemma elem_of_without l r x : x ∈ without l r <-> x ∈ l /\ ~ same_key x r.
Proof. unfold without. rewrite list_elem_of_filter. tauto. Qed.

Lemma patch_one_frame l r x : ~ same_key x r -> x ∈ patch_one l r <-> x ∈ l.
Proof.
  intros Hx. unfold patch_one. repeat split_match; bool_prop; [|rewrite elem_of_without; tauto|done].
  rewrite elem_of_app, elem_of_without, list_elem_of_singleton. split; [intros [[? _]| ->]; [done|by destruct Hx]|tauto].
Qed.

Lemma patch_replace_lists l r : prr_ChangeType r = "REPLACE" -> zone_lists (patch_one l r) r.
Proof.
  intros E. unfold patch_one. rewrite bool_decide_eq_true_2 by done. exists (stored r).
  split; [apply elem_of_app; right; left|done].
Qed.

Lemma patch_delete_removes l r x : prr_ChangeType r = "DELETE" -> x ∈ patch_one l r -> ~ same_key x r.
Proof.
  intros E. unfold patch_one. rewrite E, bool_decide_eq_false_2, bool_decide_eq_true_2 by done.
  rewrite elem_of_without. tauto.
Qed.

Lemma patch_answer_accepted n x : patch_answer n x = Ok tt -> http_accepted x.
Proof. apply do_result_ok. Qed.

(** One exchange of an application or a deletion of the rrset. *)
Lemma step_get_inv st pc n x st' :
  pdns_step st (get_zone_req pc n, x) st' ->
  st' = st /\ forall pz, zone_answer n x = Ok pz ->
    exists l, st !! rq_URL (get_zone_req pc n) = Some l /\ pz_RRSets pz ≡ₚ l.
Proof. inversion 1; simplify_eq; try done. split; [done|]. eauto. Qed.

Lemma step_patch_inv st pc n r x st' :
  wf_rrset r -> pdns_step st (patch_req pc n [r], x) st' ->
  (exists l, st !! rq_URL (get_zone_req pc n) = Some l
     /\ st' = <[rq_URL (get_zone_req pc n) := patch_one l r]> st)
  \/ (st' = st /\ ~ http_accepted x).
Proof.
  intros Hwf. inversion 1; simplify_eq; try done; [left|by right].
  match goal with E : rq_Body _ = Some _ |- _ => cbn in E; injection E as <- end.
  match goal with E : dec_patch _ = Ok _ |- _ => rewrite dec_enc_patch in E by (by constructor); injection E as <- end.
  by eexists.
Qed.

Lemma run_one st x st' : pdns_run st [x] st' -> pdns_step st x st'.
Proof. inversion 1 as [|? ? ? ? ? Hr]; subst. by inversion Hr; subst. Qed.

Lemma run_two st x y st' : pdns_run st [x; y] st' -> exists st1, pdns_step st x st1 /\ pdns_step st1 y st'.
Proof. inversion 1 as [|? ? ? ? ? Hr]; subst. apply run_one in Hr. eauto. Qed.

(** What one exchange about an rrset leaves alone: every zone is still there,
    and so is every rrset of another name or type. *)
Definition frame (r : PRRSet) (st st' : content) : Prop :=
  forall u l, st !! u = Some l -> exists l', st' !! u = Some l' /\ forall x, ~ same_key x r -> x ∈ l' <-> x ∈ l.

Lemma frame_refl r st : frame r st st.
Proof. intros u l Hl. by exists l. Qed.

Lemma frame_patch r r' st u l :
  (forall x, same_key x r <-> same_key x r') -> st !! u = Some l -> frame r st (<[u := patch_one l r']> st).
Proof.
  intros Hk Hl v m Hm. destruct (decide (u = v)) as [<-|Hne].
  - rewrite lookup_insert_eq. eexists. split; [done|]. intros x Hx. simplify_eq.
    apply patch_one_frame. by rewrite <- Hk.
  - rewrite lookup_insert_ne by done. by exists m.
Qed.

(** A zone that lists the rrset is only read. *)
Lemma apply_session_steady rr n pc xs st st' :
  wf_content st -> (forall l, st !! rq_URL (get_zone_req pc n) = Some l -> zone_lists l (desiredRRSet rr)) ->
  apply_session rr n pc xs -> pdns_run st xs st' ->
  st' = st /\ map (fun x => rq_Method x.1) xs = [MethodGet].
Proof.
  intros Hwf Hserve Hs Hr. destruct Hs as [x Hx|x pz y Hz Hn].
  - by apply run_one, step_get_inv in Hr as [-> _].
  - apply run_two in Hr as (st1 & H1 & _). apply step_get_inv in H1 as [-> H1].
    destruct (H1 pz Hz) as (l & Hl & HP). destruct Hn. eapply lists_zone; [exact HP|by eapply Hwf|by apply Hserve].
Qed.

Lemma without_unique l r : unique_keys l -> unique_keys (without l r).
Proof.
  unfold unique_keys, without. induction l as [|x l IH]; [done|]. cbn [map]. intros [Hx Hnd]%NoDup_cons.
  rewrite filter_cons. case_decide; [|by apply IH]. cbn [map]. constructor; [|by apply IH].
  intros (y & E & Hy)%list_elem_of_fmap. apply list_elem_of_filter in Hy as [_ Hy]. destruct Hx.
  rewrite E. by apply (list_elem_of_fmap_2 (fun r => (prr_Name r, prr_Type r))).
Qed.

Lemma patch_one_unique l r : unique_keys l -> unique_keys (patch_one l r).
Proof.
  intros Hu. unfold patch_one. repeat split_match; [|by apply without_unique|done].
  unfold unique_keys. rewrite map_app. apply NoDup_app. split; [by apply without_unique|]. split; [|apply NoDup_singleton].
  intros k (x & -> & Hx)%list_elem_of_fmap ?%list_elem_of_singleton.
  apply elem_of_without in Hx as [_ Hx]. apply Hx. by apply same_key_pair.
Qed.

Lemma patch_all_unique rs l : unique_keys l -> unique_keys (patch_all l rs).
Proof. revert l. induction rs as [|r rs IH]; intros l Hu; [done|]. cbn. by apply IH, patch_one_unique. Qed.

Lemma step_wf st x st' : wf_content st -> pdns_step st x st' -> wf_content st'.
Proof.
  intros Hwf. destruct 1; [done| |done]. apply map_Forall_insert_2; [|done].
  apply patch_all_unique. by eapply Hwf.
Qed.

Lemma run_app st xs ys st' :
  pdns_run st (xs ++ ys) st' -> wf_content st -> exists st1, wf_content st1 /\ pdns_run st1 ys st'.
Proof.
  revert st. induction xs as [|x xs IH]; intros st Hr Hwf; [by exists st|].
  inversion Hr as [|? ? ? ? Hs Hrest]; subst. eapply IH; [done|]. by eapply step_wf.
Qed.

Lemma zone_lists_cases l rr : zone_lists l (desiredRRSet rr) <-> zone_serves l rr \/ zone_hides l rr.
Proof.
  unfold zone_lists, zone_serves, zone_hides, same_key, declares. split.
  - intros (got & Hin & Hk & H). apply listed_rrset in H as [H|H]; [left|right]; by exists got.
  - intros [H|H]; destruct H as (got & Hin & Hk & H); exists got; (split; [done|]); (split; [done|]);
      apply listed_rrset; auto.
Qed.

(** A REPLACE leaves the rrset as it was sent. *)
Lemma patch_one_serves l r rr :
  declares rr r -> prr_ChangeType r = "REPLACE" -> settled_rrset rr r -> zone_serves (patch_one l r) rr.
Proof.
  intros Hd E Hs. unfold patch_one. rewrite bool_decide_eq_true_2 by done. exists (stored r).
  split; [apply elem_of_app; right; left|done].
Qed.

Lemma patch_desired_not_hidden l rr : ~ zone_hides (patch_one l (desiredRRSet rr)) rr.
Proof.
  intros (got & Hin & Hd & _ & _ & Hn). unfold patch_one in Hin. rewrite bool_decide_eq_true_2 in Hin by done.
  apply elem_of_app in Hin as [[_ Hk]%elem_of_without| ->%list_elem_of_singleton]; [by destruct Hk|].
  by destruct Hn; apply desiredRRSet_enabled.
Qed.

(** A first rrset of a zone answer is an rrset of the stored zone. *)
Lemma first_rrset_stored pz l rr P :
  pz_RRSets pz ≡ₚ l -> first_rrset pz rr P -> exists got, got ∈ l /\ declares rr got /\ P got.
Proof.
  intros HP (l1 & got & l2 & E & _ & Hd & H). exists got. split; [|done]. rewrite <- HP, E.
  apply elem_of_app. right. left.
Qed.

Lemma step_patch_accepted st pc n r x st' :
  wf_rrset r -> pdns_step st (patch_req pc n [r], x) st' -> patch_answer n x = Ok tt ->
  exists l, st !! rq_URL (get_zone_req pc n) = Some l /\ st' !! rq_URL (get_zone_req pc n) = Some (patch_one l r).
Proof.
  intros Hwf Hr Ha. apply step_patch_inv in Hr as [(l & Hl & ->)|[_ Hn]]; [|by destruct Hn; eapply patch_answer_accepted|done].
  exists l. split; [done|]. apply lookup_insert_eq.
Qed.

(** What PowerDNS acknowledged is what it stores; the requests are all about
    one zone. *)
Lemma acknowledged_serves rr t st st' :
  (forall r, serves_rrset rr r -> wf_rrset r) -> acknowledged rr t -> pdns_run st (http_exchanges t) st' ->
  exists zone pc l0 l, Ev (OGet KZone (zoneKeyFor rr)) (Ok zone) ∈ t
    /\ Forall (fun x => rq_URL x.1 = rq_URL (get_zone_req pc (zs_ZoneName (zn_Spec zone)))) (http_exchanges t)
    /\ st !! rq_URL (get_zone_req pc (zs_ZoneName (zn_Spec zone))) = Some l0
    /\ st' !! rq_URL (get_zone_req pc (zs_ZoneName (zn_Spec zone))) = Some l
    /\ (zone_serves l rr \/ (st' = st /\ zone_hides l0 rr)).
Proof.
  intros Hwf (pc & zone & Hz & Hack) Hr. exists zone, pc.
  destruct Hack as [(y & pz & E & Hpz & Hs)|(x & y & r & E & Hd & Hc & Hs & Ha)]; rewrite E in Hr |- *.
  - apply run_one, step_get_inv in Hr as [-> Hr]. destruct (Hr pz Hpz) as (l & Hl & HP). exists l, l.
    split_and!; [done|by repeat constructor|done..|].
    destruct Hs as [Hs|Hs]; [left|right; split; [done|]]; by eapply first_rrset_stored.
  - apply run_two in Hr as (st1 & H1 & H2). apply step_get_inv in H1 as [-> _].
    apply step_patch_accepted in H2 as (l & Hl & Hl'); [|by apply Hwf, Hs|done]. exists l. eexists.
    split_and!; [done|by repeat constructor|done..|]. left. by apply patch_one_serves.
Qed.

Lemma run_wf st xs st' : pdns_run st xs st' -> wf_content st -> wf_content st'.
Proof. induction 1; eauto using step_wf. Qed.

(** A TTL that fits its type. *)
Definition wf_ttl (rr : RRSet) : Prop := in_int32 (declared_TTL rr).
Lemma wf_ttl_serves rr r : wf_ttl rr -> serves_rrset rr r -> wf_rrset r.
Proof. unfold wf_ttl, wf_rrset. by intros Hw [-> _]. Qed.
Lemma wf_ttl_desired rr : wf_ttl rr <-> wf_rrset (desiredRRSet rr).
Proof. unfold wf_ttl, wf_rrset. by destruct (desiredRRSet_settled rr) as [_ [[-> _] _]]. Qed.

(** C4. Convergence: against a PowerDNS that stores what it accepts, an
    RRSet that a pass marks Ready is served. Whatever Kubernetes answers and
    whatever the zones held, the status Ready is written only when at the end
    of the pass the zone that the RRSet refers to holds exactly one rrset of
    the declared name and type, whose enabled records are the declared
    contents, under the declared TTL; the one exception is a zone in which
    that rrset was there before with the declared TTL and contents and
    records disabled by someone else, which the pass leaves as it is. *)
Theorem rrset_ready_is_served `{MachineryLaws, Reconciler} (key : NamespacedName) :
  wp (Reconcile key) (fun t _ => forall rr st st',
    rr ∈ omap rrset_status_update t -> ready_true rr ->
    wf_content st -> wf_ttl rr -> pdns_run st (http_exchanges t) st' ->
    exists zone pc l0 l, Ev (OGet KZone (zoneKeyFor rr)) (Ok zone) ∈ t
      /\ st !! rq_URL (get_zone_req pc (zs_ZoneName (zn_Spec zone))) = Some l0
      /\ st' !! rq_URL (get_zone_req pc (zs_ZoneName (zn_Spec zone))) = Some l
      /\ unique_keys l /\ (zone_serves l rr \/ (st' = st /\ zone_hides l0 rr))).
Proof.
  eapply wp_mono; [|apply rrset_Reconcile_status]. intros t o Hst rr st st' Hin Hready Hwf Hrr Hr.
  destruct (Hst rr Hin) as [_ Hack].
  destruct (acknowledged_serves rr t st st') as (zone & pc & l0 & l & Hz & _ & Hl0 & Hl & Hs); [|by apply Hack|done|].
  { intros r. by apply wf_ttl_serves. }
  exists zone, pc, l0, l. split_and!; [done..| |done]. by eapply (run_wf _ _ _ Hr Hwf).
Qed.

Lemma rrset_ready_is_served_witness :
  wp (@Reconcile RefMachinery {| HasRecorder := true |} (NN "dns" "www")) (fun t _ => forall rr st st',
    rr ∈ omap rrset_status_update t -> ready_true rr ->
    wf_content st -> wf_ttl rr -> pdns_run st (http_exchanges t) st' ->
    exists zone pc l0 l, Ev (OGet KZone (zoneKeyFor rr)) (Ok zone) ∈ t
      /\ st !! rq_URL (get_zone_req pc (zs_ZoneName (zn_Spec zone))) = Some l0
      /\ st' !! rq_URL (get_zone_req pc (zs_ZoneName (zn_Spec zone))) = Some l
      /\ unique_keys l /\ (zone_serves l rr \/ (st' = st /\ zone_hides l0 rr))).
Proof. apply rrset_ready_is_served. Defined.

(** A pass that meets the zone at u already as the next comparison wants it. *)
Lemma guarded_steady key t rr2 st st' u l :
  rrset_guarded key t -> wf_content st -> pdns_run st (http_exchanges t) st' ->
  (forall rr, Ev (OGet KRRSet key) (Ok rr) ∈ t -> deletion_IsZero (rr_Meta rr) = true /\ rr_Spec rr = rr_Spec rr2) ->
  Forall (fun x => rq_URL x.1 = u) (http_exchanges t) -> st !! u = Some l -> zone_lists l (desiredRRSet rr2) ->
  st' = st /\ Forall (fun x => rq_Method x.1 = MethodGet) (http_exchanges t).
Proof.
  intros [Hn|(rr & zone & server & items & pc & Hread & Hcase)] Hwf Hr Hsame Hu Hl Hlist.
  { rewrite Hn in *. by inversion Hr; subst. }
  destruct (Hsame rr (proj1 Hread)) as [Hlive Hspec]. destruct Hcase as [[_ Hs]|[Hd _]].
  2: { by rewrite (dg_deleted _ _ _ _ Hd) in Hlive. }
  assert (E : desiredRRSet rr = desiredRRSet rr2) by (unfold desiredRRSet; by rewrite Hspec).
  assert (Hurl : rq_URL (get_zone_req pc (zs_ZoneName (zn_Spec zone))) = u).
  { destruct Hs; by inversion Hu. }
  destruct (apply_session_steady rr (zs_ZoneName (zn_Spec zone)) pc (http_exchanges t) st st') as [-> Hm]; [done| |done..|].
  { rewrite Hurl, Hl. intros l' [= <-]. by rewrite E. }
  split; [done|]. destruct Hs; by repeat constructor.
Qed.

(** Only the zone at u changes, and in it only the rrset that rr declares. *)
Definition only_touches (u : string) (rr : RRSet) (st st' : content) : Prop :=
  (forall v, v <> u -> st' !! v = st !! v)
  /\ (forall l, st !! u = Some l -> exists l', st' !! u = Some l' /\ forall x, ~ declares rr x -> x ∈ l' <-> x ∈ l).

Lemma only_touches_refl u rr st : only_touches u rr st st.
Proof. split; [done|]. intros l Hl. by exists l. Qed.

Lemma only_touches_patch u rr r st l :
  (forall x, same_key x r <-> declares rr x) -> st !! u = Some l -> only_touches u rr st (<[u := patch_one l r]> st).
Proof.
  intros Hk Hl. split; [intros v Hv; by apply lookup_insert_ne|]. intros m Hm. rewrite lookup_insert_eq.
  eexists. split; [done|]. intros x Hx. simplify_eq. apply patch_one_frame. by rewrite Hk.
Qed.

Lemma step_patch_touches st pc n r rr x st' :
  wf_rrset r -> (forall y, same_key y r <-> declares rr y) -> pdns_step st (patch_req pc n [r], x) st' ->
  only_touches (rq_URL (get_zone_req pc n)) rr st st'.
Proof.
  intros Hwf Hk Hs. apply step_patch_inv in Hs as [(l & Hl & ->)|[-> _]]; [|apply only_touches_refl|done].
  by apply only_touches_patch.
Qed.

Lemma guarded_touches key t :
  rrset_guarded key t -> http_exchanges t = [] \/ exists rr zone server pc,
    Ev (OGet KRRSet key) (Ok rr) ∈ t /\ Ev (OGet KZone (zoneKeyFor rr)) (Ok zone) ∈ t
    /\ Ev (OGet KServer (serverKeyFor zone)) (Ok server) ∈ t
    /\ Forall (fun x => rq_URL x.1 = rq_URL (get_zone_req pc (zs_ZoneName (zn_Spec zone)))) (http_exchanges t)
    /\ forall st st', wf_ttl rr -> pdns_run st (http_exchanges t) st' ->
         only_touches (rq_URL (get_zone_req pc (zs_ZoneName (zn_Spec zone)))) rr st st'.
Proof.
  intros [Hn|(rr & zone & server & items & pc & Hread & Hcase)]; [by left|right].
  exists rr, zone, server, pc. split_and!; [apply Hread..| |].
  - destruct Hcase as [[_ Hs]|[_ (x & ->)]]; [destruct Hs|]; by repeat constructor.
  - intros st st' Hwf%wf_ttl_desired Hr. destruct Hcase as [[_ Hs]|[_ (x & E)]].
    + destruct Hs as [x Hx|x pz y Hz Hn].
      * apply run_one, step_get_inv in Hr as [-> _]. apply only_touches_refl.
      * apply run_two in Hr as (st1 & H1 & H2). apply step_get_inv in H1 as [-> _].
        by apply (step_patch_touches _ pc _ (desiredRRSet rr) rr y).
    + rewrite E in Hr. apply run_one in Hr. apply (step_patch_touches _ pc _ (deletedRRSet rr) rr x); [|done|exact Hr].
      unfold wf_rrset, in_int32. cbn. lia.
Qed.


(** The transitions are inhabited: the fake server's answers to the exchanges
    of a first pass over the sample RRSet. *)
Definition sample_content : content := {[ "http://pdns/api/v1/servers/localhost/zones/example.org" := [] ]}.
Definition http_ok (code : Z) (body : json) : http_result := HResponse {|
  resp_StatusCode := code; resp_Status := ""; resp_Body := ""; resp_JSON := Ok body |}.
Lemma sample_session_runs :
  let pc := New "http://pdns" "k" in
  exists st', pdns_run sample_content
    [(get_zone_req pc "example.org", http_ok 200 (JObj [("name", JStr "example.org")]));
     (patch_req pc "example.org" [desiredRRSet sample_rrset], http_ok 204 JNull)] st'
  /\ map_Forall (fun _ l => zone_lists l (desiredRRSet sample_rrset)) st'.
Proof.
  cbv zeta. eexists. split.
  - eapply run_cons; [apply step_get; [done|]|eapply run_cons; [eapply step_patch|apply run_nil]]; try reflexivity.
    intros n pz Hz. exists []. split; [reflexivity|]. vm_compute in Hz. by injection Hz as <-.
  - intros u l [[<- <-]|[Hne Hl]]%lookup_insert_Some; [by apply patch_replace_lists|].
    unfold sample_content in Hl. by apply lookup_singleton_Some in Hl as [? _].
Qed.

(** ** Many RRSets of one zone *)

(** PowerDNS and the status updates of a pass, over the content; the flag says
    whether both work on the zones that exist. *)
Definition content_env (w : bool) (name : string) : environment content := fun X o st x st' =>
  match o in op X return X -> Prop with
  | OHttp r => fun x =>
      pdns_step st (r, x) st'
      /\ (w = true -> is_Some (st !! rq_URL r) ->
           http_accepted x /\ (rq_Method r = MethodGet -> exists pz, zone_answer name x = Ok pz))
  | OStatusUpdate _ _ => fun x => st' = st /\ (w = true -> exists y, x = Ok y)
  | _ => fun _ => st' = st
  end x.

Section together.
Context `{Machinery, Reconciler} (zone : Zone) (pc : Client).
Abbreviation name := (zs_ZoneName (zn_Spec zone)).
Abbreviation url := (rq_URL (get_zone_req pc name)).

(** The zone holds what the RRSet declares, served or hidden. *)
Definition lists_at (st : content) (rr : RRSet) : Prop :=
  exists l, st !! url = Some l /\ zone_lists l (desiredRRSet rr).
(** The zone hides what the RRSet declares. *)
Definition hides_at (st : content) (rr : RRSet) : Prop := exists l, st !! url = Some l /\ zone_hides l rr.

(** What a pass over rr does to the content. *)
Definition applies (w : bool) (rr : RRSet) (st st' : content) : Prop :=
  frame (desiredRRSet rr) st st' /\ (wf_content st -> wf_content st')
  /\ (lists_at st rr -> lists_at st' rr)
  /\ (hides_at st' rr -> hides_at st rr)
  /\ (w = true -> wf_content st -> is_Some (st !! url) -> lists_at st' rr).

Lemma applies_none w rr st :
  (w = true -> wf_content st -> is_Some (st !! url) -> lists_at st rr) -> applies w rr st st.
Proof. intros Hw. split; [apply frame_refl|]. by split_and!. Qed.

Lemma markNotReady_content w rr reason msg after st :
  wpe (content_env w name) (markNotReady rr reason msg after) st (fun st' _ => st' = st).
Proof. unfold markNotReady, StatusUpdate. wpe_run; by match goal with H : content_env _ _ _ _ _ _ _ |- _ => destruct H end. Qed.

Lemma event_content w k o ty reason msg st : wpe (content_env w name) (event k o ty reason msg) st (fun st' _ => st' = st).
Proof. unfold event. destruct HasRecorder; [|by apply wpe_ret]. by apply wpe_vis. Qed.

Lemma GetZone_content w st :
  wpe (content_env w name) (GetZone pc name) st (fun st' r => st' = st
    /\ (forall pz, r = Ok pz -> exists l, st !! url = Some l /\ pz_RRSets pz ≡ₚ l)
    /\ (w = true -> is_Some (st !! url) -> exists pz, r = Ok pz)).
Proof.
  unfold GetZone, do_req. cbn [bind do_op]. apply wpe_vis. intros x st' [Hs Hw].
  apply (step_get_inv _ pc name) in Hs as [-> Hs]. apply wpe_ret. split_and!; [done|exact Hs|].
  intros Hc Hz. by apply (Hw Hc Hz).
Qed.

Lemma PatchRRSets_content w rr st :
  wf_rrset (desiredRRSet rr) ->
  wpe (content_env w name) (PatchRRSets pc name [desiredRRSet rr]) st (fun st' e => applies false rr st st'
    /\ (e = None -> lists_at st' rr) /\ (w = true -> is_Some (st !! url) -> e = None)).
Proof.
  intros Hwf. unfold PatchRRSets, err_of, do_req. cbn [bind do_op]. apply wpe_vis. intros x st' [Hs Hw].
  assert (Hstep : wf_content st -> wf_content st') by (intros Hc; by eapply step_wf). apply (step_patch_inv _ pc name (desiredRRSet rr)) in Hs; [|done].
  apply wpe_ret. split_and!.
  - destruct Hs as [(l & Hl & ->)|[-> _]]; [|by apply applies_none]. split; [by apply frame_patch|].
    split_and!; [done| | |done].
    + intros _. eexists. split; [apply lookup_insert_eq|by apply patch_replace_lists].
    + intros (l' & Hl' & Hh). rewrite lookup_insert_eq in Hl'. simplify_eq. by destruct (patch_desired_not_hidden l rr).
  - intros E. destruct Hs as [(l & Hl & ->)|[-> Hn]].
    + eexists. split; [apply lookup_insert_eq|by apply patch_replace_lists].
    + destruct Hn. destruct (do_result _ _ _ x) eqn:Ex; [by eapply do_result_ok|done].
  - intros Hc Hz. destruct (Hw Hc Hz) as [Ha _]. by rewrite accepted_no_out.
Qed.

Lemma applyRRSet_content w rr st :
  wf_rrset (desiredRRSet rr) ->
  wpe (content_env w name) (applyRRSet rr zone pc) st (fun st' _ => applies w rr st st').
Proof.
  intros Hwf. unfold applyRRSet. cbv zeta. eapply wpe_bind_post; [apply GetZone_content|].
  intros st1 [pz|e] (-> & Hok & Hw).
  2: { eapply wpe_mono; [|apply markNotReady_content]. intros st' _ ->. apply applies_none. intros Hc _ Hz.
    by destruct (Hw Hc Hz). }
  destruct (rrsetMatches pz (desiredRRSet rr)) eqn:Em; cbn [negb].
  - unfold try_res, StatusUpdate. wpe_run.
    all: match goal with H : content_env _ _ _ _ _ _ _ |- _ => destruct H as [-> _] end.
    all: apply applies_none; intros _ Hu _; destruct (Hok pz eq_refl) as (l & Hl & HP); exists l; split; [done|].
    all: apply (lists_zone pz); [done|by eapply Hu|]; by apply rrsetMatches_iff.
  - eapply wpe_bind_post; [by apply PatchRRSets_content|]. intros st2 [e|] ((Hf & Hu & Hk & Hh & _) & Hs & Hw2).
    + eapply wpe_mono; [|apply markNotReady_content]. intros st' _ ->. split_and!; [done..|].
      intros Hc _ Hz. by specialize (Hw2 Hc Hz).
    + eapply wpe_bind_post; [apply event_content|]. intros st3 _ ->. unfold try_res, StatusUpdate. wpe_run.
      all: match goal with H : content_env _ _ _ _ _ _ _ |- _ => destruct H as [-> _] end.
      all: split_and!; [done..|intros _ _ _; by apply Hs].
Qed.
End together.

(** A pass over an RRSet of the zone, against servers that work or not. *)
Definition rr_pass `{Machinery, Reconciler} (zone : Zone) (pc : Client) (q : RRSet * bool) (st st' : content) : Prop :=
  exists r, exec (content_env q.2 (zs_ZoneName (zn_Spec zone))) (applyRRSet q.1 zone pc) st r st'.

(** RRSets that can be applied together: valid TTLs, and no two with one name
    and type, which the reconciler rejects as rivals. *)
Record compatible (rrs : list RRSet) : Prop := {
  co_ttl : forall rr, rr ∈ rrs -> wf_ttl rr;
  co_keys : forall a b, a ∈ rrs -> b ∈ rrs -> rs_Name (rr_Spec a) = rs_Name (rr_Spec b) ->
    rs_Type (rr_Spec a) = rs_Type (rr_Spec b) -> a = b;
}.

Section passes.
Context `{Machinery, Reconciler} (zone : Zone) (pc : Client) (rrs : list RRSet) (Hco : compatible rrs).
Abbreviation url := (rq_URL (get_zone_req pc (zs_ZoneName (zn_Spec zone)))).

Lemma rr_pass_applies q st st' : q.1 ∈ rrs -> rr_pass zone pc q st st' -> applies zone pc q.2 q.1 st st'.
Proof.
  intros Hq [r He].
  pose proof (applyRRSet_content zone pc q.2 q.1 st (proj1 (wf_ttl_desired _) (co_ttl rrs Hco _ Hq))) as Hp.
  rewrite wpe_exec in Hp. by eapply Hp.
Qed.

(** An rrset of another key is where it was. *)
Lemma frame_back r st st' u l' x :
  frame r st st' -> is_Some (st !! u) -> st' !! u = Some l' -> x ∈ l' -> ~ same_key x r ->
  exists l, st !! u = Some l /\ x ∈ l.
Proof.
  intros Hf [l Hl] Hl' Hx Hk. destruct (Hf u l Hl) as (l2 & Hl2 & Heq). exists l. split; [done|].
  apply Heq; [done|]. by simplify_eq.
Qed.

(** A pass over one RRSet keeps every other as it is. *)
Lemma pass_keeps q rr st st' :
  q.1 ∈ rrs -> rr ∈ rrs -> rr_pass zone pc q st st' -> is_Some (st !! url) ->
  (lists_at zone pc st rr -> lists_at zone pc st' rr) /\ (hides_at zone pc st' rr -> hides_at zone pc st rr).
Proof.
  intros Hq Hrr (Hf & _ & Hk & Hh & _)%rr_pass_applies Hz; [|done].
  destruct (decide (same_key (desiredRRSet rr) (desiredRRSet q.1))) as [E|E].
  { by rewrite (co_keys rrs Hco rr q.1 Hrr Hq (proj1 E) (proj2 E)) in *. }
  assert (Hother : forall x, declares rr x -> ~ same_key x (desiredRRSet q.1)).
  { intros x [Hn Ht] [Hn' Ht']. apply E. unfold same_key. cbn in *. split; congruence. }
  split.
  - intros (l & Hl & got & Hin & Hsame & Hrest). destruct (Hf _ l Hl) as (l' & Hl' & Heq).
    exists l'. split; [done|]. exists got. split; [|done]. apply Heq; [by apply Hother|done].
  - intros (l' & Hl' & got & Hin & Hd & Hrest).
    destruct (frame_back _ _ _ _ _ _ Hf Hz Hl' Hin (Hother _ Hd)) as (l & Hl & Hin'). exists l. split; [done|]. by exists got.
Qed.

Lemma passes_serve qs st st' :
  steps (rr_pass zone pc) qs st st' -> (forall q, q ∈ qs -> q.1 ∈ rrs) -> wf_content st -> is_Some (st !! url) ->
  wf_content st'
  /\ (forall rr, rr ∈ rrs -> (rr, true) ∈ qs \/ lists_at zone pc st rr -> lists_at zone pc st' rr)
  /\ (forall rr, rr ∈ rrs -> hides_at zone pc st' rr -> hides_at zone pc st rr)
  /\ (forall u l, st !! u = Some l -> exists l', st' !! u = Some l'
        /\ forall x, (forall rr, rr ∈ rrs -> ~ declares rr x) -> x ∈ l' <-> x ∈ l).
Proof.
  induction 1 as [st|q qs st st1 st' Hp Hps IH]; intros Hqs Hwf Hz.
  - split_and!; [done| |done|intros u l Hl; by exists l]. intros rr _ [Hin|?]; [by apply elem_of_nil in Hin|done].
  - assert (Hq : q.1 ∈ rrs) by (apply Hqs; left).
    destruct (rr_pass_applies q st st1 Hq Hp) as (Hf & Hu & _ & _ & Hs).
    destruct IH as (Hwf' & Hserve & Hhide & Hframe); [intros p Hin; apply Hqs; by right|by apply Hu| |].
    { destruct Hz as [l Hl]. destruct (Hf _ l Hl) as (l' & Hl' & _). by eexists. }
    split_and!; [done| | |].
    + intros rr Hrr Hor. apply Hserve; [done|]. destruct Hor as [[E|Hin]%elem_of_cons|Hst]; [|by left|].
      * right. subst q. by apply Hs.
      * right. by apply (pass_keeps q rr st st1 Hq Hrr Hp Hz).
    + intros rr Hrr Hh. by apply (pass_keeps q rr st st1 Hq Hrr Hp Hz), Hhide.
    + intros u l Hl. destruct (Hf u l Hl) as (l1 & Hl1 & E1). destruct (Hframe u l1 Hl1) as (l2 & Hl2 & E2).
      exists l2. split; [done|]. intros x Hx. rewrite (E2 x Hx). by apply E1, Hx.
Qed.
End passes.

(** C8. The RRSets of a zone converge together: after any interleaving of
    passes over RRSets of different names or types, of which each RRSet had
    at least one against a working PowerDNS while the others may have failed
    at any request or been applied without an answer, the zone serves what
    each of them declares from enabled records, one rrset per name and type,
    except where the zone held exactly that rrset with disabled records from
    the start; and it holds every other record exactly as it did. *)
Theorem rrsets_converge_together `{Machinery, Reconciler} (zone : Zone) (pc : Client) (rrs : list RRSet)
  (qs : list (RRSet * bool)) (st st' : content) (l : list PRRSet)
  (Hco : compatible rrs) (Hwf : wf_content st)
  (Hzone : st !! rq_URL (get_zone_req pc (zs_ZoneName (zn_Spec zone))) = Some l)
  (Hpasses : steps (rr_pass zone pc) qs st st') (Hof : forall q, q ∈ qs -> q.1 ∈ rrs)
  (Hworked : forall rr, rr ∈ rrs -> (rr, true) ∈ qs) :
  exists l', st' !! rq_URL (get_zone_req pc (zs_ZoneName (zn_Spec zone))) = Some l' /\ unique_keys l'
    /\ (forall rr, rr ∈ rrs -> zone_serves l' rr \/ zone_hides l rr)
    /\ (forall x, (forall rr, rr ∈ rrs -> ~ declares rr x) -> x ∈ l' <-> x ∈ l).
Proof.
  destruct (passes_serve zone pc rrs Hco qs st st' Hpasses Hof Hwf) as (Hwf' & Hserve & Hhide & Hframe); [by eexists|].
  destruct (Hframe _ l Hzone) as (l' & Hl' & Hsame). exists l'. split; [done|]. split; [by eapply Hwf'|].
  split; [|done]. intros rr Hrr. destruct (Hserve rr Hrr) as (l2 & Hl2 & Hs); [left; by apply Hworked|].
  simplify_eq. apply zone_lists_cases in Hs as [Hs|Hs]; [by left|right].
  destruct (Hhide rr Hrr) as (l0 & Hl0 & Hh); [by eexists|]. by simplify_eq.
Qed.

Lemma patch_one_wf l r : Forall wf_rrset l -> wf_rrset r -> Forall wf_rrset (patch_one l r).
Proof.
  intros Hl Hr. assert (Hw : Forall wf_rrset (without l r)).
  { rewrite Forall_forall in *. intros x [Hx _]%elem_of_without. by apply Hl. }
  unfold patch_one. repeat split_match; [|done|done]. apply Forall_app. by split; [|constructor].
Qed.

(** A working server exists: one that answers with the zone it holds and
    applies what it is sent. *)
Lemma rr_pass_exists zone pc rr st l :
  st !! rq_URL (get_zone_req pc (zs_ZoneName (zn_Spec zone))) = Some l -> Forall wf_rrset l -> wf_rrset (desiredRRSet rr) ->
  exists st' l', @rr_pass RefMachinery {| HasRecorder := true |} zone pc (rr, true) st st'
    /\ st' !! rq_URL (get_zone_req pc (zs_ZoneName (zn_Spec zone))) = Some l' /\ Forall wf_rrset l'.
Proof.
  intros Hl Hwf Hd. set (name := zs_ZoneName (zn_Spec zone)) in *.
  set (pz := {| pz_ID := name; pz_Name := name; pz_Kind := "Native"; pz_Serial := 1; pz_Masters := None;
                pz_Nameservers := None; pz_DNSSEC := false; pz_RRSets := l |}).
  assert (Hget : forall n, zone_answer n (http_ok 200 (enc_zone pz)) = Ok (norm_zone pz)).
  { intros n. unfold zone_answer. change (http_ok _ _) with (HResponse {| resp_StatusCode := 200; resp_Status := "";
      resp_Body := ""; resp_JSON := Ok (enc_zone pz) |}). rewrite do_result_2xx by done.
    apply dec_enc_zone. by split. }
  assert (Hstep : content_env true name _ (OHttp (get_zone_req pc name)) st (http_ok 200 (enc_zone pz)) st).
  { split; [|by intros _ _; split; [|by eexists]]. apply step_get; [done|]. intros n pz'. rewrite Hget. intros [= <-].
    by exists l. }
  assert (Hans : do_result MethodGet (zonePath name) (into dec_zone) (http_ok 200 (enc_zone pz)) = Ok (norm_zone pz))
    by apply (Hget name).
  destruct (rrsetMatches (norm_zone pz) (desiredRRSet rr)) eqn:Em.
  - exists st, l. split; [|done]. eexists. exists (http_ok 200 (enc_zone pz)), st. split; [exact Hstep|].
    unfold applyRRSet, GetZone, do_req. cbn [exec bind do_op fst snd]. fold name. rewrite Hans. cbv zeta. rewrite Em. cbn.
    eexists (Ok rr), st. split; [|by split]. split; [done|]. by eexists.
  - exists (<[rq_URL (get_zone_req pc name) := patch_one l (desiredRRSet rr)]> st), (patch_one l (desiredRRSet rr)).
    split_and!; [|apply lookup_insert_eq|by apply patch_one_wf].
    eexists. exists (http_ok 200 (enc_zone pz)), st. split; [exact Hstep|].
    unfold applyRRSet, GetZone, do_req. cbn [exec bind do_op fst snd]. fold name. rewrite Hans. cbv zeta. rewrite Em. cbn.
    eexists (http_ok 204 JNull), _. split.
    { split; [|by intros _ _]. apply (step_patch st (patch_req pc name [desiredRRSet rr]) _ (enc_patch [desiredRRSet rr])
        [desiredRRSet rr] l); [done|done| |done]. apply dec_enc_patch. by constructor. }
    cbn. eexists tt, _. split; [done|]. eexists (Ok rr), _. split; [|by split]. split; [done|]. by eexists.
Qed.

(** Two RRSets of the sample zone, applied in either order. *)
Definition mail_rrset : RRSet := {|
  rr_Meta := new_meta "mail" "dns" ∅;
  rr_Spec := {| rs_ZoneRef := {| ref_Name := "example"; ref_Namespace := "" |}; rs_Name := "mail.example.org"; rs_Type := "A";
    rs_TTL := None; rs_Records := ["192.0.2.25"]; rs_DeletionPolicy := DeletionPolicyDelete |};
  rr_Status := sample_rrset_status |}.

Lemma sample_compatible : compatible [sample_rrset; mail_rrset].
Proof.
  split.
  - intros rr [->|[->|[]%elem_of_nil]%elem_of_cons]%elem_of_cons; by vm_compute.
  - intros a b [->|[->|[]%elem_of_nil]%elem_of_cons]%elem_of_cons [->|[->|[]%elem_of_nil]%elem_of_cons]%elem_of_cons E ?; done.
Qed.

Lemma rrsets_converge_together_witness :
  let pc := New "http://pdns" "k" in
  exists st' l', steps (@rr_pass RefMachinery {| HasRecorder := true |} sample_zone pc)
      [(mail_rrset, true); (sample_rrset, true)] sample_content st'
    /\ st' !! "http://pdns/api/v1/servers/localhost/zones/example.org" = Some l'
    /\ zone_serves l' sample_rrset /\ zone_serves l' mail_rrset.
Proof.
  intros pc. assert (Hz : sample_content !! rq_URL (get_zone_req pc "example.org") = Some []) by reflexivity.
  destruct (rr_pass_exists sample_zone pc mail_rrset sample_content [] Hz) as (st1 & l1 & Hp1 & Hz1 & Hw1);
    [constructor|by vm_compute|].
  destruct (rr_pass_exists sample_zone pc sample_rrset st1 l1 Hz1 Hw1) as (st2 & l2 & Hp2 & _ & _); [by vm_compute|].
  assert (Hs : steps (@rr_pass RefMachinery {| HasRecorder := true |} sample_zone pc)
    [(mail_rrset, true); (sample_rrset, true)] sample_content st2)
    by (econstructor; [exact Hp1|econstructor; [exact Hp2|constructor]]).
  destruct (@rrsets_converge_together RefMachinery {| HasRecorder := true |} sample_zone pc
    [sample_rrset; mail_rrset] [(mail_rrset, true); (sample_rrset, true)] sample_content st2 [] sample_compatible)
    as (l' & Hl' & _ & Hserve & _).
  - intros u l Hl. unfold sample_content in Hl. apply lookup_singleton_Some in Hl as [_ <-]. constructor.
  - exact Hz.
  - exact Hs.
  - intros q [->|[->|[]%elem_of_nil]%elem_of_cons]%elem_of_cons; simpl; [right; left|left].
  - intros rr [->|[->|[]%elem_of_nil]%elem_of_cons]%elem_of_cons; [right; left|left].
  - assert (Hnone : forall rr, ~ zone_hides [] rr) by (intros rr (got & []%elem_of_nil & _)).
    exists st2, l'. split_and!; [exact Hs|exact Hl'| |].
    + destruct (Hserve sample_rrset) as [?|?]; [left|done|by destruct (Hnone sample_rrset)].
    + destruct (Hserve mail_rrset) as [?|?]; [right; left|done|by destruct (Hnone mail_rrset)].
Defined.

(** ** Two passes against a server *)

(** A cluster with a Ready server, a Ready zone and the mail RRSet, and the
    PowerDNS of the tests over the rrsets of the one zone. *)
Definition live_rrset : RRSet := set_rr_Meta (ref_AddFinalizer (rr_Meta mail_rrset) rrsetFinalizer) mail_rrset.
Definition live_zone : Zone := {|
  zn_Meta := zn_Meta sample_zone; zn_Spec := sample_zone_spec;
  zn_Status := {| zst_Phase := ZonePhaseReady; zst_Serial := 1; zst_DSRecords := []; zst_ObservedGeneration := 0;
    zst_Conditions := []; zst_FailureMessage := "" |} |}.
Definition stored_zone (l : list PRRSet) : PZone := {|
  pz_ID := "example.org"; pz_Name := "example.org"; pz_Kind := "Native"; pz_Serial := 1; pz_Masters := None;
  pz_Nameservers := None; pz_DNSSEC := false; pz_RRSets := l |}.
Definition pdns_cluster : handler (list PRRSet) := fun X o l =>
  let absent := EText "not there" in
  match o in op X return X * list PRRSet with
  | OGet k _ =>
      (match k return res (obj_of k) with
       | KServer => Ok sample_ready_server
       | KZone => Ok live_zone
       | KRRSet => Ok live_rrset
       | KSecret => Ok {| sec_Meta := new_meta "ns1-api-key" "dns" ∅; sec_Type := ""; sec_Data := [("api-key", "k")] |}
       | _ => Err absent
       end, l)
  | OListIndex k _ _ => (match k return res (list (obj_of k)) with KRRSet => Ok [live_rrset] | _ => Ok [] end, l)
  | OStatusUpdate _ z => (Ok z, l)
  | OHttp r =>
      match rq_Body r with
      | None => (http_ok 200 (enc_zone (stored_zone l)), l)
      | Some j => match dec_patch j with
                  | Ok rs => (http_ok 204 JNull, patch_all l rs)
                  | Err _ => (http_ok 422 JNull, l)
                  end
      end
  | OUpdate _ _ | OCreateOrUpdate _ _ _ | OListLabels _ _ _ | ORandRead _ => (Err absent, l)
  | OCreate _ _ | ODelete _ _ _ => (Some absent, l)
  | ORecord _ => (tt, l)
  end.
Definition mail_pass (l : list PRRSet) : list obs * list PRRSet :=
  let r := run pdns_cluster (@Reconcile RefMachinery {| HasRecorder := true |} (NN "dns" "mail")) l in (r.1.1, r.2).

Definition zone_url : string := "http://ns1-api.dns.svc:8081/api/v1/servers/localhost/zones/example.org".
Definition mail_content : list PRRSet := (mail_pass []).2.

(** The RRSet that an operation read. *)
Definition rrset_got (e : obs) : option RRSet :=
  match ev_op e in op X return X -> option RRSet with
  | OGet k _ => match k return res (obj_of k) -> option RRSet with
                | KRRSet => fun x => match x with Ok rr => Some rr | Err _ => None end
                | _ => fun _ => None
                end
  | _ => fun _ => None
  end (ev_answer e).

(** The exchanges of the first pass, from an empty zone, and of the second. *)
Definition live_client : Client := New "http://ns1-api.dns.svc:8081" "k".
Lemma first_exchanges : http_exchanges (mail_pass []).1 =
  [(get_zone_req live_client "example.org", http_ok 200 (enc_zone (stored_zone [])));
   (patch_req live_client "example.org" [desiredRRSet live_rrset], http_ok 204 JNull)].
Proof. vm_compute. reflexivity. Qed.
Lemma second_exchanges : http_exchanges (mail_pass mail_content).1 =
  [(get_zone_req live_client "example.org", http_ok 200 (enc_zone (stored_zone mail_content)))].
Proof. vm_compute. reflexivity. Qed.

Lemma first_pass_runs :
  pdns_run {[zone_url := []]} (http_exchanges (mail_pass []).1) (<[zone_url := mail_content]> {[zone_url := []]}).
Proof.
  rewrite first_exchanges. eapply run_cons; [apply step_get; [reflexivity|]|eapply run_cons; [|apply run_nil]].
  - intros n pz Hz. exists []. split; [reflexivity|]. vm_compute in Hz. by injection Hz as <-.
  - exact (step_patch {[zone_url := []]} (patch_req live_client "example.org" [desiredRRSet live_rrset]) (http_ok 204 JNull)
      (enc_patch [desiredRRSet live_rrset]) [desiredRRSet live_rrset] [] eq_refl eq_refl eq_refl
      (lookup_singleton_eq zone_url [])).
Qed.
Lemma second_pass_runs st :
  st !! zone_url = Some mail_content -> pdns_run st (http_exchanges (mail_pass mail_content).1) st.
Proof.
  intros Hst. rewrite second_exchanges. eapply run_cons; [apply step_get; [reflexivity|]|apply run_nil].
  intros n pz Hz. exists mail_content. split; [exact Hst|]. vm_compute in Hz. by injection Hz as <-.
Qed.

Definition applied_rrset : RRSet :=
  @rrset_cond RefMachinery ConditionReady ConditionTrue "Applied" "" (set_rst_applied live_rrset).
Lemma first_status : omap rrset_status_update (mail_pass []).1 = [applied_rrset].
Proof. vm_compute. reflexivity. Qed.

