(* ===== verification/DnsdistManifests.v ===== *)
(** * internal/manifests/dnsdist.go: the objects rendered for a DNSDist tier

    dnsdist.conf, its ConfigMap, the Deployment, the Services, the
    PodDisruptionBudget and the routes. The additional Services share one
    label map between their metadata and their selectors, and the controller
    writes to it; that map lives in a store here, and a Service under
    construction refers to it. *)

From S2P Require Import Prelude GoStd Meta ApiTypes KubeObjects Samples Manifests Workloads.

Open Scope go_scope.
Open Scope stdpp_scope.
Open Scope Z_scope.

Definition dotPort : Z := 853.
Definition dohPort : Z := 443.

Record DNSDistNames := {
  dn_Deployment : string;
  dn_ConfigMap : string;
  dn_DNSService : string;
  dn_PDB : string;
  dn_TCPRoute : string;
  dn_UDPRoute : string;
}.

Definition DNSDistNameSet (d : DNSDist) : DNSDistNames :=
  let n := om_Name (dd_Meta d) in
  {|
    dn_Deployment := n +:+ "-dnsdist";
    dn_ConfigMap := n +:+ "-dnsdist-config";
    dn_DNSService := n +:+ "-dnsdist-dns";
    dn_PDB := n +:+ "-dnsdist-pdb";
    dn_TCPRoute := n +:+ "-dnsdist-tcp";
    dn_UDPRoute := n +:+ "-dnsdist-udp";
  |}.

Definition dnsdistLabels (d : DNSDist) : strmap :=
  {[ labelApp := "dnsdist"; labelComponent := "frontend";
     labelManagedBy := managedBy; labelInstance := om_Name (dd_Meta d) ]}.

Definition dnsdistReplicas (d : DNSDist) : Z := replicas_of (ds_Replicas (dd_Spec d)).

(** ** dnsdist.conf *)

Definition quoted (s : string) : string := dq +:+ s +:+ dq.

Definition newServer_line (addrs : strmap) (n : string) : string :=
  "newServer({address=" +:+ quoted (default "" (addrs !! n) +:+ ":53") +:+ ", name=" +:+ quoted n
  +:+ ", checkInterval=2, maxCheckFailures=2, rise=1})".

Definition cache_lines (c : DNSDistCacheSpec) : list string :=
  if match cache_Enabled c with None => true | Some b => b end then
    let maxEntries := match cache_MaxEntries c with Some n => n | None => 100000 end in
    ["pc = newPacketCache(" +:+ itoa maxEntries +:+ ", {maxTTL=86400})";
     "getPool(" +:+ quoted "" +:+ "):setCache(pc)"]
  else [].

Definition rate_lines (r : DNSDistRateLimitSpec) : list string :=
  if 0 <? rl_QPSPerClient r then
    ["local dbr = dynBlockRulesGroup()";
     "dbr:setQueryRate(" +:+ itoa (rl_QPSPerClient r) +:+ ", 10, " +:+ quoted "rate-limited" +:+ ", 60)";
     "function maintenance() dbr:apply() end"]
  else [].

Definition tls_lines (t : DNSDistTLSSpec) : list string :=
  (if tls_Enabled (tls_DoT t) then
     ["addTLSLocal(" +:+ quoted "0.0.0.0:853" +:+ ", " +:+ quoted "/tls/dot/tls.crt" +:+ ", "
      +:+ quoted "/tls/dot/tls.key" +:+ ")"]
   else [])
  ++ (if tls_Enabled (tls_DoH t) then
     ["addDOHLocal(" +:+ quoted "0.0.0.0:443" +:+ ", " +:+ quoted "/tls/doh/tls.crt" +:+ ", "
      +:+ quoted "/tls/doh/tls.key" +:+ ", { " +:+ quoted "/dns-query" +:+ " })"]
   else []).

Definition dnsdist_head : list string := [
  "-- managed by aether-powerdns";
  "setACL({" +:+ quoted "0.0.0.0/0" +:+ ", " +:+ quoted "::/0" +:+ "})";
  "setLocal(" +:+ quoted "0.0.0.0:53" +:+ ", {reusePort=true})"].

Definition backend_names (d : DNSDist) : list string := sort_Strings (map ref_Name (ds_BackendRefs (dd_Spec d))).

Definition DNSDistConfig (d : DNSDist) (backendAddrs : strmap) : string :=
  text_of_lines (dnsdist_head ++ map (newServer_line backendAddrs) (backend_names d)
    ++ cache_lines (ds_Cache (dd_Spec d)) ++ rate_lines (ds_RateLimit (dd_Spec d)) ++ tls_lines (ds_TLS (dd_Spec d))).

Definition DNSDistConfigMap (d : DNSDist) (backendAddrs : strmap) : ConfigMap := {|
  cm_Meta := new_meta (dn_ConfigMap (DNSDistNameSet d)) (om_Namespace (dd_Meta d)) (dnsdistLabels d);
  cm_Data := {[ "dnsdist.conf" := DNSDistConfig d backendAddrs ]} |}.

(** ** Deployment *)

Definition tls_parts {A} (t : DNSDistTLSSpec) (dot doh : A) : list A :=
  (if tls_Enabled (tls_DoT t) then [dot] else []) ++ (if tls_Enabled (tls_DoH t) then [doh] else []).

Definition tcp_probe (initial period : Z) : Probe := {|
  pr_Handler := PTCPSocket dnsTCPPort; pr_InitialDelaySeconds := initial; pr_PeriodSeconds := period;
  pr_TimeoutSeconds := 0; pr_FailureThreshold := 0 |}.

Definition DNSDistDeployment (d : DNSDist) (configHash : string) : Deployment :=
  let names := DNSDistNameSet d in
  let lbls := dnsdistLabels d in
  let replicas := dnsdistReplicas d in
  let spec := dd_Spec d in
  let sched := ds_Scheduling spec in
  let tls := ds_TLS spec in
  let image := if ds_Image spec == "" then DefaultDNSDistImage else ds_Image spec in
  {|
    dep_Meta := new_meta (dn_Deployment names) (om_Namespace (dd_Meta d)) lbls;
    dep_Replicas := Some replicas;
    dep_Selector := lbls;
    dep_Strategy := "RollingUpdate";
    dep_Template := {|
      pt_Labels := lbls;
      pt_Annotations := hash_annotations configHash;
      pt_Spec := {|
        pod_RestartPolicy := "";
        pod_InitContainers := [];
        pod_Containers := [{|
          ct_Name := "dnsdist";
          ct_Image := image;
          ct_Command := [];
          ct_Args := ["--supervised"; "--disable-syslog"; "-C"; "/etc/dnsdist/dnsdist.conf"];
          ct_Ports :=
            [{| cp_Name := "dns-tcp"; cp_ContainerPort := dnsTCPPort; cp_Protocol := ProtocolTCP |};
             {| cp_Name := "dns-udp"; cp_ContainerPort := dnsUDPPort; cp_Protocol := ProtocolUDP |}]
            ++ tls_parts tls
                 {| cp_Name := "dot"; cp_ContainerPort := dotPort; cp_Protocol := ProtocolTCP |}
                 {| cp_Name := "doh"; cp_ContainerPort := dohPort; cp_Protocol := ProtocolTCP |};
          ct_Env := [];
          ct_Resources := ds_Resources spec;
          ct_VolumeMounts :=
            {| vm_Name := "config"; vm_MountPath := "/etc/dnsdist"; vm_ReadOnly := true |}
            :: tls_parts tls
                 {| vm_Name := "dot-cert"; vm_MountPath := "/tls/dot"; vm_ReadOnly := true |}
                 {| vm_Name := "doh-cert"; vm_MountPath := "/tls/doh"; vm_ReadOnly := true |};
          ct_ReadinessProbe := Some (tcp_probe 2 5);
          ct_LivenessProbe := Some (tcp_probe 10 10);
        |}];
        pod_Volumes :=
          {| vol_Name := "config"; vol_Source := VConfigMap (dn_ConfigMap names) |}
          :: tls_parts tls
               {| vol_Name := "dot-cert"; vol_Source := VSecret (tls_CertificateSecretRef (tls_DoT tls)) |}
               {| vol_Name := "doh-cert"; vol_Source := VSecret (tls_CertificateSecretRef (tls_DoH tls)) |};
        pod_AntiAffinity := if 1 <? replicas then Some (anti_affinity lbls) else None;
        pod_TopologySpreadConstraints :=
          if 1 <? replicas then
            spread_on LabelHostname lbls
            :: (if sch_SpreadAcrossZones sched then [spread_on LabelTopologyZone lbls] else [])
          else [];
        pod_NodeSelector := sch_NodeSelector sched;
        pod_Tolerations := sch_Tolerations sched;
        pod_PriorityClassName := sch_PriorityClassName sched;
      |};
    |};
    dep_ReadyReplicas := 0;
    dep_AvailableReplicas := 0;
  |}.

(** ** Services *)

Definition dnsdist_ports (t : DNSDistTLSSpec) : list ServicePort :=
  [dns_port "dns-tcp" dnsTCPPort ProtocolTCP; dns_port "dns-udp" dnsUDPPort ProtocolUDP]
  ++ tls_parts t (dns_port "dot" dotPort ProtocolTCP) (dns_port "doh" dohPort ProtocolTCP).

Definition DNSDistDNSService (d : DNSDist) : Service :=
  let lbls := dnsdistLabels d in
  let svc := {|
    svc_Meta := new_meta (dn_DNSService (DNSDistNameSet d)) (om_Namespace (dd_Meta d)) lbls;
    svc_Spec := new_service_spec ServiceTypeClusterIP lbls (dnsdist_ports (ds_TLS (dd_Spec d)));
    svc_Ingress := [] |} in
  let dns := ds_DNS (dd_Spec d) in
  if dns_Exposure dns == DNSExposureLoadBalancer then
    applyLBPrimary (set_type ServiceTypeLoadBalancer svc) (dns_LoadBalancer dns)
  else svc.

(** The store of the label maps that are shared by reference. *)
Abbreviation store := (list strmap).
Abbreviation loc := nat.

Definition read (h : store) (l : loc) : strmap := default ∅ (h !! l).
Definition new_map (m : strmap) (h : store) : loc * store := (length h, h ++ [m]).
Definition write (l : loc) (k v : string) (h : store) : store := <[l := <[k := v]> (read h l)]> h.

(** A Service whose Labels and Selector are references to maps. *)
Record ServiceRef := {
  sr_Service : Service;  (* all the other fields *)
  sr_Labels : loc;
  sr_Selector : loc;
}.

(** The Service as the API client sees it now. *)
Definition deref (h : store) (r : ServiceRef) : Service :=
  let svc := sr_Service r in
  let p := svc_Spec svc in
  {| svc_Meta := set_om_Labels (read h (sr_Labels r)) (svc_Meta svc);
     svc_Spec := {| ss_Type := ss_Type p; ss_Selector := read h (sr_Selector r); ss_Ports := ss_Ports p;
                    ss_LoadBalancerIP := ss_LoadBalancerIP p;
                    ss_ExternalTrafficPolicy := ss_ExternalTrafficPolicy p;
                    ss_ClusterIP := ss_ClusterIP p; ss_Foreign := ss_Foreign p |};
     svc_Ingress := svc_Ingress svc |}.

Definition DNSDistAdditionalDNSServices (d : DNSDist) (h : store) : store * list ServiceRef :=
  let dns := ds_DNS (dd_Spec d) in
  match dns_LoadBalancer dns with
  | Some {| lb_AdditionalServices := (_ :: _) as extras |} =>
      if dns_Exposure dns != DNSExposureLoadBalancer then (h, [])
      else
        let '(lbls, h) := new_map (dnsdistLabels d) h in
        (h, map (fun extra => {|
          sr_Service := apply_lb (als_IP extra) (als_Annotations extra) (als_ExternalTrafficPolicy extra) {|
            svc_Meta := new_meta (dn_DNSService (DNSDistNameSet d) +:+ als_NameSuffix extra)
                          (om_Namespace (dd_Meta d)) ∅;
            svc_Spec := new_service_spec ServiceTypeLoadBalancer ∅ (dnsdist_ports (ds_TLS (dd_Spec d)));
            svc_Ingress := [] |};
          sr_Labels := lbls;
          sr_Selector := lbls |}) extras)
  | _ => (h, [])
  end.

(** ** PodDisruptionBudget and routes *)

Definition DNSDistPDB (d : DNSDist) : option PodDisruptionBudget :=
  pdbFor (dn_PDB (DNSDistNameSet d)) (om_Namespace (dd_Meta d)) (dnsdistLabels d) (dnsdistReplicas d)
    (pdb_override (ds_PodDisruptionBudget (dd_Spec d))).

Definition DNSDistTCPRoute (d : DNSDist) : L4Route :=
  let names := DNSDistNameSet d in
  let ns := om_Namespace (dd_Meta d) in
  buildTCPRoute (dn_TCPRoute names) ns (dnsdistLabels d)
    (dnsRouteParents (ds_DNS (dd_Spec d)) ns gatewayProtoTCP) (dn_DNSService names) dnsTCPPort.
Definition DNSDistUDPRoute (d : DNSDist) : L4Route :=
  let names := DNSDistNameSet d in
  let ns := om_Namespace (dd_Meta d) in
  buildUDPRoute (dn_UDPRoute names) ns (dnsdistLabels d)
    (dnsRouteParents (ds_DNS (dd_Spec d)) ns gatewayProtoUDP) (dn_DNSService names) dnsUDPPort.

(** ** Reading a dnsdist.conf *)

(** The lines of a text that ends each of them. *)
Definition conf_lines (s : string) : list string := map of_chars (split_on LF (chars s)).

(** The backends of a configuration: the newServer lines, in order. *)
Definition server_lines (s : string) : list string := List.filter (fun l => HasPrefix l "newServer(") (conf_lines s).

(** What a newServer line declares, read as dnsdist's Lua does: a call with a
    table whose first two fields are the strings address and name. *)
Definition read_server (line : string) : option (string * string) :=
  match map of_chars (split_on DQ (chars line)) with
  | [h; address; m; name; rest] =>
      if (h == "newServer({address=") && (m == ", name=") && HasPrefix rest ", " && HasSuffix rest "})"
      then Some (address, name) else None
  | _ => None
  end.
(** The backends of a configuration: address and name, in order. *)
Definition conf_backends (s : string) : list (option (string * string)) := map read_server (server_lines s).

(** ** The rendered configuration *)

(** A text that cannot break out of its line. *)
Definition one_line (s : string) : Prop := LF ∉ chars s.

Lemma one_line_app s t : one_line s -> one_line t -> one_line (s +:+ t).
Proof. unfold one_line. rewrite chars_app, elem_of_app. tauto. Qed.

Lemma one_line_itoa z : one_line (itoa z).
Proof. apply itoa_no_LF. Qed.

Ltac one_line_lit := apply (bool_decide_eq_true_1 (one_line _)); vm_compute; reflexivity.

#[export] Instance one_line_dec s : Decision (one_line s).
Proof. unfold one_line. apply _. Defined.

Lemma one_line_quoted s : one_line s -> one_line (quoted s).
Proof. intros Hs. unfold quoted. repeat apply one_line_app; first [done|one_line_lit]. Qed.

Create HintDb one_line.
#[local] Hint Resolve one_line_app one_line_itoa one_line_quoted : one_line.
#[local] Hint Extern 1 (one_line _) => one_line_lit : one_line.

Lemma conf_lines_text ls : Forall one_line ls -> conf_lines (text_of_lines ls) = ls ++ [""].
Proof.
  unfold conf_lines. induction 1 as [|l ls Hl _ IH]; [done|].
  rewrite text_of_lines_cons, chars_app. cbn [chars app].
  change (chars (nl +:+ text_of_lines ls)) with (LF :: chars (text_of_lines ls)).
  rewrite split_on_app by done. cbn [map app]. by rewrite of_chars_chars, IH.
Qed.

Lemma server_lines_filter ls :
  Forall one_line ls ->
  server_lines (text_of_lines ls) = List.filter (fun l => HasPrefix l "newServer(") ls.
Proof. intros HF. unfold server_lines. rewrite conf_lines_text by done. rewrite List.filter_app. by rewrite app_nil_r. Qed.

Lemma newServer_one_line addrs n :
  one_line n -> (forall m a, addrs !! m = Some a -> one_line a) -> one_line (newServer_line addrs n).
Proof.
  intros Hn Ha. assert (one_line (default "" (addrs !! n))).
  { destruct (addrs !! n) as [a|] eqn:E; [by eapply Ha|apply not_elem_of_nil]. }
  unfold newServer_line. auto 10 with one_line.
Qed.

Lemma head_one_line : Forall one_line dnsdist_head.
Proof. apply (bool_decide_eq_true_1 (Forall _ _)). vm_compute. reflexivity. Qed.

Lemma cache_one_line c : Forall one_line (cache_lines c).
Proof. unfold cache_lines. destruct (match cache_Enabled c with None => true | Some b => b end); repeat constructor; auto with one_line. Qed.

Lemma rate_one_line r : Forall one_line (rate_lines r).
Proof. unfold rate_lines. destruct (0 <? _); repeat constructor; auto with one_line. Qed.

Lemma tls_one_line t : Forall one_line (tls_lines t).
Proof.
  apply (bool_decide_eq_true_1 (Forall _ _)). unfold tls_lines. destruct (tls_Enabled (tls_DoT t)), (tls_Enabled (tls_DoH t)); vm_compute; reflexivity.
Qed.

Lemma no_server_lines c r t :
  List.filter (fun l => HasPrefix l "newServer(") (cache_lines c ++ rate_lines r ++ tls_lines t) = [].
Proof.
  rewrite !List.filter_app. unfold cache_lines, rate_lines, tls_lines.
  by destruct (match cache_Enabled c with None => true | Some b => b end), (0 <? _),
    (tls_Enabled (tls_DoT t)), (tls_Enabled (tls_DoH t)).
Qed.

Lemma all_server_lines addrs l :
  List.filter (fun x => HasPrefix x "newServer(") (map (newServer_line addrs) l) = map (newServer_line addrs) l.
Proof.
  induction l as [|n l IH]; [done|]. cbn [map List.filter].
  assert (HasPrefix (newServer_line addrs n) "newServer(" = true) as ->.
  { apply HasPrefix_spec. by eexists. }
  by rewrite IH.
Qed.

Lemma DNSDistConfig_servers (d : DNSDist) (addrs : strmap) :
  Forall one_line (map ref_Name (ds_BackendRefs (dd_Spec d))) ->
  (forall n a, addrs !! n = Some a -> one_line a) ->
  server_lines (DNSDistConfig d addrs) = map (newServer_line addrs) (backend_names d).
Proof.
  intros Hn Ha. unfold DNSDistConfig. rewrite server_lines_filter.
  - rewrite List.filter_app, List.filter_app, no_server_lines, all_server_lines, app_nil_r. done.
  - rewrite !Forall_app. split; [apply head_one_line|]. split; [|split; [apply cache_one_line|split; [apply rate_one_line|apply tls_one_line]]].
    apply Forall_forall. intros x (n & -> & Hx)%list_elem_of_fmap. apply newServer_one_line; [|done].
    unfold backend_names in Hx. rewrite elem_of_sort_Strings in Hx. by apply (proj1 (Forall_forall _ _) Hn).
Qed.

(** A text that does not end the Lua string it is in. *)
Definition unquoted (s : string) : Prop := DQ ∉ chars s.
#[export] Instance unquoted_dec s : Decision (unquoted s).
Proof. unfold unquoted. apply _. Defined.

Lemma read_newServer_line addrs n :
  unquoted n -> unquoted (default "" (addrs !! n)) ->
  read_server (newServer_line addrs n) = Some (default "" (addrs !! n) +:+ ":53", n).
Proof.
  intros Hn Ha. set (a := default "" (addrs !! n)) in *.
  assert (E : chars (newServer_line addrs n) =
    chars "newServer({address=" ++ DQ :: chars (a +:+ ":53") ++ DQ :: chars ", name="
    ++ DQ :: chars n ++ DQ :: chars ", checkInterval=2, maxCheckFailures=2, rise=1})").
  { unfold newServer_line, quoted, dq. fold a. rewrite !chars_app. cbn [chars app]. by rewrite <- !app_assoc. }
  assert (Ha' : DQ ∉ chars (a +:+ ":53")).
  { rewrite chars_app, not_elem_of_app. split; [done|]. apply (bool_decide_unpack _). by vm_compute. }
  unfold read_server. rewrite E, !split_on_app; [|by (done || apply (bool_decide_unpack _); vm_compute)..].
  assert (Er : split_on DQ (chars ", checkInterval=2, maxCheckFailures=2, rise=1})")
    = [chars ", checkInterval=2, maxCheckFailures=2, rise=1})"]) by (vm_compute; reflexivity).
  rewrite Er. cbn [map]. by rewrite !of_chars_chars.
Qed.

(** C37. The rendered dnsdist.conf declares one server per backend and no
    other: a reader of its newServer lines finds, in the order of the names,
    each backend under its name with the address that was resolved for that
    name, on port 53; and the text does not depend on the order in which the
    backends are listed. Names and addresses are texts without line breaks
    and double quotes, as Kubernetes names and cluster IPs are. *)
Theorem dnsdist_conf_backends (d d' : DNSDist) (addrs : strmap)
  (Hnames : Forall (fun n => one_line n /\ unquoted n) (map ref_Name (ds_BackendRefs (dd_Spec d))))
  (Haddrs : map_Forall (fun _ a => one_line a /\ unquoted a) addrs)
  (Hperm : map ref_Name (ds_BackendRefs (dd_Spec d')) ≡ₚ map ref_Name (ds_BackendRefs (dd_Spec d)))
  (Hrest : ds_Cache (dd_Spec d') = ds_Cache (dd_Spec d) /\ ds_RateLimit (dd_Spec d') = ds_RateLimit (dd_Spec d)
           /\ ds_TLS (dd_Spec d') = ds_TLS (dd_Spec d)) :
  (exists names, conf_backends (DNSDistConfig d addrs) = map (fun n => Some (default "" (addrs !! n) +:+ ":53", n)) names
     /\ Sorted String.le names /\ names ≡ₚ map ref_Name (ds_BackendRefs (dd_Spec d)))
  /\ DNSDistConfig d' addrs = DNSDistConfig d addrs.
Proof.
  split.
  - exists (backend_names d). split; [|split; [apply sort_Strings_sorted|apply sort_Strings_perm]].
    unfold conf_backends. rewrite DNSDistConfig_servers.
    + rewrite map_map. apply map_ext_in. intros n Hn%list_elem_of_In.
      unfold backend_names in Hn. rewrite elem_of_sort_Strings in Hn.
      apply read_newServer_line; [by apply (proj1 (Forall_forall _ _) Hnames)|].
      destruct (addrs !! n) as [a|] eqn:E; [by apply (Haddrs n a)|apply not_elem_of_nil].
    + eapply Forall_impl; [exact Hnames|]. by intros n [? _].
    + intros n a Ha. by apply (Haddrs n a).
  - destruct Hrest as (Ec & Er & Et). unfold DNSDistConfig, backend_names. by rewrite Ec, Er, Et, Hperm.
Qed.

Lemma dnsdist_conf_backends_witness :
  exists names, conf_backends (DNSDistConfig sample_dnsdist {[ "ns1" := "10.0.0.1" ]})
      = map (fun n => Some (default "" (({[ "ns1" := "10.0.0.1" ]} : strmap) !! n) +:+ ":53", n)) names
    /\ conf_backends (DNSDistConfig sample_dnsdist {[ "ns1" := "10.0.0.1" ]}) = [Some ("10.0.0.1:53", "ns1")].
Proof.
  destruct (dnsdist_conf_backends sample_dnsdist sample_dnsdist {[ "ns1" := "10.0.0.1" ]}) as [(names & E & _) _].
  - by apply (bool_decide_eq_true_1 (Forall _ _)).
  - by apply (bool_decide_eq_true_1 (map_Forall _ _)).
  - reflexivity.
  - done.
  - exists names. split; [exact E|vm_compute; reflexivity].
Defined.

(** An IPv6 cluster IP is not bracketed, so its last group and the port are
    not told apart. *)
Lemma ipv6_address_ambiguous :
  conf_backends (DNSDistConfig sample_dnsdist {[ "ns1" := "fd00::1" ]}) = [Some ("fd00::1:53", "ns1")].
Proof. vm_compute. reflexivity. Qed.

(** ** Labels and names of a tier and of a server *)

(** Every selector that the objects of a tier use, its additional Services aside. *)
Definition dnsdist_selectors (d : DNSDist) (hash : string) : list strmap :=
  [dep_Selector (DNSDistDeployment d hash); ss_Selector (svc_Spec (DNSDistDNSService d))]
  ++ match DNSDistPDB d with Some p => [pdb_Selector p] | None => [] end.
Definition tier_pod_labels (d : DNSDist) (hash : string) : strmap :=
  pt_Labels (dep_Template (DNSDistDeployment d hash)).

(** The kinds and names of the objects rendered for a tier and for a server. *)
Definition dnsdist_objects (d : DNSDist) : list (kind * string) :=
  let n := DNSDistNameSet d in
  [(KDeployment, dn_Deployment n); (KConfigMap, dn_ConfigMap n); (KService, dn_DNSService n);
   (KPDB, dn_PDB n); (KTCPRoute, dn_TCPRoute n); (KUDPRoute, dn_UDPRoute n)].
Definition server_objects (s : PowerDNSServer) : list (kind * string) :=
  let n := NameSet s in
  [(KDeployment, n_Deployment n); (KConfigMap, n_ConfigMap n); (KService, n_APIService n);
   (KService, n_DNSService n); (KPDB, n_PDB n); (KTCPRoute, n_TCPRoute n); (KUDPRoute, n_UDPRoute n)].

Lemma dnsdist_dns_selector d : ss_Selector (svc_Spec (DNSDistDNSService d)) = dnsdistLabels d.
Proof.
  unfold DNSDistDNSService, applyLBPrimary. by destruct (bool_decide _), (dns_LoadBalancer (ds_DNS (dd_Spec d))).
Qed.

Lemma selector_of_dnsdist d hash sel : sel ∈ dnsdist_selectors d hash -> sel = dnsdistLabels d.
Proof.
  unfold dnsdist_selectors. rewrite dnsdist_dns_selector, elem_of_app. intros [H|H]; [set_solver|].
  unfold DNSDistPDB, pdbFor in H. destruct (_ <=? _); [by apply elem_of_nil in H|]. by apply list_elem_of_singleton in H.
Qed.

Lemma str_suffix_ne (s t u v : string) : String.length u = String.length v -> u <> v -> s +:+ u <> t +:+ v.
Proof.
  intros Hl Hne E%(f_equal chars). rewrite !chars_app in E. rewrite !length_chars in Hl.
  apply app_inj_2 in E as [_ E]; [|done]. by apply chars_inj in E.
Qed.

(** The selectors of a tier select exactly the pods of the tier of that
    name, never those of another tier and never those of a PowerDNSServer;
    and no selector of a server selects a pod of a tier. *)
Theorem dnsdist_selectors_exact (d d' : DNSDist) (s : PowerDNSServer) (hash hash' : string) :
  Forall (fun sel => (selects sel (tier_pod_labels d' hash') <-> om_Name (dd_Meta d) = om_Name (dd_Meta d'))
                     /\ ~ selects sel (pod_labels s hash')) (dnsdist_selectors d hash)
  /\ Forall (fun sel => ~ selects sel (tier_pod_labels d hash')) (server_selectors s hash).
Proof.
  split; apply Forall_forall; intros sel Hsel.
  - apply selector_of_dnsdist in Hsel as ->. unfold selects. split.
    + split; [|intros E; unfold tier_pod_labels; simpl; unfold dnsdistLabels; by rewrite E].
      intros H. pose proof (lookup_weaken (dnsdistLabels d) _ labelInstance (om_Name (dd_Meta d)) eq_refl H) as E.
      vm_compute in E. by inversion E.
    + intros H. pose proof (lookup_weaken (dnsdistLabels d) _ labelApp "dnsdist" eq_refl H) as E. by vm_compute in E.
  - apply selector_of_server in Hsel as ->. intros H.
    pose proof (lookup_weaken (labels s) _ labelApp "powerdns" eq_refl H) as E. by vm_compute in E.
Qed.

(** The objects of a tier and those of a server in the same namespace
    have different names, with one exception: a server called
    <tier>-dnsdist, with which the tier shares a Deployment, a ConfigMap, a
    DNS Service and a PodDisruptionBudget. *)
Theorem dnsdist_names_disjoint (d : DNSDist) (s : PowerDNSServer) :
  (exists o, o ∈ dnsdist_objects d /\ o ∈ server_objects s)
  <-> om_Name (srv_Meta s) = om_Name (dd_Meta d) +:+ "-dnsdist".
Proof.
  unfold dnsdist_objects, server_objects, DNSDistNameSet, NameSet.
  set (n := om_Name (dd_Meta d)). set (m := om_Name (srv_Meta s)). cbn. split.
  - change "-dnsdist-config" with ("-dnsdist" +:+ "-config"). change "-dnsdist-dns" with ("-dnsdist" +:+ "-dns").
    change "-dnsdist-pdb" with ("-dnsdist" +:+ "-pdb"). change "-dnsdist-tcp" with ("-dns" +:+ "dist-tcp").
    change "-dnsdist-udp" with ("-dns" +:+ "dist-udp"). rewrite <- !str_app_assoc.
    intros (o & Ho & Hs).
    repeat (apply elem_of_cons in Ho as [->|Ho]); [..|by apply elem_of_nil in Ho];
      repeat (apply elem_of_cons in Hs as [Hs|Hs]); try (by apply elem_of_nil in Hs); simplify_eq; try done;
      match goal with
      | E : _ +:+ _ = _ +:+ _ |- _ => first [by apply str_app_inj_r in E | by apply str_suffix_ne in E]
      end.
  - intros ->. eexists. split; [left|left].
Qed.
