(* ===== verification/DnsdistController.v ===== *)
(** * internal/controller/dnsdist_controller.go: the DNSDist reconciler

    One pass converges the objects of a dnsdist tier in front of Ready
    servers: no phase machine and no finalizer. The additional Services are
    converged with the store that holds their shared label map. *)

From Stdlib Require Import Ascii.
From S2P Require Import Prelude GoStd Meta ApiTypes KubeObjects Samples Effects RefMachinery Manifests Workloads Converge ServerController DnsdistManifests.

Open Scope go_scope.
Open Scope stdpp_scope.
Open Scope Z_scope.

Definition dnsdistBackendIndex : string := "spec.backendRefs".

(** ** validateDNSDist *)

(** The loop over the backends with the map of the names seen. *)
Fixpoint backend_violation (seen : gset string) (i : nat) (l : list ObjectRef) : option string :=
  match l with
  | [] => None
  | ref :: l =>
      if ref_Name ref == "" then Some ("backendRefs[" +:+ idx i +:+ "].name is required")
      else if ref_Namespace ref != "" then
        Some ("backendRefs[" +:+ idx i
              +:+ "].namespace must be empty — cross-namespace backends are not supported")
      else if bool_decide (ref_Name ref ∈ seen) then
        Some ("backendRefs[" +:+ idx i +:+ "].name " +:+ quote (ref_Name ref) +:+ " is a duplicate")
      else backend_violation ({[ ref_Name ref ]} ∪ seen) (S i) l
  end.

Definition check_dnsdist_pdb (d : DNSDist) : option string :=
  match pdb_override (ds_PodDisruptionBudget (dd_Spec d)) with
  | Some m =>
      let replicas := replicas_of (ds_Replicas (dd_Spec d)) in
      if (1 <? replicas) && (replicas <=? m) then
        Some ("podDisruptionBudget.minAvailable (" +:+ itoa m +:+ ") must be < replicas (" +:+ itoa replicas +:+ ")")
      else None
  | None => None
  end.

Definition check_listener (l : DNSDistTLSListener) (msg : string) : option string :=
  if tls_Enabled l && (tls_CertificateSecretRef l == "") then Some msg else None.

Definition check_dnsdist_gateway (dns : DNSSpec) : option string :=
  if dns_Exposure dns == DNSExposureGateway then
    match dns_Gateway dns with
    | Some {| dgw_ParentRefs := _ :: _ |} => None
    | _ => Some "dns.exposure=gateway requires dns.gateway.parentRefs (at least one)"
    end
  else None.

Definition validateDNSDist (d : DNSDist) : string :=
  let spec := dd_Spec d in
  first_message [backend_violation ∅ 0 (ds_BackendRefs spec);
    check_dnsdist_pdb d;
    check_listener (tls_DoT (ds_TLS spec)) "tls.dot.certificateSecretRef.name is required when dot is enabled";
    check_listener (tls_DoH (ds_TLS spec)) "tls.doh.certificateSecretRef.name is required when doh is enabled";
    check_dnsdist_gateway (ds_DNS spec)].

(** ** Status assignments *)

Definition set_dst_Conditions (l : list Condition) (st : DNSDistStatus) : DNSDistStatus := {|
  dst_Phase := dst_Phase st; dst_DNSEndpoint := dst_DNSEndpoint st;
  dst_DesiredReplicas := dst_DesiredReplicas st; dst_ReadyReplicas := dst_ReadyReplicas st;
  dst_ObservedGeneration := dst_ObservedGeneration st; dst_Conditions := l;
  dst_FailureMessage := dst_FailureMessage st |}.
Definition set_dst_phase (phase msg : string) (st : DNSDistStatus) : DNSDistStatus := {|
  dst_Phase := phase; dst_DNSEndpoint := dst_DNSEndpoint st;
  dst_DesiredReplicas := dst_DesiredReplicas st; dst_ReadyReplicas := dst_ReadyReplicas st;
  dst_ObservedGeneration := dst_ObservedGeneration st; dst_Conditions := dst_Conditions st;
  dst_FailureMessage := msg |}.
Definition set_dst_live (endpoint : string) (desired ready gen : Z) (st : DNSDistStatus) : DNSDistStatus := {|
  dst_Phase := dst_Phase st; dst_DNSEndpoint := endpoint;
  dst_DesiredReplicas := desired; dst_ReadyReplicas := ready;
  dst_ObservedGeneration := gen; dst_Conditions := dst_Conditions st;
  dst_FailureMessage := dst_FailureMessage st |}.
Definition upd_dst (f : DNSDistStatus -> DNSDistStatus) (d : DNSDist) : DNSDist := set_dd_Status (f (dd_Status d)) d.

(** What the check of the backends answers besides an error. *)
Inductive backends :=
| BackendsOk (addrs : strmap)
| BackendsNot (reason msg : string).

Section reconciler.
Context `{Machinery, Reconciler}.

(** setCondOn(&d.Status.Conditions, d.Generation, ...). *)
Definition set_dnsdist_cond (t status reason msg : string) (d : DNSDist) : DNSDist :=
  upd_dst (set_dst_Conditions
    (setCondOn (dst_Conditions (dd_Status d)) (om_Generation (dd_Meta d)) t status reason msg)) d.

Definition markDNSDistNotReady (d : DNSDist) (reason msg : string) (after : Z) : prog Outcome :=
  let d := upd_dst (set_dst_phase ZonePhasePending msg) d in
  let d := set_dnsdist_cond ConditionReady ConditionFalse reason msg d in
  try! _ := StatusUpdate KDNSDist d in
  Ret (requeue_after after, None).

Definition markDNSDistFailed (d : DNSDist) (msg : string) : prog Outcome :=
  let d := upd_dst (set_dst_phase ZonePhaseFailed msg) d in
  let d := set_dnsdist_cond ConditionReady ConditionFalse "InvalidSpec" msg d in
  try! d := StatusUpdate KDNSDist d in
  let! _ := event KDNSDist d EventTypeWarning "InvalidSpec" msg in
  Ret (no_requeue, None).

(** ** Backends *)

Fixpoint backendsReady_loop (ns : string) (refs : list ObjectRef) (addrs : strmap) : prog (res backends) :=
  match refs with
  | [] => Ret (Ok (BackendsOk addrs))
  | ref :: refs =>
      let! r := Get KServer (NN ns (ref_Name ref)) in
      match r with
      | Err e =>
          Ret (if IsNotFound e then
                 Ok (BackendsNot "BackendNotFound"
                       ("PowerDNSServer " +:+ ns +:+ "/" +:+ ref_Name ref +:+ " not found"))
               else Err e)
      | Ok s =>
          if pst_Phase (srv_Status s) != PhaseReady then
            Ret (Ok (BackendsNot "BackendNotReady"
              ("PowerDNSServer " +:+ ref_Name ref +:+ " is " +:+ pst_Phase (srv_Status s))))
          else
            let dnsSvcName := n_DNSService (NameSet s) in
            let! r := Get KService (NN ns dnsSvcName) in
            match r with
            | Err e =>
                Ret (if IsNotFound e then
                       Ok (BackendsNot "BackendServiceNotFound"
                             ("DNS Service " +:+ ns +:+ "/" +:+ dnsSvcName +:+ " not found for backend "
                              +:+ ref_Name ref))
                     else Err e)
            | Ok svc =>
                let ip := ss_ClusterIP (svc_Spec svc) in
                if (ip == "") || (ip == "None") then
                  Ret (Ok (BackendsNot "BackendServiceNotReady"
                    ("DNS Service " +:+ ns +:+ "/" +:+ dnsSvcName +:+ " has no ClusterIP yet")))
                else backendsReady_loop ns refs (<[ref_Name ref := ip]> addrs)
            end
      end
  end.

Definition backendsReady (d : DNSDist) : prog (res backends) :=
  backendsReady_loop (om_Namespace (dd_Meta d)) (ds_BackendRefs (dd_Spec d)) ∅.

(** ** Children *)

Definition own_by (d : DNSDist) (k : kind) (o : obj_of k) : res (obj_of k) :=
  match SetControllerReference KDNSDist (dd_Meta d) (get_meta k o) with
  | Ok m => Ok (set_meta k m o)
  | Err e => Err e
  end.

Definition upsertOwned (owner : DNSDist) (k : kind) (key : NamespacedName) (mutate : obj_of k -> obj_of k) :
    prog (option err) :=
  only_err (do_op (OCreateOrUpdate k key (fun live => own_by owner k (mutate live)))).

(** live.Labels = labels. *)
Definition relabel (k : kind) (lb : strmap) (live : obj_of k) : obj_of k :=
  set_meta k (set_om_Labels lb (get_meta k live)) live.

Definition upsert_configmap (d : DNSDist) (cm : ConfigMap) : prog (option err) :=
  upsertOwned d KConfigMap (obj_key KConfigMap cm) (fun live =>
    set_cm_Data (cm_Data cm) (relabel KConfigMap (om_Labels (cm_Meta cm)) live)).

Definition upsert_deployment (d : DNSDist) (dep : Deployment) : prog (option err) :=
  upsertOwned d KDeployment (obj_key KDeployment dep) (fun live => {|
    dep_Meta := set_om_Labels (om_Labels (dep_Meta dep)) (dep_Meta live);
    dep_Replicas := dep_Replicas dep; dep_Selector := dep_Selector dep; dep_Strategy := dep_Strategy dep;
    dep_Template := dep_Template dep;
    dep_ReadyReplicas := dep_ReadyReplicas live; dep_AvailableReplicas := dep_AvailableReplicas live |}).

Definition upsert_pdb (d : DNSDist) (pdb : PodDisruptionBudget) : prog (option err) :=
  upsertOwned d KPDB (obj_key KPDB pdb) (fun live => {|
    pdb_Meta := set_om_Labels (om_Labels (pdb_Meta pdb)) (pdb_Meta live);
    pdb_Spec_MinAvailable := pdb_Spec_MinAvailable pdb; pdb_Selector := pdb_Selector pdb |}).

(** The data of the certificate Secrets of the enabled listeners; a missing
    one counts with its name. *)
Fixpoint tls_secret_maps (ns : string) (listeners : list DNSDistTLSListener) : prog (res (list (gomap string))) :=
  match listeners with
  | [] => Ret (Ok [])
  | l :: listeners =>
      if negb (tls_Enabled l) then tls_secret_maps ns listeners
      else
        let name := tls_CertificateSecretRef l in
        let! r := Get KSecret (NN ns name) in
        match r with
        | Ok sec =>
            try! rest := tls_secret_maps ns listeners in Ret (Ok (sec_Data sec :: rest))
        | Err e =>
            if IsNotFound e then
              try! rest := tls_secret_maps ns listeners in Ret (Ok ([("__name__", name)] :: rest))
            else Ret (Err (wrap_err ("get tls secret " +:+ name +:+ ": ") e))
        end
  end.

(** ** Additional Services *)

(** The labels by which the additional Services of a tier are found again. *)
Definition dnsdist_additional_selector (d : DNSDist) : strmap :=
  {[ "app.kubernetes.io/managed-by" := "aether-powerdns"; "app.kubernetes.io/instance" := om_Name (dd_Meta d);
     "app.kubernetes.io/name" := "dnsdist"; roleLabel := additionalRole ]}.

(** The loop over the desired Services: each writes its role label into the
    map it shares with the others. *)
Fixpoint converge_additional (d : DNSDist) (h : store) (desired : list ServiceRef) : prog (option err) :=
  match desired with
  | [] => done_ok
  | svc :: desired =>
      let h := write (sr_Labels svc) roleLabel additionalRole h in
      match own_by d KService (deref h svc) with
      | Err e => Ret (Some e)
      | Ok svc => check! updateService svc in converge_additional d h desired
      end
  end.

Definition reconcileDNSDistAdditionalServices (d : DNSDist) : prog (option err) :=
  let '(h, desired) := DNSDistAdditionalDNSServices d [] in
  check! converge_additional d h desired in
  let desiredNames := map (fun svc => om_Name (svc_Meta (sr_Service svc))) desired in
  try! existing := do_op (OListLabels KService (om_Namespace (dd_Meta d)) (dnsdist_additional_selector d)) in
  for_each existing (fun svc =>
    if bool_decide (om_Name (svc_Meta svc) ∈ desiredNames) then done_ok
    else let! e := Delete KService (obj_key KService svc) in Ret (IgnoreNotFound e)).

(** ** Routes *)

(** CreateOrUpdate of a TCPRoute or a UDPRoute with its error texts. *)
Definition ensure_l4 (d : DNSDist) (k : kind) (key : NamespacedName) (mutate : obj_of k -> obj_of k)
    (what crd : string) : prog (option err) :=
  let! r := do_op (OCreateOrUpdate k key (fun live => own_by d k (mutate live))) in
  Ret (match r with
       | Ok _ => None
       | Err e =>
           Some (if IsNoMatchError e then
                   wrap_err ("ensure " +:+ what +:+ ": " +:+ crd
                             +:+ " CRD not installed (Gateway API experimental channel): ") e
                 else wrap_err ("ensure " +:+ what +:+ ": ") e)
       end).

Definition reconcileDNSDistRoutes (d : DNSDist) : prog (option err) :=
  let names := DNSDistNameSet d in
  let ns := om_Namespace (dd_Meta d) in
  if dns_Exposure (ds_DNS (dd_Spec d)) == DNSExposureGateway then
    let tcp := DNSDistTCPRoute d in
    check! ensure_l4 d KTCPRoute (obj_key KTCPRoute tcp) (fun live =>
             l4_assign tcp (relabel KTCPRoute (om_Labels (l4_Meta tcp)) live)) "tcproute" "TCPRoute" in
    let udp := DNSDistUDPRoute d in
    ensure_l4 d KUDPRoute (obj_key KUDPRoute udp) (fun live =>
      l4_assign udp (relabel KUDPRoute (om_Labels (l4_Meta udp)) live)) "udproute" "UDPRoute"
  else
    check! wrapping "delete tcproute: " (deleteIfExists KTCPRoute (NN ns (dn_TCPRoute names))) in
    wrapping "delete udproute: " (deleteIfExists KUDPRoute (NN ns (dn_UDPRoute names))).

(** ** Status *)

(** The endpoint that a live DNS Service gives. *)
Definition dnsdist_service_endpoint (exposure : string) (svc : Service) : string :=
  if exposure == DNSExposureLoadBalancer then
    let addr := ingress_addr (svc_Ingress svc) in
    if addr == "" then "" else addr +:+ ":53"
  else ss_ClusterIP (svc_Spec svc) +:+ ":53".

(** status.dnsEndpoint from the live exposure. *)
Definition dnsdist_endpoint (d : DNSDist) : prog string :=
  let dns := ds_DNS (dd_Spec d) in
  let ns := om_Namespace (dd_Meta d) in
  if dns_Exposure dns == DNSExposureGateway then
    Ret (match dns_Gateway dns with Some gw => gateway_endpoint (dgw_ParentRefs gw) ns | None => "" end)
  else
    let! r := Get KService (NN ns (dn_DNSService (DNSDistNameSet d))) in
    Ret (match r with Ok svc => dnsdist_service_endpoint (dns_Exposure dns) svc | Err _ => "" end).

Definition refreshDNSDistStatus (d : DNSDist) : prog Outcome :=
  try! dep := Get KDeployment (NN (om_Namespace (dd_Meta d)) (dn_Deployment (DNSDistNameSet d))) in
  let desired := replicas_of (dep_Replicas dep) in
  let available := (dep_AvailableReplicas dep =? desired) && (0 <? desired) in
  let counts := itoa (dep_AvailableReplicas dep) +:+ "/" +:+ itoa desired +:+ " replicas available" in
  let d := if available then set_dnsdist_cond ConditionAvailable ConditionTrue "PodsAvailable" counts d
           else set_dnsdist_cond ConditionAvailable ConditionFalse "PodsUnavailable" counts d in
  let! endpoint := dnsdist_endpoint d in
  let d := upd_dst (set_dst_live endpoint desired (dep_ReadyReplicas dep) (om_Generation (dd_Meta d))) d in
  let d := upd_dst (set_dst_phase ZonePhaseReady "") d in
  let d := if available then
             set_dnsdist_cond ConditionReady ConditionTrue "Reconciled"
               "tier converged and all replicas available" d
           else set_dnsdist_cond ConditionReady ConditionFalse "Degraded" counts d in
  try! _ := StatusUpdate KDNSDist d in
  Ret (requeue_after requeueLong, None).

(** ** Reconcile *)

(** The part of Reconcile that converges the children of a tier whose
    backends are ready. *)
Definition converge_children (d : DNSDist) (backendAddrs : strmap) : prog (option err) :=
  let cm := DNSDistConfigMap d backendAddrs in
  let spec := dd_Spec d in
  let ns := om_Namespace (dd_Meta d) in
  check! wrapping "ensure configmap: " (upsert_configmap d cm) in
  try! tlsSecretMaps := tls_secret_maps ns [tls_DoT (ds_TLS spec); tls_DoH (ds_TLS spec)] in
  let hashStr := ConfigHash (default "" (cm_Data cm !! "dnsdist.conf")) tlsSecretMaps in
  check! wrapping "ensure deployment: " (upsert_deployment d (DNSDistDeployment d hashStr)) in
  match own_by d KService (DNSDistDNSService d) with
  | Err e => Ret (Some (wrap_err "set owner ref on dns service: " e))
  | Ok svc =>
      check! wrapping "ensure dns service: " (updateService svc) in
      check! reconcileDNSDistAdditionalServices d in
      check! match DNSDistPDB d with
             | Some pdb => wrapping "ensure pdb: " (upsert_pdb d pdb)
             | None => wrapping "delete pdb: " (deleteIfExists KPDB (NN ns (dn_PDB (DNSDistNameSet d))))
             end in
      reconcileDNSDistRoutes d
  end.

Definition Reconcile (key : NamespacedName) : prog Outcome :=
  let! r := Get KDNSDist key in
  match r with
  | Err e => Ret (no_requeue, IgnoreNotFound (Some e))
  | Ok d =>
      if negb (deletion_IsZero (dd_Meta d)) then Ret (no_requeue, None)
      else
        let msg := validateDNSDist d in
        if msg != "" then markDNSDistFailed d msg
        else
          try! b := backendsReady d in
          match b with
          | BackendsNot reason msg =>
              markDNSDistNotReady
                (set_dnsdist_cond ConditionBackendsReady ConditionFalse reason msg d) reason msg requeueShort
          | BackendsOk backendAddrs =>
              let d := set_dnsdist_cond ConditionBackendsReady ConditionTrue "BackendsReady"
                         "all backends Ready" d in
              check! converge_children d backendAddrs in
              refreshDNSDistStatus d
          end
  end.

(** The requests for the tiers of a server, from the index. *)
Definition dnsdistsForServer (server : PowerDNSServer) : prog (list NamespacedName) :=
  let! r := do_op (OListIndex KDNSDist dnsdistBackendIndex
              (om_Namespace (srv_Meta server) +:+ "/" +:+ om_Name (srv_Meta server))) in
  Ret (match r with Err _ => [] | Ok l => map (obj_key KDNSDist) l end).
End reconciler.

(** The index function registered for DNSDists. *)
Definition dnsdist_index (d : DNSDist) : list string :=
  map (fun ref => refKey ref (om_Namespace (dd_Meta d))) (ds_BackendRefs (dd_Spec d)).

(** ** What a valid tier is *)

Record valid_dnsdist (d : DNSDist) : Prop := {
  vd_names : NoDup (map ref_Name (ds_BackendRefs (dd_Spec d)))
    /\ ("" ∉ map ref_Name (ds_BackendRefs (dd_Spec d)));
  vd_local : Forall (fun r => ref_Namespace r = "") (ds_BackendRefs (dd_Spec d));
  vd_pdb : forall m, pdb_override (ds_PodDisruptionBudget (dd_Spec d)) = Some m ->
    1 < replicas_of (ds_Replicas (dd_Spec d)) -> m < replicas_of (ds_Replicas (dd_Spec d));
  vd_dot : tls_Enabled (tls_DoT (ds_TLS (dd_Spec d))) = true ->
    tls_CertificateSecretRef (tls_DoT (ds_TLS (dd_Spec d))) <> "";
  vd_doh : tls_Enabled (tls_DoH (ds_TLS (dd_Spec d))) = true ->
    tls_CertificateSecretRef (tls_DoH (ds_TLS (dd_Spec d))) <> "";
  vd_gateway : dns_Exposure (ds_DNS (dd_Spec d)) = DNSExposureGateway ->
    exists gw, dns_Gateway (ds_DNS (dd_Spec d)) = Some gw /\ dgw_ParentRefs gw <> [];
}.

Lemma backend_violation_none seen i l :
  backend_violation seen i l = None <->
  (NoDup (map ref_Name l) /\ ("" ∉ map ref_Name l)) /\ Forall (fun r => ref_Namespace r = "") l
  /\ (forall x, x ∈ map ref_Name l -> x ∉ seen).
Proof.
  revert seen i. induction l as [|e l IH]; intros seen i; simpl.
  - split; [|done]. intros _. split; [split; [constructor|apply not_elem_of_nil]|]. split; [done|].
    intros x Hx. by apply elem_of_nil in Hx.
  - rewrite NoDup_cons, not_elem_of_cons, Forall_cons.
    destruct (bool_decide (ref_Name e = "")) eqn:E1; bool_prop; [split; [done|]; naive_solver|].
    destruct (bool_decide (ref_Namespace e = "")) eqn:E2; simpl; bool_prop; [|split; [done|]; naive_solver].
    destruct (bool_decide (ref_Name e ∈ seen)) eqn:E3; bool_prop; [split; [done|]; set_solver|].
    rewrite IH. set_solver.
Qed.

Lemma backend_violation_says seen i l : says (backend_violation seen i l).
Proof.
  revert seen i. induction l as [|e l IH]; intros seen i; simpl; [done|].
  destruct (bool_decide _); [done|]. destruct (negb _); [done|]. by destruct (bool_decide _).
Qed.

Lemma check_dnsdist_pdb_none d :
  check_dnsdist_pdb d = None <->
  (forall m, pdb_override (ds_PodDisruptionBudget (dd_Spec d)) = Some m ->
    1 < replicas_of (ds_Replicas (dd_Spec d)) -> m < replicas_of (ds_Replicas (dd_Spec d))).
Proof.
  unfold check_dnsdist_pdb. destruct (pdb_override _) as [m|]; [|naive_solver].
  destruct ((1 <? _) && _) eqn:E; bool_prop.
  - split; [done|]. intros Hm. specialize (Hm m eq_refl). lia.
  - apply andb_false_iff in E. split; [|done]. intros _ m' [= <-]. destruct E; bool_prop; lia.
Qed.

Lemma check_listener_none l msg :
  check_listener l msg = None <-> (tls_Enabled l = true -> tls_CertificateSecretRef l <> "").
Proof.
  unfold check_listener. destruct (tls_Enabled l); simpl; [|naive_solver].
  case_bool_decide; naive_solver.
Qed.

Lemma check_dnsdist_gateway_none dns :
  check_dnsdist_gateway dns = None <->
  (dns_Exposure dns = DNSExposureGateway -> exists gw, dns_Gateway dns = Some gw /\ dgw_ParentRefs gw <> []).
Proof.
  unfold check_dnsdist_gateway. case_bool_decide as He; [|naive_solver].
  destruct (dns_Gateway dns) as [[[|r refs]]|] eqn:Eg.
  - split; [done|]. intros H. by destruct (H He) as (gw & [= <-] & Hne).
  - split; [|done]. intros _ _. by eexists.
  - split; [done|]. intros H. by destruct (H He) as (gw & ? & _).
Qed.

Lemma validateDNSDist_iff d : validateDNSDist d = "" <-> valid_dnsdist d.
Proof.
  unfold validateDNSDist. rewrite first_message_empty.
  - rewrite !Forall_cons, Forall_nil, backend_violation_none, check_dnsdist_pdb_none, !check_listener_none,
      check_dnsdist_gateway_none.
    split; [intros ((? & ? & _) & ? & ? & ? & ? & _); by split|].
    intros [? ? ? ? ? ?]. split_and!; try tauto. intros x _. apply not_elem_of_empty.
  - rewrite !Forall_cons, Forall_nil. split_and!; [apply backend_violation_says|..|done].
    + unfold check_dnsdist_pdb. repeat split_match; done.
    + unfold check_listener. repeat split_match; done.
    + unfold check_listener. repeat split_match; done.
    + unfold check_dnsdist_gateway. repeat split_match; done.
Qed.

(** ** What a pass writes *)

(** The backends of a tier as a pass saw them: every one is a Ready server
    whose DNS Service has the address recorded for it. *)
Definition backend_seen (ns : string) (addrs : strmap) (t : list obs) (ref : ObjectRef) : Prop :=
  exists s svc, Ev (OGet KServer (NN ns (ref_Name ref))) (Ok s) ∈ t
    /\ pst_Phase (srv_Status s) = PhaseReady
    /\ Ev (OGet KService (NN ns (n_DNSService (NameSet s)))) (Ok svc) ∈ t
    /\ ss_ClusterIP (svc_Spec svc) <> "" /\ ss_ClusterIP (svc_Spec svc) <> "None"
    /\ addrs !! ref_Name ref = Some (ss_ClusterIP (svc_Spec svc)).

(** A write of the rendered configuration or workload: whatever object is
    live, what is written carries the configuration for these addresses. *)
Definition writes_config (d : DNSDist) (addrs : strmap) (X : Type) (o : op X) : Prop :=
  match o with
  | OCreateOrUpdate k key mutate =>
      match k return (obj_of k -> res (obj_of k)) -> Prop with
      | KConfigMap => fun mutate => key = obj_key KConfigMap (DNSDistConfigMap d addrs)
          /\ forall live o', mutate live = Ok o' -> cm_Data o' = cm_Data (DNSDistConfigMap d addrs)
      | KDeployment => fun mutate => key = NN (om_Namespace (dd_Meta d)) (dn_Deployment (DNSDistNameSet d))
          /\ exists secrets, forall live o', mutate live = Ok o' ->
               dep_Template o' = dep_Template (DNSDistDeployment d (ConfigHash (DNSDistConfig d addrs) secrets))
      | _ => fun _ => True
      end mutate
  | _ => True
  end.

(** Writes to anything but the status of a DNSDist. *)
Definition status_only (w : verb * kind * NamespacedName) : bool :=
  bool_decide (w.1 = (VStatusUpdate, KDNSDist)).

(** The guard of a pass over a tier. *)
Definition dnsdist_guarded (key : NamespacedName) (t : list obs) : Prop :=
  Forall (fun w => status_only w = true) (kube_writes t)
  \/ exists d addrs, Ev (OGet KDNSDist key) (Ok d) ∈ t
       /\ deletion_IsZero (dd_Meta d) = true /\ valid_dnsdist d
       /\ Forall (backend_seen (om_Namespace (dd_Meta d)) addrs t) (ds_BackendRefs (dd_Spec d))
       /\ Forall (fun e => writes_config d addrs _ (ev_op e)) t.

Lemma backend_seen_mono ns addrs t t' ref :
  (forall e, e ∈ t -> e ∈ t') -> backend_seen ns addrs t ref -> backend_seen ns addrs t' ref.
Proof. intros Ht (s & svc & H1 & ? & H2 & ?). exists s, svc. auto. Qed.

Section guards.
Context `{Machinery, Reconciler}.

Lemma backendsReady_loop_reads ns refs addrs :
  wp (backendsReady_loop ns refs addrs) (fun t _ => kube_writes t = []).
Proof.
  revert addrs. induction refs as [|ref refs IH]; intros addrs; cbn [backendsReady_loop]; unfold Get; [done|].
  wp_run; done.
Qed.

Lemma backendsReady_loop_seen ns refs addrs :
  NoDup (map ref_Name refs) ->
  wp (backendsReady_loop ns refs addrs) (fun t r => forall a, r = Ok (BackendsOk a) ->
    Forall (backend_seen ns a t) refs /\ (forall n, n ∉ map ref_Name refs -> a !! n = addrs !! n)).
Proof.
  revert addrs. induction refs as [|ref refs IH]; intros addrs Hnd; cbn [backendsReady_loop]; unfold Get.
  - cbn [wp]. intros a [= <-]. split; [constructor|done].
  - cbn [map] in Hnd. apply NoDup_cons in Hnd as [Hn Hnd].
    wp_run; try (intros ? Ha; by repeat match type of Ha with context [IsNotFound ?e] => destruct (IsNotFound e) end).
    eapply wp_mono; [|apply IH, Hnd]. intros t r Hr b ->. destruct (Hr b eq_refl) as [HF Ho]. split.
    + constructor.
      * bool_prop. match goal with E : (_ || _) = false |- _ => apply orb_false_iff in E as [??] | _ => idtac end.
        bool_prop. eexists _, _. split; [in_trace|]. split; [done|]. split; [in_trace|]. split; [done|].
        split; [done|]. rewrite Ho by done. apply lookup_insert_eq.
      * eapply Forall_impl; [exact HF|]. intros y. apply backend_seen_mono. intros e He. by repeat right.
    + intros n Hni. cbn [map] in Hni. apply not_elem_of_cons in Hni as [Hne Hni].
      rewrite Ho by done. by apply lookup_insert_ne.
Qed.

Lemma own_by_data d (live o : ConfigMap) : own_by d KConfigMap live = Ok o -> cm_Data o = cm_Data live.
Proof. unfold own_by. destruct (SetControllerReference _ _ _); [|done]. by intros [= <-]. Qed.
Lemma own_by_template d (live o : Deployment) :
  own_by d KDeployment live = Ok o -> dep_Template o = dep_Template live.
Proof. unfold own_by. destruct (SetControllerReference _ _ _); [|done]. by intros [= <-]. Qed.

End guards.

(** Operations other than status writes and the upserts of the two children
    that carry the configuration. *)
Definition plain {X} (o : op X) : Prop :=
  match o with
  | OStatusUpdate _ _ => False
  | OCreateOrUpdate k _ _ => k <> KConfigMap /\ k <> KDeployment
  | _ => True
  end.

(** A predicate that holds of plain operations and of these two upserts holds
    of all that converging the children does. *)
Section children_ops.
Context `{MachineryLaws, Reconciler}.
Variable P : forall X, op X -> Prop.
Hypothesis HP : forall X (o : op X), plain o -> P X o.
Variables (d : DNSDist) (addrs : strmap).
Hypothesis Hcm : all_ops P (upsert_configmap d (DNSDistConfigMap d addrs)).
Hypothesis Hdep : forall secrets,
  all_ops P (upsert_deployment d (DNSDistDeployment d (ConfigHash (DNSDistConfig d addrs) secrets))).

Ltac plain_op := apply HP; cbn [plain]; first [exact I|done].

Lemma deleteIfExists_ops k key : all_ops P (deleteIfExists k key).
Proof. unfold deleteIfExists, Get, Delete. all_ops_run; plain_op. Qed.

Lemma updateService_ops svc : all_ops P (updateService svc).
Proof.
  apply all_ops_retry. unfold updateService_attempt, Get, Create, Update, only_err. all_ops_run; plain_op.
Qed.

Lemma converge_additional_ops h l : all_ops P (converge_additional d h l).
Proof.
  revert h. induction l as [|svc l IH]; intros h; cbn [converge_additional]; [done|].
  all_ops_run; [apply updateService_ops|apply IH].
Qed.

Lemma additional_ops : all_ops P (reconcileDNSDistAdditionalServices d).
Proof.
  unfold reconcileDNSDistAdditionalServices, Delete. destruct (DNSDistAdditionalDNSServices d []) as [h l].
  all_ops_run; first [plain_op|apply converge_additional_ops].
Qed.

Lemma tls_ops ns l : all_ops P (tls_secret_maps ns l).
Proof. induction l as [|x l IH]; cbn [tls_secret_maps]; unfold Get; all_ops_run; first [plain_op|done]. Qed.

Lemma routes_ops : all_ops P (reconcileDNSDistRoutes d).
Proof.
  unfold reconcileDNSDistRoutes, ensure_l4. cbv zeta. all_ops_run; first [plain_op|apply deleteIfExists_ops].
Qed.

Lemma conf_lookup : default "" (cm_Data (DNSDistConfigMap d addrs) !! "dnsdist.conf") = DNSDistConfig d addrs.
Proof. unfold DNSDistConfigMap. cbn [cm_Data]. by rewrite lookup_singleton_eq. Qed.

Lemma converge_children_ops : all_ops P (converge_children d addrs).
Proof.
  unfold converge_children, upsert_pdb, upsertOwned, only_err. cbv zeta. rewrite conf_lookup.
  all_ops_run; first [plain_op|apply Hcm|apply Hdep|apply tls_ops|apply updateService_ops
    |apply additional_ops|apply routes_ops|apply deleteIfExists_ops].
Qed.
End children_ops.

Section guard_laws.
Context `{MachineryLaws, Reconciler}.

Lemma plain_config d addrs X (o : op X) : plain o -> writes_config d addrs X o.
Proof. destruct o as [| | | | |k ? ?| | | | |]; try done. by destruct k; intros [??]. Qed.

Lemma converge_children_config d addrs : all_ops (writes_config d addrs) (converge_children d addrs).
Proof.
  apply converge_children_ops; [apply plain_config|..].
  - split; [|done]. split; [done|]. intros live o' E. by apply own_by_data in E.
  - intros secrets. split; [|done]. split; [done|]. exists secrets. intros live o' E.
    exact (own_by_template _ _ _ E).
Qed.

Lemma guarded_status key t : Forall (fun w => status_only w = true) (kube_writes t) -> dnsdist_guarded key t.
Proof. by left. Qed.

Lemma kube_writes_cons e t : kube_write e = None -> kube_writes (e :: t) = kube_writes t.
Proof. unfold kube_writes. cbn [omap list_omap]. by intros ->. Qed.

Lemma no_writes_config d addrs t :
  kube_writes t = [] -> Forall (fun e => writes_config d addrs _ (ev_op e)) t.
Proof.
  induction t as [|[X o x] t IH]; [constructor|]. intros Ht.
  destruct o; try done; (constructor; [done|by apply IH]).
Qed.

Lemma writes_config_events d addrs (p : prog Outcome) :
  all_ops (writes_config d addrs) p -> wp p (fun t _ => Forall (fun e => writes_config d addrs _ (ev_op e)) t).
Proof. intros Hp. by apply all_ops_wp. Qed.

Lemma dnsdist_Reconcile_guarded key : wp (Reconcile key) (fun t _ => dnsdist_guarded key t).
Proof.
  unfold Reconcile, Get. cbn [bind do_op]. apply wp_vis. intros [d|e]; [|cbn [wp]; by apply guarded_status].
  destruct (deletion_IsZero (dd_Meta d)) eqn:Ez; cbn [negb]; [|cbn [wp]; by apply guarded_status].
  cbv zeta. destruct (bool_decide (validateDNSDist d = "")) eqn:Ev; cbn [negb].
  2: { unfold markDNSDistFailed, StatusUpdate, event. wp_run; apply guarded_status; by repeat constructor. }
  bool_prop. apply validateDNSDist_iff in Ev. unfold try_res at 1. apply wp_bind.
  eapply wp_mono; [|apply wp_conj; [apply backendsReady_loop_reads|apply backendsReady_loop_seen, Ev]].
  intros t1 r [Hw Hseen]. cbn beta in Hw, Hseen |- *.
  destruct r as [[addrs|reason msg]|e].
  - destruct (Hseen addrs eq_refl) as [HF _].
    apply (wp_mono _ (fun t _ => Forall (fun e => writes_config d addrs _ (ev_op e)) (t1 ++ t))).
    { intros t _ Hc. right. exists d, addrs. split; [left|]. split; [done|]. split; [done|]. split.
      - eapply Forall_impl; [exact HF|]. intros y. apply backend_seen_mono. intros x Hx. right. apply elem_of_app. by left.
      - by constructor. }
    apply (wp_mono _ (fun t _ => Forall (fun e => writes_config d addrs _ (ev_op e)) t)).
    { intros t _ Ht. apply Forall_app. split; [by apply no_writes_config|done]. }
    apply writes_config_events. apply all_ops_try_err; [exact (converge_children_config (set_dnsdist_cond _ _ _ _ d) addrs)|].
    unfold refreshDNSDistStatus, dnsdist_endpoint, Get, StatusUpdate. cbv zeta. all_ops_run; done.
  - unfold markDNSDistNotReady, StatusUpdate. wp_run; apply guarded_status;
      rewrite kube_writes_cons, kube_writes_app, Hw by done; by repeat constructor.
  - cbn [wp]. apply guarded_status. by rewrite kube_writes_cons, kube_writes_app, Hw.
Qed.
End guard_laws.

(** C36. The check of a tier's specification accepts exactly the valid tiers:
    named, distinct backends of the tier's own namespace, a disruption budget
    below the replica count, a certificate for each enabled TLS listener, and
    a parent when the exposure is a gateway. *)
Theorem validateDNSDist_accepts_valid (d : DNSDist) : validateDNSDist d = "" <-> valid_dnsdist d.
Proof. apply validateDNSDist_iff. Qed.

(** C9. Whatever Kubernetes answers, one pass over a DNSDist writes nothing
    but its status, or the tier it read is live and valid, every backend was
    read as a Ready server whose DNS Service has a usable cluster IP, and the
    ConfigMap and the pod template it writes are those rendered from exactly
    these addresses. *)
Theorem dnsdist_reconcile_guarded `{MachineryLaws, Reconciler} (key : NamespacedName) :
  wp (Reconcile key) (fun t _ => dnsdist_guarded key t).
Proof. apply dnsdist_Reconcile_guarded. Qed.

Lemma dnsdist_reconcile_guarded_witness :
  wp (@Reconcile RefMachinery {| HasRecorder := true |} (NN "dns" "edge"))
    (fun t _ => dnsdist_guarded (NN "dns" "edge") t).
Proof. apply dnsdist_reconcile_guarded. Defined.

(** ** What the status says *)

(** The tiers whose status a trace wrote. *)
Definition dnsdist_status_update (e : obs) : option DNSDist :=
  match ev_op e with
  | OStatusUpdate k d =>
      match k return obj_of k -> option DNSDist with KDNSDist => Some | _ => fun _ => None end d
  | _ => None
  end.
Definition dnsdist_statuses (t : list obs) : list DNSDist := omap dnsdist_status_update t.

(** The configuration and the workload were written, and both were accepted. *)
Definition children_written (d : DNSDist) (addrs : strmap) (t : list obs) : Prop :=
  (exists mutate r, Ev (OCreateOrUpdate KConfigMap (obj_key KConfigMap (DNSDistConfigMap d addrs)) mutate) (Ok r) ∈ t)
  /\ (exists mutate r,
        Ev (OCreateOrUpdate KDeployment
              (NN (om_Namespace (dd_Meta d)) (dn_Deployment (DNSDistNameSet d))) mutate) (Ok r) ∈ t).

Definition cond_is (d : DNSDist) (t status : string) : Prop :=
  exists c, find_cond t (dst_Conditions (dd_Status d)) = Some c /\ c_Status c = status
    /\ c_ObservedGeneration c = om_Generation (dd_Meta d).

(** The status d' that a pass wrote for the tier d tells what the pass saw. *)
Inductive status_honest (d d' : DNSDist) (t : list obs) : Prop :=
| honest_failed :
    ~ valid_dnsdist d -> dst_Phase (dd_Status d') = ZonePhaseFailed ->
    dst_FailureMessage (dd_Status d') = validateDNSDist d ->
    cond_is d' ConditionReady ConditionFalse -> status_honest d d' t
| honest_pending :
    valid_dnsdist d -> dst_Phase (dd_Status d') = ZonePhasePending ->
    kube_writes t = [(VStatusUpdate, KDNSDist, obj_key KDNSDist d')] ->
    cond_is d' ConditionBackendsReady ConditionFalse ->
    cond_is d' ConditionReady ConditionFalse -> status_honest d d' t
| honest_converged addrs dep :
    valid_dnsdist d -> dst_Phase (dd_Status d') = ZonePhaseReady ->
    dst_FailureMessage (dd_Status d') = "" ->
    dst_ObservedGeneration (dd_Status d') = om_Generation (dd_Meta d) ->
    children_written d addrs t ->
    Ev (OGet KDeployment (NN (om_Namespace (dd_Meta d)) (dn_Deployment (DNSDistNameSet d)))) (Ok dep) ∈ t ->
    dst_DesiredReplicas (dd_Status d') = replicas_of (dep_Replicas dep) ->
    dst_ReadyReplicas (dd_Status d') = dep_ReadyReplicas dep ->
    cond_is d' ConditionBackendsReady ConditionTrue ->
    (let up := bool_decide (dep_AvailableReplicas dep = replicas_of (dep_Replicas dep) /\
                            0 < replicas_of (dep_Replicas dep)) in
     cond_is d' ConditionReady (if up then ConditionTrue else ConditionFalse)
     /\ cond_is d' ConditionAvailable (if up then ConditionTrue else ConditionFalse)) ->
    status_honest d d' t.

(** Every status a pass writes is honest about the tier it read. *)
Definition statuses_honest (key : NamespacedName) (t : list obs) : Prop :=
  forall d', d' ∈ dnsdist_statuses t ->
    exists d, Ev (OGet KDNSDist key) (Ok d) ∈ t /\ dd_Spec d' = dd_Spec d /\ dd_Meta d' = dd_Meta d
      /\ status_honest d d' t.

Lemma dnsdist_statuses_app t1 t2 : dnsdist_statuses (t1 ++ t2) = dnsdist_statuses t1 ++ dnsdist_statuses t2.
Proof. apply omap_app. Qed.

Lemma statuses_get k key x t : dnsdist_statuses (Ev (OGet k key) x :: t) = dnsdist_statuses t.
Proof. done. Qed.

Section status.
Context `{MachineryLaws, Reconciler}.

Lemma cond_set_same d t status reason msg : cond_is (set_dnsdist_cond t status reason msg d) t status.
Proof.
  eexists. split; [exact (SetStatusCondition_same _ (Build_Condition t status reason msg _))|done].
Qed.

Lemma cond_set_other d t t' status status' reason msg :
  t <> t' -> cond_is d t status -> cond_is (set_dnsdist_cond t' status' reason msg d) t status.
Proof.
  intros Hne (c & Hc & Hs). exists c. split; [|done].
  rewrite <- Hc. exact (SetStatusCondition_other _ (Build_Condition t' status' reason msg _) _ Hne).
Qed.

Lemma cond_upd d f t status :
  dst_Conditions (f (dd_Status d)) = dst_Conditions (dd_Status d) -> cond_is d t status -> cond_is (upd_dst f d) t status.
Proof. intros Hf (c & Hc & Hs). exists c. split; [|done]. cbn. by rewrite Hf. Qed.

Definition no_status (X : Type) (o : op X) : Prop := match o with OStatusUpdate _ _ => False | _ => True end.

Lemma no_status_wp {A} (p : prog A) : all_ops no_status p -> wp p (fun t _ => dnsdist_statuses t = []).
Proof.
  intros Hp. eapply wp_mono; [|by apply all_ops_wp]. intros t a HF. cbn beta in HF. clear a.
  induction t as [|[X o x] t IH]; [done|]. apply Forall_cons in HF as [Ho HF].
  destruct o; try done; by apply IH.
Qed.

Lemma converge_children_quiet d addrs : all_ops no_status (converge_children d addrs).
Proof.
  apply converge_children_ops; [|by split|by split]. intros X o. by destruct o.
Qed.

Lemma converge_children_written d addrs :
  wp (converge_children d addrs) (fun t r => r = None -> children_written d addrs t).
Proof.
  unfold converge_children, upsert_configmap, upsertOwned, only_err. cbv zeta. wp_run; try done.
  all: apply wp_bind, wp_always; intros t1 r1.
  all: destruct r1 as [secrets|e1]; [|by apply wp_ret].
  all: unfold upsert_deployment, upsertOwned, only_err; wp_run; try done.
  all: apply wp_always; intros t2 r2 _;
    repeat match goal with x : res OperationResult |- _ => destruct x; [|done] end;
    split; eexists _, _; cbn [app];
    [left|right; apply elem_of_app; right; left].
Qed.

Lemma statuses_none key t : dnsdist_statuses t = [] -> statuses_honest key t.
Proof. intros Ht d'. rewrite Ht. by intros ?%elem_of_nil. Qed.

Lemma statuses_one key t d d' :
  dnsdist_statuses t = [d'] -> Ev (OGet KDNSDist key) (Ok d) ∈ t -> dd_Spec d' = dd_Spec d -> dd_Meta d' = dd_Meta d ->
  status_honest d d' t -> statuses_honest key t.
Proof.
  intros Ht Hd Hs Hm Hh d2. rewrite Ht. intros ->%list_elem_of_singleton. by exists d.
Qed.

Lemma endpoint_quiet d : all_ops no_status (dnsdist_endpoint d).
Proof. unfold dnsdist_endpoint, Get. by all_ops_run. Qed.

Lemma children_written_mono d addrs t t' :
  (forall e, e ∈ t -> e ∈ t') -> children_written d addrs t -> children_written d addrs t'.
Proof. intros Ht [(m & r & Hm) (m' & r' & Hm')]. split; eexists _, _; by apply Ht. Qed.

Lemma refresh_honest key t0 d d1 addrs :
  Ev (OGet KDNSDist key) (Ok d) ∈ t0 -> dnsdist_statuses t0 = [] -> valid_dnsdist d ->
  children_written d addrs t0 -> cond_is d1 ConditionBackendsReady ConditionTrue ->
  dd_Spec d1 = dd_Spec d -> dd_Meta d1 = dd_Meta d ->
  wp (refreshDNSDistStatus d1) (fun t _ => statuses_honest key (t0 ++ t)).
Proof.
  intros Hd Ht0 Hv Hw Hb Es Em. unfold refreshDNSDistStatus, Get. cbn [bind do_op try_res].
  apply wp_vis. intros [dep|e];
    [|apply wp_ret, statuses_none; by rewrite dnsdist_statuses_app, Ht0].
  cbv zeta. set (up := (_ =? _) && _). apply wp_bind.
  eapply wp_mono; [|apply no_status_wp, endpoint_quiet]. intros t1 endpoint Ht1. cbn beta in Ht1.
  set (d2 := if up then _ else _). unfold StatusUpdate. cbn [bind do_op try_res]. apply wp_vis. intros x.
  assert (Hup : up = bool_decide (dep_AvailableReplicas dep = replicas_of (dep_Replicas dep)
                                  /\ 0 < replicas_of (dep_Replicas dep))).
  { unfold up. apply eq_bool_prop_intro. rewrite bool_decide_spec, andb_True.
    rewrite !Is_true_true, Z.eqb_eq, Z.ltb_lt. done. }
  match goal with |- wp _ (fun t _ => statuses_honest key (_ ++ _ :: _ ++ Ev (OStatusUpdate _ ?d3) _ :: _)) => set (d' := d3) end.
  assert (Hh : statuses_honest key
    ((t0 ++ Ev (OGet KDeployment (NN (om_Namespace (dd_Meta d)) (dn_Deployment (DNSDistNameSet d)))) (Ok dep) :: t1)
     ++ [Ev (OStatusUpdate KDNSDist d') x])).
  { apply (statuses_one key _ d d').
    - rewrite !dnsdist_statuses_app, Ht0. cbn [app]. by rewrite statuses_get, Ht1.
    - apply elem_of_app. left. apply elem_of_app. by left.
    - unfold d', d2. by destruct up.
    - unfold d', d2. by destruct up.
    - apply (honest_converged d d' _ addrs dep); try done.
      + unfold d', d2. by destruct up.
      + unfold d', d2. by destruct up.
      + unfold d', d2. rewrite <- Em. by destruct up.
      + eapply children_written_mono; [|exact Hw]. intros e He. apply elem_of_app. left. apply elem_of_app. by left.
      + apply elem_of_app. left. apply elem_of_app. right. left.
      + unfold d', d2. by destruct up.
      + unfold d', d2. by destruct up.
      + unfold d', d2. destruct up; repeat first [done | apply cond_set_other | apply cond_upd].
      + cbv zeta. rewrite <- Hup. unfold d', d2.
        split; destruct up; repeat first [done | apply cond_set_same | apply cond_set_other | apply cond_upd]. }
  rewrite <- app_assoc in Hh. cbn [app] in Hh.
  assert (En : DNSDistNameSet d1 = DNSDistNameSet d) by (unfold DNSDistNameSet; by rewrite Em).
  rewrite Em, En.
  destruct x; apply wp_ret; exact Hh.
Qed.

Lemma no_writes_no_status t : kube_writes t = [] -> dnsdist_statuses t = [].
Proof.
  induction t as [|[X o x] t IH]; [done|]. intros Ht. destruct o; try done; by apply IH.
Qed.

Lemma dnsdist_Reconcile_statuses key : wp (Reconcile key) (fun t _ => statuses_honest key t).
Proof.
  unfold Reconcile, Get. cbn [bind do_op]. apply wp_vis. intros [d|e]; [|apply wp_ret; by apply statuses_none].
  destruct (deletion_IsZero (dd_Meta d)) eqn:Ez; cbn [negb]; [|apply wp_ret; by apply statuses_none].
  cbv zeta. destruct (bool_decide (validateDNSDist d = "")) eqn:Evalid; cbn [negb]; bool_prop.
  2: { unfold markDNSDistFailed, StatusUpdate, event.
       wp_run; (eapply (statuses_one key _ d); [done|left|done|done|apply honest_failed; [|done|done|]]).
       all: first [by rewrite <- validateDNSDist_iff | apply cond_set_same]. }
  apply validateDNSDist_iff in Evalid. unfold try_res at 1. apply wp_bind.
  eapply wp_mono; [|apply backendsReady_loop_reads].
  intros t1 r Hw. cbn beta in Hw |- *. assert (Hq : dnsdist_statuses t1 = []) by by apply no_writes_no_status.
  destruct r as [[addrs|reason msg]|e].
  - unfold try_err. apply wp_bind.
    eapply wp_mono; [|apply wp_conj; [apply no_status_wp, converge_children_quiet|apply converge_children_written]].
    intros t2 r [Ht2 Hr]. cbn beta in Ht2, Hr |- *. destruct r as [e|];
      [apply wp_ret, statuses_none; by rewrite statuses_get, !dnsdist_statuses_app, Hq, Ht2|].
    eapply wp_mono; [|apply (refresh_honest key (Ev (OGet KDNSDist key) (Ok d) :: t1 ++ t2) d _ addrs)].
    + intros t a Hst. by rewrite app_assoc.
    + left.
    + by rewrite statuses_get, dnsdist_statuses_app, Hq, Ht2.
    + done.
    + eapply children_written_mono; [|by apply Hr]. intros e He. right. apply elem_of_app. by right.
    + apply cond_set_same.
    + done.
    + done.
  - unfold markDNSDistNotReady, StatusUpdate. wp_run;
      (eapply (statuses_one key _ d);
        [rewrite statuses_get, dnsdist_statuses_app, Hq; done|left|done|done|apply honest_pending]).
    all: try done.
    all: try (rewrite kube_writes_cons, kube_writes_app, Hw by done; done).
    all: repeat first [apply cond_set_same | apply cond_set_other; [done|] | apply cond_upd; [done|]].
  - apply wp_ret, statuses_none. by rewrite app_nil_r.
Qed.
End status.

(** C35. Every status that a pass over a DNSDist writes is honest about that
    pass: Failed exactly with the message of the rejected specification;
    Pending with nothing written but the status; Ready only after the
    configuration and the Deployment were accepted, with the replica counts
    of the Deployment then read, and with the Ready and Available conditions
    True exactly when all of at least one desired replicas are available. *)
Theorem dnsdist_status_honest `{MachineryLaws, Reconciler} (key : NamespacedName) :
  wp (Reconcile key) (fun t _ => statuses_honest key t).
Proof. apply dnsdist_Reconcile_statuses. Qed.

Lemma dnsdist_status_honest_witness :
  wp (@Reconcile RefMachinery {| HasRecorder := true |} (NN "dns" "edge"))
    (fun t _ => statuses_honest (NN "dns" "edge") t).
Proof. apply dnsdist_status_honest. Defined.

(** ** The additional Services *)

(** What the shared map holds once the role label is written to it. *)
Definition additional_labels (d : DNSDist) : strmap := <[roleLabel := additionalRole]> (dnsdistLabels d).

(** The Services that an operation creates or updates. *)
Definition service_written {X} (o : op X) : option Service :=
  match o with
  | OCreate k x | OUpdate k x => match k return obj_of k -> option Service with KService => Some | _ => fun _ => None end x
  | _ => None
  end.
Definition selector_written (sel : strmap) (X : Type) (o : op X) : Prop :=
  match service_written o with Some svc => ss_Selector (svc_Spec svc) = sel | None => True end.

(** A store in which every Service refers, for labels and selector, to the
    labels of the tier, with or without the role. *)
Definition shares (d : DNSDist) (h : store) (r : ServiceRef) : Prop :=
  sr_Labels r = sr_Selector r /\ (sr_Labels r < length h)%nat
  /\ <[roleLabel := additionalRole]> (read h (sr_Labels r)) = additional_labels d.

Lemma read_write l k v h : (l < length h)%nat -> read (write l k v h) l = <[k := v]> (read h l).
Proof. intros Hl. unfold read, write. by rewrite list_lookup_insert_eq. Qed.

Lemma write_shares d h r r' : shares d h r -> shares d h r' -> shares d (write (sr_Labels r) roleLabel additionalRole h) r'.
Proof.
  intros (E1 & L1 & R1) (E2 & L2 & R2). split; [done|]. unfold write. rewrite length_insert. split; [done|].
  fold (write (sr_Labels r) roleLabel additionalRole h).
  destruct (decide (sr_Labels r = sr_Labels r')) as [<-|Hne].
  - rewrite read_write, insert_insert_eq by done. done.
  - unfold read, write. by rewrite list_lookup_insert_ne.
Qed.

Lemma additional_shares d :
  let '(h, refs) := DNSDistAdditionalDNSServices d [] in Forall (shares d h) refs.
Proof.
  unfold DNSDistAdditionalDNSServices, new_map.
  destruct (dns_LoadBalancer _) as [[ip an pol [|e extras]]|]; [constructor| |constructor].
  destruct (negb _); [constructor|]. cbn [app length]. apply Forall_forall.
  intros r (x & -> & _)%list_elem_of_fmap. split; [done|]. split; [cbn; lia|]. reflexivity.
Qed.

Section additional.
Context `{MachineryLaws, Reconciler}.

Lemma own_by_selector d (svc o : Service) :
  own_by d KService svc = Ok o -> ss_Selector (svc_Spec o) = ss_Selector (svc_Spec svc).
Proof. unfold own_by. destruct (SetControllerReference _ _ _); [|done]. by intros [= <-]. Qed.

Lemma updateService_selector sel svc :
  ss_Selector (svc_Spec svc) = sel -> all_ops (selector_written sel) (updateService svc).
Proof.
  intros Hs. apply all_ops_retry. unfold updateService_attempt, Get, Create, Update, only_err. all_ops_run; done.
Qed.

Lemma converge_additional_selector d h refs :
  Forall (shares d h) refs ->
  all_ops (selector_written (additional_labels d)) (converge_additional d h refs).
Proof.
  revert h. induction refs as [|r refs IH]; intros h HF; cbn [converge_additional]; [done|].
  pose proof HF as [Hr Hrs]%Forall_cons. cbv zeta.
  destruct (own_by _ _ _) as [svc|e] eqn:Eo; [|done]. apply all_ops_try_err.
  - apply updateService_selector. apply own_by_selector in Eo. rewrite Eo. cbn.
    destruct Hr as (E & L & R). by rewrite <- E, read_write, R by done.
  - apply IH. eapply Forall_impl; [exact Hrs|]. intros r'. by apply write_shares.
Qed.

Lemma additional_selector_written d :
  all_ops (selector_written (additional_labels d)) (reconcileDNSDistAdditionalServices d).
Proof.
  unfold reconcileDNSDistAdditionalServices. pose proof (additional_shares d) as HF.
  destruct (DNSDistAdditionalDNSServices d []) as [h refs]. unfold Delete.
  all_ops_run; try done. by apply converge_additional_selector.
Qed.
End additional.

(** C38. The additional Services of a tier serve nothing: the label map is
    shared between their labels and their selectors, the role label written
    for the garbage collection lands in the selectors, and no pod of any tier
    or server carries it. *)
Theorem additional_services_select_nothing `{MachineryLaws} (d d' : DNSDist) (s : PowerDNSServer) (hash : string) :
  all_ops (fun _ o => match service_written o with
                      | Some svc => ~ selects (ss_Selector (svc_Spec svc)) (tier_pod_labels d' hash)
                                    /\ ~ selects (ss_Selector (svc_Spec svc)) (pod_labels s hash)
                      | None => True
                      end) (reconcileDNSDistAdditionalServices d).
Proof.
  eapply all_ops_mono; [|apply additional_selector_written]. intros X o. unfold selector_written.
  destruct (service_written o) as [svc|]; [|done]. intros ->. unfold selects.
  split; intros Hsub; pose proof (lookup_weaken (additional_labels d) _ roleLabel additionalRole eq_refl Hsub) as E;
    by vm_compute in E.
Qed.

Lemma additional_services_select_nothing_witness :
  all_ops (fun _ o => match service_written o with
                      | Some svc => ~ selects (ss_Selector (svc_Spec svc)) (tier_pod_labels sample_dnsdist "h")
                                    /\ ~ selects (ss_Selector (svc_Spec svc)) (pod_labels sample_server "h")
                      | None => True
                      end) (@reconcileDNSDistAdditionalServices RefMachinery sample_dnsdist).
Proof. apply (additional_services_select_nothing sample_dnsdist sample_dnsdist sample_server "h"). Defined.

(** Inclusion of literal maps, key by key. *)
Ltac labels_sub :=
  apply map_subseteq_spec; intros k v Hk; rewrite ?lookup_insert_Some, ?lookup_singleton_Some in Hk;
  repeat (destruct Hk as [[<- <-]|[_ Hk]]; [reflexivity|]); destruct Hk as [<- <-]; reflexivity.

Lemma server_additional_labels s svc : svc ∈ AdditionalDNSServices s -> om_Labels (svc_Meta svc) = labels s.
Proof.
  unfold AdditionalDNSServices. destruct (dns_LoadBalancer _) as [lb|]; [|by intros ?%elem_of_nil].
  destruct (negb _); [by intros ?%elem_of_nil|]. intros (e & -> & _)%list_elem_of_fmap.
  unfold apply_lb. simpl. by destruct (bool_decide _).
Qed.

(** The garbage collections of additional Services: a tier's finds
    exactly the Services of the tier of that name and never those of a
    server; a server's finds those of a tier of the same name as well, so a
    server deletes them whenever it shares its name and namespace with a
    tier. *)
Theorem additional_collection_scopes (d d' : DNSDist) (s : PowerDNSServer) :
  (selects (dnsdist_additional_selector d) (additional_labels d') <-> om_Name (dd_Meta d) = om_Name (dd_Meta d'))
  /\ Forall (fun svc => ~ selects (dnsdist_additional_selector d) (om_Labels (svc_Meta (tag_additional svc))))
       (AdditionalDNSServices s)
  /\ (selects (additional_selector s) (additional_labels d) <-> om_Name (srv_Meta s) = om_Name (dd_Meta d)).
Proof.
  split; [|split].
  - split.
    + intros Hsub. pose proof (lookup_weaken (dnsdist_additional_selector d) _ labelInstance _ eq_refl Hsub) as E.
      vm_compute in E. by inversion E.
    + intros E. unfold dnsdist_additional_selector, additional_labels, dnsdistLabels. rewrite E. labels_sub.
  - apply Forall_forall. intros svc Hsvc Hsub.
    pose proof (lookup_weaken (dnsdist_additional_selector d) _ labelApp _ eq_refl Hsub) as E.
    cbn [tag_additional set_svc_Meta svc_Meta set_om_Labels om_Labels] in E.
    rewrite (server_additional_labels s) in E by done. by vm_compute in E.
  - split.
    + intros Hsub. pose proof (lookup_weaken (additional_selector s) _ labelInstance _ eq_refl Hsub) as E.
      vm_compute in E. by inversion E.
    + intros E. unfold additional_selector, additional_labels, dnsdistLabels. rewrite E. labels_sub.
Qed.

(** C39. The fan-out of server events: for a valid tier in a namespace without
    a slash, the index lists the tier under exactly the servers it resolves
    as its backends, so that an event of a server reaches the tiers in front
    of it and no others. *)
Theorem dnsdist_fanout_exact (d : DNSDist) (s : PowerDNSServer)
  (Hvalid : validateDNSDist d = "")
  (Hd : "/"%char ∉ chars (om_Namespace (dd_Meta d))) (Hs : "/"%char ∉ chars (om_Namespace (srv_Meta s))) :
  om_Namespace (srv_Meta s) +:+ "/" +:+ om_Name (srv_Meta s) ∈ dnsdist_index d
  <-> exists ref, ref ∈ ds_BackendRefs (dd_Spec d)
        /\ NN (om_Namespace (dd_Meta d)) (ref_Name ref) = obj_key KServer s.
Proof.
  apply validateDNSDist_iff in Hvalid as [_ Hlocal _ _ _ _]. unfold dnsdist_index, refKey.
  rewrite list_elem_of_fmap. split; intros (ref & H1 & H2).
  - exists ref. split; [done|]. apply (proj1 (Forall_forall _ _) Hlocal) in H2. rewrite H2 in H1.
    rewrite bool_decide_eq_true_2 in H1 by done. apply of_nn_String in H1 as [<- <-]; done.
  - exists ref. apply (proj1 (Forall_forall _ _) Hlocal) in H1 as Hn. rewrite Hn.
    rewrite bool_decide_eq_true_2 by done. split; [|done]. unfold obj_key, meta_key in H2. cbn in H2.
    by injection H2 as -> ->.
Qed.

Lemma dnsdist_fanout_exact_witness : "dns/ns1" ∈ dnsdist_index sample_dnsdist.
Proof.
  apply (dnsdist_fanout_exact sample_dnsdist sample_server); [reflexivity|..].
  - by apply (bool_decide_unpack _).
  - by apply (bool_decide_unpack _).
  - eexists. split; [left|reflexivity].
Defined.
