(* ===== verification/WellFormed.v ===== *)
(** * The rendered objects pass the API server's validation

    The rules that Kubernetes documents for Deployments, Jobs, their pod
    templates and Services, as records over the modelled objects, and that
    what manifests renders for any server and any valid tier obeys them. The
    rules are about one object (names of ports and volumes, ranges, mounts of
    declared volumes, variables of a container) and about an object and the
    pods it selects (selectors, target ports). Not among them: the lengths of
    names and label values, which depend on the name of the resource. *)

From Stdlib Require Import Ascii.
From S2P Require Import Prelude GoStd Meta ApiTypes KubeObjects Samples Manifests Workloads DnsdistManifests DnsdistController.

Open Scope stdpp_scope.
Open Scope Z_scope.

(** ** Rules *)

Definition in_chars (lo hi c : ascii) : bool := (N_of_ascii lo <=? N_of_ascii c)%N && (N_of_ascii c <=? N_of_ascii hi)%N.
Definition is_lower (c : ascii) : bool := in_chars "a" "z" c.
Definition is_alnum (c : ascii) : bool := is_lower c || in_chars "0" "9" c.

(** A DNS-1123 label, and the name of a port (IANA_SVC_NAME). *)
Definition dns_label (s : string) : bool :=
  match chars s with
  | [] => false
  | c :: _ =>
      is_alnum c && is_alnum (List.last (chars s) "-"%char)
      && forallb (fun c => is_alnum c || bool_decide (c = "-"%char)) (chars s) && (String.length s <=? 63)%nat
  end.
Definition port_name (s : string) : bool :=
  dns_label s && existsb is_lower (chars s) && (String.length s <=? 15)%nat.

Definition port_number (p : Z) : Prop := 1 <= p <= 65535.
Definition protocol (p : string) : Prop := p = ProtocolTCP \/ p = ProtocolUDP.

(** A probe runs a command, or connects to a TCP port of its container. *)
Record probe_wf (ports : list ContainerPort) (p : Probe) : Prop := {
  pw_handler : match pr_Handler p with
               | PExec cmd => cmd <> []
               | PTCPSocket n => exists q, q ∈ ports /\ cp_ContainerPort q = n /\ cp_Protocol q = ProtocolTCP
               end;
  pw_times : 0 <= pr_InitialDelaySeconds p /\ 0 <= pr_PeriodSeconds p /\ 0 <= pr_TimeoutSeconds p
             /\ 0 <= pr_FailureThreshold p;
}.

Record container_wf (volumes : list string) (c : Container) : Prop := {
  cw_name : dns_label (ct_Name c) = true;
  cw_image : ct_Image c <> "";
  cw_port_names : NoDup (map cp_Name (ct_Ports c));
  cw_ports : Forall (fun p => port_name (cp_Name p) = true /\ port_number (cp_ContainerPort p)
                              /\ protocol (cp_Protocol p)) (ct_Ports c);
  cw_env_names : NoDup (map env_Name (ct_Env c));
  cw_env : Forall (fun e => env_Name e <> "" /\ (env_Value e <> "" <-> env_SecretKeyRef e = None)) (ct_Env c);
  cw_refs : args_resolved c = true /\ env_resolved [] (ct_Env c) = true;
  cw_mounts : Forall (fun m => vm_Name m ∈ volumes /\ vm_MountPath m <> "") (ct_VolumeMounts c);
  cw_mount_paths : NoDup (map vm_MountPath (ct_VolumeMounts c));
  cw_readiness : forall p, ct_ReadinessProbe c = Some p -> probe_wf (ct_Ports c) p;
  cw_liveness : forall p, ct_LivenessProbe c = Some p -> probe_wf (ct_Ports c) p;
}.

Definition source_wf (v : VolumeSource) : Prop := match v with VConfigMap n | VSecret n => n <> "" | VEmptyDir => True end.

(** The volume v is mounted by one of the containers. *)
Definition mounted (cs : list Container) (v : Volume) : Prop :=
  exists c m, c ∈ cs /\ m ∈ ct_VolumeMounts c /\ vm_Name m = vol_Name v.

(** A pod template under one of these restart policies. Every volume that it
    declares is mounted, and every mount is of a volume that it declares. Its own scheduling
    terms are about pods like itself. *)
Record pod_wf (policies : list string) (t : PodTemplateSpec) : Prop := {
  pd_policy : pod_RestartPolicy (pt_Spec t) ∈ policies;
  pd_some : pod_Containers (pt_Spec t) <> [];
  pd_names : NoDup (map ct_Name (pod_InitContainers (pt_Spec t) ++ pod_Containers (pt_Spec t)));
  pd_volumes : NoDup (map vol_Name (pod_Volumes (pt_Spec t)))
    /\ Forall (fun v => dns_label (vol_Name v) = true /\ source_wf (vol_Source v)) (pod_Volumes (pt_Spec t));
  pd_containers : Forall (container_wf (map vol_Name (pod_Volumes (pt_Spec t))))
    (pod_InitContainers (pt_Spec t) ++ pod_Containers (pt_Spec t));
  pd_mounted : Forall (mounted (pod_InitContainers (pt_Spec t) ++ pod_Containers (pt_Spec t))) (pod_Volumes (pt_Spec t));
  pd_affinity : forall l, pod_AntiAffinity (pt_Spec t) = Some l ->
    Forall (fun a => 1 <= wt_Weight a <= 100 /\ wt_TopologyKey a <> "" /\ selects (wt_MatchLabels a) (pt_Labels t)) l;
  pd_spread : NoDup (map tsc_TopologyKey (pod_TopologySpreadConstraints (pt_Spec t)))
    /\ Forall (fun c => 0 < tsc_MaxSkew c /\ tsc_TopologyKey c <> "" /\ selects (tsc_MatchLabels c) (pt_Labels t))
         (pod_TopologySpreadConstraints (pt_Spec t));
}.

Record deployment_wf (d : Deployment) : Prop := {
  dw_replicas : exists n, dep_Replicas d = Some n /\ 1 <= n < 2 ^ 31;
  dw_selector : dep_Selector d <> ∅ /\ selects (dep_Selector d) (pt_Labels (dep_Template d));
  dw_pod : pod_wf [""; "Always"] (dep_Template d);
}.
Record job_wf (j : Job) : Prop := {
  jw_backoff : forall n, job_BackoffLimit j = Some n -> 0 <= n;
  jw_ttl : forall n, job_TTLSecondsAfterFinished j = Some n -> 0 <= n;
  jw_pod : pod_wf ["OnFailure"; "Never"] (job_Template j);
}.

(** The ports of the containers of a pod. *)
Definition pod_ports (t : PodTemplateSpec) : list (Z * string) :=
  flat_map (fun c => map (fun p => (cp_ContainerPort p, cp_Protocol p)) (ct_Ports c)) (pod_Containers (pt_Spec t)).

(** A Service in front of pods of the template t: it selects them, and each
    of its ports leads to a port of theirs. *)
Record service_wf (t : PodTemplateSpec) (svc : Service) : Prop := {
  sw_some : ss_Ports (svc_Spec svc) <> [];
  sw_names : NoDup (map sp_Name (ss_Ports (svc_Spec svc)));
  sw_numbers : NoDup (map (fun p => (sp_Port p, sp_Protocol p)) (ss_Ports (svc_Spec svc)));
  sw_ports : Forall (fun p => dns_label (sp_Name p) = true /\ port_number (sp_Port p)
                              /\ (sp_TargetPort p, sp_Protocol p) ∈ pod_ports t) (ss_Ports (svc_Spec svc));
  sw_selector : ss_Selector (svc_Spec svc) <> ∅ /\ selects (ss_Selector (svc_Spec svc)) (pt_Labels t);
  sw_type : ss_Type (svc_Spec svc) = ServiceTypeClusterIP \/ ss_Type (svc_Spec svc) = ServiceTypeLoadBalancer;
  sw_lb : ss_Type (svc_Spec svc) <> ServiceTypeLoadBalancer ->
    ss_ExternalTrafficPolicy (svc_Spec svc) = "" /\ ss_LoadBalancerIP (svc_Spec svc) = "";
}.

(** ** What all workloads share *)

Lemma map_label_ne (m : strmap) k v : (<[k := v]> m : strmap) <> ∅.
Proof. apply insert_non_empty. Qed.

Lemma defaulted_ne (s d : string) : d <> "" -> (if s == "" then d else s) <> "".
Proof. intros Hd. by case_bool_decide. Qed.

Lemma suffixed_ne (s t : string) : t <> "" -> s +:+ t <> "".
Proof. intros Ht E. apply Ht. by destruct s. Qed.

(** Scheduling terms on the pod's own labels. *)
Lemma anti_affinity_wf (b : bool) lb l :
  (if b then Some (anti_affinity lb) else None) = Some l ->
  Forall (fun a => 1 <= wt_Weight a <= 100 /\ wt_TopologyKey a <> "" /\ selects (wt_MatchLabels a) lb) l.
Proof. destruct b; [|done]. intros [= <-]. constructor; [|done]. split; [done|]. by split. Qed.

Lemma spread_wf (b zones : bool) lb
  (l := if b then spread_on LabelHostname lb :: (if zones then [spread_on LabelTopologyZone lb] else []) else []) :
  NoDup (map tsc_TopologyKey l)
  /\ Forall (fun c => 0 < tsc_MaxSkew c /\ tsc_TopologyKey c <> "" /\ selects (tsc_MatchLabels c) lb) l.
Proof.
  subst l. destruct b; [|split; constructor]. destruct zones; (split; [apply (bool_decide_unpack _); by vm_compute|]).
  all: repeat constructor; done.
Qed.

(** The fields of a rendered container. *)
Ltac container_fields :=
  cbn [ct_Name ct_Image ct_Ports ct_Env ct_Args ct_VolumeMounts ct_ReadinessProbe ct_LivenessProbe shell_container].
(** Names that are constants are compared by evaluation. *)
Ltac names := apply (bool_decide_unpack _); by vm_compute.
(** The fields of a rule for a concrete list, one element at a time. *)
Ltac each := repeat (apply Forall_cons; split); try apply Forall_nil_2.

(** ** The server *)

Lemma api_port_number s :
  0 <= api_Port (ps_API (srv_Spec s)) <= 65535 -> port_number (api_Port (apiSpecOrDefault s)).
Proof. unfold port_number, apiSpecOrDefault. intros H. destruct (_ =? 0) eqn:E; bool_prop; simpl; unfold apiPort; lia. Qed.

Lemma server_container_wf s hash :
  0 <= api_Port (ps_API (srv_Spec s)) <= 65535 ->
  Forall (container_wf ["config"; "run"]) (pod_Containers (pt_Spec (dep_Template (Deployment_ s hash)))).
Proof.
  intros Hp%api_port_number. each. split; container_fields.
  - by vm_compute.
  - by apply defaulted_ne.
  - names.
  - each; split_and!; try (by vm_compute); try done; unfold protocol; auto.
  - names.
  - each; split; done.
  - split; by vm_compute.
  - each; (split; [set_solver|done]).
  - names.
  - intros p [= <-]. split; [done|]. simpl. lia.
  - intros p [= <-]. split; [|simpl; lia]. eexists. split; [do 2 right; left|done].
Qed.

Lemma schema_containers_wf s :
  Forall (container_wf ["schema"])
    (pod_InitContainers (pt_Spec (job_Template (SchemaInitJob s))) ++ pod_Containers (pt_Spec (job_Template (SchemaInitJob s)))).
Proof.
  each; split; container_fields; try names; try (by vm_compute); try done.
  - by apply defaulted_ne.
Qed.

Lemma Deployment_wf s hash :
  1 <= replicas_of (ps_Replicas (srv_Spec s)) < 2 ^ 31 -> 0 <= api_Port (ps_API (srv_Spec s)) <= 65535 ->
  deployment_wf (Deployment_ s hash).
Proof.
  intros Hr Hp. split; [by eexists| |split].
  - split; [apply map_label_ne|done].
  - simpl. left.
  - done.
  - names.
  - split; [names|]. cbn. each; (split; [by vm_compute|]); [by apply suffixed_ne|done].
  - by apply server_container_wf.
  - each; eexists _, _; (split; [left|]); [split; [left|done]|split; [right; left|done]].
  - apply anti_affinity_wf.
  - apply spread_wf.
Qed.

Lemma SchemaInitJob_wf s : job_wf (SchemaInitJob s).
Proof.
  split; [by intros n [= <-]|by intros n [= <-]|]. split.
  - left.
  - done.
  - names.
  - split; [names|]. cbn. each. by split; [vm_compute|].
  - apply schema_containers_wf.
  - each. eexists _, _. split; [left|]. by split; [left|].
  - done.
  - split; constructor.
Qed.

(** The ports, selector and type of a Service that is exposed or not. *)
Definition exposed_on (lb : strmap) (ports : list ServicePort) (p : ServiceSpec) : Prop :=
  ss_Ports p = ports /\ ss_Selector p = lb
  /\ (ss_Type p = ServiceTypeLoadBalancer
      \/ (ss_Type p = ServiceTypeClusterIP /\ ss_ExternalTrafficPolicy p = "" /\ ss_LoadBalancerIP p = "")).

Lemma exposed_service_wf t ports svc :
  exposed_on (pt_Labels t) ports (svc_Spec svc) -> pt_Labels t <> ∅ -> ports <> [] ->
  NoDup (map sp_Name ports) -> NoDup (map (fun p => (sp_Port p, sp_Protocol p)) ports) ->
  Forall (fun p => dns_label (sp_Name p) = true /\ port_number (sp_Port p) /\ (sp_TargetPort p, sp_Protocol p) ∈ pod_ports t) ports ->
  service_wf t svc.
Proof.
  intros (Hp & Hl & Ht) Hne Hsome Hn Hm HF. split; rewrite ?Hp, ?Hl; try done.
  - by destruct Ht as [?|[? _]]; auto.
  - intros Hlb. by destruct Ht as [?|[_ ?]].
Qed.

Lemma dns_ports_server s svc :
  svc = DNSService s \/ svc ∈ AdditionalDNSServices s ->
  exposed_on (labels s) [dns_port "dns-tcp" dnsTCPPort ProtocolTCP; dns_port "dns-udp" dnsUDPPort ProtocolUDP] (svc_Spec svc).
Proof.
  intros [->|H].
  - unfold DNSService, applyLBPrimary. destruct (bool_decide _); [destruct (dns_LoadBalancer _)|]; split_and!; auto.
  - unfold AdditionalDNSServices in H. destruct (dns_LoadBalancer _) as [lb|]; [|by apply elem_of_nil in H].
    destruct (negb _); [by apply elem_of_nil in H|]. apply list_elem_of_fmap in H as (e & -> & _). split_and!; auto.
Qed.

(** The Services in front of the pods of a server. *)
Definition server_services (s : PowerDNSServer) : list Service := APIService s :: DNSService s :: AdditionalDNSServices s.

Lemma server_service_wf s hash svc :
  0 <= api_Port (ps_API (srv_Spec s)) <= 65535 -> svc ∈ server_services s ->
  service_wf (dep_Template (Deployment_ s hash)) svc.
Proof.
  intros Hp%api_port_number [->|[->|H]%elem_of_cons]%elem_of_cons.
  - eapply exposed_service_wf; [by split_and!; auto|apply map_label_ne|done| | |].
    + names.
    + apply NoDup_singleton.
    + each. split; [by vm_compute|]. split; [done|]. do 2 right. left.
  - eapply exposed_service_wf; [by apply dns_ports_server; auto|apply map_label_ne|done| | |]; [names|names|].
    each; (split; [by vm_compute|]); (split; [done|]); simpl; set_solver.
  - eapply exposed_service_wf; [by apply dns_ports_server; auto|apply map_label_ne|done| | |]; [names|names|].
    each; (split; [by vm_compute|]); (split; [done|]); simpl; set_solver.
Qed.

(** C22. What is rendered for a server is well-formed in the sense of the
    API server's validation: for every server with as many replicas as an
    int32 counts and an API port that is one (or 0, which means 8081), the
    Deployment and the schema Job have valid pods (distinct names, valid
    ports, mounts of declared volumes, resolvable variables, probes of the
    container's own ports, scheduling terms on its own labels), and every
    Service selects the Deployment's pods and leads each of its ports to a
    port of theirs. *)
Theorem server_workloads_wf (s : PowerDNSServer) (hash : string)
  (Hreplicas : 1 <= replicas_of (ps_Replicas (srv_Spec s)) < 2 ^ 31)
  (Hport : 0 <= api_Port (ps_API (srv_Spec s)) <= 65535) :
  deployment_wf (Deployment_ s hash) /\ job_wf (SchemaInitJob s)
  /\ Forall (service_wf (dep_Template (Deployment_ s hash))) (server_services s).
Proof.
  split; [by apply Deployment_wf|]. split; [apply SchemaInitJob_wf|].
  apply Forall_forall. intros svc. by apply server_service_wf.
Qed.

Lemma server_workloads_wf_witness :
  deployment_wf (Deployment_ sample_server "h") /\ job_wf (SchemaInitJob sample_server)
  /\ Forall (service_wf (dep_Template (Deployment_ sample_server "h"))) (server_services sample_server).
Proof. apply (server_workloads_wf sample_server "h"); simpl; lia. Defined.

(** ** The tier *)

Lemma tls_parts_map {A B} (f : A -> B) t a b : map f (tls_parts t a b) = tls_parts t (f a) (f b).
Proof. unfold tls_parts. by destruct (tls_Enabled (tls_DoT t)), (tls_Enabled (tls_DoH t)). Qed.

Lemma tls_parts_Forall {A} (P : A -> Prop) t a b :
  (tls_Enabled (tls_DoT t) = true -> P a) -> (tls_Enabled (tls_DoH t) = true -> P b) -> Forall P (tls_parts t a b).
Proof.
  unfold tls_parts. intros Ha Hb. apply Forall_app.
  split; [destruct (tls_Enabled (tls_DoT t))|destruct (tls_Enabled (tls_DoH t))]; repeat constructor; auto.
Qed.

(** A part that is enabled is among the enabled parts. *)
Lemma tls_parts_dot {A} t (a b : A) : tls_Enabled (tls_DoT t) = true -> a ∈ tls_parts t a b.
Proof. unfold tls_parts. intros ->. by left. Qed.
Lemma tls_parts_doh {A} t (a b : A) : tls_Enabled (tls_DoH t) = true -> b ∈ tls_parts t a b.
Proof. unfold tls_parts. intros ->. apply elem_of_app. right. by left. Qed.

Lemma tls_parts_NoDup {A} (l : list A) t a b : NoDup (l ++ [a; b]) -> NoDup (l ++ tls_parts t a b).
Proof.
  unfold tls_parts. rewrite !NoDup_app. intros (Hl & Hd & Hab). split; [done|]. split.
  - intros x Hx Hin. apply (Hd x Hx). destruct (tls_Enabled (tls_DoT t)), (tls_Enabled (tls_DoH t)); set_solver.
  - apply NoDup_cons in Hab as [Hn Hb].
    destruct (tls_Enabled (tls_DoT t)), (tls_Enabled (tls_DoH t)); simpl;
      split_and!; try apply NoDup_singleton; try apply NoDup_nil_2; set_solver.
Qed.

(** The secret is mounted, read-only, at the path in some container. *)
Definition secret_at (p : PodSpec) (path secret : string) : Prop :=
  exists c m v, c ∈ pod_Containers p /\ m ∈ ct_VolumeMounts c /\ v ∈ pod_Volumes p
    /\ vm_MountPath m = path /\ vm_ReadOnly m = true /\ vm_Name m = vol_Name v /\ vol_Source v = VSecret secret.

(** The only container of the pods of a tier. *)
Definition tier_container (d : DNSDist) : Container :=
  match pod_Containers (pt_Spec (dep_Template (DNSDistDeployment d ""))) with
  | c :: _ => c
  | [] => shell_container "" "" "" [] []
  end.

Section tier.
Context (d : DNSDist) (hash : string) (Hv : valid_dnsdist d).
Abbreviation tls := (ds_TLS (dd_Spec d)).
Abbreviation template := (dep_Template (DNSDistDeployment d hash)).

Lemma tier_volumes :
  map vol_Name (pod_Volumes (pt_Spec template)) = "config" :: tls_parts tls "dot-cert" "doh-cert".
Proof. simpl. by rewrite tls_parts_map. Qed.

Lemma tier_container_wf :
  Forall (container_wf ("config" :: tls_parts tls "dot-cert" "doh-cert")) (pod_Containers (pt_Spec template)).
Proof.
  each. split; container_fields.
  - by vm_compute.
  - by apply defaulted_ne.
  - rewrite map_app, tls_parts_map. apply tls_parts_NoDup. names.
  - apply Forall_app. split; [each|apply tls_parts_Forall; intros _]; split_and!; try (by vm_compute); try done;
      unfold protocol; auto.
  - constructor.
  - constructor.
  - by split; vm_compute.
  - constructor; [split; [by left|done]|].
    apply tls_parts_Forall; intros Ht; (split; [right; by (apply tls_parts_dot || apply tls_parts_doh)|done]).
  - cbn [map]. rewrite tls_parts_map. apply (tls_parts_NoDup ["/etc/dnsdist"]). names.
  - intros p [= <-]. split; [|simpl; lia]. eexists. split; [by left|done].
  - intros p [= <-]. split; [|simpl; lia]. eexists. split; [by left|done].
Qed.

Lemma tier_mounted : Forall (mounted (pod_Containers (pt_Spec template))) (pod_Volumes (pt_Spec template)).
Proof.
  assert (Hm : forall m v, m ∈ ct_VolumeMounts (tier_container d) -> vm_Name m = vol_Name v ->
    mounted (pod_Containers (pt_Spec template)) v).
  { intros m v Hm E. exists (tier_container d), m. split; [left|done]. }
  cbn [pod_Volumes pt_Spec dep_Template DNSDistDeployment]. constructor; [by eapply Hm; [left|]|].
  apply tls_parts_Forall; intros Ht; (eapply Hm; [right; first [by apply tls_parts_dot|by apply tls_parts_doh]|done]).
Qed.

(** The certificates that the configuration reads. *)
Lemma tier_dot_secret :
  tls_Enabled (tls_DoT tls) = true -> secret_at (pt_Spec template) "/tls/dot" (tls_CertificateSecretRef (tls_DoT tls)).
Proof.
  intros Ht. eexists (tier_container d), _, _. split; [left|].
  split; [right; by apply tls_parts_dot|]. split; [right; by apply tls_parts_dot|done].
Qed.
Lemma tier_doh_secret :
  tls_Enabled (tls_DoH tls) = true -> secret_at (pt_Spec template) "/tls/doh" (tls_CertificateSecretRef (tls_DoH tls)).
Proof.
  intros Ht. eexists (tier_container d), _, _. split; [left|].
  split; [right; by apply tls_parts_doh|]. split; [right; by apply tls_parts_doh|done].
Qed.

Lemma DNSDistDeployment_wf : 1 <= dnsdistReplicas d < 2 ^ 31 -> deployment_wf (DNSDistDeployment d hash).
Proof.
  intros Hr. split; [by eexists| |split].
  - split; [apply map_label_ne|done].
  - left.
  - done.
  - names.
  - rewrite tier_volumes. split; [apply (tls_parts_NoDup ["config"]); names|]. cbn.
    constructor; [split; [by vm_compute|by apply suffixed_ne]|].
    apply tls_parts_Forall; intros Ht; (split; [by vm_compute|]); [by apply vd_dot|by apply vd_doh].
  - rewrite tier_volumes. apply tier_container_wf.
  - apply tier_mounted.
  - apply anti_affinity_wf.
  - apply spread_wf.
Qed.

Lemma tier_service_wf : service_wf template (DNSDistDNSService d).
Proof.
  eapply (exposed_service_wf _ (dnsdist_ports tls)); [|apply map_label_ne|done| | |].
  - unfold DNSDistDNSService, applyLBPrimary. destruct (bool_decide _); [destruct (dns_LoadBalancer _)|]; split_and!; auto.
  - unfold dnsdist_ports. rewrite map_app, tls_parts_map. apply tls_parts_NoDup. names.
  - unfold dnsdist_ports. rewrite map_app, tls_parts_map. apply tls_parts_NoDup. names.
  - unfold dnsdist_ports, pod_ports. cbn [flat_map pod_Containers pt_Spec dep_Template DNSDistDeployment ct_Ports].
    rewrite app_nil_r, map_app, tls_parts_map. apply Forall_app.
    split; [each|apply tls_parts_Forall; intros Ht]; (split; [by vm_compute|]); (split; [done|]); apply elem_of_app.
    + left. by left.
    + left. right. by left.
    + right. by apply tls_parts_dot.
    + right. by apply tls_parts_doh.
Qed.
End tier.

(** C23. What is rendered for a tier that passes its validation is
    well-formed in the same sense, whichever of DoT and DoH are enabled: every
    mount is of a declared volume and every declared volume is mounted, a
    protocol that is enabled finds the Secret it names mounted read-only where
    the configuration reads the certificate, and every port of the Service
    leads to one of the pods'. *)
Theorem tier_workload_wf (d : DNSDist) (hash : string)
  (Hvalid : validateDNSDist d = "") (Hreplicas : 1 <= dnsdistReplicas d < 2 ^ 31) :
  let pod := pt_Spec (dep_Template (DNSDistDeployment d hash)) in
  let tls := ds_TLS (dd_Spec d) in
  deployment_wf (DNSDistDeployment d hash)
  /\ (tls_Enabled (tls_DoT tls) = true -> secret_at pod "/tls/dot" (tls_CertificateSecretRef (tls_DoT tls)))
  /\ (tls_Enabled (tls_DoH tls) = true -> secret_at pod "/tls/doh" (tls_CertificateSecretRef (tls_DoH tls)))
  /\ service_wf (dep_Template (DNSDistDeployment d hash)) (DNSDistDNSService d).
Proof.
  split_and!; [apply DNSDistDeployment_wf; [by apply validateDNSDist_iff|done]|apply tier_dot_secret
    |apply tier_doh_secret|apply tier_service_wf].
Qed.

(** A tier that serves DoT and DoH. *)
Definition tls_dnsdist_spec : DNSDistSpec := {|
  ds_Replicas := Some 2; ds_Image := ""; ds_Resources := sample_resources; ds_Scheduling := sample_scheduling;
  ds_BackendRefs := ds_BackendRefs sample_dnsdist_spec; ds_DNS := ds_DNS sample_dnsdist_spec;
  ds_Cache := ds_Cache sample_dnsdist_spec; ds_RateLimit := ds_RateLimit sample_dnsdist_spec;
  ds_TLS := {| tls_DoT := {| tls_Enabled := true; tls_CertificateSecretRef := "dot-tls" |};
               tls_DoH := {| tls_Enabled := true; tls_CertificateSecretRef := "doh-tls" |} |};
  ds_PodDisruptionBudget := None |}.
Definition tls_dnsdist : DNSDist := {|
  dd_Meta := dd_Meta sample_dnsdist; dd_Spec := tls_dnsdist_spec; dd_Status := dd_Status sample_dnsdist |}.

Lemma tier_workload_wf_witness :
  let pod := pt_Spec (dep_Template (DNSDistDeployment tls_dnsdist "h")) in
  deployment_wf (DNSDistDeployment tls_dnsdist "h")
  /\ secret_at pod "/tls/dot" "dot-tls" /\ secret_at pod "/tls/doh" "doh-tls"
  /\ service_wf (dep_Template (DNSDistDeployment tls_dnsdist "h")) (DNSDistDNSService tls_dnsdist).
Proof.
  destruct (tier_workload_wf tls_dnsdist "h") as (H1 & H2 & H3 & H4);
    [reflexivity|vm_compute; split; [discriminate|reflexivity]|].
  split_and!; [exact H1|apply H2; reflexivity|apply H3; reflexivity|exact H4].
Defined.
