(* ===== verification/Requeue.v ===== *)
(** * Requeue: no pass loses its resource

    What a pass returns to controller-runtime decides when the next one runs:
    an error (retried with back-off), a request for another pass, or a delay.
    A pass that returns none of them waits for an event of its resource. For
    each reconciler: the delays that can be returned, and the only cases in
    which a pass waits. *)

From S2P Require Import Prelude GoStd Meta ApiTypes KubeObjects Samples Effects RefMachinery PdnsClient Manifests Workloads Converge Environment ServerController Provisioning ZoneController RRSetController DnsdistController.

Open Scope go_scope.
Open Scope stdpp_scope.
Open Scope Z_scope.

(** Another pass follows without an event. *)
Definition comes_back (o : Outcome) : Prop :=
  is_Some o.2 \/ Requeue o.1 = true \/ 0 < RequeueAfter o.1.
(** The longest delay between passes over a resource, in nanoseconds: thirty
    seconds for servers and tiers, five minutes for Zones and RRSets. *)
Definition longest_delay (k : kind) : Z :=
  match k with KServer | KDNSDist => 30000000000 | _ => 300000000000 end.
(** No delay, or one of five seconds up to the longest. *)
Definition bounded_delay (k : kind) (o : Outcome) : Prop :=
  RequeueAfter o.1 = 0 \/ 5000000000 <= RequeueAfter o.1 <= longest_delay k.

Section parts.
Context `{MachineryLaws, Reconciler}.
(** The kind of the resource, and what justifies waiting, preserved by a
    longer trace. *)
Variable (kd : kind) (rest : list obs -> Prop).
Hypothesis rest_app : forall t1 t2, rest t2 -> rest (t1 ++ t2).

Definition scheduled (t : list obs) (o : Outcome) : Prop := bounded_delay kd o /\ (comes_back o \/ rest t).
Definition schedules (p : prog Outcome) : Prop := wp p scheduled.

Lemma schedules_bind {A} (p : prog A) f : (forall a, schedules (f a)) -> schedules (bind p f).
Proof.
  intros Hf. apply wp_bind, wp_always. intros t1 a. eapply wp_mono; [|apply Hf].
  intros t2 o [Hd [Hc|Hr]]; (split; [done|]); [by left|right; by apply rest_app].
Qed.

Lemma schedules_vis {X} (o : op X) k : (forall x, schedules (k x)) -> schedules (Vis o k).
Proof. intros Hk. by apply (schedules_bind (do_op o)). Qed.

Lemma schedules_failing e : schedules (Ret (failing e)).
Proof. split; [by left|]. left. by left. Qed.

Lemma schedules_error e : schedules (Ret (no_requeue, Some e)).
Proof. apply (schedules_failing e). Qed.

Lemma schedules_check p f : schedules f -> schedules (try_err p f).
Proof. intros Hf. apply schedules_bind. intros [e|]; [apply schedules_failing|done]. Qed.

Lemma schedules_try {A} (p : prog (res A)) f : (forall a, schedules (f a)) -> schedules (try_res p f).
Proof. intros Hf. apply schedules_bind. intros [a|e]; [apply Hf|apply schedules_failing]. Qed.

Lemma schedules_now : schedules (Ret (requeue_now, None)).
Proof. split; [by left|]. left. right. by left. Qed.

Lemma schedules_after d :
  5000000000 <= d <= longest_delay kd -> schedules (Ret (requeue_after d, None)).
Proof. intros Hd. split; [by right|]. left. right. right. simpl. lia. Qed.
End parts.

Create HintDb requeue.
#[export] Hint Resolve schedules_error schedules_now schedules_failing : requeue.

(** Follow a program that ends in errors, requeues and delays. *)
Ltac schedules_run :=
  repeat first
  [ progress intros
  | match goal with
    | |- schedules _ _ (try_err _ _) => apply schedules_check; [done|]
    | |- schedules _ _ (try_res _ _) => apply schedules_try; [done|]
    | |- schedules _ _ (bind _ _) => apply schedules_bind; [done|]
    | |- schedules _ _ (Vis _ _) => apply schedules_vis; [done|]
    | |- schedules _ _ (Ret (no_requeue, Some _)) => apply schedules_error
    | |- schedules _ _ (Ret (requeue_now, None)) => apply schedules_now
    | |- schedules _ _ (Ret (requeue_after _, None)) => apply schedules_after; by vm_compute
    | |- schedules _ _ (Ret (failing _)) => apply schedules_failing
    | |- schedules _ _ (match ?x with _ => _ end) => wp_case x
    end ].

(** ** The reconcilers *)

(** A status of phase Failed was written. *)
Definition failed_status (e : obs) : Prop :=
  match ev_op e with
  | OStatusUpdate k z =>
      match k return obj_of k -> Prop with
      | KServer => fun s => pst_Phase (srv_Status s) = PhaseFailed
      | KZone => fun z => zst_Phase (zn_Status z) = ZonePhaseFailed
      | KDNSDist => fun d => dst_Phase (dd_Status d) = ZonePhaseFailed
      | _ => fun _ => False
      end z
  | _ => False
  end.
Definition failed (t : list obs) : Prop := Exists failed_status t.

Lemma failed_app t1 t2 : failed t2 -> failed (t1 ++ t2).
Proof. intros Hf. apply Exists_app. by right. Qed.
#[export] Hint Resolve failed_app : requeue.

Section server.
Context `{MachineryLaws, Reconciler}.

Ltac run := pose proof failed_app; schedules_run.

Lemma setPhase_schedules s p : schedules KServer failed (setPhase s p).
Proof. unfold setPhase, wrap_err. run. Qed.

Lemma setFailed_schedules s msg : schedules KServer failed (ServerController.setFailed s msg).
Proof.
  unfold ServerController.setFailed, StatusUpdate, event. unfold schedules. wp_run.
  - split; [by left|]. right. by left.
  - split; [by left|]. right. by left.
  - split; [by left|]. left. by left.
Qed.

Lemma server_phases_schedule s :
  schedules KServer failed (phasePending s) /\ schedules KServer failed (phaseProvisioningBackend s)
  /\ schedules KServer failed (phaseInitializingSchema s) /\ schedules KServer failed (phaseDeployingServer s)
  /\ schedules KServer failed (phaseExposingDNS s) /\ schedules KServer failed (phaseReady s).
Proof.
  split_and!.
  - unfold phasePending. run; first [apply setFailed_schedules|apply setPhase_schedules].
  - unfold phaseProvisioningBackend. run; apply setPhase_schedules.
  - unfold phaseInitializingSchema. run; apply setPhase_schedules.
  - unfold phaseDeployingServer. run; apply setPhase_schedules.
  - unfold phaseExposingDNS. run; first [apply setPhase_schedules|apply setFailed_schedules].
  - unfold phaseReady. run.
Qed.
End server.

(** When a pass over a resource of some kind may wait for an event of it: it
    is gone, it is being deleted, it was just marked Failed, or it is a server
    that is Failed or in a phase the operator does not know. *)
Definition may_wait (k : kind) (key : NamespacedName) (t : list obs) : Prop :=
  (exists e, Ev (OGet k key) (Err e) ∈ t /\ IsNotFound e = true)
  \/ (exists o, Ev (OGet k key) (Ok o) ∈ t
       /\ (deletion_IsZero (get_meta k o) = false
           \/ match k return obj_of k -> Prop with
              | KServer => fun s => pst_Phase (srv_Status s) ∉ provisioning_phases
              | _ => fun _ => False
              end o))
  \/ failed t.
Definition pass_scheduled (k : kind) (key : NamespacedName) (t : list obs) (o : Outcome) : Prop :=
  bounded_delay k o /\ (comes_back o \/ may_wait k key t).

Section passes.
Context `{MachineryLaws, Reconciler}.

(** After the read of the resource, the rest of the pass on its own. *)
Lemma pass_scheduled_read k key x (p : prog Outcome) :
  wp p (fun t o => bounded_delay k o /\ (comes_back o \/ failed t \/ may_wait k key [Ev (OGet k key) x])) ->
  wp p (fun t o => pass_scheduled k key (Ev (OGet k key) x :: t) o).
Proof.
  apply wp_mono. intros t o [Hd Hr]. split; [done|]. destruct Hr as [Hc|[Hf|Hw]]; [by left|right..].
  - right. right. by right.
  - destruct Hw as [(e & He & Hn)|[(z & Hz & Hd')|Hf]].
    + left. exists e. split; [|done]. apply list_elem_of_singleton in He. rewrite He. left.
    + right. left. exists z. split; [|done]. apply list_elem_of_singleton in Hz. rewrite Hz. left.
    + by inversion Hf as [? ? Hs|? ? Hs]; [|inversion Hs].
Qed.

Lemma schedules_pass k key x p :
  schedules k failed p ->
  wp p (fun t o => bounded_delay k o /\ (comes_back o \/ failed t \/ may_wait k key [Ev (OGet k key) x])).
Proof. apply wp_mono. intros t o [Hd [Hc|Hf]]; auto. Qed.

(** The cases in which a pass ends without asking for another. *)
Lemma waits_gone k key e :
  wp (Ret (no_requeue, IgnoreNotFound (Some e))) (fun t o =>
    bounded_delay k o /\ (comes_back o \/ failed t \/ may_wait k key [Ev (OGet k key) (Err e)])).
Proof.
  split; [by left|]. simpl. destruct (IsNotFound e) eqn:E; [|by left; left].
  right. right. left. exists e. split; [left|done].
Qed.

Lemma waits_deleted k key o (p : prog Outcome) :
  deletion_IsZero (get_meta k o) = false -> wp p (fun _ r => bounded_delay k r) ->
  wp p (fun t r => bounded_delay k r /\ (comes_back r \/ failed t \/ may_wait k key [Ev (OGet k key) (Ok o)])).
Proof.
  intros Hd. apply wp_mono. intros t r Hr. split; [done|]. right. right. right. left. exists o. split; [left|by left].
Qed.

Lemma server_Reconcile_scheduled key : wp (ServerController.Reconcile key) (pass_scheduled KServer key).
Proof.
  unfold ServerController.Reconcile, Get. cbn [bind do_op]. apply wp_vis. intros [s|e]; apply pass_scheduled_read;
    [|apply waits_gone]. destruct (deletion_IsZero (srv_Meta s)) eqn:Ed; cbn [negb].
  2: { apply waits_deleted; [done|]. unfold ServerController.reconcileDelete, Update. wp_run; by left. }
  destruct (server_phases_schedule s) as (? & ? & ? & ? & ? & ?).
  destruct (ContainsFinalizer _ _); cbn [negb].
  2: { apply schedules_pass. pose proof failed_app. unfold Update. by schedules_run. }
  cbv zeta. destruct (_ || _) eqn:E0; [by apply schedules_pass|].
  apply orb_false_iff in E0 as [E1 E2]. bool_prop. do 5 (case_bool_decide; [by apply schedules_pass|]). apply wp_ret.
  split; [by left|]. right. right. right. left. exists s. split; [left|]. right. simpl.
  unfold provisioning_phases. rewrite !not_elem_of_cons. split_and!; try done. apply not_elem_of_nil.
Qed.

Ltac run := pose proof failed_app; schedules_run.

Lemma zone_not_ready_schedules z reason msg d :
  5000000000 <= d <= longest_delay KZone -> schedules KZone failed (ZoneController.markNotReady z reason msg d).
Proof. intros Hd. pose proof failed_app. apply schedules_try; [done|]. intros _. by apply schedules_after. Qed.

Lemma zone_failed_schedules z msg : schedules KZone failed (ZoneController.markFailed z msg).
Proof.
  unfold ZoneController.markFailed, StatusUpdate, event. unfold schedules. wp_run.
  - split; [by left|]. right. by left.
  - split; [by left|]. right. by left.
  - split; [by left|]. left. by left.
Qed.

Ltac delay := by vm_compute.

Lemma reconcileZone_schedules z pc : schedules KZone failed (reconcileZone z pc).
Proof. unfold reconcileZone. run; apply zone_not_ready_schedules; delay. Qed.

Lemma zone_Reconcile_scheduled key : wp (ZoneController.Reconcile key) (pass_scheduled KZone key).
Proof.
  unfold ZoneController.Reconcile, Get. cbn [bind do_op]. apply wp_vis. intros [z|e]; apply pass_scheduled_read;
    [|apply waits_gone]. destruct (deletion_IsZero (zn_Meta z)) eqn:Ed; cbn [negb].
  - apply schedules_pass. unfold Update.
    run; first [apply reconcileZone_schedules|apply zone_failed_schedules|apply zone_not_ready_schedules; delay].
  - apply waits_deleted; [done|].
    unfold ZoneController.reconcileDelete, release, pdnsClientFor, PdnsClient.DeleteZone, PdnsClient.do_req,
      PdnsClient.err_of, event, Get, Update. wp_run; by left.
Qed.

Lemma rrset_not_ready_schedules rr reason msg d :
  5000000000 <= d <= longest_delay KRRSet -> schedules KRRSet failed (RRSetController.markNotReady rr reason msg d).
Proof. intros Hd. pose proof failed_app. apply schedules_try; [done|]. intros _. by apply schedules_after. Qed.

Lemma applyRRSet_schedules rr z pc : schedules KRRSet failed (applyRRSet rr z pc).
Proof. unfold applyRRSet. cbv zeta. run; apply rrset_not_ready_schedules; delay. Qed.

Lemma rrset_Reconcile_scheduled key : wp (RRSetController.Reconcile key) (pass_scheduled KRRSet key).
Proof.
  unfold RRSetController.Reconcile, Get. cbn [bind do_op]. apply wp_vis. intros [rr|e]; apply pass_scheduled_read;
    [|apply waits_gone]. destruct (deletion_IsZero (rr_Meta rr)) eqn:Ed; cbn [negb].
  - apply schedules_pass. unfold Update.
    run; first [apply applyRRSet_schedules|apply rrset_not_ready_schedules; delay].
  - apply waits_deleted; [done|].
    unfold RRSetController.reconcileDelete, deleteFromPowerDNS, findConflict, pdnsClientFor, PdnsClient.PatchRRSets,
      PdnsClient.do_req, PdnsClient.err_of, event, Get, Update. wp_run; by left.
Qed.

Lemma dnsdist_failed_schedules d msg : schedules KDNSDist failed (markDNSDistFailed d msg).
Proof.
  unfold markDNSDistFailed, StatusUpdate, event. unfold schedules. wp_run.
  - split; [by left|]. right. by left.
  - split; [by left|]. right. by left.
  - split; [by left|]. left. by left.
Qed.

Lemma dnsdist_Reconcile_scheduled key : wp (DnsdistController.Reconcile key) (pass_scheduled KDNSDist key).
Proof.
  unfold DnsdistController.Reconcile, Get. cbn [bind do_op]. apply wp_vis. intros [d|e]; apply pass_scheduled_read;
    [|apply waits_gone]. destruct (deletion_IsZero (dd_Meta d)) eqn:Ed; cbn [negb].
  - apply schedules_pass. cbv zeta. unfold markDNSDistNotReady, refreshDNSDistStatus.
    run; apply dnsdist_failed_schedules.
  - apply waits_deleted; [done|]. by left.
Qed.
End passes.

(** C11. No pass loses its resource: whatever is answered, a pass over a
    server or a tier returns a delay of five to thirty seconds or none, and a
    pass over a Zone or an RRSet one of five seconds to five minutes or none;
    and it asks for another pass (by an error, a requeue or a positive delay)
    unless the resource is gone, is being deleted, was marked Failed
    by this pass, or is a server that is Failed or in an unknown phase. *)
Theorem every_pass_scheduled `{MachineryLaws, Reconciler} (key : NamespacedName) :
  wp (ServerController.Reconcile key) (pass_scheduled KServer key)
  /\ wp (ZoneController.Reconcile key) (pass_scheduled KZone key)
  /\ wp (RRSetController.Reconcile key) (pass_scheduled KRRSet key)
  /\ wp (DnsdistController.Reconcile key) (pass_scheduled KDNSDist key).
Proof.
  split_and!; [apply server_Reconcile_scheduled|apply zone_Reconcile_scheduled|apply rrset_Reconcile_scheduled
    |apply dnsdist_Reconcile_scheduled].
Qed.

Lemma every_pass_scheduled_witness :
  wp (@ZoneController.Reconcile RefMachinery {| HasRecorder := true |} (NN "dns" "example"))
     (pass_scheduled KZone (NN "dns" "example")).
Proof. apply (every_pass_scheduled (NN "dns" "example")). Defined.
