(* ===== verification/Operator.v ===== *)
(** * cmd/operator/main.go and the SetupWithManager methods: the operator

    How the four reconcilers are put together: the types registered in the
    scheme, the field indexes, the kinds whose events wake a controller, the
    order of the start-up and its exit codes, and the ClusterRole that the
    operator runs with (config/rbac/rbac.yaml). The operations of every pass
    are checked against them. *)

From S2P Require Import Prelude GoStd Meta ApiTypes KubeObjects Samples Effects RefMachinery FlagParse Manifests Workloads Converge ServerController ZoneController RRSetController DnsdistManifests DnsdistController.

Open Scope go_scope.
Open Scope stdpp_scope.
Open Scope Z_scope.

(** ** Groups and resources *)

(** schema.GroupVersion. *)
Record GroupVersion_ := { gv_Group : string; gv_Version : string }.
Definition GroupVersion : GroupVersion_ := {| gv_Group := "dns.aetherplatform.cloud"; gv_Version := "v1alpha1" |}.

(** The API group and the resource name of a kind. *)
Definition group_of (k : kind) : string :=
  match k with
  | KServer | KZone | KRRSet | KDNSDist => gv_Group GroupVersion
  | KSecret | KConfigMap | KService => ""
  | KDeployment => "apps"
  | KJob => "batch"
  | KPDB => "policy"
  | KNetworkPolicy => "networking.k8s.io"
  | KTCPRoute | KUDPRoute | KHTTPRoute => "gateway.networking.k8s.io"
  | KPodMonitor => "monitoring.coreos.com"
  | KCluster => "postgresql.cnpg.io"
  end.
Definition resource_of (k : kind) : string :=
  match k with
  | KServer => "powerdnsservers" | KZone => "zones" | KRRSet => "rrsets" | KDNSDist => "dnsdists"
  | KSecret => "secrets" | KConfigMap => "configmaps" | KService => "services"
  | KDeployment => "deployments" | KJob => "jobs" | KPDB => "poddisruptionbudgets"
  | KNetworkPolicy => "networkpolicies"
  | KTCPRoute => "tcproutes" | KUDPRoute => "udproutes" | KHTTPRoute => "httproutes"
  | KPodMonitor => "podmonitors" | KCluster => "clusters"
  end.

(** ** The scheme *)

(** The kinds that SchemeBuilder.Register adds (their lists come with them). *)
Definition registered_types : list kind := [KServer; KZone; KRRSet; KDNSDist].

(** main's init, in order: AddToScheme and Install of the packages of
    client-go (core, apps, batch, policy, networking), of the operator's own
    types and of the Gateway API (v1alpha2 and v1), each with the kinds it
    registers of those that the operator handles. *)
Definition scheme_packages : list (string * list kind) :=
  [("clientgoscheme", [KSecret; KConfigMap; KService; KDeployment; KJob; KPDB; KNetworkPolicy]);
   ("dnsv1alpha1", registered_types);
   ("gatewayv1alpha2", [KTCPRoute; KUDPRoute]);
   ("gatewayv1", [KHTTPRoute])].
Definition scheme_kinds : list kind := flat_map snd scheme_packages.

(** Objects of type unstructured.Unstructured need no registered type. *)
Definition untyped (k : kind) : bool := match k with KPodMonitor | KCluster => true | _ => false end.

(** ** SetupWithManager *)

(** The builder calls of a controller. *)
Record Controller := {
  ct_For : kind;
  ct_Owns : list kind;
  ct_Watches : list kind;
}.

(** What a SetupWithManager does, in order: register an index function, and
    complete the controller. *)
Inductive setup_call :=
| IndexField (k : kind) (field : string) (keys : obj_of k -> list string)
| CompleteController (c : Controller).

Definition server_controller : Controller := {|
  ct_For := KServer; ct_Owns := [KDeployment; KService; KSecret; KConfigMap; KJob; KPDB; KNetworkPolicy];
  ct_Watches := [] |}.
Definition zone_controller : Controller := {| ct_For := KZone; ct_Owns := []; ct_Watches := [KServer] |}.
Definition rrset_controller : Controller := {| ct_For := KRRSet; ct_Owns := []; ct_Watches := [KZone] |}.
Definition dnsdist_controller : Controller := {|
  ct_For := KDNSDist; ct_Owns := [KDeployment; KService; KConfigMap; KPDB]; ct_Watches := [KServer] |}.

Definition server_SetupWithManager : list setup_call := [CompleteController server_controller].
Definition zone_SetupWithManager : list setup_call :=
  [IndexField KZone zoneServerIndex zone_index; CompleteController zone_controller].
Definition rrset_SetupWithManager : list setup_call :=
  [IndexField KRRSet rrsetZoneIndex rrset_index; CompleteController rrset_controller].
Definition dnsdist_SetupWithManager : list setup_call :=
  [IndexField KDNSDist dnsdistBackendIndex dnsdist_index; CompleteController dnsdist_controller].

(** ** main *)

(** The variables that the flags of main are bound to. *)
Record Flags := { metricsAddr : string; probeAddr : string }.
Definition default_flags : Flags := {| metricsAddr := ":8080"; probeAddr := ":8081" |}.

(** The formal flags: the two of main, and those that zap's BindFlags and
    controller-runtime's init bind to variables of their own. *)
Definition formal_flags (others : string -> option (Flag unit)) (name : string) : option (Flag Flags) :=
  if name == "metrics-bind-address" then
    Some (StringVar (fun v f => {| metricsAddr := v; probeAddr := probeAddr f |}))
  else if name == "health-probe-bind-address" then
    Some (StringVar (fun v f => {| metricsAddr := metricsAddr f; probeAddr := v |}))
  else match others name with
       | Some fl => Some {| fl_IsBoolFlag := fl_IsBoolFlag fl; fl_Set := fun v f => (fun _ => f) <$> fl_Set fl v tt |}
       | None => None
       end.

(** ctrl.Options: the metrics address is left at its zero value. *)
Record Options := { opt_HealthProbeBindAddress : string; opt_MetricsBindAddress : string }.
Definition manager_options (f : Flags) : Options :=
  {| opt_HealthProbeBindAddress := probeAddr f; opt_MetricsBindAddress := "" |}.

(** The calls of main and of its init that can fail. *)
Inductive main_call :=
| MustAddToScheme (package : string * list kind)
| GetConfigOrDie
| NewManager (o : Options)
| Setup (controller : string) (call : setup_call)
| AddHealthzCheck (name : string)
| AddReadyzCheck (name : string)
| Start.

Definition init_calls : list main_call := map MustAddToScheme scheme_packages.
Definition main_calls (f : Flags) : list main_call :=
  GetConfigOrDie
  :: NewManager (manager_options f)
  :: map (Setup "PowerDNSServer") server_SetupWithManager
  ++ map (Setup "Zone") zone_SetupWithManager
  ++ map (Setup "RRSet") rrset_SetupWithManager
  ++ map (Setup "DNSDist") dnsdist_SetupWithManager
  ++ [AddHealthzCheck "healthz"; AddReadyzCheck "readyz"; Start].

(** The exit code when a call fails: utilruntime.Must panics, which ends the
    process with 2; GetConfigOrDie and main exit with 1. *)
Definition failure_code (c : main_call) : Z := match c with MustAddToScheme _ => 2 | _ => 1 end.

(** Calls in order until one fails: the calls made and the exit code. *)
Fixpoint run_calls (fails : main_call -> bool) (l : list main_call) : list main_call * Z :=
  match l with
  | [] => ([], 0)
  | c :: l =>
      if fails c then ([c], failure_code c)
      else let '(made, code) := run_calls fails l in (c :: made, code)
  end.

(** The process: init, the command line, main. flag.Parse exits with 0 after
    the usage text and with 2 after an error. *)
Definition main (others : string -> option (Flag unit)) (fails : main_call -> bool) (args : list string) :
    list main_call * Z :=
  let '(made0, code0) := run_calls fails init_calls in
  if negb (code0 =? 0) then (made0, code0)
  else
    match Parse (formal_flags others) args default_flags with
    | Helped => (made0, 0)
    | BadFlag => (made0, 2)
    | Parsed f => let '(made, code) := run_calls fails (main_calls f) in (made0 ++ made, code)
    end.

(** The indexes and the controllers that main sets up. *)
Definition setup_index (c : main_call) : option (kind * string) :=
  match c with Setup _ (IndexField k field _) => Some (k, field) | _ => None end.
Definition setup_controller (c : main_call) : option Controller :=
  match c with Setup _ (CompleteController c) => Some c | _ => None end.
Definition indexes : list (kind * string) := omap setup_index (main_calls default_flags).
Definition controllers : list Controller := omap setup_controller (main_calls default_flags).

(** ** The ClusterRole *)

Record PolicyRule := { pr_apiGroups : list string; pr_resources : list string; pr_verbs : list string }.

Definition all_verbs : list string := ["get"; "list"; "watch"; "create"; "update"; "patch"; "delete"].
Definition rule (group : string) (resources verbs : list string) : PolicyRule :=
  {| pr_apiGroups := [group]; pr_resources := resources; pr_verbs := verbs |}.

(** config/rbac/rbac.yaml. *)
Definition cluster_role : list PolicyRule :=
  let dns := "dns.aetherplatform.cloud" in
  [ rule dns ["powerdnsservers"] all_verbs;
    rule dns ["powerdnsservers/status"] ["get"; "update"; "patch"];
    rule dns ["powerdnsservers/finalizers"] ["update"];
    rule dns ["zones"; "rrsets"] ["get"; "list"; "watch"; "update"; "patch"];
    rule dns ["zones/status"; "rrsets/status"] ["get"; "update"; "patch"];
    rule dns ["zones/finalizers"; "rrsets/finalizers"] ["update"];
    rule dns ["dnsdists"] ["get"; "list"; "watch"; "update"; "patch"];
    rule dns ["dnsdists/status"] ["get"; "update"; "patch"];
    rule dns ["dnsdists/finalizers"] ["update"];
    rule "" ["secrets"; "services"; "configmaps"] all_verbs;
    rule "apps" ["deployments"] all_verbs;
    rule "batch" ["jobs"] all_verbs;
    rule "policy" ["poddisruptionbudgets"] all_verbs;
    rule "postgresql.cnpg.io" ["clusters"] all_verbs;
    rule "gateway.networking.k8s.io" ["tcproutes"; "udproutes"; "httproutes"] all_verbs;
    rule "networking.k8s.io" ["networkpolicies"] all_verbs;
    rule "monitoring.coreos.com" ["podmonitors"] all_verbs;
    rule "" ["events"] ["create"; "patch"];
    rule "coordination.k8s.io" ["leases"] all_verbs ].

(** The same rules as the kubebuilder markers above the reconcilers state. *)
Definition marker_rules : list PolicyRule :=
  let dns := "dns.aetherplatform.cloud" in
  [ rule dns ["powerdnsservers"] all_verbs;
    rule dns ["powerdnsservers/status"] ["get"; "update"; "patch"];
    rule dns ["powerdnsservers/finalizers"] ["update"];
    rule "" ["secrets"; "services"; "configmaps"] all_verbs;
    rule "apps" ["deployments"] all_verbs;
    rule "batch" ["jobs"] all_verbs;
    rule "policy" ["poddisruptionbudgets"] all_verbs;
    rule "postgresql.cnpg.io" ["clusters"] all_verbs;
    rule "gateway.networking.k8s.io" ["tcproutes"; "udproutes"; "httproutes"] all_verbs;
    rule dns ["zones"] ["get"; "list"; "watch"; "update"; "patch"];
    rule dns ["zones/status"] ["get"; "update"; "patch"];
    rule dns ["zones/finalizers"] ["update"];
    rule dns ["rrsets"] ["get"; "list"; "watch"; "update"; "patch"];
    rule dns ["rrsets/status"] ["get"; "update"; "patch"];
    rule dns ["rrsets/finalizers"] ["update"];
    rule dns ["dnsdists"] ["get"; "list"; "watch"; "update"; "patch"];
    rule dns ["dnsdists/status"] ["get"; "update"; "patch"];
    rule dns ["dnsdists/finalizers"] ["update"] ].

(** A rule list admits a request when one rule names its group, resource and verb. *)
Record api_request := Req { rq_verb : string; rq_group : string; rq_resource : string }.
Definition admits (rules : list PolicyRule) (q : api_request) : bool :=
  existsb (fun r => bool_decide (rq_group q ∈ pr_apiGroups r) && bool_decide (rq_resource q ∈ pr_resources r)
                    && bool_decide (rq_verb q ∈ pr_verbs r)) rules.

(** The requests of an operation to the API server: reads go through the
    manager's cache, which lists and watches; an owned object needs update on
    the finalizers of its owner only where the cluster enforces it. *)
Definition requests {X} (o : op X) : list api_request :=
  let on k sub verb := Req verb (group_of k) (resource_of k +:+ sub) in
  let reads k := map (on k "") ["get"; "list"; "watch"] in
  match o with
  | OGet k _ | OListIndex k _ _ | OListLabels k _ _ => reads k
  | OCreate k _ => [on k "" "create"]
  | OUpdate k _ => [on k "" "update"]
  | OStatusUpdate k _ => [on k "/status" "update"]
  | ODelete k _ _ => [on k "" "delete"]
  | OCreateOrUpdate k _ _ => reads k ++ [on k "" "create"; on k "" "update"]
  | ORecord _ => [Req "create" "" "events"; Req "patch" "" "events"]
  | ORandRead _ | OHttp _ => []
  end.

(** An operation that the operator as set up can perform: its requests are
    admitted, its kind is in the scheme or untyped, and an index it queries
    was registered. *)
Definition op_kind {X} (o : op X) : option kind :=
  match o with
  | OGet k _ | OCreate k _ | OUpdate k _ | OStatusUpdate k _ | ODelete k _ _ | OCreateOrUpdate k _ _
  | OListIndex k _ _ | OListLabels k _ _ => Some k
  | ORecord _ | ORandRead _ | OHttp _ => None
  end.
Definition provisioned (rules : list PolicyRule) {X} (o : op X) : bool :=
  forallb (admits rules) (requests o)
  && match op_kind o with Some k => bool_decide (k ∈ scheme_kinds) || untyped k | None => true end
  && match o with OListIndex k field _ => bool_decide ((k, field) ∈ indexes) | _ => true end.
Definition operable (X : Type) (o : op X) : Prop := provisioned cluster_role o = true.

(** ** The operations of the reconcilers are operable *)

Ltac operable_op := solve [reflexivity | vm_compute; reflexivity].

Section operable.
Context `{MachineryLaws, Reconciler}.

(** The kinds whose objects the operator creates and deletes. *)
Definition managed (k : kind) : bool :=
  match k with KZone | KRRSet | KDNSDist => false | _ => true end.

Lemma operable_get k key : operable _ (OGet k key).
Proof. destruct k; operable_op. Qed.
Lemma operable_update k o : operable _ (OUpdate k o).
Proof. destruct k; operable_op. Qed.
Lemma operable_list k ns l : operable _ (OListLabels k ns l).
Proof. destruct k; operable_op. Qed.
Lemma operable_create k o : managed k = true -> operable _ (OCreate k o).
Proof. destruct k; try done; intros _; operable_op. Qed.
Lemma operable_delete k key p : managed k = true -> operable _ (ODelete k key p).
Proof. destruct k; try done; intros _; operable_op. Qed.
Lemma operable_upsert k key f : managed k = true -> operable _ (OCreateOrUpdate k key f).
Proof. destruct k; try done; intros _; operable_op. Qed.
Lemma operable_record e : operable _ (ORecord e).
Proof. operable_op. Qed.

Lemma operable_status k o : k ∈ registered_types -> operable _ (OStatusUpdate k o).
Proof.
  unfold registered_types. rewrite !elem_of_cons, elem_of_nil. destruct k; try naive_solver; intros _; operable_op.
Qed.
Lemma operable_rand n : operable _ (ORandRead n).
Proof. operable_op. Qed.
Lemma operable_http r : operable _ (OHttp r).
Proof. operable_op. Qed.
Lemma operable_rrsets v : operable _ (OListIndex KRRSet rrsetZoneIndex v).
Proof. operable_op. Qed.

Ltac op_done :=
  lazymatch goal with
  | |- operable _ (OGet _ _) => apply operable_get
  | |- operable _ (OUpdate _ _) => apply operable_update
  | |- operable _ (OStatusUpdate _ _) => apply operable_status; repeat first [by left|right]
  | |- operable _ (OListLabels _ _ _) => apply operable_list
  | |- operable _ (OListIndex _ _ _) => apply operable_rrsets
  | |- operable _ (OCreate _ _) => apply operable_create; done
  | |- operable _ (ODelete _ _ _) => apply operable_delete; done
  | |- operable _ (OCreateOrUpdate _ _ _) => apply operable_upsert; done
  | |- operable _ (ORecord _) => apply operable_record
  | |- operable _ (ORandRead _) => apply operable_rand
  | |- operable _ (OHttp _) => apply operable_http
  end.

Lemma event_operable k (o : obj_of k) ty reason msg : all_ops operable (event k o ty reason msg).
Proof. unfold event. destruct HasRecorder; [|done]. split; [op_done|done]. Qed.
Lemma ensureOwned_operable s k o : managed k = true -> all_ops operable (ensureOwned s k o).
Proof. intros Hk. unfold ensureOwned, Get, Create. all_ops_run; op_done. Qed.
Lemma updateService_operable d : all_ops operable (updateService d).
Proof. apply all_ops_retry. unfold updateService_attempt, Get, Create, Update, only_err. all_ops_run; op_done. Qed.
Lemma updateConfigMapOwned_operable s d : all_ops operable (updateConfigMapOwned s d).
Proof.
  unfold updateConfigMapOwned, updateConfigMap, Get, only_err, Update.
  all_ops_run; try op_done; [|by apply ensureOwned_operable]. apply all_ops_retry. all_ops_run; op_done.
Qed.
Lemma deleteIfExists_operable k key : managed k = true -> all_ops operable (deleteIfExists k key).
Proof. intros Hk. unfold deleteIfExists, Get, Delete. all_ops_run; op_done. Qed.

Ltac part_operable :=
  first [ done | apply event_operable | by apply ensureOwned_operable | apply updateService_operable
        | apply updateConfigMapOwned_operable | by apply deleteIfExists_operable | op_done ].

Lemma additional_operable s : all_ops operable (reconcileAdditionalDNSServices s).
Proof. unfold reconcileAdditionalDNSServices, updateServiceOwned, Delete. all_ops_run; part_operable. Qed.
Lemma routes_operable s : all_ops operable (reconcileRoutes s).
Proof.
  unfold reconcileRoutes, ensure_tcproute, ensure_udproute, ensure_httproute. all_ops_run; part_operable.
Qed.
Lemma pdb_operable s : all_ops operable (ensure_pdb s).
Proof. unfold ensure_pdb, Delete. all_ops_run; part_operable. Qed.
Lemma hash_operable s cm : all_ops operable (computeConfigHash s cm).
Proof. unfold computeConfigHash, secret_data, Get. all_ops_run; part_operable. Qed.
Lemma backend_operable s h p u pw d : all_ops operable (writeBackendSecret s h p u pw d).
Proof. unfold writeBackendSecret, Get, Create, only_err, Update. all_ops_run; part_operable. Qed.

Ltac server_operable :=
  first [ apply additional_operable | apply routes_operable | apply pdb_operable | apply hash_operable
        | apply backend_operable | by apply (ensureOwned_operable _ KCluster)
        | by apply (ensureOwned_operable _ KPodMonitor) | part_operable ].

Lemma server_operable key : all_ops operable (ServerController.Reconcile key).
Proof.
  unfold ServerController.Reconcile, ServerController.reconcileDelete, Get, Update. all_ops_run; try server_operable.
  - unfold phasePending, ensureAPIKey, randomHex, setFailed, setPhase, StatusUpdate, Get, Create.
    all_ops_run; server_operable.
  - unfold phaseProvisioningBackend, materialiseBYOBackendSecret, materialiseCNPGBackendSecret, cnpgClusterReady,
      written, setPhase, StatusUpdate, Get. all_ops_run; server_operable.
  - unfold phaseInitializingSchema, setPhase, StatusUpdate, Get, Create. all_ops_run; server_operable.
  - unfold phaseDeployingServer, ensureWorkload, reconcileObservability, reconcileNetworkPolicy, setPhase,
      StatusUpdate, Get, Delete, only_err, Update. all_ops_run; server_operable.
  - unfold phaseExposingDNS, setPhase, setFailed, StatusUpdate, Get. all_ops_run; server_operable.
  - unfold phaseReady, reconcileDrift, updateServiceOwned, updateDeployment, refreshDNSEndpoint,
      refreshReplicaStatus, StatusUpdate, Get, only_err, Update. all_ops_run; server_operable.
Qed.

Lemma client_operable server : all_ops operable (pdnsClientFor server).
Proof. unfold pdnsClientFor, Get. all_ops_run; part_operable. Qed.

Lemma zone_operable key : all_ops operable (ZoneController.Reconcile key).
Proof.
  unfold ZoneController.Reconcile, ZoneController.reconcileDelete, release, reconcileZone, register, createZone,
    ensureDNSSEC, ZoneController.markNotReady, markFailed, PdnsClient.GetZone, PdnsClient.CreateZone,
    PdnsClient.PatchRRSets, PdnsClient.DeleteZone, PdnsClient.UpdateZone, PdnsClient.ListCryptokeys,
    PdnsClient.UpdateCryptokey, PdnsClient.CreateCryptokey, PdnsClient.RectifyZone, PdnsClient.do_req,
    PdnsClient.err_of, only_err, StatusUpdate, Get, Update.
  all_ops_run; first [apply client_operable|part_operable].
Qed.

Lemma rrset_operable key : all_ops operable (RRSetController.Reconcile key).
Proof.
  unfold RRSetController.Reconcile, RRSetController.reconcileDelete, deleteFromPowerDNS, findConflict, applyRRSet,
    RRSetController.markNotReady, PdnsClient.GetZone, PdnsClient.PatchRRSets, PdnsClient.do_req, PdnsClient.err_of,
    StatusUpdate, Get, Update.
  all_ops_run; first [apply client_operable|part_operable].
Qed.

Lemma dnsdist_additional_operable d : all_ops operable (reconcileDNSDistAdditionalServices d).
Proof.
  unfold reconcileDNSDistAdditionalServices, Delete. destruct (DNSDistAdditionalDNSServices d []) as [h l].
  all_ops_run; try part_operable. revert h. induction l as [|svc l IH]; intros h; cbn [converge_additional]; [done|].
  all_ops_run; [apply updateService_operable|apply IH].
Qed.

Lemma tls_operable ns l : all_ops operable (tls_secret_maps ns l).
Proof. induction l as [|x l IH]; cbn [tls_secret_maps]; unfold Get; all_ops_run; first [apply IH|part_operable]. Qed.

Lemma dnsdist_routes_operable d : all_ops operable (reconcileDNSDistRoutes d).
Proof. unfold reconcileDNSDistRoutes, ensure_l4. cbv zeta. all_ops_run; part_operable. Qed.

Lemma children_operable d addrs : all_ops operable (converge_children d addrs).
Proof.
  unfold converge_children, upsert_configmap, upsert_deployment, upsert_pdb, upsertOwned, only_err. cbv zeta.
  all_ops_run; first [apply dnsdist_additional_operable|apply tls_operable|apply dnsdist_routes_operable|part_operable].
Qed.

Lemma backends_operable ns refs addrs : all_ops operable (backendsReady_loop ns refs addrs).
Proof.
  revert addrs. induction refs as [|ref refs IH]; intros addrs; cbn [backendsReady_loop]; unfold Get;
    all_ops_run; first [apply IH|part_operable].
Qed.

Lemma dnsdist_operable key : all_ops operable (DnsdistController.Reconcile key).
Proof.
  unfold DnsdistController.Reconcile, backendsReady, markDNSDistNotReady, markDNSDistFailed, refreshDNSDistStatus,
    dnsdist_endpoint, StatusUpdate, Get.
  all_ops_run; first [apply backends_operable|apply children_operable|part_operable].
Qed.
End operable.

(** ** Watches *)

(** The kinds whose events wake a controller. *)
Definition wakes (c : Controller) (k : kind) : bool :=
  bool_decide (k = ct_For c) || bool_decide (k ∈ ct_Owns c) || bool_decide (k ∈ ct_Watches c).
(** Kinds whose CRD is optional: no controller watches them. *)
Definition optional_crd (k : kind) : bool :=
  match k with KTCPRoute | KUDPRoute | KHTTPRoute | KPodMonitor | KCluster => true | _ => false end.


Section watches.
Context `{MachineryLaws, Reconciler}.

Definition dnsdist_kinds : list kind := [KConfigMap; KDeployment; KService; KPDB; KTCPRoute; KUDPRoute; KDNSDist].

Lemma children_kinds d addrs : all_ops (kinds_op dnsdist_kinds) (converge_children d addrs).
Proof.
  unfold converge_children, upsert_configmap, upsert_deployment, upsert_pdb, upsertOwned, only_err,
    reconcileDNSDistAdditionalServices, reconcileDNSDistRoutes, ensure_l4, Delete. cbv zeta.
  destruct (DNSDistAdditionalDNSServices d []) as [h l].
  all_ops_run; try done; try (by apply updateService_kinds); try (by apply deleteIfExists_kinds).
  - generalize [tls_DoT (ds_TLS (dd_Spec d)); tls_DoH (ds_TLS (dd_Spec d))] as ls.
    intros ls. induction ls as [|x ls IH]; cbn [tls_secret_maps]; unfold Get; all_ops_run; done.
  - revert h. induction l as [|svc l IH]; intros h; cbn [converge_additional]; [done|].
    all_ops_run; [by apply updateService_kinds|apply IH].
Qed.

Lemma backends_kinds ns refs addrs : all_ops (kinds_op dnsdist_kinds) (backendsReady_loop ns refs addrs).
Proof.
  revert addrs. induction refs as [|ref refs IH]; intros addrs; cbn [backendsReady_loop]; unfold Get;
    all_ops_run; first [done|apply IH].
Qed.

Lemma dnsdist_kinds_ops key : all_ops (kinds_op dnsdist_kinds) (DnsdistController.Reconcile key).
Proof.
  unfold DnsdistController.Reconcile, backendsReady, markDNSDistNotReady, markDNSDistFailed, refreshDNSDistStatus,
    dnsdist_endpoint, StatusUpdate, Get.
  all_ops_run; try done; first [apply event_kinds|apply children_kinds|apply backends_kinds].
Qed.

Lemma zone_kinds_ops key : all_ops (kinds_op [KZone]) (ZoneController.Reconcile key).
Proof.
  unfold ZoneController.Reconcile, ZoneController.reconcileDelete, release, reconcileZone, register, createZone,
    ensureDNSSEC, ZoneController.markNotReady, markFailed, pdnsClientFor, PdnsClient.GetZone, PdnsClient.CreateZone,
    PdnsClient.PatchRRSets, PdnsClient.DeleteZone, PdnsClient.UpdateZone, PdnsClient.ListCryptokeys,
    PdnsClient.UpdateCryptokey, PdnsClient.CreateCryptokey, PdnsClient.RectifyZone, PdnsClient.do_req,
    PdnsClient.err_of, only_err, StatusUpdate, Get, Update.
  all_ops_run; first [apply event_kinds|done].
Qed.

Lemma rrset_kinds_ops key : all_ops (kinds_op [KRRSet]) (RRSetController.Reconcile key).
Proof.
  unfold RRSetController.Reconcile, RRSetController.reconcileDelete, deleteFromPowerDNS, findConflict, applyRRSet,
    RRSetController.markNotReady, pdnsClientFor, PdnsClient.GetZone, PdnsClient.PatchRRSets, PdnsClient.do_req,
    PdnsClient.err_of, StatusUpdate, Get, Update.
  all_ops_run; first [apply event_kinds|done].
Qed.

(** Everything that a pass writes is of a kind whose events wake the
    controller again, or of a kind with an optional CRD. *)
Definition writes_seen (c : Controller) (t : list obs) : Prop :=
  Forall (fun w => wakes c w.1.2 || optional_crd w.1.2 = true) (kube_writes t).

Lemma kinds_seen c ks t :
  Forall (fun k => wakes c k || optional_crd k = true) ks ->
  Forall (fun w => w.1.2 ∈ ks) (kube_writes t) -> writes_seen c t.
Proof. intros Hks Ht. eapply Forall_impl; [exact Ht|]. intros w Hw. by eapply Forall_forall in Hks. Qed.

Lemma kinds_ops_seen c ks (p : prog Outcome) :
  Forall (fun k => wakes c k || optional_crd k = true) ks -> all_ops (kinds_op ks) p ->
  wp p (fun t _ => writes_seen c t).
Proof.
  intros Hks Hp. eapply wp_mono; [|by apply all_ops_wp]. intros t a HF. eapply kinds_seen; [done|]. by apply kinds_writes.
Qed.

Lemma phase_kinds_seen p : Forall (fun k => wakes server_controller k || optional_crd k = true) (phase_kinds p).
Proof. unfold phase_kinds. repeat (destruct (_ || _) || destruct (bool_decide _)); repeat constructor. Qed.

Lemma allowed_seen s t : writes_allowed s (kube_writes t) -> writes_seen server_controller t.
Proof.
  unfold writes_allowed. destruct (_ && _).
  - intros Hw. eapply kinds_seen; [apply phase_kinds_seen|exact Hw].
  - intros E. apply (kinds_seen _ [KServer]); [by repeat constructor|]. apply Forall_forall. intros w Hin.
    assert (Hw : w.1 ∈ map fst (kube_writes t)) by by apply list_elem_of_fmap_2.
    rewrite E in Hw. apply list_elem_of_singleton in Hw as ->. left.
Qed.
End watches.

(** The calls up to the first that fails. *)
Definition stopped_at (fails : main_call -> bool) (l made : list main_call) (code : Z) : Prop :=
  exists l1 c l2, l = l1 ++ c :: l2 /\ fails c = true /\ Forall (fun c => fails c = false) l1
    /\ made = l1 ++ [c] /\ code = failure_code c.
Definition all_made (fails : main_call -> bool) (l made : list main_call) (code : Z) : Prop :=
  Forall (fun c => fails c = false) l /\ made = l /\ code = 0.

Lemma run_calls_code fails l :
  all_made fails l (run_calls fails l).1 (run_calls fails l).2
  \/ stopped_at fails l (run_calls fails l).1 (run_calls fails l).2.
Proof.
  induction l as [|c l IH]; simpl; [by left; split|]. destruct (fails c) eqn:E; simpl.
  - right. exists [], c, l. by split_and!.
  - destruct (run_calls fails l) as [made code]. simpl in *. destruct IH as [(HF & -> & ->)|IH].
    + left. split; [by constructor|done].
    + right. destruct IH as (l1 & c' & l2 & -> & Hc & HF & -> & ->). exists (c :: l1), c', l2.
      split_and!; try done. by constructor.
Qed.

(** The settings of main's two flags, and what the last of each leaves. *)
Inductive own_flag := FMetrics | FProbe.
Definition own_name (o : own_flag) : string :=
  match o with FMetrics => "metrics-bind-address" | FProbe => "health-probe-bind-address" end.
Definition own_setting (x : own_flag * string * bool * bool) : Setting :=
  let '(o, v, double, inline) := x in
  {| set_name := own_name o; set_value := v; set_double := double; set_inline := inline |}.
Definition values_of (o : own_flag) (l : list (own_flag * string * bool * bool)) : list string :=
  omap (fun x => match o, x.1.1.1 with FMetrics, FMetrics | FProbe, FProbe => Some x.1.1.2 | _, _ => None end) l.

Lemma values_of_cons o x l :
  values_of o (x :: l) = match o, x.1.1.1 with FMetrics, FMetrics | FProbe, FProbe => [x.1.1.2] | _, _ => [] end ++ values_of o l.
Proof. unfold values_of. cbn [omap list_omap]. by destruct o, x.1.1.1. Qed.

Lemma last_cons_default {A} (d x : A) l : List.last (x :: l) d = List.last l x.
Proof. revert d x. induction l as [|y l IH]; intros d x; [done|].
  change (List.last (y :: l) d = List.last (y :: l) x). by rewrite !IH. Qed.

Lemma Parse_own_settings others l f :
  Parse (formal_flags others) (flat_map (fun x => render_setting (own_setting x)) l) f
  = Parsed {| metricsAddr := List.last (values_of FMetrics l) (metricsAddr f);
              probeAddr := List.last (values_of FProbe l) (probeAddr f) |}.
Proof.
  revert f. induction l as [|[[[o v] double] inline] l IH]; intros f; [by destruct f|].
  cbn [flat_map]. rewrite !values_of_cons. destruct o.
  - erewrite Parse_setting; [|by vm_compute|done|done]. cbn [fl_Set StringVar own_setting set_value]. rewrite IH.
    cbn [metricsAddr probeAddr fst snd app]. by rewrite last_cons_default.
  - erewrite Parse_setting; [|by vm_compute|done|done]. cbn [fl_Set StringVar own_setting set_value]. rewrite IH.
    cbn [metricsAddr probeAddr fst snd app]. by rewrite last_cons_default.
Qed.

(** A prefix that contains an element found only at the end is the list. *)
Lemma prefix_with_last {A} (pre l1 l2 : list A) x c :
  pre ++ [x] = l1 ++ c :: l2 -> x ∉ pre -> x ∈ l1 ++ [c] -> l2 = [].
Proof.
  intros E Hx Hin. destruct l2 as [|y l2 _] using rev_ind; [done|]. destruct Hx.
  rewrite app_comm_cons, app_assoc in E. apply app_inj_tail in E as [-> _]. set_solver.
Qed.

Lemma start_last f : main_calls f = removelast (main_calls f) ++ [Start] /\ (Start ∉ removelast (main_calls f)).
Proof.
  split; [done|]. cbn. rewrite !not_elem_of_cons. split_and!; try discriminate. apply not_elem_of_nil.
Qed.

(** Start is neither a call of init nor reached before the last call of main. *)
Lemma start_not_init : Start ∉ init_calls.
Proof. unfold init_calls, scheme_packages. cbn. rewrite !not_elem_of_cons. split_and!; try discriminate. apply not_elem_of_nil. Qed.

Lemma stopped_at_start fails f made code : stopped_at fails (main_calls f) made code -> Start ∈ made -> made = main_calls f.
Proof.
  intros (l1 & c & l2 & E & _ & _ & -> & _) Hs. destruct (start_last f) as [El Hn].
  pose proof E as E'. rewrite El in E'. rewrite (prefix_with_last _ _ _ _ _ E' Hn Hs) in E. by rewrite E.
Qed.

(** Only a call of init panics. *)
Lemma stopped_main fails f made code : stopped_at fails (main_calls f) made code -> code = 1.
Proof.
  intros (l1 & c & l2 & E & _ & _ & _ & ->). assert (Hc : c ∈ main_calls f) by (rewrite E; set_solver).
  assert (Hall : Forall (fun c => failure_code c = 1) (main_calls f)) by by repeat constructor.
  by apply (proj1 (Forall_forall _ _) Hall).
Qed.

Lemma stopped_init fails made code : stopped_at fails init_calls made code -> code = 2 /\ (Start ∉ made).
Proof.
  intros (l1 & c & l2 & E & _ & _ & -> & ->). assert (Hc : c ∈ init_calls) by (rewrite E; set_solver).
  assert (Hall : Forall (fun c => failure_code c = 2) init_calls) by by repeat constructor.
  split; [by apply (proj1 (Forall_forall _ _) Hall)|]. intros Hs. apply start_not_init. rewrite E. set_solver.
Qed.

(** C10. The operator as main sets it up can perform everything its
    reconcilers do: whatever the cluster answers, every operation of a pass
    over any of the four resources, and of the functions that turn an event of
    a server or a zone into requests, is admitted by the ClusterRole, handles a
    type that the scheme knows (or an unstructured object), and queries only
    indexes that were registered. In particular no Zone, RRSet or DNSDist is
    ever created or deleted. *)
Theorem operator_can_perform `{MachineryLaws, Reconciler} (key : NamespacedName) (s : PowerDNSServer) (z : Zone) :
  all_ops operable (ServerController.Reconcile key) /\ all_ops operable (ZoneController.Reconcile key)
  /\ all_ops operable (RRSetController.Reconcile key) /\ all_ops operable (DnsdistController.Reconcile key)
  /\ all_ops operable (zonesForServer s) /\ all_ops operable (rrsetsForZone z)
  /\ all_ops operable (dnsdistsForServer s).
Proof.
  split_and!; [apply server_operable|apply zone_operable|apply rrset_operable|apply dnsdist_operable|..].
  all: split; [operable_op|done].
Qed.

Lemma operator_can_perform_witness :
  all_ops operable (@DnsdistController.Reconcile RefMachinery {| HasRecorder := true |} (NN "dns" "edge"))
  /\ provisioned cluster_role (OCreate KZone sample_zone) = false
  /\ provisioned marker_rules (OCreate KNetworkPolicy (NetworkPolicy_ sample_server)) = false.
Proof.
  split; [|split; vm_compute; reflexivity].
  apply (operator_can_perform (NN "dns" "edge") sample_server sample_zone).
Defined.

(** C24. What a controller writes wakes it again: whatever the cluster
    answers, everything that a pass creates, updates or deletes is the resource
    itself, a kind the controller owns or watches, or a kind whose CRD is
    optional (routes, PodMonitors and CloudNativePG clusters, which no
    controller watches). *)
Theorem writes_wake_controller `{MachineryLaws, Reconciler} (key : NamespacedName) :
  wp (ServerController.Reconcile key) (fun t _ => writes_seen server_controller t)
  /\ wp (ZoneController.Reconcile key) (fun t _ => writes_seen zone_controller t)
  /\ wp (RRSetController.Reconcile key) (fun t _ => writes_seen rrset_controller t)
  /\ wp (DnsdistController.Reconcile key) (fun t _ => writes_seen dnsdist_controller t).
Proof.
  split_and!.
  - eapply wp_mono; [|apply Reconcile_writes]. intros t r [Hn|(s & _ & Hs)].
    + unfold writes_seen. by rewrite Hn.
    + by eapply allowed_seen.
  - eapply kinds_ops_seen; [|apply zone_kinds_ops]. by repeat constructor.
  - eapply kinds_ops_seen; [|apply rrset_kinds_ops]. by repeat constructor.
  - eapply kinds_ops_seen; [|apply dnsdist_kinds_ops]. by repeat constructor.
Qed.

Lemma writes_wake_controller_witness :
  wp (@ServerController.Reconcile RefMachinery {| HasRecorder := true |} (NN "dns" "ns1"))
     (fun t _ => writes_seen server_controller t).
Proof. apply (writes_wake_controller (NN "dns" "ns1")). Defined.

(** C40. The life of the process: for every command line and every set of
    calls that fail, the process ends in exactly one of these ways, having
    made exactly these calls. A type that cannot be registered panics (exit
    code 2) before the command line is read; a malformed, undefined or
    rejected flag exits with 2 and -h or -help with 0, before any call to the
    cluster; a later failure exits with 1 right after the call that failed;
    otherwise every call is made and the code is 0. So the manager starts only
    with the scheme, all four controllers and every index set up. The two
    flags of main may be given in any order, spelling and number: the last
    value of each counts, the health probe listens on it, and the metrics
    address does not reach the manager. *)
Theorem main_starts_complete (others : string -> option (Flag unit)) (fails : main_call -> bool) (args : list string) :
  (let '(made, code) := main others fails args in
   (stopped_at fails init_calls made code /\ code = 2
    \/ Forall (fun c => fails c = false) init_calls
       /\ match Parse (formal_flags others) args default_flags with
          | BadFlag => made = init_calls /\ code = 2
          | Helped => made = init_calls /\ code = 0
          | Parsed f => exists made', made = init_calls ++ made'
              /\ (all_made fails (main_calls f) made' code \/ stopped_at fails (main_calls f) made' code /\ code = 1)
          end)
   /\ (Start ∈ made -> exists f, Parse (formal_flags others) args default_flags = Parsed f
                                /\ made = init_calls ++ main_calls f))
  /\ (forall l, Parse (formal_flags others) (flat_map (fun x => render_setting (own_setting x)) l) default_flags
         = Parsed {| metricsAddr := List.last (values_of FMetrics l) ":8080";
                     probeAddr := List.last (values_of FProbe l) ":8081" |})
  /\ (forall f, NewManager {| opt_HealthProbeBindAddress := probeAddr f; opt_MetricsBindAddress := "" |} ∈ main_calls f
        /\ map ct_For (omap setup_controller (main_calls f)) = registered_types
        /\ omap setup_index (main_calls f)
           = [(KZone, zoneServerIndex); (KRRSet, rrsetZoneIndex); (KDNSDist, dnsdistBackendIndex)]).
Proof.
  split; [|split; [intros l; by rewrite Parse_own_settings|intros f; by split; [right; left|]]].
  unfold main. pose proof (run_calls_code fails init_calls) as Hinit.
  destruct (run_calls fails init_calls) as [made0 code0]. cbn [fst snd] in Hinit.
  destruct Hinit as [(HF & -> & ->)|Hs]; [|].
  2: { destruct (stopped_init _ _ _ Hs) as [-> Hn]. cbn [Z.eqb negb]. split; [by left|done]. }
  cbn [Z.eqb negb]. destruct (Parse _ _ _) as [f| |]; [|by split; [right|intros Hin%start_not_init]..].
  pose proof (run_calls_code fails (main_calls f)) as Hrun. destruct (run_calls fails (main_calls f)) as [made code].
  cbn [fst snd] in Hrun. destruct Hrun as [Hall|Hstop].
  - split; [right; split; [done|]; exists made; auto|]. intros _. exists f. by destruct Hall as (_ & -> & _).
  - pose proof (stopped_main _ _ _ _ Hstop) as Hcode.
    split; [right; split; [done|]; exists made; auto|]. intros [Hin%start_not_init|Hin]%elem_of_app; [done|].
    exists f. split; [done|]. f_equal. by eapply stopped_at_start.
Qed.

(** The arguments of config/manager/deployment.yaml; a misspelt flag. *)
Lemma main_examples :
  let none (_ : string) : option (Flag unit) := None in
  let ok (_ : main_call) := false in
  (main none ok ["--metrics-bind-address=:8080"; "--health-probe-bind-address=:8081"]).2 = 0
  /\ main none ok ["--probe-bind-address=:8081"] = (init_calls, 2)
  /\ main none ok ["--health-probe-bind-address"] = (init_calls, 2)
  /\ main none ok ["-help"] = (init_calls, 0).
Proof. split_and!; vm_compute; reflexivity. Qed.
